(** * PS2p2/heat.c: a distributed FTCS heat-diffusion solver

  A shallow embedding of [src/PS2p2/heat.c] and the properties its
  specification states about it.

  The program is SPMD: every MPI rank runs the same [main].  The embedding
  keeps one record of arrays per rank ([proc]) and a list of them, indexed
  by rank, for the whole run ([list proc]).  Quantities that [main]
  computes once from the communicator and never changes (mesh coordinates,
  neighbours, local grid size, derived datatypes) are pure definitions over
  the grid size and the mesh dimensions.

  - C [float] is IEEE-754 binary32, every operation rounded to nearest
    even on its own (FLT_EVAL_METHOD 0, no contraction): [SpecFloat] at
    precision 24 and [emax] 128.
  - C [int] is [Z]; every [int] the program computes is an index into, or
    a size of, one of its arrays, and the theorems bound those.
  - An array is a [list]; a read outside it yields a default and a write
    outside it changes nothing (C leaves both undefined); the theorems
    carry the lengths [main] allocates.
  - The MPI library is modelled after the MPI standard: derived
    datatypes as type maps, collectives as functions on the list of
    ranks, point-to-point messages by an operational semantics with a
    message pool. *)

From Stdlib Require Import ZArith Lia Bool List.
From Stdlib Require Import Floats.SpecFloat.
From stdpp Require Import base list.

Local Open Scope Z_scope.

(** ** Binary32 arithmetic *)

Module F32.

Definition prec : Z := 24.
Definition emax : Z := 128.

Definition t := spec_float.

Definition add : t -> t -> t := SFadd prec emax.
Definition sub : t -> t -> t := SFsub prec emax.
Definition mul : t -> t -> t := SFmul prec emax.
Definition div : t -> t -> t := SFdiv prec emax.

(** Conversion of an [int] to [float] (as in [4*in[...]]). *)
Definition of_int (z : Z) : t := binary_normalize prec emax z 0 false.

(** A decimal literal [p/q] with [p] and [q] exact in binary64 is a
    [double] constant; initialising a [float] with it rounds a second
    time. *)
Definition double_lit (p q : Z) : spec_float :=
  SFdiv 53 1024 (binary_normalize 53 1024 p 0 false)
                (binary_normalize 53 1024 q 0 false).

Definition of_double (x : spec_float) : t :=
  match x with
  | S754_finite s m e => binary_round prec emax s m e
  | _ => x
  end.

Definition lit (p q : Z) : t := of_double (double_lit p q).

Definition zero : t := S754_zero false.

Definition is_finite (x : t) : bool :=
  match x with
  | S754_zero _ | S754_finite _ _ _ => true
  | _ => false
  end.

(** The C comparison [==]. *)
Definition eqb : t -> t -> bool := SFeqb.

(** The data of the format: a finite one has its canonical mantissa and
    exponent. *)
Definition valid : t -> bool := valid_binary prec emax.

End F32.

Abbreviation f32 := F32.t.

(** ** Arrays *)

Section Arrays.
Context {A : Type}.

Definition aget (d : A) (a : list A) (i : Z) : A :=
  if 0 <=? i then nth (Z.to_nat i) a d else d.

Definition aset (a : list A) (i : Z) (v : A) : list A :=
  if 0 <=? i then <[Z.to_nat i := v]> a else a.

Definition alen (a : list A) : Z := Z.of_nat (length a).

(** [calloc n] zero-fills; [z] is the zero of the element type. *)
Definition calloc (z : A) (n : Z) : list A := replicate (Z.to_nat n) z.

End Arrays.

Abbreviation rdf := (aget F32.zero).
Abbreviation rdi := (aget 0%Z).

(** A C [for (i = lo; i < hi; i++)] loop over a state. *)
Definition for_loop {S : Type} (lo hi : Z) (body : Z -> S -> S) (s : S) : S :=
fold_left (fun s i => body i s) (seqZ lo (hi - lo)) s.

(** ** Constants of the program *)

Definition MERCURY : f32 := F32.lit 619 10000.
Definition COPPER : f32 := F32.lit 116 1000.
Definition TIN : f32 := F32.lit 40 1000.
Definition ALUMINIUM : f32 := F32.lit 98 1000.

Definition NSTEPS : Z := 10000.
Definition CUTOFF : Z := 5000.
Definition SNAPSHOT : Z := 500.
Definition BORDER : Z := 1.

Definition h : f32 := F32.lit 5 100.
Definition dt : f32 := F32.lit 25 10000.

(** ** Per-rank memory *)

Record proc := mkProc {
material : list f32;
temperature : list f32;
local_material : list f32;
local_temp0 : list f32;
local_temp1 : list f32;
displs : list Z;
sendcounts : list Z
}.

(** [local_temp[i]] for [i] computed as [step % 2]. *)
Definition get_temp (p : proc) (i : Z) : list f32 :=
if i =? 0 then local_temp0 p else if i =? 1 then local_temp1 p else [].

Definition set_temp (p : proc) (i : Z) (b : list f32) : proc :=
if i =? 0 then
  mkProc (material p) (temperature p) (local_material p) b (local_temp1 p)
         (displs p) (sendcounts p)
else if i =? 1 then
  mkProc (material p) (temperature p) (local_material p) (local_temp0 p) b
         (displs p) (sendcounts p)
else p.

Definition set_material (p : proc) (b : list f32) : proc :=
mkProc b (temperature p) (local_material p) (local_temp0 p) (local_temp1 p)
       (displs p) (sendcounts p).

Definition set_temperature (p : proc) (b : list f32) : proc :=
mkProc (material p) b (local_material p) (local_temp0 p) (local_temp1 p)
       (displs p) (sendcounts p).

Definition set_local_material (p : proc) (b : list f32) : proc :=
mkProc (material p) (temperature p) b (local_temp0 p) (local_temp1 p)
       (displs p) (sendcounts p).

Definition set_displs (p : proc) (d : list Z) : proc :=
mkProc (material p) (temperature p) (local_material p) (local_temp0 p)
       (local_temp1 p) d (sendcounts p).

Definition set_sendcounts (p : proc) (c : list Z) : proc :=
mkProc (material p) (temperature p) (local_material p) (local_temp0 p)
       (local_temp1 p) (displs p) c.

(** The C remainder [step % 2]. *)
Definition cur (step : Z) : Z := Z.rem step 2.
Definition nxt (step : Z) : Z := Z.rem (step + 1) 2.

(** ** MPI: datatypes *)

(** A derived datatype is its type map (the displacements of its [float]
    elements, in elements, in the order they travel) and its extent. *)
Record MPI_Datatype := mkType { typemap : list Z; extent : Z }.

Definition MPI_FLOAT : MPI_Datatype := mkType [0] 1.

Definition MPI_Type_vector (count blocklength stride : Z) (old : MPI_Datatype)
  : MPI_Datatype :=
mkType
  (flat_map (fun i =>
     flat_map (fun j =>
       map (fun d => (i * stride + j) * extent old + d) (typemap old))
       (seqZ 0 blocklength))
     (seqZ 0 count))
  (((count - 1) * stride + blocklength) * extent old).

(** [MPI_Type_create_resized (old, lb, extent)]; the source passes lower
    bound 0 and extent [sizeof(float)], one element. *)
Definition MPI_Type_create_resized (old : MPI_Datatype) (lb ext : Z)
  : MPI_Datatype :=
mkType (map (fun d => d + lb) (typemap old)) ext.

(** The elements of [count] items of type [ty] in a buffer, from element
    offset [off] on. *)
Definition positions (off count : Z) (ty : MPI_Datatype) : list Z :=
flat_map (fun k => map (fun d => off + k * extent ty + d) (typemap ty))
         (seqZ 0 count).

Definition pack (buf : list f32) (off count : Z) (ty : MPI_Datatype)
  : list f32 :=
map (rdf buf) (positions off count ty).

Definition store (buf : list f32) (iv : Z * f32) : list f32 :=
aset buf iv.1 iv.2.

(** A message shorter than the receive type fills a prefix of it. *)
Definition unpack (buf : list f32) (off count : Z) (ty : MPI_Datatype)
  (data : list f32) : list f32 :=
fold_left store (zip (positions off count ty) data) buf.

(** ** MPI: collectives *)

(** What [MPI_Scatterv] leaves in the receive buffer of rank [rank]; the
    send arguments are the root's. *)
Definition MPI_Scatterv (sendbuf : list f32) (sendoff : Z)
  (scounts sdispls : list Z) (sendtype : MPI_Datatype)
  (recvbuf : list f32) (recvoff recvcount : Z) (recvtype : MPI_Datatype)
  (rank : Z) : list f32 :=
unpack recvbuf recvoff recvcount recvtype
  (pack sendbuf (sendoff + rdi sdispls rank * extent sendtype)
        (rdi scounts rank) sendtype).

(** What [MPI_Gatherv] leaves in the root's receive buffer; [sent] is what
    each rank packed from its send buffer, in rank order. *)
Definition MPI_Gatherv (sent : list (list f32)) (recvbuf : list f32)
  (recvoff : Z) (rcounts rdispls : list Z) (recvtype : MPI_Datatype)
  : list f32 :=
fold_left (fun b rd =>
    unpack b (recvoff + rdi rdispls (Z.of_nat rd.1) * extent recvtype)
           (rdi rcounts (Z.of_nat rd.1)) recvtype rd.2)
  (imap (fun r d => (r, d)) sent) recvbuf.

(** ** MPI: point-to-point *)

Definition MPI_PROC_NULL : Z := -1.

(** The buffer of a call is [&local_temp[buf][off]]. *)
Inductive mpi_op :=
| MPI_Send (buf off count : Z) (ty : MPI_Datatype) (dest tag : Z)
| MPI_Recv (buf off count : Z) (ty : MPI_Datatype) (source tag : Z).

Record message := mkMsg {
  msg_src : Z; msg_dst : Z; msg_tag : Z; msg_data : list f32
}.

Definition matches (src dst tag : Z) (m : message) : bool :=
(msg_src m =? src) && (msg_dst m =? dst) && (msg_tag m =? tag).

(** The first matching message of the pool, and the pool without it
    (messages between two ranks do not overtake). *)
Fixpoint take_first (f : message -> bool) (pool : list message)
  : option (message * list message) :=
match pool with
| [] => None
| m :: rest =>
    if f m then Some (m, rest)
    else match take_first f rest with
         | Some (m', rest') => Some (m', m :: rest')
         | None => None
         end
end.

(** One call of rank [rank]: [None] when it cannot complete yet.  A send
    is buffered; a receive waits for its message; with [MPI_PROC_NULL] as
    the peer both return at once and touch nothing. *)
Definition exec_op (rank : Z) (op : mpi_op) (p : proc) (pool : list message)
  : option (proc * list message) :=
match op with
| MPI_Send buf off count ty dest tag =>
    if dest =? MPI_PROC_NULL then Some (p, pool)
    else Some (p, pool ++ [mkMsg rank dest tag
                             (pack (get_temp p buf) off count ty)])
| MPI_Recv buf off count ty source tag =>
    if source =? MPI_PROC_NULL then Some (p, pool)
    else match take_first (matches source rank tag) pool with
         | Some (m, pool') =>
             Some (set_temp p buf
                     (unpack (get_temp p buf) off count ty (msg_data m)),
                   pool')
         | None => None
         end
end.

(** All ranks inside one communication phase: their memories, the calls
    each still has to make, and the messages in flight. *)
Record net := mkNet {
  procs : list proc;
  todo : list (list mpi_op);
  pool : list message
}.

(** Rank [r] makes its next call, if it has one and it can complete. *)
Definition step_rank (r : nat) (s : net) : option net :=
match procs s !! r, todo s !! r with
| Some p, Some (op :: ops) =>
    match exec_op (Z.of_nat r) op p (pool s) with
    | Some (p', pool') =>
        Some (mkNet (<[r := p']> (procs s)) (<[r := ops]> (todo s)) pool')
    | None => None
    end
| _, _ => None
end.

(** The lowest rank that can make a call makes it. *)
Fixpoint first_enabled (rs : list nat) (s : net) : option net :=
match rs with
| [] => None
| r :: rs' =>
    match step_rank r s with
    | Some s' => Some s'
    | None => first_enabled rs' s
    end
end.

Fixpoint run (fuel : nat) (s : net) : net :=
match fuel with
| O => s
| S fuel' =>
    match first_enabled (seq 0 (length (procs s))) s with
    | Some s' => run fuel' s'
    | None => s
    end
end.

Definition finished (s : net) : bool :=
forallb (fun ops => match ops with [] => true | _ => false end) (todo s).

Definition pending (s : net) : nat :=
list_sum (map (@length mpi_op) (todo s)).

(** Every rank runs its calls of one phase; [None] when the ranks end up
    waiting for each other. *)
Definition run_phase (w : list proc) (code : nat -> list mpi_op)
  : option (list proc) :=
let s0 := mkNet w (map code (seq 0 (length w))) [] in
let s := run (pending s0) s0 in
if finished s then Some (procs s) else None.

(** ** The program *)

Record config := mkConfig {
  GRID_SIZE0 : Z; GRID_SIZE1 : Z;
  dims0 : Z; dims1 : Z
}.

Section Program.

(** [GRID_SIZE] is a constant of the source (256 x 256) and [dims] is what
    [MPI_Dims_create] returns for the world size. *)
Variable c : config.

(** *** The cartesian communicator [cart] (row-major ranks, not periodic) *)

Definition size : Z := dims0 c * dims1 c.

Definition MPI_Cart_rank (x y : Z) : Z := x * dims1 c + y.

Definition MPI_Cart_coords (rank : Z) : Z * Z :=
(rank / dims1 c, rank mod dims1 c).

Definition cart_at (x y : Z) : Z :=
if (0 <=? x) && (x <? dims0 c) && (0 <=? y) && (y <? dims1 c)
then MPI_Cart_rank x y else MPI_PROC_NULL.

(** [MPI_Cart_shift (cart, direction, disp, &source, &dest)]. *)
Definition MPI_Cart_shift (direction disp rank : Z) : Z * Z :=
let xy := MPI_Cart_coords rank in
if direction =? 0
then (cart_at (xy.1 - disp) xy.2, cart_at (xy.1 + disp) xy.2)
else (cart_at xy.1 (xy.2 - disp), cart_at xy.1 (xy.2 + disp)).

(** *** [main], lines 245-253 *)

Definition coords0 (rank : Z) : Z := (MPI_Cart_coords rank).1.
Definition coords1 (rank : Z) : Z := (MPI_Cart_coords rank).2.

Definition north (rank : Z) : Z := (MPI_Cart_shift 1 1 rank).1.
Definition south (rank : Z) : Z := (MPI_Cart_shift 1 1 rank).2.
Definition west (rank : Z) : Z := (MPI_Cart_shift 0 1 rank).1.
Definition east (rank : Z) : Z := (MPI_Cart_shift 0 1 rank).2.

(** C integer division truncates. *)
Definition local_grid_size0 : Z := Z.quot (GRID_SIZE0 c) (dims0 c).
Definition local_grid_size1 : Z := Z.quot (GRID_SIZE1 c) (dims1 c).
Definition local_origin0 (rank : Z) : Z := coords0 rank * local_grid_size0.
Definition local_origin1 (rank : Z) : Z := coords1 rank * local_grid_size1.

(** *** Indexing functions *)

Definition ti (x y : Z) : Z := y * GRID_SIZE0 c + x.

Definition mi (x y : Z) : Z :=
(y + (BORDER - 1)) * (GRID_SIZE0 c + 2 * (BORDER - 1)) + x + (BORDER - 1).

Definition lmi (x y : Z) : Z :=
(y + (BORDER - 1)) * (local_grid_size0 + 2 * (BORDER - 1)) + x + (BORDER - 1).

Definition lti (x y : Z) : Z :=
(y + BORDER) * (local_grid_size0 + 2 * BORDER) + x + BORDER.

Definition inside (rank x y : Z) : bool :=
(x >=? local_origin0 rank) &&
(x <? local_origin0 rank + local_grid_size0) &&
(y >=? local_origin1 rank) &&
(y <? local_origin1 rank + local_grid_size1).

(** *** The stencil *)

Definition ftcs_cell (step x y : Z) (p : proc) : proc :=
let in_ := get_temp p (cur step) in
let out := get_temp p (nxt step) in
set_temp p (nxt step)
  (aset out (lti x y)
     (F32.add (rdf in_ (lti x y))
        (F32.mul (rdf (local_material p) (lmi x y))
           (F32.sub
              (F32.add
                 (F32.add
                    (F32.add (rdf in_ (lti (x + 1) y))
                             (rdf in_ (lti (x - 1) y)))
                    (rdf in_ (lti x (y + 1))))
                 (rdf in_ (lti x (y - 1))))
              (F32.mul (F32.of_int 4) (rdf in_ (lti x y))))))).

Definition ftcs_solver (step : Z) (p : proc) : proc :=
for_loop 0 local_grid_size0 (fun x =>
  for_loop 0 local_grid_size1 (fun y => ftcs_cell step x y)) p.

(** *** [commit_vector_types] *)

Definition border_row : MPI_Datatype :=
MPI_Type_vector local_grid_size0 1 1 MPI_FLOAT.

Definition border_col : MPI_Datatype :=
MPI_Type_vector local_grid_size1 1 (local_grid_size0 + 2) MPI_FLOAT.

Definition scatter_big_cart : MPI_Datatype :=
MPI_Type_vector local_grid_size1 local_grid_size0 (GRID_SIZE0 c) MPI_FLOAT.

Definition localCart : MPI_Datatype :=
MPI_Type_create_resized scatter_big_cart 0 1.

Definition gather_Temp : MPI_Datatype :=
MPI_Type_vector local_grid_size1 local_grid_size0 (local_grid_size0 + 2)
                MPI_FLOAT.

(** *** [border_exchange] *)

Definition border_exchange_ops (step : Z) (rank : Z) : list mpi_op :=
let in_ := cur step in
let out := nxt step in
[ MPI_Send out (lti 0 0) 1 border_row (north rank) 1;
  MPI_Recv in_ (lti 0 (-1)) 1 border_row (north rank) 1;
  MPI_Recv in_ (lti 0 local_grid_size1) 1 border_row (south rank) 1;
  MPI_Send out (lti 0 local_grid_size1) 1 border_row (south rank) 1;
  MPI_Send out (lti 0 0) 1 border_col (west rank) 1;
  MPI_Recv in_ (lti (-1) 0) 1 border_col (west rank) 1;
  MPI_Recv in_ (lti local_grid_size0 0) 1 border_col (east rank) 1;
  MPI_Send out (lti (local_grid_size0 - 1) 0) 1 border_col (east rank) 1 ].

Definition border_exchange (step : Z) (w : list proc) : option (list proc) :=
run_phase w (fun r => border_exchange_ops step (Z.of_nat r)).

(** *** [helpFunctionForDisplacement] *)

Definition displacement_cell (x y : Z) (p : proc) : proc :=
let position := MPI_Cart_rank x y in
let dis_y := local_grid_size1 * GRID_SIZE0 c * y in
let dis_x := local_grid_size0 * x in
set_sendcounts (set_displs p (aset (displs p) position (dis_y + dis_x)))
               (aset (sendcounts p) position 1).

Definition helpFunctionForDisplacement (rank : Z) (p : proc) : proc :=
if rank =? 0 then
  for_loop 0 (dims1 c) (fun y =>
    for_loop 0 (dims0 c) (fun x => displacement_cell x y)) p
else p.

(** *** Scatter and gather *)

Definition gather_temp (step : Z) (w : list proc) : list proc :=
match w with
| [] => []
| root :: others =>
    set_temperature root
      (MPI_Gatherv
         (map (fun p => pack (get_temp p (cur step)) (lti 0 0) 1 gather_Temp) w)
         (temperature root) (ti 0 0) (sendcounts root) (displs root) localCart)
    :: others
end.

Definition scatter_temp (w : list proc) : list proc :=
match w with
| [] => []
| root :: _ =>
    imap (fun r p =>
      set_temp p 0
        (MPI_Scatterv (temperature root) (ti 0 0) (sendcounts root)
           (displs root) localCart
           (get_temp p 0) (lti 0 0) 1 gather_Temp (Z.of_nat r))) w
end.

Definition scatter_material (w : list proc) : list proc :=
let w1 := imap (fun r p => helpFunctionForDisplacement (Z.of_nat r) p) w in
match w1 with
| [] => []
| root :: _ =>
    imap (fun r p =>
      set_local_material p
        (MPI_Scatterv (material root) (mi 0 0) (sendcounts root)
           (displs root) localCart
           (local_material p) (lmi 0 0)
           (local_grid_size1 * local_grid_size0) MPI_FLOAT (Z.of_nat r))) w1
end.

(** *** Initial conditions and the external heat source *)

Definition external_heat (step rank : Z) (p : proc) : proc :=
for_loop (Z.quot (GRID_SIZE0 c) 4) (Z.quot (3 * GRID_SIZE0 c) 4 + 1) (fun x =>
  for_loop (Z.quot (GRID_SIZE1 c) 2 - Z.quot (GRID_SIZE1 c) 16)
           (Z.quot (GRID_SIZE1 c) 2 + Z.quot (GRID_SIZE1 c) 16 + 1) (fun y p =>
    if inside rank x y then
      set_temp p (cur step)
        (aset (get_temp p (cur step))
              (lti (x - local_origin0 rank) (y - local_origin1 rank))
              (F32.lit 100 1))
    else p)) p.

Definition init_local_temp (p : proc) : proc :=
for_loop (- BORDER) (local_grid_size0 + BORDER) (fun x =>
  for_loop (- BORDER) (local_grid_size1 + BORDER) (fun y p =>
    let p1 := set_temp p 1 (aset (get_temp p 1) (lti x y) (F32.lit 10 1)) in
    set_temp p1 0 (aset (get_temp p1 0) (lti x y) (F32.lit 10 1)))) p.

Definition set_cell (x y : Z) (m t : option f32) (p : proc) : proc :=
let p1 := match t with
          | Some v => set_temperature p (aset (temperature p) (ti x y) v)
          | None => p
          end in
match m with
| Some v => set_material p1 (aset (material p1) (mi x y) v)
| None => p1
end.

Definition init_temp_material (p : proc) : proc :=
let G0 := GRID_SIZE0 c in
let G1 := GRID_SIZE1 c in
let p1 :=
  for_loop (- (BORDER - 1)) (G0 + (BORDER - 1)) (fun x =>
    for_loop (- (BORDER - 1)) (G1 + (BORDER - 1)) (fun y =>
      set_cell x y (Some (F32.mul MERCURY (F32.mul (F32.div dt h) h))) None)) p in
let p2 :=
  for_loop 0 G0 (fun x =>
    for_loop 0 G1 (fun y =>
      set_cell x y (Some (F32.mul MERCURY (F32.mul (F32.div dt h) h)))
                   (Some (F32.lit 20 1)))) p1 in
let p3 :=
  for_loop (Z.quot (5 * G0) 8) (Z.quot (7 * G0) 8) (fun x =>
    for_loop (Z.quot G1 8) (Z.quot (3 * G1) 8) (fun y =>
      set_cell x y (Some (F32.mul COPPER (F32.div dt (F32.mul h h))))
                   (Some (F32.lit 60 1)))) p2 in
let p4 :=
  for_loop (Z.quot G0 8) (Z.quot G0 2 - Z.quot G0 8) (fun x =>
    for_loop (Z.quot (5 * G1) 8) (Z.quot (7 * G1) 8) (fun y =>
      set_cell x y (Some (F32.mul TIN (F32.div dt (F32.mul h h))))
                   (Some (F32.lit 60 1)))) p3 in
for_loop (Z.quot G0 4) (Z.quot (3 * G0) 4 + 1) (fun x =>
  for_loop (Z.quot G1 2 - Z.quot G1 16) (Z.quot G1 2 + Z.quot G1 16 + 1) (fun y =>
    set_cell x y (Some (F32.mul ALUMINIUM (F32.div dt (F32.mul h h))))
                 (Some (F32.lit 100 1)))) p4.

(** *** [main] *)

(** Lines 257-276: what rank [rank] allocates ([calloc] zero-fills; the
    global arrays exist on rank 0 only) and initialises before the first
    collective. *)
Definition allocate (rank : Z) : proc :=
let temperature_size := GRID_SIZE0 c * GRID_SIZE1 c in
let material_size :=
  (GRID_SIZE0 c + 2 * (BORDER - 1)) * (GRID_SIZE1 c + 2 * (BORDER - 1)) in
let lsize_borders :=
  (local_grid_size0 + 2 * BORDER) * (local_grid_size1 + 2 * BORDER) in
let lsize :=
  (local_grid_size0 + 2 * (BORDER - 1)) * (local_grid_size1 + 2 * (BORDER - 1)) in
mkProc (if rank =? 0 then calloc F32.zero material_size else [])
       (if rank =? 0 then calloc F32.zero temperature_size else [])
       (calloc F32.zero lsize)
       (calloc F32.zero lsize_borders)
       (calloc F32.zero lsize_borders)
       (calloc 0 size)
       (calloc 0 size).

Definition startup_rank (rank : Z) : proc :=
let p := allocate rank in
init_local_temp (if rank =? 0 then init_temp_material p else p).

(** All ranks before the first collective, then after the two scatters. *)
Definition allocated : list proc :=
map (fun r => startup_rank (Z.of_nat r)) (seq 0 (Z.to_nat size)).

Definition startup : list proc :=
scatter_temp (scatter_material allocated).

(** One iteration of the integration loop ([write_temp] only reads). *)
Definition iteration (step : Z) (w : list proc) : option (list proc) :=
let w1 := if step <? CUTOFF
          then imap (fun r p => external_heat step (Z.of_nat r) p) w
          else w in
match border_exchange step w1 with
| Some w2 =>
    let w3 := map (ftcs_solver step) w2 in
    Some (if Z.rem step SNAPSHOT =? 0 then gather_temp step w3 else w3)
| None => None
end.

Fixpoint iterations (n : nat) (step : Z) (w : list proc)
  : option (list proc) :=
match n with
| O => Some w
| S n' =>
    match iteration step w with
    | Some w' => iterations n' (step + 1) w'
    | None => None
    end
end.

Definition main : option (list proc) :=
iterations (Z.to_nat NSTEPS) 0 startup.

End Program.

(** ** Concrete runs *)

Definition cfg_2x2_4 : config := mkConfig 4 4 2 2.
Definition cfg_2x2_8 : config := mkConfig 8 8 2 2.

(** The grid of the source, on four ranks. *)
Definition cfg_source : config := mkConfig 256 256 2 2.

(** One rank holding a single cell. *)
Definition cfg_1x1 : config := mkConfig 1 1 1 1.

(** A rank whose two temperature buffers hold [u] in every cell, ghost
    cells included, and whose material holds [m] in every cell. *)
Definition uniform_proc (c : config) (u m : f32) : proc :=
let n := Z.to_nat ((local_grid_size0 c + 2) * (local_grid_size1 c + 2)) in
mkProc [] [] (replicate (Z.to_nat (local_grid_size0 c * local_grid_size1 c)) m)
       (replicate n u) (replicate n u) [] [].

Definition no_proc : proc := mkProc [] [] [] [] [] [] [].

(** Rank [r] of a world. *)
Definition rank_of (w : list proc) (r : Z) : proc := aget no_proc w r.

(** The world of the source's [main] on a 4 x 4 grid and a 2 x 2 mesh,
    when it enters the integration loop. *)
Definition world_4 : list proc := startup cfg_2x2_4.

(** The same world when step 0 reaches [border_exchange]. *)
Definition entering_4 : list proc :=
imap (fun r p => external_heat cfg_2x2_4 0 (Z.of_nat r) p) world_4.

(** A world as [main] builds it, but with a uniform global field: every
    temperature [t] and every material constant [m] on root, instead of
    [init_temp_material]. *)
Definition uniform_rank (c : config) (t m : f32) (rank : Z) : proc :=
let p := allocate c rank in
init_local_temp c
  (if rank =? 0
   then set_material
          (set_temperature p (replicate (length (temperature p)) t))
          (replicate (length (material p)) m)
   else p).

Definition uniform_world (c : config) (t m : f32) : list proc :=
scatter_temp c (scatter_material c
  (map (fun r => uniform_rank c t m (Z.of_nat r)) (seq 0 (Z.to_nat (size c))))).

(** One step without external heat: halo exchange, then stencil update. *)
Definition one_step (c : config) (step : Z) (w : list proc)
  : option (list proc) :=
match border_exchange c step w with
| Some w2 => Some (map (ftcs_solver c step) w2)
| None => None
end.

(** ** Vocabulary of the statements *)

(** The cells a loop nest visits, in the order it visits them. *)
Definition cells (lo0 hi0 lo1 hi1 : Z) : list (Z * Z) :=
flat_map (fun x => map (pair x) (seqZ lo1 (hi1 - lo1))) (seqZ lo0 (hi0 - lo0)).

(** The grid is not empty and the mesh has at least one rank per axis. *)
Definition config_ok (c : config) : Prop :=
0 < dims0 c /\ 0 < dims1 c /\ 0 < GRID_SIZE0 c /\ 0 < GRID_SIZE1 c.

(** The local arrays have the lengths [main] allocates. *)
Definition proc_ok (c : config) (p : proc) : Prop :=
alen (local_temp0 p) = (local_grid_size0 c + 2) * (local_grid_size1 c + 2) /\
alen (local_temp1 p) = (local_grid_size0 c + 2) * (local_grid_size1 c + 2) /\
alen (local_material p) = local_grid_size0 c * local_grid_size1 c.

(** [(x, y)] is an interior cell of a subdomain. *)
Definition interior (c : config) (x y : Z) : Prop :=
0 <= x < local_grid_size0 c /\ 0 <= y < local_grid_size1 c.

(** The FTCS update of the specification, written over a current buffer
    and a material array. *)
Definition stencil (c : config) (cur_buf mat : list f32) (x y : Z) : f32 :=
let u := fun i j => rdf cur_buf (lti c i j) in
F32.add (u x y)
  (F32.mul (rdf mat (lmi c x y))
     (F32.sub (F32.add (F32.add (F32.add (u (x + 1) y) (u (x - 1) y))
                                (u x (y + 1)))
                       (u x (y - 1)))
              (F32.mul (F32.of_int 4) (u x y)))).

(** The root's tables as [helpFunctionForDisplacement] fills them. *)
Definition tables_ok (c : config) (p : proc) : Prop :=
forall r, 0 <= r < size c ->
  rdi (sendcounts p) r = 1 /\
  rdi (displs p) r =
    coords1 c r * local_grid_size1 c * GRID_SIZE0 c +
    coords0 c r * local_grid_size0 c.

(** A world between two collectives: one memory per rank of the mesh, the
    local arrays as allocated, and on the root the global temperature
    array and the tables. *)
Definition world_ok (c : config) (w : list proc) : Prop :=
alen w = size c /\
(forall r, 0 <= r < size c -> proc_ok c (rank_of w r)) /\
tables_ok c (rank_of w 0) /\
alen (temperature (rank_of w 0)) = GRID_SIZE0 c * GRID_SIZE1 c.

(** The cells of all blocks: rank, then row [i] and column [j] of its
    block, in the order [gather_temp] stores them. *)
Definition block_cells (c : config) (n : Z) : list (Z * (Z * Z)) :=
flat_map (fun r => map (pair r)
            (cells 0 (local_grid_size1 c) 0 (local_grid_size0 c)))
         (seqZ 0 n).

(** *** Communication phases

    What a rank has received when it has made some of its calls does not
    depend on the interleaving, as long as its sends read a buffer its
    receives do not write and it names each peer once per direction.  The
    definitions below state that: [payload] is what [src] sends to [dst]
    computed on the memories [w0] the phase starts from, and [replay] is a
    rank making calls on its own with those payloads. *)

Definition is_send_to (dst : Z) (op : mpi_op) : bool :=
match op with
| MPI_Send _ _ _ _ d _ => d =? dst
| MPI_Recv _ _ _ _ _ _ => false
end.

Definition is_recv_from (src : Z) (op : mpi_op) : bool :=
match op with
| MPI_Send _ _ _ _ _ _ => false
| MPI_Recv _ _ _ _ s _ => s =? src
end.

Definition peer_of (op : mpi_op) : Z :=
match op with
| MPI_Send _ _ _ _ d _ => d
| MPI_Recv _ _ _ _ s _ => s
end.

Definition tag_of (op : mpi_op) : Z :=
match op with
| MPI_Send _ _ _ _ _ t => t
| MPI_Recv _ _ _ _ _ t => t
end.

Definition buf_of (op : mpi_op) : Z :=
match op with
| MPI_Send b _ _ _ _ _ => b
| MPI_Recv b _ _ _ _ _ => b
end.

Definition is_send (op : mpi_op) : bool :=
match op with
| MPI_Send _ _ _ _ _ _ => true
| MPI_Recv _ _ _ _ _ _ => false
end.

Section PhaseSpec.
Variable code : nat -> list mpi_op.
Variable w0 : list proc.

(** The calls rank [r] has made in state [s]. *)
Definition done_ops (s : net) (r : nat) : list mpi_op :=
firstn (length (code r) - length (default [] (todo s !! r))) (code r).

Definition payload (src dst : Z) : list f32 :=
match find (is_send_to dst) (code (Z.to_nat src)) with
| Some (MPI_Send buf off count ty _ _) =>
    pack (get_temp (rank_of w0 src) buf) off count ty
| _ => []
end.

Definition local_exec (r : Z) (p : proc) (op : mpi_op) : proc :=
match op with
| MPI_Send _ _ _ _ _ _ => p
| MPI_Recv buf off count ty source _ =>
    if source =? MPI_PROC_NULL then p
    else set_temp p buf
           (unpack (get_temp p buf) off count ty (payload source r))
end.

Definition replay (r : nat) (ops : list mpi_op) : proc :=
fold_left (local_exec (Z.of_nat r)) ops (rank_of w0 (Z.of_nat r)).

Definition sent (s : net) (src dst : nat) : bool :=
existsb (is_send_to (Z.of_nat dst)) (done_ops s src).

Definition received (s : net) (dst src : nat) : bool :=
existsb (is_recv_from (Z.of_nat src)) (done_ops s dst).

Record phase_inv (tg : Z) (s : net) : Prop := mkPhaseInv {
  inv_procs_len : length (procs s) = length w0;
  inv_todo_len : length (todo s) = length w0;
  inv_suffix : forall r ops, todo s !! r = Some ops ->
                 exists pre, code r = pre ++ ops;
  inv_mem : forall r p, procs s !! r = Some p -> p = replay r (done_ops s r);
  inv_pool : forall src dst, (src < length w0)%nat -> (dst < length w0)%nat ->
               List.filter (matches (Z.of_nat src) (Z.of_nat dst) tg) (pool s) =
               if sent s src dst && negb (received s dst src)
               then [mkMsg (Z.of_nat src) (Z.of_nat dst) tg
                           (payload (Z.of_nat src) (Z.of_nat dst))]
               else [];
  inv_causal : forall src dst, (src < length w0)%nat -> (dst < length w0)%nat ->
                 received s dst src = true -> sent s src dst = true
}.

(** What the phase asks of the code of the ranks. *)
Record phase_code (tg bs br : Z) : Prop := mkPhaseCode {
  code_tag : forall r op, In op (code r) -> tag_of op = tg;
  code_peer : forall r op, (r < length w0)%nat -> In op (code r) ->
                peer_of op = MPI_PROC_NULL \/
                0 <= peer_of op < Z.of_nat (length w0);
  code_bufs : forall r op, In op (code r) ->
                buf_of op = if is_send op then bs else br;
  code_sep : bs <> br;
  code_send_once : forall r pre op post d,
                     code r = pre ++ op :: post -> d <> MPI_PROC_NULL ->
                     is_send_to d op = true ->
                     existsb (is_send_to d) pre = false;
  code_recv_once : forall r pre op post d,
                     code r = pre ++ op :: post -> d <> MPI_PROC_NULL ->
                     is_recv_from d op = true ->
                     existsb (is_recv_from d) pre = false
}.

End PhaseSpec.

(** One direction of the halo exchange on a receive buffer [a]: the cells
    of ghost row [y_to] (ghost column [x_to]) take the cells of row
    [y_from] (column [x_from]) of the buffer [sent] of the neighbour
    [src], if there is one. *)
Definition halo_row (c : config) (src : Z) (sent : list f32)
  (y_from y_to : Z) (a : list f32) : list f32 :=
if src =? MPI_PROC_NULL then a
else fold_left (fun a x => aset a (lti c x y_to) (rdf sent (lti c x y_from)))
               (seqZ 0 (local_grid_size0 c)) a.

Definition halo_col (c : config) (src : Z) (sent : list f32)
  (x_from x_to : Z) (a : list f32) : list f32 :=
if src =? MPI_PROC_NULL then a
else fold_left (fun a y => aset a (lti c x_to y) (rdf sent (lti c x_from y)))
               (seqZ 0 (local_grid_size1 c)) a.

(** What one halo exchange does to rank [r], from world [w] to world
    [w']: the buffer [(step+1) % 2] and the other arrays are as they were,
    and in buffer [step % 2] each ghost segment facing a neighbour holds the
    cells that neighbour sent from its buffer [(step+1) % 2]; nothing else
    changed. *)
Definition halo_exchanged (c : config) (step : Z) (w w' : list proc) (r : Z)
  : Prop :=
let p := rank_of w r in
let p' := rank_of w' r in
let in_ := get_temp p (cur step) in
let in' := get_temp p' (cur step) in
let sent_by := fun q => get_temp (rank_of w q) (nxt step) in
let L0 := local_grid_size0 c in
let L1 := local_grid_size1 c in
get_temp p' (nxt step) = get_temp p (nxt step) /\
material p' = material p /\ temperature p' = temperature p /\
local_material p' = local_material p /\
displs p' = displs p /\ sendcounts p' = sendcounts p /\
alen in' = alen in_ /\
(north c r <> MPI_PROC_NULL -> forall x, 0 <= x < L0 ->
   rdf in' (lti c x (-1)) = rdf (sent_by (north c r)) (lti c x L1)) /\
(south c r <> MPI_PROC_NULL -> forall x, 0 <= x < L0 ->
   rdf in' (lti c x L1) = rdf (sent_by (south c r)) (lti c x 0)) /\
(west c r <> MPI_PROC_NULL -> forall y, 0 <= y < L1 ->
   rdf in' (lti c (-1) y) = rdf (sent_by (west c r)) (lti c (L0 - 1) y)) /\
(east c r <> MPI_PROC_NULL -> forall y, 0 <= y < L1 ->
   rdf in' (lti c L0 y) = rdf (sent_by (east c r)) (lti c 0 y)) /\
(forall k,
   (north c r <> MPI_PROC_NULL -> forall x, 0 <= x < L0 -> lti c x (-1) <> k) ->
   (south c r <> MPI_PROC_NULL -> forall x, 0 <= x < L0 -> lti c x L1 <> k) ->
   (west c r <> MPI_PROC_NULL -> forall y, 0 <= y < L1 -> lti c (-1) y <> k) ->
   (east c r <> MPI_PROC_NULL -> forall y, 0 <= y < L1 -> lti c L0 y <> k) ->
   rdf in' k = rdf in_ k).

(** The regions of [init_temp_material], with the bounds of its loops. *)
Definition in_copper (c : config) (x y : Z) : bool :=
(Z.quot (5 * GRID_SIZE0 c) 8 <=? x) && (x <? Z.quot (7 * GRID_SIZE0 c) 8) &&
(Z.quot (GRID_SIZE1 c) 8 <=? y) && (y <? Z.quot (3 * GRID_SIZE1 c) 8).

Definition in_tin (c : config) (x y : Z) : bool :=
(Z.quot (GRID_SIZE0 c) 8 <=? x) &&
(x <? Z.quot (GRID_SIZE0 c) 2 - Z.quot (GRID_SIZE0 c) 8) &&
(Z.quot (5 * GRID_SIZE1 c) 8 <=? y) && (y <? Z.quot (7 * GRID_SIZE1 c) 8).

Definition in_heater (c : config) (x y : Z) : bool :=
(Z.quot (GRID_SIZE0 c) 4 <=? x) && (x <=? Z.quot (3 * GRID_SIZE0 c) 4) &&
(Z.quot (GRID_SIZE1 c) 2 - Z.quot (GRID_SIZE1 c) 16 <=? y) &&
(y <=? Z.quot (GRID_SIZE1 c) 2 + Z.quot (GRID_SIZE1 c) 16).

(** Every cell of an array holds [u]. *)
Definition uniform (a : list f32) (u : f32) : Prop :=
forall j, 0 <= j < alen a -> rdf a j = u.

(** [q] is the integer [P / 2^k] rounded to nearest, ties to even, for
    the shifts [k] of at most two bits that the sums of the stencil need. *)
Definition rne_spec (P k q : Z) : Prop :=
  (k = 0 /\ P = q) \/
  (k = 1 /\ (P = 2 * q \/ ((P = 2 * q + 1 \/ P = 2 * q - 1) /\ q mod 2 = 0))) \/
  (k = 2 /\ (P = 4 * q \/ P = 4 * q + 1 \/ P = 4 * q - 1 \/
             ((P = 4 * q + 2 \/ P = 4 * q - 2) /\ q mod 2 = 0))).

(** ** Interleavings of a communication phase *)

(** Any interleaving of a phase: the ranks named in [rs] make one call
    each, in that order; [None] when one of them cannot make its call. *)
Fixpoint run_schedule (rs : list nat) (s : net) : option net :=
match rs with
| [] => Some s
| r :: rs' =>
    match step_rank r s with
    | Some s' => run_schedule rs' s'
    | None => None
    end
end.

(** The state a phase starts in: no call made, no message in flight. *)
Definition phase_start (w : list proc) (code : nat -> list mpi_op) : net :=
mkNet w (map code (seq 0 (length w))) [].

(** Every message in flight is between two ranks of the phase and
    carries its tag. *)
Definition pool_ok (n : nat) (tg : Z) (pool : list message) : Prop :=
forall m, In m pool ->
  0 <= msg_src m < Z.of_nat n /\ 0 <= msg_dst m < Z.of_nat n /\ msg_tag m = tg.

(** ** Snapshots as images *)

(** The C comparison [<=] on [float]. *)
Definition float_le (a b : f32) : bool := SFleb a b.

(** [(unsigned char) v] for a [float] [v]: the value truncated toward
    zero; C leaves the conversion undefined ([None]) when the truncated
    value is not one of 0..255, and for a NaN or an infinity. *)
Definition to_uchar (v : f32) : option Z :=
match v with
| S754_zero _ => Some 0
| S754_finite s m e =>
    let a := if 0 <=? e then Z.pos m * 2 ^ e else Z.pos m / 2 ^ (- e) in
    if s then (if a =? 0 then Some 0 else None)
    else if a <=? 255 then Some a else None
| _ => None
end.

(** [fancycolour (p, temp)] on the byte buffer that [p] points into, at
    offset [p]; bytes are integers 0..255. *)
Definition fancycolour (buf : list Z) (p : Z) (temp : f32) : option (list Z) :=
let r := F32.mul (F32.div temp (F32.of_int 101)) (F32.of_int 255) in
if float_le temp (F32.of_int 25) then
  let buf := aset buf (p + 2) 0 in
  match to_uchar (F32.mul (F32.div temp (F32.of_int 25)) (F32.of_int 255)) with
  | Some g => Some (aset (aset buf (p + 1) g) (p + 0) 255)
  | None => None
  end
else if float_le temp (F32.of_int 50) then
  let buf := aset (aset buf (p + 2) 0) (p + 1) 255 in
  match to_uchar (F32.mul (F32.div (F32.sub temp (F32.of_int 25)) (F32.of_int 25))
                          (F32.of_int 255)) with
  | Some b => Some (aset buf (p + 0) (255 - b))
  | None => None
  end
else if float_le temp (F32.of_int 75) then
  match to_uchar (F32.div (F32.mul (F32.of_int 255) (F32.sub temp (F32.of_int 50)))
                          (F32.of_int 25)) with
  | Some r => Some (aset (aset (aset buf (p + 2) r) (p + 1) 255) (p + 0) 0)
  | None => None
  end
else
  let buf := aset buf (p + 2) 255 in
  match to_uchar (F32.div (F32.mul (F32.of_int 255) (F32.sub temp (F32.of_int 75)))
                          (F32.of_int 25)) with
  | Some g => Some (aset (aset buf (p + 1) (255 - g)) (p + 0) 0)
  | None => None
  end.

(** [savebmp (name, buffer, x, y)]: the bytes written to the file, [None]
    when [fopen] fails ([opened] says whether it succeeds).  Each header
    initialiser is converted to [unsigned char]; [x * y * 3 + 54] is taken
    to fit an [int]. *)
Definition savebmp (G0 G1 : Z) (opened : bool) (buffer : list Z) (x y : Z)
  : option (list Z) :=
if opened then
  let size := (x * y * 3 + 54) mod 2 ^ 32 in
  let uc := fun v : Z => v mod 256 in
  let header :=
    map uc
      [66; 77;
       Z.land size 255; Z.land (Z.shiftr size 8) 255;
       Z.land (Z.shiftr size 16) 255; Z.shiftr size 24;
       0; 0; 0; 0; 54; 0; 0; 0; 40; 0; 0; 0; Z.land x 255; Z.shiftr x 8; 0;
       0; Z.land y 255; Z.shiftr y 8; 0; 0; 1; 0; 24; 0; 0; 0; 0; 0; 0; 0;
       0; 0; 0; 0; 0; 0; 0; 0; 0; 0; 0; 0; 0; 0; 0; 0; 0; 0] in
  Some (header ++ firstn (Z.to_nat (G0 * G1 * 3)) buffer)
else None.

Section Image.
Variable c : config.

(** The loops of [output]: the pixel buffer, [None] when a conversion in
    [fancycolour] is undefined. *)
Definition output_buffer (temperature : list f32) : option (list Z) :=
let buffer := calloc 0 (GRID_SIZE0 c * GRID_SIZE1 c * 3) in
for_loop 0 (GRID_SIZE0 c) (fun i =>
  for_loop 0 (GRID_SIZE1 c) (fun j st =>
    match st with
    | Some buffer =>
        let p := ((GRID_SIZE1 c - j - 1) * GRID_SIZE0 c + i) * 3 in
        fancycolour buffer p (rdf temperature (i + GRID_SIZE0 c * j))
    | None => None
    end)) (Some buffer).

(** [output (filename)]: what [savebmp] writes. *)
Definition output (temperature : list f32) (opened : bool)
  : option (option (list Z)) :=
match output_buffer temperature with
| Some buffer =>
    Some (savebmp (GRID_SIZE0 c) (GRID_SIZE1 c) opened buffer
                  (GRID_SIZE0 c) (GRID_SIZE1 c))
| None => None
end.

End Image.

(** The three bytes [fancycolour] stores at [p], [p + 1] and [p + 2]. *)
Definition colour (temp : f32) : option (Z * Z * Z) :=
match fancycolour [0; 0; 0] 0 temp with
| Some [b0; b1; b2] => Some (b0, b1, b2)
| _ => None
end.

(** A little-endian number. *)
Definition le_bytes (bs : list Z) : Z :=
fold_right (fun b acc => b + 256 * acc) 0 bs.

(** Bytes [from .. from + n - 1] of a file. *)
Definition slice (from n : nat) (bs : list Z) : list Z :=
firstn n (skipn from bs).

(** *** [write_temp]

    A C string is the list of its character codes (without the final
    NUL). *)

(** The decimal digits of [n >= 0], most significant first; an [int] has
    at most ten. *)
Fixpoint decimal_digits (fuel : nat) (n : Z) : list Z :=
match fuel with
| O => []
| S fuel' =>
    if n <? 10 then [n] else decimal_digits fuel' (n / 10) ++ [n mod 10]
end.

(** [printf]'s conversion [%.4d]: at least four digits, padded with
    zeros, after the sign. *)
Definition print_d4 (n : Z) : list Z :=
let ds := decimal_digits 10 (Z.abs n) in
(if n <? 0 then [45] else []) ++
map (Z.add 48) (replicate (4 - length ds) 0 ++ ds).

(** [sprintf (filename, "data/%.4d.bmp", step / SNAPSHOT)]. *)
Definition snapshot_name (step : Z) : list Z :=
[100; 97; 116; 97; 47] ++ print_d4 (Z.quot step SNAPSHOT) ++ [46; 98; 109; 112].

(** [write_temp (step)] on root: the name of the file and what [output]
    writes to it. *)
Definition write_temp (c : config) (step : Z) (temperature : list f32)
  (opened : bool) : list Z * option (option (list Z)) :=
(snapshot_name step, output c temperature opened).

(** The number a string of digit characters denotes. *)
Definition digits_value (s : list Z) : Z :=
fold_left (fun a ch => 10 * a + (ch - 48)) s 0.

(** * Properties *)

(** ** Arrays and loops *)

Section ArrayFacts.
Context {A : Type}.
Implicit Types (a : list A) (i j : Z).

Lemma length_aset a i v : length (aset a i v) = length a.
Proof.
  unfold aset. destruct (0 <=? i); [apply length_insert | reflexivity].
Qed.

Lemma alen_aset a i v : alen (aset a i v) = alen a.
Proof. unfold alen. now rewrite length_aset. Qed.

Lemma aget_aset_eq d a i v : 0 <= i < alen a -> aget d (aset a i v) i = v.
Proof.
  unfold aget, aset, alen. intros [Hlo Hhi].
  destruct (Z.leb_spec 0 i); [| lia].
  rewrite nth_lookup, list_lookup_insert_eq; [reflexivity | lia].
Qed.

Lemma aget_aset_ne d a i j v : i <> j -> aget d (aset a i v) j = aget d a j.
Proof.
  unfold aget, aset. intros Hne.
  destruct (Z.leb_spec 0 j); [| reflexivity].
  destruct (Z.leb_spec 0 i); [| reflexivity].
  rewrite !nth_lookup, list_lookup_insert_ne; [reflexivity | lia].
Qed.

Lemma aset_aget_id d a i : aset a i (aget d a i) = a.
Proof.
  unfold aget, aset. destruct (Z.leb_spec 0 i); [| reflexivity].
  apply list_insert_id'. intros Hlt. rewrite nth_lookup.
  destruct (lookup_lt_is_Some_2 a (Z.to_nat i) Hlt) as [x ->]. reflexivity.
Qed.

Lemma aget_out_of_range d a i : alen a <= i -> aget d a i = d.
Proof.
  unfold aget, alen. intros Hge. destruct (0 <=? i); [| reflexivity].
  apply nth_overflow. lia.
Qed.

(** A run of writes [a[idx c] = val c] over a list of cells. *)
Lemma writes_spec {C : Type} d (idx : C -> Z) (val : C -> A) (cs : list C) :
  forall a,
  (forall c, In c cs -> 0 <= idx c < alen a) ->
  (forall c c', In c cs -> In c' cs -> idx c = idx c' -> val c = val c') ->
  let a' := fold_left (fun a c => aset a (idx c) (val c)) cs a in
  length a' = length a /\
  (forall c, In c cs -> aget d a' (idx c) = val c) /\
  (forall j, (forall c, In c cs -> idx c <> j) -> aget d a' j = aget d a j).
Proof.
  induction cs as [| c0 cs IH] using rev_ind; intros a Hrange Hval; cbn.
  - split; [reflexivity | split; [intros c [] | reflexivity]].
  - rewrite fold_left_app. cbn.
    destruct (IH a) as (Hlen & Hin & Hout).
    { intros c Hc. apply Hrange, in_or_app. now left. }
    { intros c c' Hc Hc'. apply Hval; apply in_or_app; now left. }
    set (a1 := fold_left _ cs a) in *.
    assert (H0 : 0 <= idx c0 < alen a1).
    { unfold alen. rewrite Hlen. apply Hrange, in_or_app. right. now left. }
    split; [now rewrite length_aset |]. split.
    + intros c' Hc'. destruct (Z.eq_dec (idx c0) (idx c')) as [He | Hne].
      * rewrite <- He, aget_aset_eq by assumption.
        apply Hval; [apply in_or_app; right; now left | assumption | assumption].
      * rewrite aget_aset_ne by assumption. apply Hin.
        apply in_app_or in Hc'. destruct Hc' as [Hc' | [-> | []]];
          [assumption | congruence].
    + intros j Hj. rewrite aget_aset_ne.
      * apply Hout. intros c' Hc'. apply Hj, in_or_app. now left.
      * apply Hj, in_or_app. right. now left.
Qed.

End ArrayFacts.

Lemma In_seqZ (m n k : Z) : In k (seqZ m n) <-> m <= k < m + n.
Proof. rewrite <- list_elem_of_In. apply elem_of_seqZ. Qed.

Lemma In_cells lo0 hi0 lo1 hi1 x y :
  In (x, y) (cells lo0 hi0 lo1 hi1) <-> lo0 <= x < hi0 /\ lo1 <= y < hi1.
Proof.
  unfold cells. rewrite in_flat_map. split.
  - intros (x' & Hx & Hy). apply in_map_iff in Hy as (y' & Heq & Hy).
    inversion Heq; subst. apply In_seqZ in Hx, Hy. lia.
  - intros [Hx Hy]. exists x. split; [apply In_seqZ; lia |].
    apply in_map_iff. exists y. split; [reflexivity | apply In_seqZ; lia].
Qed.

(** A loop nest is one pass over its cells. *)
Lemma for_loop_nest {S : Type} lo0 hi0 lo1 hi1 (body : Z -> Z -> S -> S) s :
  for_loop lo0 hi0 (fun x => for_loop lo1 hi1 (body x)) s =
  fold_left (fun s c => body c.1 c.2 s) (cells lo0 hi0 lo1 hi1) s.
Proof.
  unfold for_loop, cells. generalize (seqZ lo0 (hi0 - lo0)) as xs.
  intros xs. revert s. induction xs as [| x xs IH]; intros s; cbn.
  - reflexivity.
  - rewrite fold_left_app, <- IH. f_equal.
    generalize (seqZ lo1 (hi1 - lo1)) as ys. intros ys. revert s.
    induction ys as [| y ys IHy]; intros s; cbn; [reflexivity | apply IHy].
Qed.

(** ** Buffers of a rank *)

Lemma cur_nxt step :
  0 <= step ->
  (cur step = 0 /\ nxt step = 1) \/ (cur step = 1 /\ nxt step = 0).
Proof.
  intros H. unfold cur, nxt.
  rewrite !Z.rem_mod_nonneg by lia.
  assert (H1 : (step + 1) mod 2 = (step mod 2 + 1) mod 2)
    by (rewrite Z.add_mod_idemp_l; lia).
  assert (H2 := Z.mod_pos_bound step 2 ltac:(lia)).
  assert (Hc : step mod 2 = 0 \/ step mod 2 = 1) by lia.
  destruct Hc as [Hc | Hc]; rewrite H1, Hc; [left | right]; split; reflexivity.
Qed.

Lemma get_set_temp_eq p i b : i = 0 \/ i = 1 -> get_temp (set_temp p i b) i = b.
Proof. intros [-> | ->]; reflexivity. Qed.

Lemma get_set_temp_ne p i j b : i <> j -> get_temp (set_temp p i b) j = get_temp p j.
Proof.
  intros Hne. unfold get_temp, set_temp.
  destruct (Z.eqb_spec i 0), (Z.eqb_spec i 1), (Z.eqb_spec j 0), (Z.eqb_spec j 1);
    cbn; try reflexivity; lia.
Qed.

Lemma set_get_temp p i : set_temp p i (get_temp p i) = p.
Proof.
  unfold get_temp, set_temp. destruct p.
  destruct (i =? 0); [reflexivity |]. destruct (i =? 1); reflexivity.
Qed.

Lemma set_set_temp p i a b : set_temp (set_temp p i a) i b = set_temp p i b.
Proof.
  unfold set_temp. destruct (i =? 0); [reflexivity |].
  destruct (i =? 1); reflexivity.
Qed.

Lemma set_temp_fields p i b :
  material (set_temp p i b) = material p /\
  temperature (set_temp p i b) = temperature p /\
  local_material (set_temp p i b) = local_material p /\
  displs (set_temp p i b) = displs p /\
  sendcounts (set_temp p i b) = sendcounts p.
Proof.
  unfold set_temp. destruct (i =? 0); [repeat split |].
  destruct (i =? 1); repeat split.
Qed.

(** ** Geometry of a subdomain *)

Section Geometry.
Variable c : config.
Hypothesis Hc : config_ok c.

Lemma local_grid_size_nonneg : 0 <= local_grid_size0 c /\ 0 <= local_grid_size1 c.
Proof.
  destruct Hc as (? & ? & ? & ?). unfold local_grid_size0, local_grid_size1.
  split; apply Z.quot_pos; lia.
Qed.

Lemma lti_eq x y : lti c x y = (y + 1) * (local_grid_size0 c + 2) + x + 1.
Proof. reflexivity. Qed.

Lemma lti_range x y :
  -1 <= x <= local_grid_size0 c -> -1 <= y <= local_grid_size1 c ->
  0 <= lti c x y < (local_grid_size0 c + 2) * (local_grid_size1 c + 2).
Proof.
  destruct local_grid_size_nonneg as [H0 H1]. rewrite lti_eq. nia.
Qed.

Lemma lti_inj x y x' y' :
  -1 <= x <= local_grid_size0 c -> -1 <= x' <= local_grid_size0 c ->
  lti c x y = lti c x' y' -> x = x' /\ y = y'.
Proof.
  rewrite !lti_eq. intros Hx Hx' He.
  assert (y = y') by nia. subst. lia.
Qed.

Lemma lmi_eq x y : lmi c x y = y * local_grid_size0 c + x.
Proof. unfold lmi, BORDER. lia. Qed.

End Geometry.

(** ** The stencil update *)

Section Stencil.
Variable c : config.
Hypothesis Hc : config_ok c.

Lemma ftcs_cell_set_temp step x y p a :
  0 <= step ->
  ftcs_cell c step x y (set_temp p (nxt step) a) =
  set_temp p (nxt step)
    (aset a (lti c x y)
       (stencil c (get_temp p (cur step)) (local_material p) x y)).
Proof.
  intros Hs. unfold ftcs_cell, stencil.
  destruct (set_temp_fields p (nxt step) a) as (_ & _ & -> & _).
  destruct (cur_nxt step Hs) as [[-> ->] | [-> ->]];
    rewrite get_set_temp_eq, get_set_temp_ne, set_set_temp by lia; reflexivity.
Qed.

Lemma ftcs_solver_writes step p :
  0 <= step ->
  ftcs_solver c step p =
  set_temp p (nxt step)
    (fold_left (fun a xy =>
       aset a (lti c xy.1 xy.2)
         (stencil c (get_temp p (cur step)) (local_material p) xy.1 xy.2))
       (cells 0 (local_grid_size0 c) 0 (local_grid_size1 c))
       (get_temp p (nxt step))).
Proof.
  intros Hs. unfold ftcs_solver. rewrite for_loop_nest.
  rewrite <- (set_get_temp p (nxt step)) at 1.
  generalize (get_temp p (nxt step)) as a.
  induction (cells 0 (local_grid_size0 c) 0 (local_grid_size1 c))
    as [| xy cs IH]; intros a; cbn; [reflexivity |].
  rewrite ftcs_cell_set_temp by assumption. apply IH.
Qed.

Lemma ftcs_solver_fields step p :
  0 <= step ->
  let p' := ftcs_solver c step p in
  get_temp p' (cur step) = get_temp p (cur step) /\
  material p' = material p /\ temperature p' = temperature p /\
  local_material p' = local_material p /\
  displs p' = displs p /\ sendcounts p' = sendcounts p.
Proof.
  intros Hs. cbn zeta. rewrite ftcs_solver_writes by assumption.
  assert (Hne : nxt step <> cur step)
    by (destruct (cur_nxt step Hs) as [[-> ->] | [-> ->]]; lia).
  rewrite get_set_temp_ne by assumption.
  match goal with
  | |- context [set_temp ?q ?i ?b] =>
      destruct (set_temp_fields q i b) as (-> & -> & -> & -> & ->)
  end.
  repeat split.
Qed.

Lemma ftcs_solver_cells step p :
  0 <= step -> proc_ok c p ->
  let out := get_temp p (nxt step) in
  let out' := get_temp (ftcs_solver c step p) (nxt step) in
  length out' = length out /\
  (forall x y, interior c x y ->
     rdf out' (lti c x y) =
     stencil c (get_temp p (cur step)) (local_material p) x y) /\
  (forall j, (forall x y, interior c x y -> lti c x y <> j) ->
     rdf out' j = rdf out j).
Proof.
  intros Hs (Hl0 & Hl1 & _). cbn zeta.
  rewrite ftcs_solver_writes by assumption.
  assert (Hn : nxt step = 0 \/ nxt step = 1)
    by (destruct (cur_nxt step Hs) as [[_ ->] | [_ ->]]; lia).
  rewrite get_set_temp_eq by assumption.
  assert (Hlen : alen (get_temp p (nxt step)) =
                 (local_grid_size0 c + 2) * (local_grid_size1 c + 2))
    by (destruct Hn as [-> | ->]; assumption).
  pose proof (writes_spec F32.zero (fun xy => lti c xy.1 xy.2)
    (fun xy => stencil c (get_temp p (cur step)) (local_material p) xy.1 xy.2)
    (cells 0 (local_grid_size0 c) 0 (local_grid_size1 c))
    (get_temp p (nxt step))) as W.
  cbn zeta in W. destruct W as (W1 & W2 & W3).
  - intros [x y] Hin. apply In_cells in Hin. cbn. rewrite Hlen.
    apply lti_range; [assumption | lia | lia].
  - intros [x y] [x' y'] Hin Hin' He. apply In_cells in Hin, Hin'. cbn in *.
    apply lti_inj in He as [-> ->]; [reflexivity | lia | lia].
  - split; [exact W1 |]. split.
    + intros x y Hxy. apply (W2 (x, y)), In_cells. exact Hxy.
    + intros j Hj. apply W3. intros [x y] Hin. apply In_cells in Hin.
      apply Hj. exact Hin.
Qed.

End Stencil.

(** C3. For every step [s >= 0], [ftcs_solver s] leaves buffer [s mod 2],
    the local material and every other array of the rank as they were, and
    writes into buffer [(s+1) mod 2], at every interior cell [(x, y)],
    [in[x,y] + material[x,y] * (in[x+1,y] + in[x-1,y] + in[x,y+1] +
    in[x,y-1] - 4*in[x,y])] computed from buffer [s mod 2] as it was on
    entry; a rank that agrees on buffer [s mod 2] and on the material gets
    the same interior values, whatever its other arrays hold. *)
Theorem ftcs_solver_double_buffer (c : config) (step : Z) (p : proc) :
  config_ok c -> proc_ok c p -> 0 <= step ->
  let p' := ftcs_solver c step p in
  let in_ := get_temp p (cur step) in
  let out' := get_temp p' (nxt step) in
  get_temp p' (cur step) = in_ /\
  local_material p' = local_material p /\
  material p' = material p /\ temperature p' = temperature p /\
  displs p' = displs p /\ sendcounts p' = sendcounts p /\
  (forall x y, 0 <= x < local_grid_size0 c -> 0 <= y < local_grid_size1 c ->
     rdf out' (lti c x y) =
     F32.add (rdf in_ (lti c x y))
       (F32.mul (rdf (local_material p) (lmi c x y))
          (F32.sub
             (F32.add
                (F32.add
                   (F32.add (rdf in_ (lti c (x + 1) y))
                            (rdf in_ (lti c (x - 1) y)))
                   (rdf in_ (lti c x (y + 1))))
                (rdf in_ (lti c x (y - 1))))
             (F32.mul (F32.of_int 4) (rdf in_ (lti c x y)))))) /\
  (forall q, proc_ok c q ->
     get_temp q (cur step) = in_ -> local_material q = local_material p ->
     forall x y, 0 <= x < local_grid_size0 c -> 0 <= y < local_grid_size1 c ->
     rdf (get_temp (ftcs_solver c step q) (nxt step)) (lti c x y) =
     rdf out' (lti c x y)).
Proof.
  intros Hc Hp Hs. cbn zeta.
  destruct (ftcs_solver_cells c Hc step p Hs Hp) as (_ & Hin & _).
  assert (Hne : nxt step <> cur step)
    by (destruct (cur_nxt step Hs) as [[-> ->] | [-> ->]]; lia).
  rewrite (ftcs_solver_writes c step p Hs) at 1 2 3 4 5 6.
  destruct (set_temp_fields p (nxt step)
    (fold_left (fun a xy =>
       aset a (lti c xy.1 xy.2)
         (stencil c (get_temp p (cur step)) (local_material p) xy.1 xy.2))
       (cells 0 (local_grid_size0 c) 0 (local_grid_size1 c))
       (get_temp p (nxt step)))) as (-> & -> & -> & -> & ->).
  rewrite get_set_temp_ne by assumption.
  repeat (split; [reflexivity |]). split.
  - intros x y Hx Hy. rewrite Hin by (split; assumption). reflexivity.
  - intros q Hq Hqi Hqm x y Hx Hy.
    destruct (ftcs_solver_cells c Hc step q Hs Hq) as (_ & Hin' & _).
    rewrite Hin, Hin' by (split; assumption). now rewrite Hqi, Hqm.
Qed.

Lemma ftcs_solver_double_buffer_witness :
  config_ok cfg_2x2_4 /\ proc_ok cfg_2x2_4 (rank_of world_4 0) /\ 0 <= 0 /\
  get_temp (ftcs_solver cfg_2x2_4 0 (rank_of world_4 0)) (cur 0) =
  get_temp (rank_of world_4 0) (cur 0).
Proof.
  assert (H1 : config_ok cfg_2x2_4) by (repeat split; reflexivity).
  assert (H2 : proc_ok cfg_2x2_4 (rank_of world_4 0))
    by (repeat split; vm_compute; reflexivity).
  assert (H3 : 0 <= 0) by lia.
  split; [exact H1 |]. split; [exact H2 |]. split; [exact H3 |].
  exact (proj1 (ftcs_solver_double_buffer cfg_2x2_4 0 (rank_of world_4 0) H1 H2 H3)).
Defined.

(** ** The cartesian mesh *)

Section Mesh.
Variable c : config.
Hypothesis Hc : config_ok c.

Lemma cart_rank_range x y :
  0 <= x < dims0 c -> 0 <= y < dims1 c -> 0 <= MPI_Cart_rank c x y < size c.
Proof. unfold MPI_Cart_rank, size. nia. Qed.

Lemma cart_rank_inj x y x' y' :
  0 <= y < dims1 c -> 0 <= y' < dims1 c ->
  MPI_Cart_rank c x y = MPI_Cart_rank c x' y' -> x = x' /\ y = y'.
Proof.
  unfold MPI_Cart_rank. intros Hy Hy' He.
  assert (x = x') by nia. subst. lia.
Qed.

Lemma cart_coords_rank x y :
  0 <= y < dims1 c -> MPI_Cart_coords c (MPI_Cart_rank c x y) = (x, y).
Proof.
  intros Hy. unfold MPI_Cart_coords, MPI_Cart_rank. f_equal.
  - rewrite Z.div_add_l by lia. rewrite Z.div_small by lia. lia.
  - rewrite Z.add_comm, Z.mod_add by lia. apply Z.mod_small. lia.
Qed.

Lemma cart_rank_coords r :
  0 <= r < size c ->
  MPI_Cart_rank c (coords0 c r) (coords1 c r) = r /\
  0 <= coords0 c r < dims0 c /\ 0 <= coords1 c r < dims1 c.
Proof.
  destruct Hc as (H0 & H1 & _). unfold size. intros Hr.
  unfold MPI_Cart_rank, coords0, coords1, MPI_Cart_coords. cbn.
  pose proof (Z.div_mod r (dims1 c) ltac:(lia)) as Hdm.
  pose proof (Z.mod_pos_bound r (dims1 c) H1) as Hm.
  split; [lia |]. split; [| lia]. split.
  - apply Z.div_pos; lia.
  - apply Z.div_lt_upper_bound; lia.
Qed.

End Mesh.

(** ** The displacement table *)

Section Displacements.
Variable c : config.
Hypothesis Hc : config_ok c.

Lemma displacement_fold (cs : list (Z * Z)) p :
  let p' := fold_left (fun p yx => displacement_cell c yx.2 yx.1 p) cs p in
  displs p' =
    fold_left (fun a yx =>
      aset a (MPI_Cart_rank c yx.2 yx.1)
           (local_grid_size1 c * GRID_SIZE0 c * yx.1 + local_grid_size0 c * yx.2))
      cs (displs p) /\
  sendcounts p' =
    fold_left (fun a yx => aset a (MPI_Cart_rank c yx.2 yx.1) 1)
      cs (sendcounts p) /\
  material p' = material p /\ temperature p' = temperature p /\
  local_material p' = local_material p /\
  local_temp0 p' = local_temp0 p /\ local_temp1 p' = local_temp1 p.
Proof.
  revert p. induction cs as [| yx cs IH]; intros p; cbn zeta; cbn [fold_left].
  - repeat split.
  - specialize (IH (displacement_cell c yx.2 yx.1 p)). cbn zeta in IH.
    destruct IH as (-> & -> & -> & -> & -> & -> & ->). repeat split.
Qed.

Lemma displacement_table_cells p x y :
  alen (displs p) = size c -> alen (sendcounts p) = size c ->
  0 <= x < dims0 c -> 0 <= y < dims1 c ->
  let p' := helpFunctionForDisplacement c 0 p in
  rdi (displs p') (MPI_Cart_rank c x y) =
    local_grid_size1 c * GRID_SIZE0 c * y + local_grid_size0 c * x /\
  rdi (sendcounts p') (MPI_Cart_rank c x y) = 1 /\
  alen (displs p') = size c /\ alen (sendcounts p') = size c.
Proof.
  intros Hd Hs Hx Hy. cbn zeta. unfold helpFunctionForDisplacement.
  cbn [Z.eqb]. rewrite for_loop_nest.
  destruct (displacement_fold (cells 0 (dims1 c) 0 (dims0 c)) p)
    as (-> & -> & _).
  assert (Hin : In (y, x) (cells 0 (dims1 c) 0 (dims0 c)))
    by (apply In_cells; lia).
  assert (Hrange : forall (a : list Z), alen a = size c ->
            forall yx, In yx (cells 0 (dims1 c) 0 (dims0 c)) ->
            0 <= MPI_Cart_rank c yx.2 yx.1 < alen a).
  { intros a Ha [y' x'] Hin'. apply In_cells in Hin'. rewrite Ha.
    apply cart_rank_range; cbn; lia. }
  assert (Hinj : forall yx yx', In yx (cells 0 (dims1 c) 0 (dims0 c)) ->
            In yx' (cells 0 (dims1 c) 0 (dims0 c)) ->
            MPI_Cart_rank c yx.2 yx.1 = MPI_Cart_rank c yx'.2 yx'.1 -> yx = yx').
  { intros [y1 x1] [y2 x2] H1 H2 He. apply In_cells in H1, H2. cbn in *.
    apply cart_rank_inj in He as [-> ->]; [reflexivity | lia | lia]. }
  destruct (writes_spec 0 (fun yx => MPI_Cart_rank c yx.2 yx.1)
    (fun yx => local_grid_size1 c * GRID_SIZE0 c * yx.1 + local_grid_size0 c * yx.2)
    (cells 0 (dims1 c) 0 (dims0 c)) (displs p)) as (L1 & W1 & _).
  { apply Hrange, Hd. }
  { intros yx yx' H1 H2 He. now rewrite (Hinj yx yx' H1 H2 He). }
  destruct (writes_spec 0 (fun yx => MPI_Cart_rank c yx.2 yx.1)
    (fun _ => 1) (cells 0 (dims1 c) 0 (dims0 c)) (sendcounts p))
    as (L2 & W2 & _).
  { apply Hrange, Hs. }
  { reflexivity. }
  split; [exact (W1 (y, x) Hin) |]. split; [exact (W2 (y, x) Hin) |].
  unfold alen in *. split; congruence.
Qed.

End Displacements.

(** C6. On root, [helpFunctionForDisplacement] visits the mesh row by row
    ([y] outer, [x] inner) and leaves, at the rank that owns mesh
    coordinate [(x, y)], the displacement
    [y * local_grid_size[1] * GRID_SIZE[0] + x * local_grid_size[0]] and
    the send count 1; on a 2 x 2 mesh over a 4 x 4 grid the rank at
    [(1, 1)] gets [2*4 + 2 = 10]. *)
Theorem displacement_table (c : config) (p : proc) :
  config_ok c -> alen (displs p) = size c -> alen (sendcounts p) = size c ->
  let p' := helpFunctionForDisplacement c 0 p in
  (forall x y, 0 <= x < dims0 c -> 0 <= y < dims1 c ->
     rdi (displs p') (MPI_Cart_rank c x y) =
       y * local_grid_size1 c * GRID_SIZE0 c + x * local_grid_size0 c /\
     rdi (sendcounts p') (MPI_Cart_rank c x y) = 1) /\
  p' = fold_left (fun p yx => displacement_cell c yx.2 yx.1 p)
         (flat_map (fun y => map (pair y) (seqZ 0 (dims0 c))) (seqZ 0 (dims1 c)))
         p /\
  (GRID_SIZE0 c = 4 -> GRID_SIZE1 c = 4 -> dims0 c = 2 -> dims1 c = 2 ->
     rdi (displs p') (MPI_Cart_rank c 1 1) = 2 * 4 + 2).
Proof.
  intros Hc Hd Hs. cbn zeta.
  assert (Hcells : forall x y, 0 <= x < dims0 c -> 0 <= y < dims1 c ->
     rdi (displs (helpFunctionForDisplacement c 0 p)) (MPI_Cart_rank c x y) =
       y * local_grid_size1 c * GRID_SIZE0 c + x * local_grid_size0 c /\
     rdi (sendcounts (helpFunctionForDisplacement c 0 p)) (MPI_Cart_rank c x y) = 1).
  { intros x y Hx Hy.
    destruct (displacement_table_cells c p x y Hd Hs Hx Hy) as (H1 & H2 & _).
    split; [rewrite H1; lia | exact H2]. }
  split; [exact Hcells |]. split.
  - unfold helpFunctionForDisplacement. cbn [Z.eqb]. rewrite for_loop_nest.
    unfold cells. now rewrite !Z.sub_0_r.
  - intros G0 G1 D0 D1. destruct (Hcells 1 1) as [H1 _]; [lia | lia |].
    rewrite H1. unfold local_grid_size0, local_grid_size1.
    rewrite G0, G1, D0, D1. reflexivity.
Qed.

Lemma displacement_table_witness :
  config_ok cfg_2x2_4 /\
  alen (displs (allocate cfg_2x2_4 0)) = size cfg_2x2_4 /\
  alen (sendcounts (allocate cfg_2x2_4 0)) = size cfg_2x2_4 /\
  rdi (displs (helpFunctionForDisplacement cfg_2x2_4 0 (allocate cfg_2x2_4 0)))
      (MPI_Cart_rank cfg_2x2_4 1 1) = 10.
Proof.
  assert (H1 : config_ok cfg_2x2_4) by (repeat split; reflexivity).
  assert (H2 : alen (displs (allocate cfg_2x2_4 0)) = size cfg_2x2_4)
    by reflexivity.
  assert (H3 : alen (sendcounts (allocate cfg_2x2_4 0)) = size cfg_2x2_4)
    by reflexivity.
  split; [exact H1 |]. split; [exact H2 |]. split; [exact H3 |].
  exact (proj2 (proj2 (displacement_table cfg_2x2_4 (allocate cfg_2x2_4 0) H1 H2 H3))
           eq_refl eq_refl eq_refl eq_refl).
Defined.

(** ** Datatypes and transfers *)

Lemma flat_map_single {X Y : Type} (f : X -> Y) (l : list X) :
  flat_map (fun x => [f x]) l = map f l.
Proof. induction l as [| x l IH]; cbn; [reflexivity | now rewrite IH]. Qed.

Lemma map_flat_map {X Y W : Type} (f : Y -> W) (g : X -> list Y) (l : list X) :
  map f (flat_map g l) = flat_map (fun x => map f (g x)) l.
Proof.
  induction l as [| x l IH]; cbn; [reflexivity |].
  now rewrite map_app, IH.
Qed.

Lemma map_cells {Y : Type} (f : Z * Z -> Y) lo0 hi0 lo1 hi1 :
  map f (cells lo0 hi0 lo1 hi1) =
  flat_map (fun x => map (fun y => f (x, y)) (seqZ lo1 (hi1 - lo1)))
           (seqZ lo0 (hi0 - lo0)).
Proof.
  unfold cells. rewrite map_flat_map. apply flat_map_ext. intros x.
  now rewrite map_map.
Qed.

Lemma typemap_vector count blocklength stride :
  typemap (MPI_Type_vector count blocklength stride MPI_FLOAT) =
  map (fun ij => ij.1 * stride + ij.2) (cells 0 count 0 blocklength).
Proof.
  rewrite map_cells. cbn [MPI_Type_vector typemap MPI_FLOAT extent].
  rewrite !Z.sub_0_r. apply flat_map_ext. intros i. cbn [map].
  rewrite flat_map_single. apply map_ext. intros j. cbn [fst snd]. lia.
Qed.

Lemma positions_one off ty :
  positions off 1 ty = map (fun d => off + d) (typemap ty).
Proof.
  unfold positions. change (seqZ 0 1) with [0]. cbn [flat_map].
  rewrite app_nil_r. apply map_ext. intros d. lia.
Qed.

(** A transfer of whole cells is a run of writes. *)
Lemma unpack_pack_cells {C : Type} (src dst : list f32) (cs : list C)
    (from to : C -> Z) :
  fold_left store (zip (map to cs) (map (rdf src) (map from cs))) dst =
  fold_left (fun a k => aset a (to k) (rdf src (from k))) cs dst.
Proof.
  revert dst. induction cs as [| k cs IH]; intros dst; cbn; [reflexivity |].
  apply IH.
Qed.

Lemma writes_same (src : list f32) {C : Type} (cs : list C) (to : C -> Z) :
  fold_left (fun a k => aset a (to k) (rdf src (to k))) cs src = src.
Proof.
  induction cs as [| k cs IH] using rev_ind; [reflexivity |].
  rewrite fold_left_app, IH. cbn. apply aset_aget_id.
Qed.

Lemma fold_left_ext_in {X Y : Type} (f g : X -> Y -> X) (l : list Y) (a : X) :
  (forall x y, In y l -> f x y = g x y) -> fold_left f l a = fold_left g l a.
Proof.
  revert a. induction l as [| y l IH]; intros a H; cbn; [reflexivity |].
  rewrite H by now left. apply IH. intros x y' Hy'. apply H. now right.
Qed.

Section Transfers.
Variable c : config.

Lemma positions_gather_Temp :
  positions (lti c 0 0) 1 (gather_Temp c) =
  map (fun ij => lti c ij.2 ij.1)
      (cells 0 (local_grid_size1 c) 0 (local_grid_size0 c)).
Proof.
  rewrite positions_one. unfold gather_Temp. rewrite typemap_vector, map_map.
  apply map_ext. intros [i j]. cbn. unfold lti, BORDER. lia.
Qed.

Lemma positions_localCart off :
  positions off 1 (localCart c) =
  map (fun ij => off + ij.1 * GRID_SIZE0 c + ij.2)
      (cells 0 (local_grid_size1 c) 0 (local_grid_size0 c)).
Proof.
  rewrite positions_one. unfold localCart, MPI_Type_create_resized.
  cbn [typemap]. unfold scatter_big_cart. rewrite typemap_vector, !map_map.
  apply map_ext. intros [i j]. cbn. lia.
Qed.

(** What one rank receives from [scatter_temp], when the root sends it
    one block. *)
Lemma scatterv_temp_writes (sendbuf recvbuf : list f32) scounts sdispls r :
  rdi scounts r = 1 ->
  MPI_Scatterv sendbuf (ti c 0 0) scounts sdispls (localCart c)
               recvbuf (lti c 0 0) 1 (gather_Temp c) r =
  fold_left (fun a ij =>
      aset a (lti c ij.2 ij.1)
        (rdf sendbuf (rdi sdispls r + ij.1 * GRID_SIZE0 c + ij.2)))
    (cells 0 (local_grid_size1 c) 0 (local_grid_size0 c)) recvbuf.
Proof.
  intros Hcount. unfold MPI_Scatterv, unpack, pack. rewrite Hcount.
  rewrite positions_gather_Temp, positions_localCart.
  rewrite unpack_pack_cells. apply fold_left_ext_in. intros a [i j] _.
  cbn. do 2 f_equal. unfold ti, localCart, MPI_Type_create_resized. cbn. lia.
Qed.

(** What one rank contributes to the root's array in [gather_temp]. *)
Lemma gatherv_temp_block (sendbuf recvbuf : list f32) rcounts rdispls r :
  rdi rcounts r = 1 ->
  unpack recvbuf (ti c 0 0 + rdi rdispls r * extent (localCart c))
         (rdi rcounts r) (localCart c)
         (pack sendbuf (lti c 0 0) 1 (gather_Temp c)) =
  fold_left (fun a ij =>
      aset a (rdi rdispls r + ij.1 * GRID_SIZE0 c + ij.2)
             (rdf sendbuf (lti c ij.2 ij.1)))
    (cells 0 (local_grid_size1 c) 0 (local_grid_size0 c)) recvbuf.
Proof.
  intros Hcount. unfold unpack, pack. rewrite Hcount.
  rewrite positions_gather_Temp, positions_localCart.
  rewrite unpack_pack_cells. apply fold_left_ext_in. intros a [i j] _.
  cbn. f_equal. unfold ti, localCart, MPI_Type_create_resized. cbn. lia.
Qed.

End Transfers.

(** ** Worlds *)

Lemma rank_of_lookup (w : list proc) r :
  0 <= r < alen w -> w !! Z.to_nat r = Some (rank_of w r).
Proof.
  unfold alen, rank_of, aget. intros Hr.
  destruct (Z.leb_spec 0 r); [| lia].
  destruct (nth_lookup_or_length w (Z.to_nat r) no_proc) as [Hn | Hn];
    [exact Hn | lia].
Qed.

Lemma rank_of_imap (f : nat -> proc -> proc) w r :
  0 <= r < alen w -> rank_of (imap f w) r = f (Z.to_nat r) (rank_of w r).
Proof.
  intros Hr. unfold rank_of at 1. unfold aget.
  destruct (Z.leb_spec 0 r); [| lia].
  rewrite nth_lookup, list_lookup_imap, (rank_of_lookup w r Hr). reflexivity.
Qed.

Lemma rank_of_map (f : proc -> proc) w r :
  0 <= r < alen w -> rank_of (map f w) r = f (rank_of w r).
Proof.
  intros Hr. unfold rank_of at 1. unfold aget.
  destruct (Z.leb_spec 0 r); [| lia].
  rewrite nth_lookup. change (map f w) with (f <$> w).
  rewrite list_lookup_fmap, (rank_of_lookup w r Hr). reflexivity.
Qed.

Lemma rank_of_root (root : proc) others : rank_of (root :: others) 0 = root.
Proof. reflexivity. Qed.

Lemma rank_of_others (root root' : proc) others r :
  0 < r -> rank_of (root' :: others) r = rank_of (root :: others) r.
Proof.
  intros Hr. unfold rank_of, aget. destruct (Z.leb_spec 0 r); [| lia].
  replace (Z.to_nat r) with (S (Z.to_nat (r - 1))) by lia. reflexivity.
Qed.

Lemma world_nonempty c (w : list proc) :
  config_ok c -> alen w = size c -> w <> [].
Proof.
  intros (H0 & H1 & _) Hw ->. unfold alen, size in Hw. cbn in Hw. nia.
Qed.

(** ** [scatter_temp] *)

Section Scatter.
Variable c : config.

Lemma mesh_fits :
  config_ok c ->
  dims0 c * local_grid_size0 c <= GRID_SIZE0 c /\
  dims1 c * local_grid_size1 c <= GRID_SIZE1 c.
Proof.
  intros (H0 & H1 & G0 & G1). unfold local_grid_size0, local_grid_size1.
  rewrite !Z.quot_div_nonneg by lia.
  split; apply Z.mul_div_le; lia.
Qed.

Lemma scatter_temp_rank w r :
  config_ok c -> world_ok c w -> 0 <= r < size c ->
  rank_of (scatter_temp c w) r =
  set_temp (rank_of w r) 0
    (fold_left (fun a ij =>
        aset a (lti c ij.2 ij.1)
          (rdf (temperature (rank_of w 0))
               (rdi (displs (rank_of w 0)) r + ij.1 * GRID_SIZE0 c + ij.2)))
      (cells 0 (local_grid_size1 c) 0 (local_grid_size0 c))
      (local_temp0 (rank_of w r))).
Proof.
  intros Hc (Hlen & _ & Htab & _) Hr. unfold scatter_temp.
  destruct w as [| root others]; [now destruct (world_nonempty c [] Hc Hlen) |].
  rewrite rank_of_imap by lia. rewrite Z2Nat.id by lia.
  rewrite rank_of_root in *. f_equal.
  apply scatterv_temp_writes. apply Htab, Hr.
Qed.

(** Where the block of rank [r] sits in the global array. *)
Lemma block_index w r i j :
  tables_ok c (rank_of w 0) -> 0 <= r < size c ->
  rdi (displs (rank_of w 0)) r + i * GRID_SIZE0 c + j =
  ti c (local_origin0 c r + j) (local_origin1 c r + i).
Proof.
  intros Htab Hr. destruct (Htab r Hr) as [_ ->].
  unfold ti, local_origin0, local_origin1. lia.
Qed.

Lemma scatter_temp_cells w r :
  config_ok c -> world_ok c w -> 0 <= r < size c ->
  let p := rank_of w r in
  let p' := rank_of (scatter_temp c w) r in
  local_temp1 p' = local_temp1 p /\
  local_material p' = local_material p /\
  material p' = material p /\ temperature p' = temperature p /\
  displs p' = displs p /\ sendcounts p' = sendcounts p /\
  length (local_temp0 p') = length (local_temp0 p) /\
  (forall x y, interior c x y ->
     rdf (local_temp0 p') (lti c x y) =
     rdf (temperature (rank_of w 0))
         (ti c (local_origin0 c r + x) (local_origin1 c r + y))) /\
  (forall k, (forall x y, interior c x y -> lti c x y <> k) ->
     rdf (local_temp0 p') k = rdf (local_temp0 p) k).
Proof.
  intros Hc Hw Hr. cbn zeta. rewrite scatter_temp_rank by assumption.
  destruct Hw as (Hlen & Hok & Htab & _).
  destruct (Hok r Hr) as (Hl0 & _).
  cbn [set_temp Z.eqb local_temp1 local_material material temperature displs
       sendcounts local_temp0].
  repeat (split; [reflexivity |]).
  destruct (writes_spec F32.zero (fun ij : Z * Z => lti c ij.2 ij.1)
    (fun ij => rdf (temperature (rank_of w 0))
       (rdi (displs (rank_of w 0)) r + ij.1 * GRID_SIZE0 c + ij.2))
    (cells 0 (local_grid_size1 c) 0 (local_grid_size0 c))
    (local_temp0 (rank_of w r))) as (W1 & W2 & W3).
  - intros [i j] Hin. apply In_cells in Hin. cbn. rewrite Hl0.
    apply lti_range; [assumption | lia | lia].
  - intros [i j] [i' j'] Hin Hin' He. apply In_cells in Hin, Hin'. cbn in *.
    apply lti_inj in He as [-> ->]; [reflexivity | lia | lia].
  - split; [exact W1 |]. split.
    + intros x y [Hx Hy].
      pose proof (W2 (y, x) ltac:(apply In_cells; lia)) as Hv.
      cbn [fst snd] in Hv. rewrite Hv. now rewrite block_index.
    + intros k Hk. apply W3. intros [i j] Hin. apply In_cells in Hin.
      apply Hk. split; cbn; lia.
Qed.

End Scatter.

(** ** [gather_temp] *)

Lemma fold_left_map {X Y W : Type} (f : X -> W -> X) (g : Y -> W) (l : list Y) a :
  fold_left f (map g l) a = fold_left (fun x y => f x (g y)) l a.
Proof. revert a. induction l as [| y l IH]; intros a; cbn; [reflexivity | apply IH]. Qed.

Lemma rank_of_app_l (w : list proc) p r :
  0 <= r < alen w -> rank_of (w ++ [p]) r = rank_of w r.
Proof.
  unfold alen, rank_of, aget. intros Hr. destruct (0 <=? r); [| reflexivity].
  apply app_nth1. lia.
Qed.

Lemma rank_of_app_r (w : list proc) p : rank_of (w ++ [p]) (alen w) = p.
Proof.
  unfold alen, rank_of, aget. destruct (Z.leb_spec 0 (Z.of_nat (length w))); [| lia].
  rewrite Nat2Z.id, app_nth2, Nat.sub_diag by lia. reflexivity.
Qed.

Lemma In_block_cells c n r i j :
  In (r, (i, j)) (block_cells c n) <->
  0 <= r < n /\ 0 <= i < local_grid_size1 c /\ 0 <= j < local_grid_size0 c.
Proof.
  unfold block_cells. rewrite in_flat_map. split.
  - intros (r' & Hr & Hin). apply in_map_iff in Hin as ([i' j'] & He & Hin).
    inversion He; subst. apply In_seqZ in Hr. apply In_cells in Hin. lia.
  - intros (Hr & Hi & Hj). exists r. split; [apply In_seqZ; lia |].
    apply in_map_iff. exists (i, j). split; [reflexivity | apply In_cells; lia].
Qed.

Section Gather.
Variable c : config.

Lemma gatherv_temp_writes (f : proc -> list f32) (w : list proc)
    (recvbuf : list f32) rcounts rdispls :
  (forall r, 0 <= r < alen w -> rdi rcounts r = 1) ->
  MPI_Gatherv (map (fun p => pack (f p) (lti c 0 0) 1 (gather_Temp c)) w)
              recvbuf (ti c 0 0) rcounts rdispls (localCart c) =
  fold_left (fun a rc =>
      aset a (rdi rdispls rc.1 + rc.2.1 * GRID_SIZE0 c + rc.2.2)
             (rdf (f (rank_of w rc.1)) (lti c rc.2.2 rc.2.1)))
    (block_cells c (alen w)) recvbuf.
Proof.
  induction w as [| p w IH] using rev_ind; intros Hcount; [reflexivity |].
  unfold MPI_Gatherv in *. rewrite map_app. cbn [map].
  change (imap ?g (?l1 ++ ?l2)) with (imap g (l1 ++ l2)).
  rewrite imap_app, fold_left_app. cbn [imap fold_left fst snd].
  rewrite length_map, Nat.add_0_r.
  assert (Hlen : alen (w ++ [p]) = Z.of_nat (S (length w))).
  { unfold alen. rewrite length_app. cbn. f_equal. lia. }
  rewrite IH.
  2:{ intros r Hr. apply Hcount. rewrite Hlen. unfold alen in Hr. lia. }
  unfold block_cells. rewrite Hlen, seqZ_S, flat_map_app, fold_left_app.
  cbn [flat_map]. rewrite app_nil_r, fold_left_map. cbn [fst snd].
  change (0 + Z.of_nat (length w)) with (Z.of_nat (length w)).
  rewrite gatherv_temp_block.
  2:{ apply Hcount. rewrite Hlen. lia. }
  change (Z.of_nat (length w)) with (alen w). rewrite rank_of_app_r.
  f_equal. apply fold_left_ext_in. intros a [r [i j]] Hin.
  apply (In_block_cells c (alen w)) in Hin. cbn [fst snd].
  now rewrite rank_of_app_l by lia.
Qed.

Lemma gather_temp_root w step :
  config_ok c -> world_ok c w ->
  temperature (rank_of (gather_temp c step w) 0) =
  fold_left (fun a rc =>
      aset a (ti c (local_origin0 c rc.1 + rc.2.2) (local_origin1 c rc.1 + rc.2.1))
             (rdf (get_temp (rank_of w rc.1) (cur step)) (lti c rc.2.2 rc.2.1)))
    (block_cells c (size c)) (temperature (rank_of w 0)).
Proof.
  intros Hc (Hlen & _ & Htab & _). unfold gather_temp.
  destruct w as [| root others]; [now destruct (world_nonempty c [] Hc Hlen) |].
  rewrite !rank_of_root in *. cbn [set_temperature temperature].
  rewrite (gatherv_temp_writes (fun p => get_temp p (cur step))).
  2:{ intros r Hr. apply Htab. lia. }
  rewrite Hlen. apply fold_left_ext_in. intros a [r [i j]] Hin.
  apply In_block_cells in Hin. cbn [fst snd]. f_equal.
  apply (block_index c (root :: others)); [exact Htab | lia].
Qed.

Lemma gather_temp_others w step r :
  0 < r -> rank_of (gather_temp c step w) r = rank_of w r.
Proof.
  intros Hr. unfold gather_temp. destruct w as [| root others]; [reflexivity |].
  now apply rank_of_others.
Qed.

Lemma gather_temp_root_fields w step :
  let p := rank_of w 0 in
  let p' := rank_of (gather_temp c step w) 0 in
  material p' = material p /\ local_material p' = local_material p /\
  local_temp0 p' = local_temp0 p /\ local_temp1 p' = local_temp1 p /\
  displs p' = displs p /\ sendcounts p' = sendcounts p.
Proof.
  unfold gather_temp. destruct w as [| root others]; cbn zeta.
  - repeat split.
  - rewrite !rank_of_root. repeat split.
Qed.

Lemma block_cell_range r x y :
  config_ok c -> 0 <= r < size c -> interior c x y ->
  0 <= local_origin0 c r + x < GRID_SIZE0 c /\
  0 <= local_origin1 c r + y < GRID_SIZE1 c.
Proof.
  intros Hc Hr [Hx Hy]. destruct (mesh_fits c Hc) as [F0 F1].
  destruct (cart_rank_coords c Hc r Hr) as (_ & C0 & C1).
  unfold local_origin0, local_origin1. nia.
Qed.

Lemma ti_range x y :
  0 <= x < GRID_SIZE0 c -> 0 <= y < GRID_SIZE1 c ->
  0 <= ti c x y < GRID_SIZE0 c * GRID_SIZE1 c.
Proof. unfold ti. nia. Qed.

Lemma ti_inj x y x' y' :
  0 <= x < GRID_SIZE0 c -> 0 <= x' < GRID_SIZE0 c ->
  ti c x y = ti c x' y' -> x = x' /\ y = y'.
Proof.
  unfold ti. intros Hx Hx' He. assert (y = y') by nia. subst. lia.
Qed.

Lemma block_cell_inj r x y r' x' y' :
  config_ok c -> 0 <= r < size c -> 0 <= r' < size c ->
  interior c x y -> interior c x' y' ->
  ti c (local_origin0 c r + x) (local_origin1 c r + y) =
  ti c (local_origin0 c r' + x') (local_origin1 c r' + y') ->
  r = r' /\ x = x' /\ y = y'.
Proof.
  intros Hc Hr Hr' Hi Hi' He.
  destruct (block_cell_range r x y Hc Hr Hi) as [R0 R1].
  destruct (block_cell_range r' x' y' Hc Hr' Hi') as [R0' R1'].
  apply ti_inj in He as [E0 E1]; [| assumption | assumption].
  destruct Hi as [Hx Hy], Hi' as [Hx' Hy'].
  destruct (cart_rank_coords c Hc r Hr) as (Er & C0 & C1).
  destruct (cart_rank_coords c Hc r' Hr') as (Er' & C0' & C1').
  unfold local_origin0, local_origin1 in E0, E1.
  assert (Ea : coords0 c r = coords0 c r') by nia.
  assert (Eb : coords1 c r = coords1 c r') by nia.
  rewrite Ea, Eb in *. split; [congruence |]. split; lia.
Qed.

Lemma gather_temp_cells w step :
  config_ok c -> world_ok c w ->
  let t := temperature (rank_of w 0) in
  let t' := temperature (rank_of (gather_temp c step w) 0) in
  length t' = length t /\
  (forall r x y, 0 <= r < size c -> interior c x y ->
     rdf t' (ti c (local_origin0 c r + x) (local_origin1 c r + y)) =
     rdf (get_temp (rank_of w r) (cur step)) (lti c x y)) /\
  (forall k, (forall r x y, 0 <= r < size c -> interior c x y ->
                ti c (local_origin0 c r + x) (local_origin1 c r + y) <> k) ->
     rdf t' k = rdf t k).
Proof.
  intros Hc Hw. cbn zeta. rewrite gather_temp_root by assumption.
  destruct Hw as (Hlen & _ & _ & Ht).
  destruct (writes_spec F32.zero
    (fun rc : Z * (Z * Z) =>
       ti c (local_origin0 c rc.1 + rc.2.2) (local_origin1 c rc.1 + rc.2.1))
    (fun rc => rdf (get_temp (rank_of w rc.1) (cur step)) (lti c rc.2.2 rc.2.1))
    (block_cells c (size c)) (temperature (rank_of w 0))) as (W1 & W2 & W3).
  - intros [r [i j]] Hin. apply In_block_cells in Hin. cbn [fst snd].
    rewrite Ht. apply ti_range; apply (block_cell_range r j i);
      try assumption; try lia; split; lia.
  - intros [r [i j]] [r' [i' j']] Hin Hin' He.
    apply In_block_cells in Hin, Hin'. cbn [fst snd] in *.
    apply block_cell_inj in He as (-> & -> & ->);
      [reflexivity | assumption | lia | lia | split; lia | split; lia].
  - split; [exact W1 |]. split.
    + intros r x y Hr [Hx Hy].
      pose proof (W2 (r, (y, x)) ltac:(apply In_block_cells; lia)) as Hv.
      cbn [fst snd] in Hv. exact Hv.
    + intros k Hk. apply W3. intros [r [i j]] Hin.
      apply In_block_cells in Hin. cbn [fst snd]. apply Hk; [lia | split; lia].
Qed.

End Gather.

Lemma alen_imap {X Y : Type} (f : nat -> X -> Y) (l : list X) :
  alen (imap f l) = alen l.
Proof. unfold alen. now rewrite length_imap. Qed.

Lemma scatter_temp_alen c (w : list proc) : alen (scatter_temp c w) = alen w.
Proof.
  unfold scatter_temp. destruct w as [| root others]; [reflexivity |].
  apply alen_imap.
Qed.

Lemma scatter_temp_world_ok c w :
  config_ok c -> world_ok c w -> world_ok c (scatter_temp c w).
Proof.
  intros Hc Hw. pose proof Hw as (Hlen & Hok & Htab & Ht).
  assert (H0 : 0 <= 0 < size c) by (destruct Hc as (? & ? & _); unfold size; nia).
  destruct (scatter_temp_cells c w 0 Hc Hw H0)
    as (_ & _ & _ & Et & Ed & Es & _).
  split; [now rewrite scatter_temp_alen |]. split; [| split].
  - intros r Hr. destruct (Hok r Hr) as (L0 & L1 & Lm).
    destruct (scatter_temp_cells c w r Hc Hw Hr)
      as (E1 & Em & _ & _ & _ & _ & El & _).
    unfold proc_ok, alen in *. rewrite E1, Em, El. repeat split; assumption.
  - intros r Hr. rewrite Ed, Es. apply Htab, Hr.
  - now rewrite Et.
Qed.

(** C2. With the tables filled as [main] fills them before the first
    scatter, [scatter_temp] followed at once by [gather_temp] on the buffer
    the scatter wrote (buffer 0: an even step, step 0 in [main]) leaves the
    root's global temperature array equal to what it was, element for
    element. *)
Theorem scatter_gather_round_trip (c : config) (w : list proc) (step : Z) :
  config_ok c -> world_ok c w -> 0 <= step -> cur step = 0 ->
  temperature (rank_of (gather_temp c step (scatter_temp c w)) 0) =
  temperature (rank_of w 0).
Proof.
  intros Hc Hw Hs Hcur.
  pose proof (scatter_temp_world_ok c w Hc Hw) as Hw'.
  assert (H0 : 0 <= 0 < size c) by (destruct Hc as (? & ? & _); unfold size; nia).
  rewrite gather_temp_root by assumption.
  destruct (scatter_temp_cells c w 0 Hc Hw H0) as (_ & _ & _ & -> & _).
  rewrite Hcur.
  etransitivity;
    [| apply (writes_same (temperature (rank_of w 0)) (block_cells c (size c))
         (fun rc => ti c (local_origin0 c rc.1 + rc.2.2)
                         (local_origin1 c rc.1 + rc.2.1)))].
  apply fold_left_ext_in. intros a [r [i j]] Hin.
  apply In_block_cells in Hin. cbn [fst snd]. f_equal.
  destruct (scatter_temp_cells c w r Hc Hw ltac:(lia))
    as (_ & _ & _ & _ & _ & _ & _ & Hcell & _).
  apply Hcell. split; lia.
Qed.

(** ** Start-up *)

Lemma length_fold_store (l : list (Z * f32)) (b : list f32) :
  length (fold_left store l b) = length b.
Proof.
  revert b. induction l as [| iv l IH]; intros b; cbn; [reflexivity |].
  rewrite IH. apply length_aset.
Qed.

Lemma alen_calloc {X : Type} (z : X) n : 0 <= n -> alen (calloc z n) = n.
Proof. intros Hn. unfold alen, calloc. rewrite length_replicate. lia. Qed.

Section Startup.
Variable c : config.

Lemma init_local_temp_fold p :
  let cs := cells (- BORDER) (local_grid_size0 c + BORDER)
                  (- BORDER) (local_grid_size1 c + BORDER) in
  let p' := init_local_temp c p in
  local_temp0 p' =
    fold_left (fun a xy => aset a (lti c xy.1 xy.2) (F32.lit 10 1)) cs (local_temp0 p) /\
  local_temp1 p' =
    fold_left (fun a xy => aset a (lti c xy.1 xy.2) (F32.lit 10 1)) cs (local_temp1 p) /\
  material p' = material p /\ temperature p' = temperature p /\
  local_material p' = local_material p /\
  displs p' = displs p /\ sendcounts p' = sendcounts p.
Proof.
  cbn zeta. unfold init_local_temp. rewrite for_loop_nest.
  generalize (cells (- BORDER) (local_grid_size0 c + BORDER)
                    (- BORDER) (local_grid_size1 c + BORDER)).
  intros cs. revert p. induction cs as [| xy cs IH]; intros p; cbn [fold_left].
  - repeat split.
  - match goal with
    | |- context [fold_left _ cs ?q] =>
        destruct (IH q) as (-> & -> & -> & -> & -> & -> & ->)
    end.
    repeat split.
Qed.

Lemma init_local_temp_cells p :
  config_ok c -> proc_ok c p ->
  let p' := init_local_temp c p in
  proc_ok c p' /\
  material p' = material p /\ temperature p' = temperature p /\
  local_material p' = local_material p /\
  displs p' = displs p /\ sendcounts p' = sendcounts p /\
  (forall x y, -1 <= x <= local_grid_size0 c -> -1 <= y <= local_grid_size1 c ->
     rdf (local_temp0 p') (lti c x y) = F32.lit 10 1 /\
     rdf (local_temp1 p') (lti c x y) = F32.lit 10 1).
Proof.
  intros Hc (L0 & L1 & Lm). cbn zeta. unfold proc_ok.
  destruct (init_local_temp_fold p) as (E0 & E1 & -> & -> & -> & -> & ->).
  rewrite E0, E1. clear E0 E1.
  assert (W : forall a : list f32,
    alen a = (local_grid_size0 c + 2) * (local_grid_size1 c + 2) ->
    let a' := fold_left (fun a xy => aset a (lti c xy.1 xy.2) (F32.lit 10 1))
      (cells (- BORDER) (local_grid_size0 c + BORDER)
             (- BORDER) (local_grid_size1 c + BORDER)) a in
    alen a' = alen a /\
    forall x y, -1 <= x <= local_grid_size0 c -> -1 <= y <= local_grid_size1 c ->
      rdf a' (lti c x y) = F32.lit 10 1).
  { intros a La. cbn zeta.
    destruct (writes_spec F32.zero (fun xy : Z * Z => lti c xy.1 xy.2)
      (fun _ => F32.lit 10 1)
      (cells (- BORDER) (local_grid_size0 c + BORDER)
             (- BORDER) (local_grid_size1 c + BORDER)) a) as (W1 & W2 & _).
    - intros [x y] Hin. apply In_cells in Hin. unfold BORDER in Hin. cbn [fst snd].
      rewrite La. apply lti_range; [assumption | lia | lia].
    - reflexivity.
    - split; [unfold alen; now rewrite W1 |].
      intros x y Hx Hy. apply (W2 (x, y)), In_cells. unfold BORDER. lia. }
  destruct (W _ L0) as [A0 V0]. destruct (W _ L1) as [A1 V1].
  split.
  - cbn zeta in A0, A1. rewrite A0, A1. repeat split; assumption.
  - repeat (split; [reflexivity |]). intros x y Hx Hy. split; [apply V0 | apply V1]; assumption.
Qed.

Lemma set_cell_frame x y m t p :
  let p' := set_cell c x y m t p in
  length (material p') = length (material p) /\
  length (temperature p') = length (temperature p) /\
  local_material p' = local_material p /\
  local_temp0 p' = local_temp0 p /\ local_temp1 p' = local_temp1 p /\
  displs p' = displs p /\ sendcounts p' = sendcounts p.
Proof.
  cbn zeta. unfold set_cell. destruct t as [t |], m as [m |]; cbn;
    rewrite ?length_aset; repeat split.
Qed.

Lemma nest_set_cell_frame lo0 hi0 lo1 hi1 m t p :
  let p' := for_loop lo0 hi0 (fun x =>
              for_loop lo1 hi1 (fun y => set_cell c x y m t)) p in
  length (material p') = length (material p) /\
  length (temperature p') = length (temperature p) /\
  local_material p' = local_material p /\
  local_temp0 p' = local_temp0 p /\ local_temp1 p' = local_temp1 p /\
  displs p' = displs p /\ sendcounts p' = sendcounts p.
Proof.
  cbn zeta. rewrite for_loop_nest. revert p.
  induction (cells lo0 hi0 lo1 hi1) as [| xy cs IH]; intros p; cbn [fold_left].
  - repeat split.
  - destruct (IH (set_cell c xy.1 xy.2 m t p)) as (-> & -> & -> & -> & -> & -> & ->).
    apply set_cell_frame.
Qed.

Lemma init_temp_material_frame p :
  let p' := init_temp_material c p in
  length (material p') = length (material p) /\
  length (temperature p') = length (temperature p) /\
  local_material p' = local_material p /\
  local_temp0 p' = local_temp0 p /\ local_temp1 p' = local_temp1 p /\
  displs p' = displs p /\ sendcounts p' = sendcounts p.
Proof.
  cbn zeta. unfold init_temp_material. cbn zeta.
  repeat match goal with
  | |- context [for_loop ?a ?b (fun x => for_loop ?d ?e (fun y => set_cell c x y ?m ?t)) ?q] =>
      let H := fresh "H" in
      pose proof (nest_set_cell_frame a b d e m t q) as H; cbn zeta in H;
      destruct H as (-> & -> & -> & -> & -> & -> & ->)
  end.
  repeat split.
Qed.

End Startup.

Section StartupWorld.
Variable c : config.
Hypothesis Hc : config_ok c.

Lemma size_pos : 0 < size c.
Proof. destruct Hc as (? & ? & _). unfold size. nia. Qed.

Lemma allocate_ok r :
  let p := allocate c r in
  proc_ok c p /\ alen (displs p) = size c /\ alen (sendcounts p) = size c /\
  (r = 0 -> alen (temperature p) = GRID_SIZE0 c * GRID_SIZE1 c /\
            alen (material p) = GRID_SIZE0 c * GRID_SIZE1 c).
Proof.
  destruct (local_grid_size_nonneg c Hc) as [L0 L1].
  pose proof size_pos as Hs. destruct Hc as (_ & _ & G0 & G1).
  cbn zeta. unfold allocate, proc_ok, BORDER.
  cbn [local_temp0 local_temp1 local_material displs sendcounts temperature material].
  rewrite !alen_calloc by nia.
  split; [repeat split; lia |]. split; [reflexivity |]. split; [reflexivity |].
  intros ->. cbn [Z.eqb]. rewrite !alen_calloc by nia. split; lia.
Qed.

Lemma startup_rank_ok r :
  let p := startup_rank c r in
  proc_ok c p /\ alen (displs p) = size c /\ alen (sendcounts p) = size c /\
  (r = 0 -> alen (temperature p) = GRID_SIZE0 c * GRID_SIZE1 c) /\
  (forall x y, -1 <= x <= local_grid_size0 c -> -1 <= y <= local_grid_size1 c ->
     rdf (local_temp0 p) (lti c x y) = F32.lit 10 1 /\
     rdf (local_temp1 p) (lti c x y) = F32.lit 10 1).
Proof.
  cbn zeta. unfold startup_rank.
  destruct (allocate_ok r) as (Pok & Ld & Ls & Lt).
  set (q := if r =? 0 then init_temp_material c (allocate c r) else allocate c r).
  assert (Hq : proc_ok c q /\ alen (displs q) = size c /\
               alen (sendcounts q) = size c /\
               (r = 0 -> alen (temperature q) = GRID_SIZE0 c * GRID_SIZE1 c)).
  { subst q. destruct (Z.eqb_spec r 0) as [-> | Hne].
    - destruct (init_temp_material_frame c (allocate c 0))
        as (Em & Et & El & E0 & E1 & Ed & Es).
      unfold proc_ok, alen in *. rewrite El, E0, E1, Ed, Es, Et.
      destruct Pok as (? & ? & ?). destruct (Lt eq_refl) as [? _].
      repeat split; try assumption. intros _. assumption.
    - repeat split; try assumption; [apply Pok | apply Pok | apply Pok | lia]. }
  destruct Hq as (Qok & Qd & Qs & Qt).
  destruct (init_local_temp_cells c q Hc Qok) as (Rok & _ & -> & _ & -> & -> & Hcells).
  split; [exact Rok |]. repeat (split; [assumption |]). exact Hcells.
Qed.

Lemma allocated_rank r :
  0 <= r < size c -> rank_of (allocated c) r = startup_rank c r.
Proof.
  intros Hr. unfold allocated, rank_of, aget.
  destruct (Z.leb_spec 0 r); [| lia].
  rewrite nth_lookup. change (map ?f ?l) with (f <$> l).
  rewrite list_lookup_fmap, lookup_seq_lt by lia. cbn. f_equal. lia.
Qed.

Lemma alen_allocated : alen (allocated c) = size c.
Proof.
  pose proof size_pos. unfold allocated, alen.
  rewrite length_map, length_seq. lia.
Qed.

Lemma help_frame r p :
  let p' := helpFunctionForDisplacement c r p in
  material p' = material p /\ temperature p' = temperature p /\
  local_material p' = local_material p /\
  local_temp0 p' = local_temp0 p /\ local_temp1 p' = local_temp1 p.
Proof.
  cbn zeta. unfold helpFunctionForDisplacement.
  destruct (r =? 0); [| repeat split]. rewrite for_loop_nest.
  destruct (displacement_fold c (cells 0 (dims1 c) 0 (dims0 c)) p)
    as (_ & _ & H).
  exact H.
Qed.

Lemma scatter_material_rank w r :
  alen w = size c -> 0 <= r < size c ->
  let q := helpFunctionForDisplacement c r (rank_of w r) in
  let root := helpFunctionForDisplacement c 0 (rank_of w 0) in
  rank_of (scatter_material c w) r =
  set_local_material q
    (MPI_Scatterv (material root) (mi c 0 0) (sendcounts root) (displs root)
       (localCart c) (local_material q) (lmi c 0 0)
       (local_grid_size1 c * local_grid_size0 c) MPI_FLOAT r).
Proof.
  intros Hlen Hr. cbn zeta. unfold scatter_material.
  pose proof size_pos as Hs.
  assert (Hroot : rank_of (imap (fun r p => helpFunctionForDisplacement c (Z.of_nat r) p) w) 0
                  = helpFunctionForDisplacement c 0 (rank_of w 0)).
  { rewrite rank_of_imap by lia. reflexivity. }
  destruct (imap (fun r p => helpFunctionForDisplacement c (Z.of_nat r) p) w)
    as [| root others] eqn:Ew.
  { apply (f_equal alen) in Ew. rewrite alen_imap in Ew.
    unfold alen at 2 in Ew. cbn in Ew. lia. }
  rewrite rank_of_imap by (rewrite <- Ew, alen_imap; lia).
  rewrite <- Ew, rank_of_imap by lia. rewrite Z2Nat.id by lia.
  rewrite rank_of_root in Hroot. rewrite <- Hroot. reflexivity.
Qed.

Lemma scatter_material_world_ok w :
  alen w = size c ->
  (forall r, 0 <= r < size c -> proc_ok c (rank_of w r)) ->
  alen (displs (rank_of w 0)) = size c ->
  alen (sendcounts (rank_of w 0)) = size c ->
  alen (temperature (rank_of w 0)) = GRID_SIZE0 c * GRID_SIZE1 c ->
  world_ok c (scatter_material c w) /\
  (forall r, 0 <= r < size c ->
     local_temp0 (rank_of (scatter_material c w) r) = local_temp0 (rank_of w r) /\
     local_temp1 (rank_of (scatter_material c w) r) = local_temp1 (rank_of w r) /\
     temperature (rank_of (scatter_material c w) r) = temperature (rank_of w r)).
Proof.
  intros Hlen Hok Hd Hs Ht. pose proof size_pos as Hsz.
  assert (Hframe : forall r, 0 <= r < size c ->
     local_temp0 (rank_of (scatter_material c w) r) = local_temp0 (rank_of w r) /\
     local_temp1 (rank_of (scatter_material c w) r) = local_temp1 (rank_of w r) /\
     temperature (rank_of (scatter_material c w) r) = temperature (rank_of w r) /\
     length (local_material (rank_of (scatter_material c w) r)) =
       length (local_material (rank_of w r)) /\
     displs (rank_of (scatter_material c w) r) =
       displs (helpFunctionForDisplacement c r (rank_of w r)) /\
     sendcounts (rank_of (scatter_material c w) r) =
       sendcounts (helpFunctionForDisplacement c r (rank_of w r))).
  { intros r Hr. rewrite scatter_material_rank by assumption.
    destruct (help_frame r (rank_of w r)) as (_ & Et & El & E0 & E1).
    cbn [set_local_material local_temp0 local_temp1 temperature local_material
         displs sendcounts].
    unfold MPI_Scatterv, unpack. rewrite length_fold_store, El, E0, E1, Et.
    repeat split. }
  split; [| intros r Hr; destruct (Hframe r Hr) as (? & ? & ? & _); auto].
  split; [| split; [| split]].
  - unfold scatter_material.
    destruct (imap (fun r p => helpFunctionForDisplacement c (Z.of_nat r) p) w)
      as [| root others] eqn:Ew.
    + apply (f_equal alen) in Ew. rewrite alen_imap in Ew.
      unfold alen at 2 in Ew. cbn in Ew. lia.
    + rewrite alen_imap, <- Ew, alen_imap. exact Hlen.
  - intros r Hr. destruct (Hframe r Hr) as (E0 & E1 & _ & El & _).
    destruct (Hok r Hr) as (? & ? & ?).
    unfold proc_ok, alen in *. rewrite E0, E1, El. repeat split; assumption.
  - intros r Hr. destruct (Hframe 0 ltac:(lia)) as (_ & _ & _ & _ & -> & ->).
    destruct (cart_rank_coords c Hc r Hr) as (Er & C0 & C1).
    destruct (displacement_table_cells c (rank_of w 0) (coords0 c r) (coords1 c r)
                Hd Hs C0 C1) as (D1 & D2 & _).
    rewrite Er in D1, D2. split; [exact D2 | rewrite D1; lia].
  - destruct (Hframe 0 ltac:(lia)) as (_ & _ & -> & _). exact Ht.
Qed.

Lemma before_scatter_temp_ok :
  world_ok c (scatter_material c (allocated c)) /\
  (forall r x y, 0 <= r < size c ->
     -1 <= x <= local_grid_size0 c -> -1 <= y <= local_grid_size1 c ->
     rdf (local_temp0 (rank_of (scatter_material c (allocated c)) r)) (lti c x y)
       = F32.lit 10 1 /\
     rdf (local_temp1 (rank_of (scatter_material c (allocated c)) r)) (lti c x y)
       = F32.lit 10 1).
Proof.
  pose proof size_pos as Hsz.
  destruct (scatter_material_world_ok (allocated c)) as [Hw Hframe].
  - apply alen_allocated.
  - intros r Hr. rewrite allocated_rank by assumption. apply startup_rank_ok.
  - rewrite allocated_rank by lia. apply startup_rank_ok.
  - rewrite allocated_rank by lia. apply startup_rank_ok.
  - rewrite allocated_rank by lia. now apply startup_rank_ok.
  - split; [exact Hw |]. intros r x y Hr Hx Hy.
    destruct (Hframe r Hr) as (-> & -> & _). rewrite allocated_rank by assumption.
    now apply startup_rank_ok.
Qed.

End StartupWorld.

Lemma lti_surj c k :
  config_ok c ->
  0 <= k < (local_grid_size0 c + 2) * (local_grid_size1 c + 2) ->
  exists x y, -1 <= x <= local_grid_size0 c /\ -1 <= y <= local_grid_size1 c /\
              lti c x y = k.
Proof.
  intros Hc Hk. destruct (local_grid_size_nonneg c Hc) as [L0 L1].
  exists (k mod (local_grid_size0 c + 2) - 1), (k / (local_grid_size0 c + 2) - 1).
  pose proof (Z.div_mod k (local_grid_size0 c + 2) ltac:(lia)) as Hdm.
  pose proof (Z.mod_pos_bound k (local_grid_size0 c + 2) ltac:(lia)) as Hm.
  assert (0 <= k / (local_grid_size0 c + 2)) by (apply Z.div_pos; lia).
  assert (k / (local_grid_size0 c + 2) < local_grid_size1 c + 2)
    by (apply Z.div_lt_upper_bound; lia).
  rewrite lti_eq. repeat split; lia.
Qed.

(** The mesh used in the concrete runs. *)
Lemma config_ok_4 : config_ok cfg_2x2_4.
Proof. repeat split; reflexivity. Qed.

Lemma ranks_4 r : 0 <= r < size cfg_2x2_4 -> r = 0 \/ r = 1 \/ r = 2 \/ r = 3.
Proof. unfold size. cbn. lia. Qed.

Lemma world_ok_before_scatter_4 :
  world_ok cfg_2x2_4 (scatter_material cfg_2x2_4 (allocated cfg_2x2_4)).
Proof.
  split; [vm_compute; reflexivity |]. split; [| split].
  - intros r Hr.
    destruct (ranks_4 r Hr) as [-> | [-> | [-> | ->]]];
      vm_compute; repeat split.
  - intros r Hr.
    destruct (ranks_4 r Hr) as [-> | [-> | [-> | ->]]];
      vm_compute; repeat split.
  - vm_compute. reflexivity.
Qed.

(** C10. [scatter_temp] stores the block of a rank in buffer 0 only, at
    the interior cells: buffer 1 and every cell of buffer 0 outside the
    interior (the ghost cells) keep what they held, on every rank; it
    takes no step.  When [main] enters its loop, buffer 1 therefore holds
    the 10.0 of [init_local_temp] everywhere and so does every ghost cell
    of buffer 0. *)
Theorem scatter_temp_frame (c : config) (w : list proc) (r : Z) :
  config_ok c -> world_ok c w -> 0 <= r < size c ->
  let p := rank_of w r in
  let p' := rank_of (scatter_temp c w) r in
  local_temp1 p' = local_temp1 p /\
  (forall x y, -1 <= x <= local_grid_size0 c -> -1 <= y <= local_grid_size1 c ->
     ~ (0 <= x < local_grid_size0 c /\ 0 <= y < local_grid_size1 c) ->
     rdf (local_temp0 p') (lti c x y) = rdf (local_temp0 p) (lti c x y)) /\
  (forall x y, 0 <= x < local_grid_size0 c -> 0 <= y < local_grid_size1 c ->
     rdf (local_temp0 p') (lti c x y) =
     rdf (temperature (rank_of w 0))
         (ti c (local_origin0 c r + x) (local_origin1 c r + y))) /\
  let q := rank_of (startup c) r in
  (forall k, 0 <= k < alen (local_temp1 q) ->
     rdf (local_temp1 q) k = F32.lit 10 1) /\
  (forall x y, -1 <= x <= local_grid_size0 c -> -1 <= y <= local_grid_size1 c ->
     ~ (0 <= x < local_grid_size0 c /\ 0 <= y < local_grid_size1 c) ->
     rdf (local_temp0 q) (lti c x y) = F32.lit 10 1).
Proof.
  intros Hc Hw Hr. cbn zeta.
  assert (Hframe : forall w, world_ok c w ->
    forall x y, -1 <= x <= local_grid_size0 c -> -1 <= y <= local_grid_size1 c ->
      ~ (0 <= x < local_grid_size0 c /\ 0 <= y < local_grid_size1 c) ->
      rdf (local_temp0 (rank_of (scatter_temp c w) r)) (lti c x y) =
      rdf (local_temp0 (rank_of w r)) (lti c x y)).
  { intros w0 Hw0 x y Hx Hy Hghost.
    destruct (scatter_temp_cells c w0 r Hc Hw0 Hr)
      as (_ & _ & _ & _ & _ & _ & _ & _ & Hout).
    apply Hout. intros x' y' [Hx' Hy'] He.
    apply lti_inj in He as [-> ->]; [| lia | lia]. apply Hghost. lia. }
  destruct (scatter_temp_cells c w r Hc Hw Hr)
    as (E1 & _ & _ & _ & _ & _ & _ & Hin & _).
  split; [exact E1 |]. split; [apply Hframe, Hw |].
  split; [intros x y Hx Hy; apply Hin; split; assumption |].
  destruct (before_scatter_temp_ok c Hc) as [Hw0 Hten].
  unfold startup.
  destruct (scatter_temp_cells c _ r Hc Hw0 Hr) as (F1 & _).
  split.
  - intros k Hk. rewrite F1 in *.
    destruct Hw0 as (_ & Hok & _). destruct (Hok r Hr) as (_ & L1 & _).
    rewrite L1 in Hk. destruct (lti_surj c k Hc Hk) as (x & y & Hx & Hy & <-).
    now apply Hten.
  - intros x y Hx Hy Hghost. rewrite Hframe by assumption. now apply Hten.
Qed.

Lemma scatter_temp_frame_witness :
  config_ok cfg_2x2_4 /\
  world_ok cfg_2x2_4 (scatter_material cfg_2x2_4 (allocated cfg_2x2_4)) /\
  0 <= 1 < size cfg_2x2_4 /\
  local_temp1 (rank_of (scatter_temp cfg_2x2_4
                 (scatter_material cfg_2x2_4 (allocated cfg_2x2_4))) 1) =
  local_temp1 (rank_of (scatter_material cfg_2x2_4 (allocated cfg_2x2_4)) 1).
Proof.
  assert (H1 : config_ok cfg_2x2_4) by (repeat split; reflexivity).
  assert (H3 : 0 <= 1 < size cfg_2x2_4) by (vm_compute; split; [discriminate | reflexivity]).
  split; [exact H1 |]. split; [exact world_ok_before_scatter_4 |].
  split; [exact H3 |].
  exact (proj1 (scatter_temp_frame cfg_2x2_4 _ 1 H1 world_ok_before_scatter_4 H3)).
Defined.

Lemma scatter_gather_round_trip_witness :
  config_ok cfg_2x2_4 /\
  world_ok cfg_2x2_4 (scatter_material cfg_2x2_4 (allocated cfg_2x2_4)) /\
  0 <= 0 /\ cur 0 = 0 /\
  temperature (rank_of (gather_temp cfg_2x2_4 0 (startup cfg_2x2_4)) 0) =
  temperature (rank_of (scatter_material cfg_2x2_4 (allocated cfg_2x2_4)) 0).
Proof.
  assert (H1 : config_ok cfg_2x2_4) by (repeat split; reflexivity).
  assert (H3 : 0 <= 0) by lia.
  assert (H4 : cur 0 = 0) by reflexivity.
  split; [exact H1 |]. split; [exact world_ok_before_scatter_4 |].
  split; [exact H3 |]. split; [exact H4 |].
  exact (scatter_gather_round_trip cfg_2x2_4 _ 0 H1 world_ok_before_scatter_4 H3 H4).
Defined.

(** ** Communication phases *)

Lemma take_first_None f pool : take_first f pool = None <-> List.filter f pool = [].
Proof.
  induction pool as [| m pool IH]; cbn; [tauto |].
  destruct (f m); [split; discriminate |].
  destruct (take_first f pool) as [[m' rest] |].
  - split; [discriminate |]. intros H. apply IH in H. discriminate.
  - tauto.
Qed.

Lemma take_first_Some f pool m pool' :
  take_first f pool = Some (m, pool') ->
  f m = true /\ List.filter f pool = m :: List.filter f pool' /\
  forall g : message -> bool, (forall x, f x = true -> g x = false) ->
    List.filter g pool' = List.filter g pool.
Proof.
  revert m pool'. induction pool as [| m0 pool IH]; intros m pool' H; cbn in H;
    [discriminate |].
  destruct (f m0) eqn:Ef.
  - inversion H; subst. split; [assumption |]. cbn. rewrite Ef.
    split; [reflexivity |].
    intros g Hg. now rewrite (Hg m Ef).
  - destruct (take_first f pool) as [[m' rest] |]; [| discriminate].
    inversion H; subst. destruct (IH m rest eq_refl) as (Hm & Hf & Hg).
    split; [assumption |]. cbn. rewrite Ef. split; [assumption |].
    intros g Hdis. cbn. now rewrite (Hg g Hdis).
Qed.

Lemma find_app_first {X : Type} (f : X -> bool) pre x post :
  existsb f pre = false -> f x = true -> find f (pre ++ x :: post) = Some x.
Proof.
  induction pre as [| y pre IH]; cbn; intros Hpre Hx; [now rewrite Hx |].
  apply orb_false_iff in Hpre as [-> Hpre]. now apply IH.
Qed.

Lemma sum_lengths_insert {X : Type} (l : list (list X)) r x xs :
  l !! r = Some (x :: xs) ->
  (list_sum (map (@length X) (<[r := xs]> l)) + 1 =
   list_sum (map (@length X) l))%nat.
Proof.
  assert (Hcons : forall a (k : list nat), list_sum (a :: k) = (a + list_sum k)%nat)
    by reflexivity.
  revert r. induction l as [| y l IH]; intros [| r] H; try discriminate.
  - inversion H; subst. change (<[0%nat := xs]> ((x :: xs) :: l)) with (xs :: l).
    rewrite !map_cons, !Hcons. cbn [length]. lia.
  - change (<[S r := xs]> (y :: l)) with (y :: <[r := xs]> l).
    rewrite !map_cons, !Hcons. specialize (IH r H). lia.
Qed.

Lemma sum_lengths_zero {X : Type} (l : list (list X)) :
  list_sum (map (@length X) l) = 0%nat ->
  forallb (fun ops => match ops with [] => true | _ => false end) l = true.
Proof.
  induction l as [| y l IH]; [reflexivity |]. intros H.
  change (list_sum (map length (y :: l)))
    with (length y + list_sum (map (@length X) l))%nat in H.
  destruct y; cbn [length forallb] in *; [apply IH; lia | lia].
Qed.

Lemma firstn_prefix {X : Type} (pre post : list X) :
  firstn (length (pre ++ post) - length post) (pre ++ post) = pre.
Proof.
  rewrite length_app, Nat.add_sub, firstn_app, Nat.sub_diag, firstn_all.
  cbn. apply app_nil_r.
Qed.

Lemma first_enabled_Some rs s s' :
  first_enabled rs s = Some s' -> exists r, In r rs /\ step_rank r s = Some s'.
Proof.
  induction rs as [| r rs IH]; cbn; [discriminate |].
  destruct (step_rank r s) as [s1 |] eqn:E.
  - intros H. inversion H; subst. exists r. split; [now left | assumption].
  - intros H. destruct (IH H) as (r' & Hin & Hr'). exists r'.
    split; [now right | assumption].
Qed.

Lemma first_enabled_None rs s :
  first_enabled rs s = None -> forall r, In r rs -> step_rank r s = None.
Proof.
  induction rs as [| r rs IH]; cbn; [intros _ r [] |].
  destruct (step_rank r s) as [s1 |] eqn:E; [discriminate |].
  intros H r' [<- | Hin]; [assumption | now apply IH].
Qed.

Lemma matches_self src dst tg data :
  matches src dst tg (mkMsg src dst tg data) = true.
Proof. unfold matches. cbn. now rewrite !Z.eqb_refl. Qed.

Lemma matches_other src dst src' dst' tg m :
  matches src dst tg m = true -> (src, dst) <> (src', dst') ->
  matches src' dst' tg m = false.
Proof.
  unfold matches. intros H Hne.
  apply andb_true_iff in H as [H Ht]. apply andb_true_iff in H as [Hs Hd].
  apply Z.eqb_eq in Hs, Hd.
  destruct (Z.eqb_spec (msg_src m) src'), (Z.eqb_spec (msg_dst m) dst');
    cbn; try reflexivity.
  exfalso. apply Hne. congruence.
Qed.

Section Phase.
Variable code : nat -> list mpi_op.
Variable w0 : list proc.
Variables tg bs br : Z.
Hypothesis Hcode : phase_code code w0 tg bs br.

Lemma done_ops_todo s r pre ops :
  todo s !! r = Some ops -> code r = pre ++ ops -> done_ops code s r = pre.
Proof.
  unfold done_ops. intros -> ->. cbn [default]. apply firstn_prefix.
Qed.

Lemma replay_app r ops op :
  replay code w0 r (ops ++ [op]) =
  local_exec code w0 (Z.of_nat r) (replay code w0 r ops) op.
Proof. unfold replay. now rewrite fold_left_app. Qed.

Lemma local_exec_frame r p op :
  buf_of op = (if is_send op then bs else br) ->
  let p' := local_exec code w0 r p op in
  get_temp p' bs = get_temp p bs /\
  material p' = material p /\ temperature p' = temperature p /\
  local_material p' = local_material p /\
  displs p' = displs p /\ sendcounts p' = sendcounts p.
Proof.
  destruct Hcode as [_ _ _ Hsep _ _]. intros Hbuf. cbn zeta.
  destruct op as [buf off count ty d t | buf off count ty src t]; cbn in *.
  - repeat split.
  - destruct (src =? MPI_PROC_NULL); [repeat split |]. subst buf.
    rewrite get_set_temp_ne by congruence.
    destruct (set_temp_fields p br
      (unpack (get_temp p br) off count ty (payload code w0 src r)))
      as (-> & -> & -> & -> & ->).
    repeat split.
Qed.

Lemma replay_frame r ops :
  (forall op, In op ops -> In op (code r)) ->
  let p := rank_of w0 (Z.of_nat r) in
  let p' := replay code w0 r ops in
  get_temp p' bs = get_temp p bs /\
  material p' = material p /\ temperature p' = temperature p /\
  local_material p' = local_material p /\
  displs p' = displs p /\ sendcounts p' = sendcounts p.
Proof.
  cbn zeta. induction ops as [| op ops IH] using rev_ind; intros Hin.
  - repeat split.
  - rewrite replay_app.
    destruct (local_exec_frame (Z.of_nat r) (replay code w0 r ops) op)
      as (-> & -> & -> & -> & -> & ->).
    + apply (code_bufs _ _ _ _ _ Hcode r). apply Hin, in_or_app. right. now left.
    + apply IH. intros op' Hop'. apply Hin, in_or_app. now left.
Qed.

(** The state around one call of rank [r]. *)
Section Step.
Variables (s : net) (r : nat) (pre : list mpi_op) (op : mpi_op)
          (ops : list mpi_op) (P : list proc) (Q : list message).
Hypothesis Htodo : todo s !! r = Some (op :: ops).
Hypothesis Hpre : code r = pre ++ op :: ops.

Let s' := mkNet P (<[r := ops]> (todo s)) Q.

Lemma done_before : done_ops code s r = pre.
Proof. now apply (done_ops_todo s r pre (op :: ops)). Qed.

Lemma done_after : done_ops code s' r = pre ++ [op].
Proof.
  apply (done_ops_todo s' r (pre ++ [op]) ops).
  - cbn. apply list_lookup_insert_eq. now apply lookup_lt_Some in Htodo.
  - now rewrite <- app_assoc.
Qed.

Lemma done_elsewhere r' : r' <> r -> done_ops code s' r' = done_ops code s r'.
Proof.
  intros Hne. unfold done_ops. cbn [todo s'].
  now rewrite list_lookup_insert_ne by congruence.
Qed.

Lemma sent_after src dst :
  sent code s' src dst =
  sent code s src dst || (Nat.eqb src r && is_send_to (Z.of_nat dst) op).
Proof.
  unfold sent. destruct (Nat.eqb_spec src r) as [-> | Hne].
  - rewrite done_after, done_before, existsb_app. cbn.
    now rewrite orb_false_r.
  - rewrite done_elsewhere by assumption. cbn. now rewrite orb_false_r.
Qed.

Lemma received_after dst src :
  received code s' dst src =
  received code s dst src || (Nat.eqb dst r && is_recv_from (Z.of_nat src) op).
Proof.
  unfold received. destruct (Nat.eqb_spec dst r) as [-> | Hne].
  - rewrite done_after, done_before, existsb_app. cbn.
    now rewrite orb_false_r.
  - rewrite done_elsewhere by assumption. cbn. now rewrite orb_false_r.
Qed.

Lemma suffix_after r' ops' :
  (forall r ops, todo s !! r = Some ops -> exists pre, code r = pre ++ ops) ->
  todo s' !! r' = Some ops' -> exists pre', code r' = pre' ++ ops'.
Proof.
  intros Hsuf. cbn [todo s']. destruct (Nat.eq_dec r' r) as [-> | Hne].
  - rewrite list_lookup_insert_eq by (now apply lookup_lt_Some in Htodo).
    intros [= <-]. exists (pre ++ [op]). now rewrite <- app_assoc.
  - rewrite list_lookup_insert_ne by congruence. apply Hsuf.
Qed.

End Step.

End Phase.

Section PhaseRun.
Variable code : nat -> list mpi_op.
Variable w0 : list proc.
Variables tg bs br : Z.
Hypothesis Hcode : phase_code code w0 tg bs br.

Lemma null_not_rank (d : nat) : (MPI_PROC_NULL =? Z.of_nat d) = false.
Proof. apply Z.eqb_neq. unfold MPI_PROC_NULL. lia. Qed.

Lemma payload_of_send r pre buf off count ty d t post :
  code r = pre ++ MPI_Send buf off count ty d t :: post ->
  d <> MPI_PROC_NULL ->
  payload code w0 (Z.of_nat r) d =
  pack (get_temp (rank_of w0 (Z.of_nat r)) buf) off count ty.
Proof.
  intros Hpre Hd. unfold payload. rewrite Nat2Z.id, Hpre.
  rewrite (find_app_first (is_send_to d) pre
             (MPI_Send buf off count ty d t) post); [reflexivity | |].
  - apply (code_send_once _ _ _ _ _ Hcode r pre _ post d Hpre Hd).
    cbn. apply Z.eqb_refl.
  - cbn. apply Z.eqb_refl.
Qed.

Lemma phase_inv_step s r s' :
  phase_inv code w0 tg s -> step_rank r s = Some s' ->
  phase_inv code w0 tg s' /\ (pending s' + 1 = pending s)%nat.
Proof.
  intros Hinv Hstep. unfold step_rank in Hstep.
  destruct (procs s !! r) as [p |] eqn:Ep; [| discriminate].
  destruct (todo s !! r) as [[| op ops] |] eqn:Et; try discriminate.
  destruct (exec_op (Z.of_nat r) op p (pool s)) as [[p' pool'] |] eqn:Ex;
    [| discriminate].
  inversion Hstep; subst s'; clear Hstep.
  destruct Hinv as [Lp Lt Hsuf Hmem Hpool Hcaus].
  destruct (Hsuf r _ Et) as [pre Hpre].
  assert (Hr : (r < length w0)%nat) by (apply lookup_lt_Some in Ep; lia).
  assert (HopIn : In op (code r))
    by (rewrite Hpre; apply in_or_app; right; now left).
  pose proof (done_before code s r pre op ops Et Hpre) as Db.
  assert (Hp : p = replay code w0 r pre) by (rewrite <- Db; apply Hmem, Ep).
  pose proof (code_tag _ _ _ _ _ Hcode r op HopIn) as Htag.
  pose proof (code_bufs _ _ _ _ _ Hcode r op HopIn) as Hbuf.
  pose proof (code_peer _ _ _ _ _ Hcode r op Hr HopIn) as Hpeer.
  split; [| unfold pending; cbn [todo]; now apply sum_lengths_insert with (x := op)].
  set (P := <[r := p']> (procs s)).
  pose proof (sent_after code s r pre op ops P pool' Et Hpre) as Hsent.
  pose proof (received_after code s r pre op ops P pool' Et Hpre) as Hrecv.
  pose proof (done_after code s r pre op ops P pool' Et Hpre) as Da.
  pose proof (done_elsewhere code s r ops P pool') as De.
  pose proof (suffix_after code s r pre op ops P pool' Et Hpre) as Hsuf'.
  cbv zeta in Hsent, Hrecv, Da, De, Hsuf'.
  set (s' := mkNet P (<[r := ops]> (todo s)) pool') in *.
  assert (Hkey :
    p' = replay code w0 r (pre ++ [op]) /\
    (forall src dst, (src < length w0)%nat -> (dst < length w0)%nat ->
       List.filter (matches (Z.of_nat src) (Z.of_nat dst) tg) pool' =
       if sent code s' src dst && negb (received code s' dst src)
       then [mkMsg (Z.of_nat src) (Z.of_nat dst) tg
                   (payload code w0 (Z.of_nat src) (Z.of_nat dst))]
       else []) /\
    (forall src dst, (src < length w0)%nat -> (dst < length w0)%nat ->
       received code s' dst src = true -> sent code s' src dst = true)).
  { rewrite replay_app, <- Hp.
    destruct op as [buf off count ty d t | buf off count ty src0 t];
      cbn in Ex, Htag, Hbuf, Hpeer; subst t.
    - (* a send *)
      assert (Hrecv' : forall dst src,
                received code s' dst src = received code s dst src).
      { intros dst src. rewrite Hrecv. cbn. now rewrite andb_false_r, orb_false_r. }
      destruct (Z.eqb_spec d MPI_PROC_NULL) as [-> | Hd].
      + inversion Ex; subst p' pool'. split; [reflexivity |].
        assert (Hsent' : forall src dst,
                  sent code s' src dst = sent code s src dst).
        { intros src dst. rewrite Hsent. cbn [is_send_to].
          now rewrite null_not_rank, andb_false_r, orb_false_r. }
        split.
        * intros src dst Hs Hd. rewrite Hsent', Hrecv'. now apply Hpool.
        * intros src dst Hs Hd. rewrite Hsent', Hrecv'. now apply Hcaus.
      + inversion Ex; subst p' pool'. split; [reflexivity |].
        destruct Hpeer as [Hnull | Hrange]; [contradiction |].
        assert (Ed : d = Z.of_nat (Z.to_nat d)) by lia.
        assert (Hdn : (Z.to_nat d < length w0)%nat) by lia.
        set (dn := Z.to_nat d) in *.
        assert (Hdata : pack (get_temp p buf) off count ty =
                        payload code w0 (Z.of_nat r) d).
        { rewrite (payload_of_send r pre buf off count ty d tg ops Hpre Hd).
          rewrite Hbuf, Hp. cbn.
          destruct (replay_frame code w0 tg bs br Hcode r pre) as (-> & _);
            [| reflexivity].
          intros op' Hop'. rewrite Hpre. apply in_or_app. now left. }
        assert (Hnot : sent code s r dn = false).
        { unfold sent. rewrite Db.
          apply (code_send_once _ _ _ _ _ Hcode r pre _ ops (Z.of_nat dn) Hpre).
          - now rewrite <- Ed.
          - cbn. rewrite <- Ed. apply Z.eqb_refl. }
        split.
        * intros src dst Hs Hdst. rewrite List.filter_app, Hpool by assumption.
          rewrite Hsent, Hrecv'. cbn [List.filter is_send_to].
          destruct (Nat.eqb_spec src r) as [-> | Hne].
          -- destruct (Z.eqb_spec d (Z.of_nat dst)) as [Hdd | Hdd].
             ++ assert (dst = dn) by lia. subst dst. rewrite Hnot. cbn [orb andb].
                assert (Hnr : received code s dn r = false).
                { destruct (received code s dn r) eqn:E; [| reflexivity].
                  apply Hcaus in E; [congruence | assumption | assumption]. }
                rewrite Hnr. cbn [negb andb app]. rewrite Hdata, <- Ed.
                now rewrite matches_self.
             ++ rewrite andb_false_r, orb_false_r.
                replace (matches (Z.of_nat r) (Z.of_nat dst) tg _) with false.
                { now rewrite app_nil_r. }
                symmetry. unfold matches. cbn.
                destruct (Z.eqb_spec d (Z.of_nat dst)); [contradiction |].
                now rewrite andb_false_r.
          -- cbn [andb]. rewrite orb_false_r.
             replace (matches (Z.of_nat src) (Z.of_nat dst) tg _) with false.
             { now rewrite app_nil_r. }
             symmetry. unfold matches. cbn.
             destruct (Z.eqb_spec (Z.of_nat r) (Z.of_nat src)); [lia | reflexivity].
        * intros src dst Hs Hdst. rewrite Hrecv', Hsent. intros Hrc.
          rewrite (Hcaus src dst Hs Hdst Hrc). reflexivity.
    - (* a receive *)
      assert (Hsent' : forall src dst,
                sent code s' src dst = sent code s src dst).
      { intros src dst. rewrite Hsent. cbn. now rewrite andb_false_r, orb_false_r. }
      destruct (Z.eqb_spec src0 MPI_PROC_NULL) as [-> | Hsrc].
      + inversion Ex; subst p' pool'. split; [reflexivity |].
        assert (Hrecv' : forall dst src,
                  received code s' dst src = received code s dst src).
        { intros dst src. rewrite Hrecv. cbn [is_recv_from].
          now rewrite null_not_rank, andb_false_r, orb_false_r. }
        split.
        * intros src dst Hs Hd. rewrite Hsent', Hrecv'. now apply Hpool.
        * intros src dst Hs Hd. rewrite Hsent', Hrecv'. now apply Hcaus.
      + destruct (take_first (matches src0 (Z.of_nat r) tg) (pool s))
          as [[m rest] |] eqn:Etake; [| discriminate].
        inversion Ex; subst p' pool'. clear Ex.
        destruct Hpeer as [Hnull | Hrange]; [contradiction |].
        assert (Es : src0 = Z.of_nat (Z.to_nat src0)) by lia.
        assert (Hsn : (Z.to_nat src0 < length w0)%nat) by lia.
        set (sn := Z.to_nat src0) in *.
        destruct (take_first_Some _ _ _ _ Etake) as (Hm & Hfil & Hother).
        rewrite Es in Hfil. rewrite (Hpool sn r Hsn Hr) in Hfil.
        destruct (sent code s sn r && negb (received code s r sn)) eqn:Efl;
          [| discriminate].
        apply andb_true_iff in Efl as [Esent Erecv].
        inversion Hfil as [[Em Erest]]. clear Hfil.
        split.
        { cbn [msg_data local_exec].
          destruct (Z.eqb_spec src0 MPI_PROC_NULL) as [? | _]; [contradiction |].
          now rewrite <- Es. }
        split.
        * intros src dst Hs Hdst. rewrite Hsent', Hrecv.
          destruct (Nat.eqb_spec dst r) as [-> | Hne].
          -- cbn [andb is_recv_from].
             destruct (Z.eqb_spec src0 (Z.of_nat src)) as [Hss | Hss].
             ++ assert (src = sn) by lia. subst src.
                rewrite orb_true_r. cbn [negb]. rewrite andb_false_r.
                now rewrite <- Erest.
             ++ rewrite orb_false_r. rewrite <- (Hpool src r Hs Hr).
                apply Hother. intros x Hx.
                apply (matches_other _ _ _ _ _ _ Hx). intros [= E1]. contradiction.
          -- cbn [andb]. rewrite orb_false_r. rewrite <- (Hpool src dst Hs Hdst).
             apply Hother. intros x Hx.
             apply (matches_other _ _ _ _ _ _ Hx). intros [= E1 E2]. lia.
        * intros src dst Hs Hdst. rewrite Hsent', Hrecv. intros Hrc.
          apply orb_true_iff in Hrc as [Hrc | Hrc]; [now apply Hcaus |].
          apply andb_true_iff in Hrc as [Hdr Hfrom].
          apply Nat.eqb_eq in Hdr. subst dst. cbn in Hfrom.
          apply Z.eqb_eq in Hfrom. assert (src = sn) by lia. now subst src. }
  destruct Hkey as (Kmem & Kpool & Kcaus).
  constructor.
  - cbn. unfold P. now rewrite length_insert.
  - cbn. now rewrite length_insert.
  - intros r' ops' H. now apply (Hsuf' r' ops' Hsuf).
  - intros r' q Hq. cbn [procs s'] in Hq. unfold P in Hq.
    destruct (Nat.eq_dec r' r) as [-> | Hne].
    + rewrite list_lookup_insert_eq in Hq by (now apply lookup_lt_Some in Ep).
      inversion Hq; subst q. now rewrite Da.
    + rewrite list_lookup_insert_ne in Hq by congruence.
      rewrite De by assumption. now apply Hmem.
  - exact Kpool.
  - exact Kcaus.
Qed.

End PhaseRun.

Section PhaseTotal.
Variable code : nat -> list mpi_op.
Variable w0 : list proc.
Variables tg bs br : Z.
Hypothesis Hcode : phase_code code w0 tg bs br.

Lemma rank_of_nat_lookup (w : list proc) (r : nat) p :
  w !! r = Some p -> rank_of w (Z.of_nat r) = p.
Proof.
  intros H. unfold rank_of, aget. destruct (Z.leb_spec 0 (Z.of_nat r)); [| lia].
  rewrite Nat2Z.id. now apply nth_lookup_Some.
Qed.

Lemma phase_inv_init :
  phase_inv code w0 tg (mkNet w0 (map code (seq 0 (length w0))) []).
Proof.
  assert (Hlook : forall r ops,
            map code (seq 0 (length w0)) !! r = Some ops ->
            (r < length w0)%nat /\ ops = code r).
  { intros r ops H. change (map code ?l) with (code <$> l) in H.
    rewrite list_lookup_fmap in H.
    destruct (seq 0 (length w0) !! r) as [k |] eqn:E; [| discriminate].
    apply lookup_seq in E as [-> Hlt]. cbn in H. inversion H. auto. }
  assert (Hdone : forall r, (r < length w0)%nat ->
            done_ops code (mkNet w0 (map code (seq 0 (length w0))) []) r = []).
  { intros r Hr. unfold done_ops. cbn [todo].
    change (map code ?l) with (code <$> l).
    rewrite list_lookup_fmap, lookup_seq_lt by assumption. cbn.
    now rewrite Nat.sub_diag. }
  constructor; cbn [procs todo pool].
  - reflexivity.
  - now rewrite length_map, length_seq.
  - intros r ops H. destruct (Hlook r ops H) as [_ ->]. now exists [].
  - intros r p H. rewrite Hdone by (now apply lookup_lt_Some in H).
    symmetry. now apply rank_of_nat_lookup.
  - intros src dst Hs Hd. unfold sent. now rewrite Hdone.
  - intros src dst Hs Hd. unfold received. now rewrite Hdone.
Qed.

(** A send, a call on [MPI_PROC_NULL], and a receive whose message has been
    sent can complete. *)
Lemma step_enabled s r op ops :
  phase_inv code w0 tg s -> todo s !! r = Some (op :: ops) ->
  is_send op = true \/ peer_of op = MPI_PROC_NULL \/
  (exists sn, peer_of op = Z.of_nat sn /\ (sn < length w0)%nat /\
              sent code s sn r = true) ->
  exists s', step_rank r s = Some s'.
Proof.
  intros [Lp Lt Hsuf Hmem Hpool Hcaus] Et Hen. unfold step_rank. rewrite Et.
  assert (Hr : (r < length w0)%nat) by (apply lookup_lt_Some in Et; lia).
  destruct (lookup_lt_is_Some_2 (procs s) r ltac:(lia)) as [p Ep]. rewrite Ep.
  destruct (Hsuf r _ Et) as [pre Hpre].
  assert (HopIn : In op (code r))
    by (rewrite Hpre; apply in_or_app; right; now left).
  pose proof (code_tag _ _ _ _ _ Hcode r op HopIn) as Htag.
  destruct op as [buf off count ty d t | buf off count ty src0 t]; cbn in *.
  - destruct (d =? MPI_PROC_NULL); eauto.
  - destruct (Z.eqb_spec src0 MPI_PROC_NULL) as [| Hsrc]; [eauto |].
    destruct Hen as [Hen | [Hen | (sn & -> & Hsn & Hsent)]];
      [discriminate | contradiction |].
    subst t.
    destruct (take_first (matches (Z.of_nat sn) (Z.of_nat r) tg) (pool s))
      as [[m rest] |] eqn:Etake; [eauto |].
    exfalso. apply take_first_None in Etake.
    rewrite (Hpool sn r Hsn Hr), Hsent in Etake.
    assert (Hnr : received code s r sn = false).
    { unfold received. rewrite (done_ops_todo code s r pre _ Et Hpre).
      apply (code_recv_once _ _ _ _ _ Hcode r pre _ ops (Z.of_nat sn) Hpre Hsrc).
      cbn. apply Z.eqb_refl. }
    rewrite Hnr in Etake. discriminate.
Qed.

Lemma finished_replay s :
  phase_inv code w0 tg s -> finished s = true ->
  forall r, (r < length w0)%nat ->
    procs s !! r = Some (replay code w0 r (code r)).
Proof.
  intros [Lp Lt Hsuf Hmem Hpool Hcaus] Hfin r Hr.
  destruct (lookup_lt_is_Some_2 (procs s) r ltac:(lia)) as [p Ep].
  destruct (lookup_lt_is_Some_2 (todo s) r ltac:(lia)) as [ops Et].
  rewrite Ep. f_equal. rewrite (Hmem r p Ep). f_equal.
  unfold finished in Hfin. rewrite forallb_forall in Hfin.
  assert (Hin : In ops (todo s))
    by (apply list_elem_of_In, list_elem_of_lookup; eauto).
  specialize (Hfin ops Hin). destruct ops; [| discriminate].
  unfold done_ops. rewrite Et. cbn. rewrite Nat.sub_0_r. apply firstn_all.
Qed.

(** Some rank can always move until all are done. *)
Hypothesis Hprogress :
  forall s, phase_inv code w0 tg s -> finished s = false ->
    exists r, (r < length w0)%nat /\ step_rank r s <> None.

Lemma run_finishes fuel s :
  phase_inv code w0 tg s -> (pending s <= fuel)%nat ->
  phase_inv code w0 tg (run fuel s) /\ finished (run fuel s) = true.
Proof.
  revert s. induction fuel as [| fuel IH]; intros s Hinv Hfuel.
  - cbn. split; [assumption |]. unfold finished, pending in *.
    apply sum_lengths_zero. lia.
  - cbn [run].
    destruct (first_enabled (seq 0 (length (procs s))) s) as [s' |] eqn:Efe.
    + apply first_enabled_Some in Efe as (r & _ & Hstep).
      destruct (phase_inv_step code w0 tg bs br Hcode s r s' Hinv Hstep)
        as [Hinv' Hpend].
      apply IH; [assumption | lia].
    + split; [assumption |]. destruct (finished s) eqn:Efin; [reflexivity |].
      destruct (Hprogress s Hinv Efin) as (r & Hr & Hstep).
      exfalso. apply Hstep.
      apply (first_enabled_None _ _ Efe). apply in_seq.
      rewrite (inv_procs_len _ _ _ _ Hinv). lia.
Qed.

Lemma run_phase_replay :
  exists w', run_phase w0 code = Some w' /\ length w' = length w0 /\
    forall r, (r < length w0)%nat ->
      w' !! r = Some (replay code w0 r (code r)).
Proof.
  unfold run_phase.
  set (s0 := mkNet w0 (map code (seq 0 (length w0))) []).
  destruct (run_finishes (pending s0) s0 phase_inv_init (Nat.le_refl _))
    as [Hinv Hfin].
  rewrite Hfin. eexists. split; [reflexivity |].
  split; [apply (inv_procs_len _ _ _ _ Hinv) |].
  now apply finished_replay.
Qed.

End PhaseTotal.

(** ** Neighbours *)

Section Neighbours.
Variable c : config.
Hypothesis Hc : config_ok c.

Lemma cart_at_spec x y :
  (0 <= x < dims0 c /\ 0 <= y < dims1 c /\ cart_at c x y = MPI_Cart_rank c x y) \/
  (~ (0 <= x < dims0 c /\ 0 <= y < dims1 c) /\ cart_at c x y = MPI_PROC_NULL).
Proof.
  unfold cart_at.
  destruct (Z.leb_spec 0 x), (Z.ltb_spec x (dims0 c)),
           (Z.leb_spec 0 y), (Z.ltb_spec y (dims1 c)); cbn;
    first [left; repeat split; lia | right; split; [lia | reflexivity]].
Qed.

Lemma cart_rank_not_null x y :
  0 <= x < dims0 c -> 0 <= y < dims1 c -> MPI_Cart_rank c x y <> MPI_PROC_NULL.
Proof.
  intros Hx Hy. pose proof (cart_rank_range c x y Hx Hy).
  unfold MPI_PROC_NULL. lia.
Qed.

Lemma cart_at_valid x y :
  cart_at c x y <> MPI_PROC_NULL ->
  0 <= x < dims0 c /\ 0 <= y < dims1 c /\ cart_at c x y = MPI_Cart_rank c x y /\
  0 <= cart_at c x y < size c /\
  coords0 c (cart_at c x y) = x /\ coords1 c (cart_at c x y) = y.
Proof.
  intros Hne. destruct (cart_at_spec x y) as [(Hx & Hy & E) | [_ E]];
    [| contradiction].
  rewrite E. unfold coords0, coords1. rewrite cart_coords_rank by lia.
  repeat split; try lia; apply cart_rank_range; assumption.
Qed.

Lemma cart_at_inj x y x' y' :
  cart_at c x y <> MPI_PROC_NULL -> cart_at c x y = cart_at c x' y' ->
  x = x' /\ y = y'.
Proof.
  intros Hne He.
  destruct (cart_at_valid x y Hne) as (Hx & Hy & E & _).
  assert (Hne' : cart_at c x' y' <> MPI_PROC_NULL) by congruence.
  destruct (cart_at_valid x' y' Hne') as (Hx' & Hy' & E' & _).
  rewrite E, E' in He. now apply cart_rank_inj in He.
Qed.

(** Two directions never name the same rank. *)
Lemma neighbours_distinct r :
  (north c r = south c r -> north c r = MPI_PROC_NULL) /\
  (north c r = west c r -> north c r = MPI_PROC_NULL) /\
  (north c r = east c r -> north c r = MPI_PROC_NULL) /\
  (south c r = west c r -> south c r = MPI_PROC_NULL) /\
  (south c r = east c r -> south c r = MPI_PROC_NULL) /\
  (west c r = east c r -> west c r = MPI_PROC_NULL).
Proof.
  unfold north, south, west, east, MPI_Cart_shift. cbn [Z.eqb fst snd].
  repeat split; intros He;
    match goal with
    | |- ?n = MPI_PROC_NULL =>
        destruct (Z.eq_dec n MPI_PROC_NULL) as [| Hne]; [assumption |];
        apply (cart_at_inj _ _ _ _ Hne) in He; lia
    end.
Qed.

(** The rank a neighbour names has this rank as its opposite neighbour. *)
Lemma north_valid r :
  0 <= r < size c -> north c r <> MPI_PROC_NULL ->
  0 <= north c r < size c /\ south c (north c r) = r /\
  coords1 c (north c r) = coords1 c r - 1.
Proof.
  intros Hr Hne. destruct (cart_rank_coords c Hc r Hr) as (Er & C0 & C1).
  unfold north, MPI_Cart_shift in *. cbn [Z.eqb fst snd] in *.
  fold (coords0 c r) in *. fold (coords1 c r) in *.
  destruct (cart_at_valid _ _ Hne) as (Hx & Hy & E & Hrange & X0 & X1).
  split; [assumption |]. split; [| assumption].
  unfold south, MPI_Cart_shift. cbn [Z.eqb fst snd].
  fold (coords0 c (cart_at c (coords0 c r) (coords1 c r - 1))).
  fold (coords1 c (cart_at c (coords0 c r) (coords1 c r - 1))).
  rewrite X0, X1. replace (coords1 c r - 1 + 1) with (coords1 c r) by lia.
  destruct (cart_at_spec (coords0 c r) (coords1 c r)) as [(_ & _ & ->) | [H _]];
    [assumption | lia].
Qed.

Lemma south_valid r :
  0 <= r < size c -> south c r <> MPI_PROC_NULL ->
  0 <= south c r < size c /\ north c (south c r) = r.
Proof.
  intros Hr Hne. destruct (cart_rank_coords c Hc r Hr) as (Er & C0 & C1).
  unfold south, MPI_Cart_shift in *. cbn [Z.eqb fst snd] in *.
  fold (coords0 c r) in *. fold (coords1 c r) in *.
  destruct (cart_at_valid _ _ Hne) as (Hx & Hy & E & Hrange & X0 & X1).
  split; [assumption |].
  unfold north, MPI_Cart_shift. cbn [Z.eqb fst snd].
  fold (coords0 c (cart_at c (coords0 c r) (coords1 c r + 1))).
  fold (coords1 c (cart_at c (coords0 c r) (coords1 c r + 1))).
  rewrite X0, X1. replace (coords1 c r + 1 - 1) with (coords1 c r) by lia.
  destruct (cart_at_spec (coords0 c r) (coords1 c r)) as [(_ & _ & ->) | [H _]];
    [assumption | lia].
Qed.

Lemma west_valid r :
  0 <= r < size c -> west c r <> MPI_PROC_NULL ->
  0 <= west c r < size c /\ east c (west c r) = r /\
  coords0 c (west c r) = coords0 c r - 1.
Proof.
  intros Hr Hne. destruct (cart_rank_coords c Hc r Hr) as (Er & C0 & C1).
  unfold west, MPI_Cart_shift in *. cbn [Z.eqb fst snd] in *.
  fold (coords0 c r) in *. fold (coords1 c r) in *.
  destruct (cart_at_valid _ _ Hne) as (Hx & Hy & E & Hrange & X0 & X1).
  split; [assumption |]. split; [| assumption].
  unfold east, MPI_Cart_shift. cbn [Z.eqb fst snd].
  fold (coords0 c (cart_at c (coords0 c r - 1) (coords1 c r))).
  fold (coords1 c (cart_at c (coords0 c r - 1) (coords1 c r))).
  rewrite X0, X1. replace (coords0 c r - 1 + 1) with (coords0 c r) by lia.
  destruct (cart_at_spec (coords0 c r) (coords1 c r)) as [(_ & _ & ->) | [H _]];
    [assumption | lia].
Qed.

Lemma east_valid r :
  0 <= r < size c -> east c r <> MPI_PROC_NULL ->
  0 <= east c r < size c /\ west c (east c r) = r.
Proof.
  intros Hr Hne. destruct (cart_rank_coords c Hc r Hr) as (Er & C0 & C1).
  unfold east, MPI_Cart_shift in *. cbn [Z.eqb fst snd] in *.
  fold (coords0 c r) in *. fold (coords1 c r) in *.
  destruct (cart_at_valid _ _ Hne) as (Hx & Hy & E & Hrange & X0 & X1).
  split; [assumption |].
  unfold west, MPI_Cart_shift. cbn [Z.eqb fst snd].
  fold (coords0 c (cart_at c (coords0 c r + 1) (coords1 c r))).
  fold (coords1 c (cart_at c (coords0 c r + 1) (coords1 c r))).
  rewrite X0, X1. replace (coords0 c r + 1 - 1) with (coords0 c r) by lia.
  destruct (cart_at_spec (coords0 c r) (coords1 c r)) as [(_ & _ & ->) | [H _]];
    [assumption | lia].
Qed.

(** At the first row and the first column there is no neighbour. *)
Lemma north_edge r : coords1 c r <= 0 -> north c r = MPI_PROC_NULL.
Proof.
  intros H. unfold north, MPI_Cart_shift. cbn [Z.eqb fst snd].
  fold (coords1 c r).
  destruct (cart_at_spec (MPI_Cart_coords c r).1 (coords1 c r - 1))
    as [(_ & ? & _) | [_ E]]; [lia | exact E].
Qed.

Lemma west_edge r : coords0 c r <= 0 -> west c r = MPI_PROC_NULL.
Proof.
  intros H. unfold west, MPI_Cart_shift. cbn [Z.eqb fst snd].
  fold (coords0 c r).
  destruct (cart_at_spec (coords0 c r - 1) (MPI_Cart_coords c r).2)
    as [(? & _ & _) | [_ E]]; [lia | exact E].
Qed.

End Neighbours.

(** ** [border_exchange] *)

Section BorderExchange.
Variable c : config.
Hypothesis Hc : config_ok c.
Variable step : Z.
Hypothesis Hstep : 0 <= step.
Variable w : list proc.
Hypothesis Hlen : alen w = size c.

Lemma cur_neq_nxt : nxt step <> cur step.
Proof. destruct (cur_nxt step Hstep) as [[-> ->] | [-> ->]]; lia. Qed.

Lemma neighbour_range r :
  (north c r = MPI_PROC_NULL \/ 0 <= north c r < size c) /\
  (south c r = MPI_PROC_NULL \/ 0 <= south c r < size c) /\
  (west c r = MPI_PROC_NULL \/ 0 <= west c r < size c) /\
  (east c r = MPI_PROC_NULL \/ 0 <= east c r < size c).
Proof.
  unfold north, south, west, east, MPI_Cart_shift. cbn [Z.eqb fst snd].
  repeat split;
    match goal with
    | |- ?n = MPI_PROC_NULL \/ _ =>
        destruct (Z.eq_dec n MPI_PROC_NULL) as [| Hne]; [now left | right];
        apply (cart_at_valid c _ _ Hne)
    end.
Qed.

Ltac distinct_neighbours r Hd :=
  destruct (neighbours_distinct c r) as (D1 & D2 & D3 & D4 & D5 & D6);
  repeat match goal with
  | |- (_ || _) = false => apply orb_false_iff; split
  | |- false = false => reflexivity
  | |- (_ =? _) = false =>
      let E := fresh "E" in
      apply Z.eqb_neq; intros E; exfalso; apply Hd;
      repeat match goal with
      | D : _ = _ -> _ |- _ =>
          first [ specialize (D E) | specialize (D (eq_sym E)) | clear D ]
      end;
      congruence
  end.

Lemma border_exchange_code :
  phase_code (fun r => border_exchange_ops c step (Z.of_nat r)) w
             1 (nxt step) (cur step).
Proof.
  constructor.
  - intros r op Hin. cbn in Hin.
    repeat (destruct Hin as [<- | Hin]; [reflexivity |]). destruct Hin.
  - intros r op Hr Hin.
    replace (Z.of_nat (length w)) with (size c) by (now rewrite <- Hlen).
    destruct (neighbour_range (Z.of_nat r)) as (N & S & W & E).
    cbn in Hin.
    repeat (destruct Hin as [<- | Hin]; [assumption |]). destruct Hin.
  - intros r op Hin. cbn in Hin.
    repeat (destruct Hin as [<- | Hin]; [reflexivity |]). destruct Hin.
  - apply cur_neq_nxt.
  - intros r pre op post d Hpre Hd Hsend.
    unfold border_exchange_ops in Hpre. cbv zeta in Hpre.
    do 8 (destruct pre as [| ? pre];
          [ solve [ cbn [app] in Hpre; inversion Hpre; subst;
                    cbn [is_send_to is_recv_from existsb] in Hsend |- *;
                    try discriminate; try reflexivity;
                    apply Z.eqb_eq in Hsend; subst d;
                    distinct_neighbours (Z.of_nat r) Hd ]
          | cbn [app] in Hpre; injection Hpre as <- Hpre ]).
    destruct pre; discriminate.
  - intros r pre op post d Hpre Hd Hrecv.
    unfold border_exchange_ops in Hpre. cbv zeta in Hpre.
    do 8 (destruct pre as [| ? pre];
          [ solve [ cbn [app] in Hpre; inversion Hpre; subst;
                    cbn [is_send_to is_recv_from existsb] in Hrecv |- *;
                    try discriminate; try reflexivity;
                    apply Z.eqb_eq in Hrecv; subst d;
                    distinct_neighbours (Z.of_nat r) Hd ]
          | cbn [app] in Hpre; injection Hpre as <- Hpre ]).
    destruct pre; discriminate.
Qed.

End BorderExchange.

Section BorderProgress.
Variable c : config.
Hypothesis Hc : config_ok c.
Variable step : Z.
Hypothesis Hstep : 0 <= step.
Variable w : list proc.
Hypothesis Hlen : alen w = size c.

Let code := fun r : nat => border_exchange_ops c step (Z.of_nat r).

Variable s : net.
Hypothesis Hinv : phase_inv code w 1 s.

Let enabled := exists r, (r < length w)%nat /\ step_rank r s <> None.

(** Rank [r] has made its first [K] calls. *)
Let at_pc (r K : nat) :=
  todo s !! r = Some (skipn K (code r)) /\ done_ops code s r = firstn K (code r).

Lemma pc_of r :
  (r < length w)%nat -> exists K, (K <= 8)%nat /\ at_pc r K.
Proof.
  intros Hr. destruct Hinv as [Lp Lt Hsuf _ _ _].
  destruct (lookup_lt_is_Some_2 (todo s) r ltac:(lia)) as [ops Et].
  destruct (Hsuf r ops Et) as [pre Hpre].
  exists (length pre). split.
  - apply (f_equal (@length mpi_op)) in Hpre. rewrite length_app in Hpre.
    unfold code in Hpre. cbn in Hpre. lia.
  - split.
    + rewrite Et, Hpre. f_equal. rewrite skipn_app, skipn_all, Nat.sub_diag.
      reflexivity.
    + rewrite (done_ops_todo code s r pre ops Et Hpre), Hpre.
      rewrite firstn_app, firstn_all, Nat.sub_diag. cbn. now rewrite app_nil_r.
Qed.

Lemma rank_nat n :
  0 <= n < size c -> exists n', n = Z.of_nat n' /\ (n' < length w)%nat.
Proof.
  intros Hn. exists (Z.to_nat n). unfold alen in Hlen. split; lia.
Qed.

Lemma enabled_by r K op ops :
  (r < length w)%nat -> at_pc r K -> skipn K (code r) = op :: ops ->
  is_send op = true \/ peer_of op = MPI_PROC_NULL \/
  (exists sn, peer_of op = Z.of_nat sn /\ (sn < length w)%nat /\
              sent code s sn r = true) ->
  enabled.
Proof.
  intros Hr [Et _] Hskip Hen. rewrite Hskip in Et.
  destruct (step_enabled code w 1 (nxt step) (cur step)
              (border_exchange_code c step Hstep w Hlen) s r op ops Hinv Et Hen)
    as [s' Hs'].
  exists r. split; [assumption | congruence].
Qed.

Lemma enabled_send r K :
  (r < length w)%nat -> at_pc r K ->
  K = 0%nat \/ K = 3%nat \/ K = 4%nat \/ K = 7%nat -> enabled.
Proof.
  intros Hr Hpc [-> | [-> | [-> | ->]]];
    eapply (enabled_by r _ _ _ Hr Hpc); try reflexivity; now left.
Qed.

Lemma sent_from_south r n' K :
  south c (Z.of_nat r) = Z.of_nat n' -> (r < length w)%nat ->
  at_pc n' K -> (1 <= K)%nat -> sent code s n' r = true.
Proof.
  intros Hs Hr [_ Hd] HK. unfold sent. rewrite Hd.
  assert (Hn : north c (Z.of_nat n') = Z.of_nat r).
  { rewrite <- Hs. apply south_valid; [assumption | unfold alen in Hlen; lia |].
    rewrite Hs. unfold MPI_PROC_NULL. lia. }
  destruct K as [| K]; [lia |]. unfold code, border_exchange_ops. cbv zeta.
  cbn [firstn existsb is_send_to]. now rewrite Hn, Z.eqb_refl.
Qed.

Lemma sent_from_north r n' K :
  north c (Z.of_nat r) = Z.of_nat n' -> (r < length w)%nat ->
  at_pc n' K -> (4 <= K)%nat -> sent code s n' r = true.
Proof.
  intros Hs Hr [_ Hd] HK. unfold sent. rewrite Hd.
  assert (Hn : south c (Z.of_nat n') = Z.of_nat r).
  { rewrite <- Hs. apply north_valid; [assumption | unfold alen in Hlen; lia |].
    rewrite Hs. unfold MPI_PROC_NULL. lia. }
  do 4 (destruct K as [| K]; [lia |]). unfold code, border_exchange_ops. cbv zeta.
  cbn [firstn existsb is_send_to]. rewrite Hn, Z.eqb_refl.
  now rewrite !orb_true_r.
Qed.

Lemma sent_from_east r n' K :
  east c (Z.of_nat r) = Z.of_nat n' -> (r < length w)%nat ->
  at_pc n' K -> (5 <= K)%nat -> sent code s n' r = true.
Proof.
  intros Hs Hr [_ Hd] HK. unfold sent. rewrite Hd.
  assert (Hn : west c (Z.of_nat n') = Z.of_nat r).
  { rewrite <- Hs. apply east_valid; [assumption | unfold alen in Hlen; lia |].
    rewrite Hs. unfold MPI_PROC_NULL. lia. }
  do 5 (destruct K as [| K]; [lia |]). unfold code, border_exchange_ops. cbv zeta.
  cbn [firstn existsb is_send_to]. rewrite Hn, Z.eqb_refl.
  now rewrite !orb_true_r.
Qed.

Lemma sent_from_west r n' K :
  west c (Z.of_nat r) = Z.of_nat n' -> (r < length w)%nat ->
  at_pc n' K -> (8 <= K)%nat -> sent code s n' r = true.
Proof.
  intros Hs Hr [_ Hd] HK. unfold sent. rewrite Hd.
  assert (Hn : east c (Z.of_nat n') = Z.of_nat r).
  { rewrite <- Hs. apply west_valid; [assumption | unfold alen in Hlen; lia |].
    rewrite Hs. unfold MPI_PROC_NULL. lia. }
  do 8 (destruct K as [| K]; [lia |]). unfold code, border_exchange_ops. cbv zeta.
  cbn [firstn existsb is_send_to]. rewrite Hn, Z.eqb_refl.
  now rewrite !orb_true_r.
Qed.

Lemma enabled_at_2 r : (r < length w)%nat -> at_pc r 2 -> enabled.
Proof.
  intros Hr Hpc.
  destruct (Z.eq_dec (south c (Z.of_nat r)) MPI_PROC_NULL) as [Hnull | Hne].
  - eapply (enabled_by r 2 _ _ Hr Hpc); [reflexivity |]. right. now left.
  - destruct (south_valid c Hc (Z.of_nat r)) as [Hrange _];
      [unfold alen in Hlen; lia | assumption |].
    destruct (rank_nat _ Hrange) as (n' & En & Hn).
    destruct (pc_of n' Hn) as (K & HK & Hpc').
    destruct K as [| K]; [apply (enabled_send n' 0 Hn Hpc'); now left |].
    eapply (enabled_by r 2 _ _ Hr Hpc); [reflexivity |]. right. right.
    exists n'. split; [exact En |]. split; [assumption |].
    apply (sent_from_south r n' (S K) En Hr Hpc'). lia.
Qed.

Lemma enabled_at_1 (j : nat) r :
  (r < length w)%nat -> coords1 c (Z.of_nat r) = Z.of_nat j ->
  at_pc r 1 -> enabled.
Proof.
  revert r. induction j as [| j IH]; intros r Hr Hj Hpc.
  - eapply (enabled_by r 1 _ _ Hr Hpc); [reflexivity |]. right. left.
    apply north_edge. lia.
  - destruct (Z.eq_dec (north c (Z.of_nat r)) MPI_PROC_NULL) as [Hnull | Hne].
    + eapply (enabled_by r 1 _ _ Hr Hpc); [reflexivity |]. right. now left.
    + destruct (north_valid c Hc (Z.of_nat r)) as (Hrange & _ & Hcoord);
        [unfold alen in Hlen; lia | assumption |].
      destruct (rank_nat _ Hrange) as (n' & En & Hn).
      destruct (pc_of n' Hn) as (K & HK & Hpc').
      destruct (le_lt_dec 4 K) as [H4 | H4].
      * eapply (enabled_by r 1 _ _ Hr Hpc); [reflexivity |]. right. right.
        exists n'. split; [exact En |]. split; [assumption |].
        now apply (sent_from_north r n' K En Hr Hpc').
      * destruct K as [| [| [| K]]].
        -- apply (enabled_send n' 0 Hn Hpc'). now left.
        -- apply (IH n' Hn); [rewrite <- En, Hcoord; lia | assumption].
        -- now apply (enabled_at_2 n').
        -- assert (K = 0%nat) by lia. subst K.
           apply (enabled_send n' 3 Hn Hpc'). right. now left.
Qed.

Lemma coord_nat r :
  (r < length w)%nat ->
  exists i j, coords0 c (Z.of_nat r) = Z.of_nat i /\
              coords1 c (Z.of_nat r) = Z.of_nat j.
Proof.
  intros Hr.
  destruct (cart_rank_coords c Hc (Z.of_nat r)) as (_ & C0 & C1);
    [unfold alen in Hlen; lia |].
  exists (Z.to_nat (coords0 c (Z.of_nat r))), (Z.to_nat (coords1 c (Z.of_nat r))).
  split; lia.
Qed.

Lemma enabled_low r K :
  (r < length w)%nat -> at_pc r K -> (K <= 4)%nat -> enabled.
Proof.
  intros Hr Hpc HK. destruct K as [| [| [| [| K]]]].
  - apply (enabled_send r 0 Hr Hpc). now left.
  - destruct (coord_nat r Hr) as (_ & j & _ & Hj). now apply (enabled_at_1 j r).
  - now apply (enabled_at_2 r).
  - apply (enabled_send r 3 Hr Hpc). right. now left.
  - assert (K = 0%nat) by lia. subst K.
    apply (enabled_send r 4 Hr Hpc). right. right. now left.
Qed.

Lemma enabled_at_6 r : (r < length w)%nat -> at_pc r 6 -> enabled.
Proof.
  intros Hr Hpc.
  destruct (Z.eq_dec (east c (Z.of_nat r)) MPI_PROC_NULL) as [Hnull | Hne].
  - eapply (enabled_by r 6 _ _ Hr Hpc); [reflexivity |]. right. now left.
  - destruct (east_valid c Hc (Z.of_nat r)) as [Hrange _];
      [unfold alen in Hlen; lia | assumption |].
    destruct (rank_nat _ Hrange) as (n' & En & Hn).
    destruct (pc_of n' Hn) as (K & HK & Hpc').
    destruct (le_lt_dec 5 K) as [H5 | H5].
    + eapply (enabled_by r 6 _ _ Hr Hpc); [reflexivity |]. right. right.
      exists n'. split; [exact En |]. split; [assumption |].
      now apply (sent_from_east r n' K En Hr Hpc').
    + apply (enabled_low n' K Hn Hpc'). lia.
Qed.

Lemma enabled_at_5 (i : nat) r :
  (r < length w)%nat -> coords0 c (Z.of_nat r) = Z.of_nat i ->
  at_pc r 5 -> enabled.
Proof.
  revert r. induction i as [| i IH]; intros r Hr Hi Hpc.
  - eapply (enabled_by r 5 _ _ Hr Hpc); [reflexivity |]. right. left.
    apply west_edge. lia.
  - destruct (Z.eq_dec (west c (Z.of_nat r)) MPI_PROC_NULL) as [Hnull | Hne].
    + eapply (enabled_by r 5 _ _ Hr Hpc); [reflexivity |]. right. now left.
    + destruct (west_valid c Hc (Z.of_nat r)) as (Hrange & _ & Hcoord);
        [unfold alen in Hlen; lia | assumption |].
      destruct (rank_nat _ Hrange) as (n' & En & Hn).
      destruct (pc_of n' Hn) as (K & HK & Hpc').
      destruct (le_lt_dec 8 K) as [H8 | H8].
      * eapply (enabled_by r 5 _ _ Hr Hpc); [reflexivity |]. right. right.
        exists n'. split; [exact En |]. split; [assumption |].
        now apply (sent_from_west r n' K En Hr Hpc').
      * destruct (le_lt_dec K 4) as [H4 | H4];
          [now apply (enabled_low n' K) |].
        assert (HK3 : K = 5%nat \/ K = 6%nat \/ K = 7%nat) by lia.
        destruct HK3 as [-> | [-> | ->]].
        -- apply (IH n' Hn); [rewrite <- En, Hcoord; lia | assumption].
        -- now apply (enabled_at_6 n').
        -- apply (enabled_send n' 7 Hn Hpc'). right. right. now right.
Qed.

Lemma enabled_unfinished r K :
  (r < length w)%nat -> at_pc r K -> (K < 8)%nat -> enabled.
Proof.
  intros Hr Hpc HK.
  destruct (le_lt_dec K 4) as [H4 | H4]; [now apply (enabled_low r K) |].
  assert (HK3 : K = 5%nat \/ K = 6%nat \/ K = 7%nat) by lia.
  destruct HK3 as [-> | [-> | ->]].
  - destruct (coord_nat r Hr) as (i & _ & Hi & _). now apply (enabled_at_5 i r).
  - now apply (enabled_at_6 r).
  - apply (enabled_send r 7 Hr Hpc). right. right. now right.
Qed.

Lemma border_exchange_progress : finished s = false -> enabled.
Proof.
  intros Hfin. unfold finished in Hfin.
  assert (Hex : exists ops, In ops (todo s) /\ ops <> []).
  { induction (todo s) as [| o t IH]; cbn in Hfin; [discriminate |].
    destruct o as [| op o].
    - destruct (IH Hfin) as (ops & Hin & Hne). exists ops. split; [now right | assumption].
    - exists (op :: o). split; [now left | discriminate]. }
  destruct Hex as (ops & Hin & Hne).
  apply list_elem_of_In, list_elem_of_lookup in Hin as [r Hr].
  assert (Hlt : (r < length w)%nat).
  { apply lookup_lt_Some in Hr. now rewrite (inv_todo_len _ _ _ _ Hinv) in Hr. }
  destruct (pc_of r Hlt) as (K & HK & Hpc).
  apply (enabled_unfinished r K Hlt Hpc).
  destruct Hpc as [Et _]. rewrite Hr in Et. inversion Et; subst ops.
  destruct (le_lt_dec 8 K) as [H8 | H8]; [| assumption].
  exfalso. apply Hne. apply skipn_all2. unfold code. cbn. lia.
Qed.

End BorderProgress.

Section BorderResult.
Variable c : config.
Hypothesis Hc : config_ok c.
Variable step : Z.
Hypothesis Hstep : 0 <= step.
Variable w : list proc.
Hypothesis Hlen : alen w = size c.

Let code := fun r : nat => border_exchange_ops c step (Z.of_nat r).

Lemma border_exchange_replay :
  exists w', border_exchange c step w = Some w' /\ length w' = length w /\
    forall r, (r < length w)%nat -> w' !! r = Some (replay code w r (code r)).
Proof.
  unfold border_exchange.
  apply (run_phase_replay code w 1 (nxt step) (cur step)
           (border_exchange_code c step Hstep w Hlen)).
  intros s Hinv Hfin.
  exact (border_exchange_progress c Hc step Hstep w Hlen s Hinv Hfin).
Qed.

Lemma cells_single lo hi :
  cells lo hi 0 1 = map (fun x => (x, 0)) (seqZ lo (hi - lo)).
Proof.
  unfold cells. change (seqZ 0 (1 - 0)) with [0]. cbn [map].
  apply flat_map_single.
Qed.

Lemma positions_border_row y0 :
  positions (lti c 0 y0) 1 (border_row c) =
  map (fun x => lti c x y0) (seqZ 0 (local_grid_size0 c)).
Proof.
  rewrite positions_one. unfold border_row.
  rewrite typemap_vector, cells_single, !map_map, Z.sub_0_r.
  apply map_ext. intros x. cbn [fst snd]. unfold lti. lia.
Qed.

Lemma positions_border_col x0 :
  positions (lti c x0 0) 1 (border_col c) =
  map (fun y => lti c x0 y) (seqZ 0 (local_grid_size1 c)).
Proof.
  rewrite positions_one. unfold border_col.
  rewrite typemap_vector, cells_single, !map_map, Z.sub_0_r.
  apply map_ext. intros y. cbn [fst snd]. unfold lti, BORDER. lia.
Qed.

Lemma row_transfer (src dst : list f32) y_from y_to :
  unpack dst (lti c 0 y_to) 1 (border_row c)
         (pack src (lti c 0 y_from) 1 (border_row c)) =
  fold_left (fun a x => aset a (lti c x y_to) (rdf src (lti c x y_from)))
            (seqZ 0 (local_grid_size0 c)) dst.
Proof.
  unfold unpack, pack. rewrite !positions_border_row.
  apply (unpack_pack_cells src dst (seqZ 0 (local_grid_size0 c))
           (fun x => lti c x y_from) (fun x => lti c x y_to)).
Qed.

Lemma col_transfer (src dst : list f32) x_from x_to :
  unpack dst (lti c x_to 0) 1 (border_col c)
         (pack src (lti c x_from 0) 1 (border_col c)) =
  fold_left (fun a y => aset a (lti c x_to y) (rdf src (lti c x_from y)))
            (seqZ 0 (local_grid_size1 c)) dst.
Proof.
  unfold unpack, pack. rewrite !positions_border_col.
  apply (unpack_pack_cells src dst (seqZ 0 (local_grid_size1 c))
           (fun y => lti c x_from y) (fun y => lti c x_to y)).
Qed.

(** What each neighbour sends to rank [r]. *)
Lemma not_null_of_rank (r : nat) : Z.of_nat r <> MPI_PROC_NULL.
Proof. unfold MPI_PROC_NULL. lia. Qed.

Lemma payload_from_north (r : nat) :
  (r < length w)%nat -> north c (Z.of_nat r) <> MPI_PROC_NULL ->
  payload code w (north c (Z.of_nat r)) (Z.of_nat r) =
  pack (get_temp (rank_of w (north c (Z.of_nat r))) (nxt step))
       (lti c 0 (local_grid_size1 c)) 1 (border_row c).
Proof.
  intros Hr Hne.
  destruct (north_valid c Hc (Z.of_nat r)) as (Hrange & Hback & _);
    [unfold alen in Hlen; lia | assumption |].
  set (N := north c (Z.of_nat r)) in *.
  pose proof (payload_of_send code w 1 (nxt step) (cur step)
    (border_exchange_code c step Hstep w Hlen) (Z.to_nat N)
    (firstn 3 (code (Z.to_nat N))) (nxt step) (lti c 0 (local_grid_size1 c)) 1
    (border_row c) (Z.of_nat r) 1 (skipn 4 (code (Z.to_nat N)))) as Hp.
  rewrite Z2Nat.id in Hp by lia. apply Hp; [| apply not_null_of_rank].
  unfold code, border_exchange_ops. cbv zeta. cbn [firstn skipn app].
  rewrite Z2Nat.id by lia. now rewrite Hback.
Qed.

Lemma payload_from_south (r : nat) :
  (r < length w)%nat -> south c (Z.of_nat r) <> MPI_PROC_NULL ->
  payload code w (south c (Z.of_nat r)) (Z.of_nat r) =
  pack (get_temp (rank_of w (south c (Z.of_nat r))) (nxt step))
       (lti c 0 0) 1 (border_row c).
Proof.
  intros Hr Hne.
  destruct (south_valid c Hc (Z.of_nat r)) as (Hrange & Hback);
    [unfold alen in Hlen; lia | assumption |].
  set (N := south c (Z.of_nat r)) in *.
  pose proof (payload_of_send code w 1 (nxt step) (cur step)
    (border_exchange_code c step Hstep w Hlen) (Z.to_nat N)
    [] (nxt step) (lti c 0 0) 1
    (border_row c) (Z.of_nat r) 1 (skipn 1 (code (Z.to_nat N)))) as Hp.
  rewrite Z2Nat.id in Hp by lia. apply Hp; [| apply not_null_of_rank].
  unfold code, border_exchange_ops. cbv zeta. cbn [firstn skipn app].
  rewrite Z2Nat.id by lia. now rewrite Hback.
Qed.

Lemma payload_from_west (r : nat) :
  (r < length w)%nat -> west c (Z.of_nat r) <> MPI_PROC_NULL ->
  payload code w (west c (Z.of_nat r)) (Z.of_nat r) =
  pack (get_temp (rank_of w (west c (Z.of_nat r))) (nxt step))
       (lti c (local_grid_size0 c - 1) 0) 1 (border_col c).
Proof.
  intros Hr Hne.
  destruct (west_valid c Hc (Z.of_nat r)) as (Hrange & Hback & _);
    [unfold alen in Hlen; lia | assumption |].
  set (N := west c (Z.of_nat r)) in *.
  pose proof (payload_of_send code w 1 (nxt step) (cur step)
    (border_exchange_code c step Hstep w Hlen) (Z.to_nat N)
    (firstn 7 (code (Z.to_nat N))) (nxt step)
    (lti c (local_grid_size0 c - 1) 0) 1
    (border_col c) (Z.of_nat r) 1 []) as Hp.
  rewrite Z2Nat.id in Hp by lia. apply Hp; [| apply not_null_of_rank].
  unfold code, border_exchange_ops. cbv zeta. cbn [firstn skipn app].
  rewrite Z2Nat.id by lia. now rewrite Hback.
Qed.

Lemma payload_from_east (r : nat) :
  (r < length w)%nat -> east c (Z.of_nat r) <> MPI_PROC_NULL ->
  payload code w (east c (Z.of_nat r)) (Z.of_nat r) =
  pack (get_temp (rank_of w (east c (Z.of_nat r))) (nxt step))
       (lti c 0 0) 1 (border_col c).
Proof.
  intros Hr Hne.
  destruct (east_valid c Hc (Z.of_nat r)) as (Hrange & Hback);
    [unfold alen in Hlen; lia | assumption |].
  set (N := east c (Z.of_nat r)) in *.
  pose proof (payload_of_send code w 1 (nxt step) (cur step)
    (border_exchange_code c step Hstep w Hlen) (Z.to_nat N)
    (firstn 4 (code (Z.to_nat N))) (nxt step) (lti c 0 0) 1
    (border_col c) (Z.of_nat r) 1 (skipn 5 (code (Z.to_nat N)))) as Hp.
  rewrite Z2Nat.id in Hp by lia. apply Hp; [| apply not_null_of_rank].
  unfold code, border_exchange_ops. cbv zeta. cbn [firstn skipn app].
  rewrite Z2Nat.id by lia. now rewrite Hback.
Qed.

End BorderResult.

Section HaloLayers.
Variable c : config.
Hypothesis Hc : config_ok c.

Lemma halo_row_spec src sent y_from y_to (a : list f32) :
  alen a = (local_grid_size0 c + 2) * (local_grid_size1 c + 2) ->
  -1 <= y_to <= local_grid_size1 c ->
  let a' := halo_row c src sent y_from y_to a in
  alen a' = alen a /\
  (src <> MPI_PROC_NULL -> forall x, 0 <= x < local_grid_size0 c ->
     rdf a' (lti c x y_to) = rdf sent (lti c x y_from)) /\
  (forall k, (src <> MPI_PROC_NULL -> forall x, 0 <= x < local_grid_size0 c ->
                lti c x y_to <> k) ->
     rdf a' k = rdf a k).
Proof.
  intros La Hy. cbn zeta. unfold halo_row.
  destruct (Z.eqb_spec src MPI_PROC_NULL) as [-> | Hne].
  - split; [reflexivity |]. split; [intros H; contradiction | reflexivity].
  - destruct (writes_spec F32.zero (fun x => lti c x y_to)
      (fun x => rdf sent (lti c x y_from)) (seqZ 0 (local_grid_size0 c)) a)
      as (W1 & W2 & W3).
    + intros x Hx. apply In_seqZ in Hx. rewrite La.
      apply lti_range; [assumption | lia | lia].
    + intros x x' Hx Hx' He. apply In_seqZ in Hx, Hx'.
      apply lti_inj in He as [-> _]; [reflexivity | lia | lia].
    + split; [unfold alen; now rewrite W1 |]. split.
      * intros _ x Hx. apply W2, In_seqZ. lia.
      * intros k Hk. apply W3. intros x Hx. apply In_seqZ in Hx.
        apply Hk; [assumption | lia].
Qed.

Lemma halo_col_spec src sent x_from x_to (a : list f32) :
  alen a = (local_grid_size0 c + 2) * (local_grid_size1 c + 2) ->
  -1 <= x_to <= local_grid_size0 c ->
  let a' := halo_col c src sent x_from x_to a in
  alen a' = alen a /\
  (src <> MPI_PROC_NULL -> forall y, 0 <= y < local_grid_size1 c ->
     rdf a' (lti c x_to y) = rdf sent (lti c x_from y)) /\
  (forall k, (src <> MPI_PROC_NULL -> forall y, 0 <= y < local_grid_size1 c ->
                lti c x_to y <> k) ->
     rdf a' k = rdf a k).
Proof.
  intros La Hx. cbn zeta. unfold halo_col.
  destruct (Z.eqb_spec src MPI_PROC_NULL) as [-> | Hne].
  - split; [reflexivity |]. split; [intros H; contradiction | reflexivity].
  - destruct (writes_spec F32.zero (fun y => lti c x_to y)
      (fun y => rdf sent (lti c x_from y)) (seqZ 0 (local_grid_size1 c)) a)
      as (W1 & W2 & W3).
    + intros y Hy. apply In_seqZ in Hy. rewrite La.
      apply lti_range; [assumption | lia | lia].
    + intros y y' Hy Hy' He. apply In_seqZ in Hy, Hy'.
      apply lti_inj in He as [_ ->]; [reflexivity | lia | lia].
    + split; [unfold alen; now rewrite W1 |]. split.
      * intros _ y Hy. apply W2, In_seqZ. lia.
      * intros k Hk. apply W3. intros y Hy. apply In_seqZ in Hy.
        apply Hk; [assumption | lia].
Qed.

End HaloLayers.

Section BorderCells.
Variable c : config.
Hypothesis Hc : config_ok c.
Variable step : Z.
Hypothesis Hstep : 0 <= step.
Variable w : list proc.
Hypothesis Hlen : alen w = size c.

Let code := fun r : nat => border_exchange_ops c step (Z.of_nat r).
Let sent_by (q : Z) : list f32 := get_temp (rank_of w q) (nxt step).

Lemma cur_is_buffer : cur step = 0 \/ cur step = 1.
Proof. destruct (cur_nxt step Hstep) as [[-> _] | [-> _]]; lia. Qed.

Lemma local_exec_recv r p a off ty src :
  local_exec code w r (set_temp p (cur step) a)
             (MPI_Recv (cur step) off 1 ty src 1) =
  set_temp p (cur step)
    (if src =? MPI_PROC_NULL then a
     else unpack a off 1 ty (payload code w src r)).
Proof.
  cbn [local_exec]. destruct (src =? MPI_PROC_NULL); [reflexivity |].
  now rewrite get_set_temp_eq, set_set_temp by apply cur_is_buffer.
Qed.

Lemma replay_border (r : nat) :
  (r < length w)%nat ->
  let R := Z.of_nat r in
  replay code w r (code r) =
  set_temp (rank_of w R) (cur step)
    (halo_col c (east c R) (sent_by (east c R)) 0 (local_grid_size0 c)
       (halo_col c (west c R) (sent_by (west c R)) (local_grid_size0 c - 1) (-1)
          (halo_row c (south c R) (sent_by (south c R)) 0 (local_grid_size1 c)
             (halo_row c (north c R) (sent_by (north c R))
                (local_grid_size1 c) (-1)
                (get_temp (rank_of w R) (cur step)))))).
Proof.
  intros Hr. cbv zeta. set (R := Z.of_nat r). unfold replay. fold R.
  rewrite <- (set_get_temp (rank_of w R) (cur step)) at 1.
  assert (Hops : code r =
    [ MPI_Send (nxt step) (lti c 0 0) 1 (border_row c) (north c R) 1;
      MPI_Recv (cur step) (lti c 0 (-1)) 1 (border_row c) (north c R) 1;
      MPI_Recv (cur step) (lti c 0 (local_grid_size1 c)) 1 (border_row c)
               (south c R) 1;
      MPI_Send (nxt step) (lti c 0 (local_grid_size1 c)) 1 (border_row c)
               (south c R) 1;
      MPI_Send (nxt step) (lti c 0 0) 1 (border_col c) (west c R) 1;
      MPI_Recv (cur step) (lti c (-1) 0) 1 (border_col c) (west c R) 1;
      MPI_Recv (cur step) (lti c (local_grid_size0 c) 0) 1 (border_col c)
               (east c R) 1;
      MPI_Send (nxt step) (lti c (local_grid_size0 c - 1) 0) 1 (border_col c)
               (east c R) 1 ]) by reflexivity.
  rewrite Hops. clear Hops.
  cbn [fold_left].
  assert (Hsend : forall p buf off count ty d t,
            local_exec code w R p (MPI_Send buf off count ty d t) = p)
    by reflexivity.
  rewrite !Hsend, !local_exec_recv. f_equal. clear Hsend. unfold R. clear R.
  unfold halo_col, halo_row, sent_by, code.
  destruct (Z.eqb_spec (north c (Z.of_nat r)) MPI_PROC_NULL) as [HN | HN];
  destruct (Z.eqb_spec (south c (Z.of_nat r)) MPI_PROC_NULL) as [HS | HS];
  destruct (Z.eqb_spec (west c (Z.of_nat r)) MPI_PROC_NULL) as [HW | HW];
  destruct (Z.eqb_spec (east c (Z.of_nat r)) MPI_PROC_NULL) as [HE | HE];
  rewrite ?(payload_from_north c Hc step Hstep w Hlen r Hr HN),
          ?(payload_from_south c Hc step Hstep w Hlen r Hr HS),
          ?(payload_from_west c Hc step Hstep w Hlen r Hr HW),
          ?(payload_from_east c Hc step Hstep w Hlen r Hr HE),
          ?row_transfer, ?col_transfer;
  reflexivity.
Qed.

End BorderCells.

(** [border_exchange] always completes, and this is what it leaves. *)
Lemma border_exchange_total (c : config) (step : Z) (w : list proc) :
  config_ok c -> 0 <= step -> alen w = size c ->
  (forall r, 0 <= r < size c -> proc_ok c (rank_of w r)) ->
  exists w', border_exchange c step w = Some w' /\ alen w' = alen w /\
    forall r, 0 <= r < size c -> halo_exchanged c step w w' r.
Proof.
  intros Hc Hstep Hlen Hok.
  destruct (border_exchange_replay c Hc step Hstep w Hlen)
    as (w' & Hrun & Hlen' & Hlook).
  exists w'. split; [exact Hrun |]. split; [unfold alen; now rewrite Hlen' |].
  intros r Hr.
  assert (Hrn : (Z.to_nat r < length w)%nat) by (unfold alen in Hlen; lia).
  pose proof (rank_of_nat_lookup w' (Z.to_nat r) _ (Hlook _ Hrn)) as Hp'.
  rewrite (replay_border c Hc step Hstep w Hlen _ Hrn) in Hp'.
  rewrite Z2Nat.id in Hp' by lia.
  destruct (local_grid_size_nonneg c Hc) as [G0 G1].
  destruct (cur_is_buffer step Hstep) as [Hcur | Hcur].
  all: assert (La : alen (get_temp (rank_of w r) (cur step)) =
                    (local_grid_size0 c + 2) * (local_grid_size1 c + 2))
         by (rewrite Hcur; apply (Hok r Hr)).
  all: unfold halo_exchanged; cbv zeta; rewrite Hp';
    rewrite get_set_temp_ne by (apply not_eq_sym, cur_neq_nxt; assumption);
    rewrite get_set_temp_eq by (rewrite Hcur; auto);
    match goal with
    | |- context [set_temp ?p ?i ?b] =>
        destruct (set_temp_fields p i b) as (-> & -> & -> & -> & ->)
    end;
    repeat (split; [reflexivity |]).
  all: set (a := get_temp (rank_of w r) (cur step)) in *;
    destruct (halo_row_spec c Hc (north c r)
                (get_temp (rank_of w (north c r)) (nxt step))
                (local_grid_size1 c) (-1) a La ltac:(lia)) as (L1 & V1 & F1);
    set (b1 := halo_row c (north c r) _ (local_grid_size1 c) (-1) a) in *;
    destruct (halo_row_spec c Hc (south c r)
                (get_temp (rank_of w (south c r)) (nxt step))
                0 (local_grid_size1 c) b1 ltac:(lia) ltac:(lia)) as (L2 & V2 & F2);
    set (b2 := halo_row c (south c r) _ 0 (local_grid_size1 c) b1) in *;
    destruct (halo_col_spec c Hc (west c r)
                (get_temp (rank_of w (west c r)) (nxt step))
                (local_grid_size0 c - 1) (-1) b2 ltac:(lia) ltac:(lia)) as (L3 & V3 & F3);
    set (b3 := halo_col c (west c r) _ (local_grid_size0 c - 1) (-1) b2) in *;
    destruct (halo_col_spec c Hc (east c r)
                (get_temp (rank_of w (east c r)) (nxt step))
                0 (local_grid_size0 c) b3 ltac:(lia) ltac:(lia)) as (L4 & V4 & F4);
    set (b4 := halo_col c (east c r) _ 0 (local_grid_size0 c) b3) in *.
  all: assert (Hdiff : forall x y x' y',
         -1 <= x <= local_grid_size0 c -> -1 <= x' <= local_grid_size0 c ->
         x <> x' \/ y <> y' -> lti c x y <> lti c x' y')
    by (intros x y x' y' Hx Hx' Hd He; apply (lti_inj c) in He; lia).
  all: split; [lia |].
  all: split; [intros HN x Hx; rewrite F4, F3, F2 by (intros; apply Hdiff; lia);
               now apply V1 |].
  all: split; [intros HS x Hx; rewrite F4, F3 by (intros; apply Hdiff; lia);
               now apply V2 |].
  all: split; [intros HW y Hy; rewrite F4 by (intros; apply Hdiff; lia);
               now apply V3 |].
  all: split; [intros HE y Hy; now apply V4 |].
  all: intros k KN KS KW KE; rewrite F4, F3, F2, F1 by assumption; reflexivity.
Qed.

Section Edges.
Variable c : config.
Hypothesis Hc : config_ok c.

Lemma south_edge r :
  0 <= r < size c -> coords1 c r = dims1 c - 1 -> south c r = MPI_PROC_NULL.
Proof.
  intros Hr H. unfold south, MPI_Cart_shift. cbn [Z.eqb fst snd].
  fold (coords1 c r).
  destruct (cart_at_spec c (MPI_Cart_coords c r).1 (coords1 c r + 1))
    as [(_ & ? & _) | [_ E]]; [lia | exact E].
Qed.

Lemma east_edge r :
  0 <= r < size c -> coords0 c r = dims0 c - 1 -> east c r = MPI_PROC_NULL.
Proof.
  intros Hr H. unfold east, MPI_Cart_shift. cbn [Z.eqb fst snd].
  fold (coords0 c r).
  destruct (cart_at_spec c (coords0 c r + 1) (MPI_Cart_coords c r).2)
    as [(? & _ & _) | [_ E]]; [lia | exact E].
Qed.

Lemma lti_differ x y x' y' :
  -1 <= x <= local_grid_size0 c -> -1 <= x' <= local_grid_size0 c ->
  x <> x' \/ y <> y' -> lti c x y <> lti c x' y'.
Proof. intros Hx Hx' Hd He. apply (lti_inj c) in He; lia. Qed.

End Edges.

(** C5. A send or receive whose peer is [MPI_PROC_NULL] completes at once
    in every state, also with no message in flight, and leaves the memory
    of the rank and the messages as they were.  [border_exchange] as a
    whole completes on every mesh; a rank at a mesh edge has
    [MPI_PROC_NULL] as its neighbour on that side, and its ghost cells on
    that side hold afterwards what they held before, in both buffers. *)
Theorem null_neighbour_no_op (c : config) (step : Z) (w : list proc) :
  config_ok c -> 0 <= step -> alen w = size c ->
  (forall r, 0 <= r < size c -> proc_ok c (rank_of w r)) ->
  (forall rank op p pool, In op (border_exchange_ops c step rank) ->
     peer_of op = MPI_PROC_NULL -> exec_op rank op p pool = Some (p, pool)) /\
  exists w', border_exchange c step w = Some w' /\
    forall r, 0 <= r < size c ->
      let p := rank_of w r in
      let p' := rank_of w' r in
      (coords1 c r = 0 -> north c r = MPI_PROC_NULL) /\
      (coords1 c r = dims1 c - 1 -> south c r = MPI_PROC_NULL) /\
      (coords0 c r = 0 -> west c r = MPI_PROC_NULL) /\
      (coords0 c r = dims0 c - 1 -> east c r = MPI_PROC_NULL) /\
      get_temp p' (nxt step) = get_temp p (nxt step) /\
      (north c r = MPI_PROC_NULL -> forall x, 0 <= x < local_grid_size0 c ->
         rdf (get_temp p' (cur step)) (lti c x (-1)) =
         rdf (get_temp p (cur step)) (lti c x (-1))) /\
      (south c r = MPI_PROC_NULL -> forall x, 0 <= x < local_grid_size0 c ->
         rdf (get_temp p' (cur step)) (lti c x (local_grid_size1 c)) =
         rdf (get_temp p (cur step)) (lti c x (local_grid_size1 c))) /\
      (west c r = MPI_PROC_NULL -> forall y, 0 <= y < local_grid_size1 c ->
         rdf (get_temp p' (cur step)) (lti c (-1) y) =
         rdf (get_temp p (cur step)) (lti c (-1) y)) /\
      (east c r = MPI_PROC_NULL -> forall y, 0 <= y < local_grid_size1 c ->
         rdf (get_temp p' (cur step)) (lti c (local_grid_size0 c) y) =
         rdf (get_temp p (cur step)) (lti c (local_grid_size0 c) y)).
Proof.
  intros Hc Hstep Hlen Hok. split.
  - intros rank op p pool _ Hnull. destruct op; cbn in Hnull |- *; subst;
      reflexivity.
  - destruct (border_exchange_total c step w Hc Hstep Hlen Hok)
      as (w' & Hrun & _ & Hex).
    exists w'. split; [exact Hrun |]. intros r Hr. cbv zeta.
    destruct (local_grid_size_nonneg c Hc) as [G0 G1].
    destruct (Hex r Hr) as (Hnxt & _ & _ & _ & _ & _ & _ & _ & _ & _ & _ & Hframe).
    split; [intros H; apply north_edge; lia |].
    split; [intros H; now apply south_edge |].
    split; [intros H; apply west_edge; lia |].
    split; [intros H; now apply east_edge |].
    split; [exact Hnxt |].
    repeat split; intros Hnull z Hz; apply Hframe; intros Hne;
      try contradiction; intros z' Hz'; apply lti_differ; lia.
Qed.

Lemma world_4_lengths :
  alen world_4 = size cfg_2x2_4 /\
  forall r, 0 <= r < size cfg_2x2_4 -> proc_ok cfg_2x2_4 (rank_of world_4 r).
Proof.
  split; [vm_compute; reflexivity |]. intros r Hr.
  destruct (ranks_4 r Hr) as [-> | [-> | [-> | ->]]]; vm_compute; repeat split.
Qed.

Lemma null_neighbour_no_op_witness :
  config_ok cfg_2x2_4 /\ 0 <= 0 /\ alen world_4 = size cfg_2x2_4 /\
  (forall r, 0 <= r < size cfg_2x2_4 -> proc_ok cfg_2x2_4 (rank_of world_4 r)) /\
  exists w', border_exchange cfg_2x2_4 0 world_4 = Some w'.
Proof.
  assert (H1 : config_ok cfg_2x2_4) by (repeat split; reflexivity).
  assert (H2 : 0 <= 0) by lia.
  split; [exact H1 |]. split; [exact H2 |].
  split; [exact (proj1 world_4_lengths) |].
  split; [exact (proj2 world_4_lengths) |].
  destruct (proj2 (null_neighbour_no_op cfg_2x2_4 0 world_4 H1 H2
                     (proj1 world_4_lengths) (proj2 world_4_lengths)))
    as (w' & Hrun & _).
  exists w'. exact Hrun.
Defined.

Lemma entering_4_lengths :
  alen entering_4 = size cfg_2x2_4 /\
  forall r, 0 <= r < size cfg_2x2_4 -> proc_ok cfg_2x2_4 (rank_of entering_4 r).
Proof.
  split; [vm_compute; reflexivity |]. intros r Hr.
  destruct (ranks_4 r Hr) as [-> | [-> | [-> | ->]]]; vm_compute; repeat split.
Qed.

(** C1 (what the code does instead). [border_exchange] completes on every
    mesh, and for every rank with a neighbour in a direction the ghost
    segment of buffer [step % 2] on that side then holds cells of the
    neighbour's other buffer, [(step+1) % 2]: from the north its row
    [local_grid_size[1]] (a ghost row), from the south its row 0, from the
    west its column [local_grid_size[0] - 1], from the east its column 0.
    On the 4 x 4 grid of [main] at step 0, rank 1 has rank 0 to its north
    and receives 10.0 in its top ghost row, while the bottom interior row
    of rank 0's current buffer holds 20.0. *)
Theorem border_exchange_sends_other_buffer (c : config) (step : Z) (w : list proc) :
  config_ok c -> 0 <= step -> alen w = size c ->
  (forall r, 0 <= r < size c -> proc_ok c (rank_of w r)) ->
  (exists w', border_exchange c step w = Some w' /\
     forall r, 0 <= r < size c ->
       let in' := get_temp (rank_of w' r) (cur step) in
       let other := fun q => get_temp (rank_of w q) (nxt step) in
       (north c r <> MPI_PROC_NULL -> forall x, 0 <= x < local_grid_size0 c ->
          rdf in' (lti c x (-1)) =
          rdf (other (north c r)) (lti c x (local_grid_size1 c))) /\
       (south c r <> MPI_PROC_NULL -> forall x, 0 <= x < local_grid_size0 c ->
          rdf in' (lti c x (local_grid_size1 c)) =
          rdf (other (south c r)) (lti c x 0)) /\
       (west c r <> MPI_PROC_NULL -> forall y, 0 <= y < local_grid_size1 c ->
          rdf in' (lti c (-1) y) =
          rdf (other (west c r)) (lti c (local_grid_size0 c - 1) y)) /\
       (east c r <> MPI_PROC_NULL -> forall y, 0 <= y < local_grid_size1 c ->
          rdf in' (lti c (local_grid_size0 c) y) =
          rdf (other (east c r)) (lti c 0 y))) /\
  (exists w4, border_exchange cfg_2x2_4 0 entering_4 = Some w4 /\
     north cfg_2x2_4 1 = 0 /\
     rdf (get_temp (rank_of w4 1) (cur 0)) (lti cfg_2x2_4 0 (-1)) = F32.lit 10 1 /\
     rdf (get_temp (rank_of w4 0) (cur 0))
         (lti cfg_2x2_4 0 (local_grid_size1 cfg_2x2_4 - 1)) = F32.lit 20 1).
Proof.
  intros Hc Hstep Hlen Hok. split.
  - destruct (border_exchange_total c step w Hc Hstep Hlen Hok)
      as (w' & Hrun & _ & Hex).
    exists w'. split; [exact Hrun |]. intros r Hr. cbv zeta.
    destruct (Hex r Hr) as (_ & _ & _ & _ & _ & _ & _ & HN & HS & HW & HE & _).
    repeat split; assumption.
  - eexists. split; [vm_compute; reflexivity |].
    repeat split; vm_compute; reflexivity.
Qed.

Lemma border_exchange_sends_other_buffer_witness :
  config_ok cfg_2x2_4 /\ 0 <= 0 /\ alen entering_4 = size cfg_2x2_4 /\
  (forall r, 0 <= r < size cfg_2x2_4 -> proc_ok cfg_2x2_4 (rank_of entering_4 r)) /\
  exists w', border_exchange cfg_2x2_4 0 entering_4 = Some w'.
Proof.
  assert (H1 : config_ok cfg_2x2_4) by (repeat split; reflexivity).
  assert (H2 : 0 <= 0) by lia.
  split; [exact H1 |]. split; [exact H2 |].
  split; [exact (proj1 entering_4_lengths) |].
  split; [exact (proj2 entering_4_lengths) |].
  destruct (proj1 (border_exchange_sends_other_buffer cfg_2x2_4 0 entering_4 H1 H2
                     (proj1 entering_4_lengths) (proj2 entering_4_lengths)))
    as (w' & Hrun & _).
  exists w'. exact Hrun.
Defined.

(** ** The integration loop *)

Lemma world_ok_frame c w w' :
  world_ok c w -> alen w' = alen w ->
  (forall r, 0 <= r < size c ->
     alen (local_temp0 (rank_of w' r)) = alen (local_temp0 (rank_of w r)) /\
     alen (local_temp1 (rank_of w' r)) = alen (local_temp1 (rank_of w r)) /\
     alen (local_material (rank_of w' r)) = alen (local_material (rank_of w r)) /\
     displs (rank_of w' r) = displs (rank_of w r) /\
     sendcounts (rank_of w' r) = sendcounts (rank_of w r) /\
     alen (temperature (rank_of w' r)) = alen (temperature (rank_of w r))) ->
  config_ok c -> world_ok c w'.
Proof.
  intros (Hlen & Hok & Htab & Ht) Hlen' Hf Hc.
  assert (H0 : 0 <= 0 < size c) by (pose proof (size_pos c Hc); lia).
  split; [congruence |]. split; [| split].
  - intros r Hr. destruct (Hf r Hr) as (E0 & E1 & Em & _).
    destruct (Hok r Hr) as (L0 & L1 & Lm). unfold proc_ok.
    rewrite E0, E1, Em. auto.
  - intros r Hr. destruct (Hf 0 H0) as (_ & _ & _ & -> & -> & _).
    apply Htab, Hr.
  - destruct (Hf 0 H0) as (_ & _ & _ & _ & _ & ->). exact Ht.
Qed.

Lemma alen_get_temp p i :
  i = 0 \/ i = 1 ->
  alen (get_temp p i) = if i =? 0 then alen (local_temp0 p) else alen (local_temp1 p).
Proof. intros [-> | ->]; reflexivity. Qed.

Lemma external_heat_frame c step rank p :
  0 <= step ->
  let p' := external_heat c step rank p in
  get_temp p' (nxt step) = get_temp p (nxt step) /\
  alen (get_temp p' (cur step)) = alen (get_temp p (cur step)) /\
  material p' = material p /\ temperature p' = temperature p /\
  local_material p' = local_material p /\
  displs p' = displs p /\ sendcounts p' = sendcounts p.
Proof.
  intros Hs. cbn zeta. unfold external_heat. rewrite for_loop_nest.
  generalize (cells (GRID_SIZE0 c ÷ 4) (3 * GRID_SIZE0 c ÷ 4 + 1)
                (GRID_SIZE1 c ÷ 2 - GRID_SIZE1 c ÷ 16)
                (GRID_SIZE1 c ÷ 2 + GRID_SIZE1 c ÷ 16 + 1)).
  intros cs. revert p. induction cs as [| xy cs IH]; intros p; cbn [fold_left].
  - repeat split.
  - match goal with
    | |- context [fold_left _ cs ?q] =>
        destruct (IH q) as (-> & -> & -> & -> & -> & -> & ->)
    end.
    destruct (inside c rank xy.1 xy.2); [| repeat split].
    rewrite get_set_temp_ne by (apply not_eq_sym, cur_neq_nxt; assumption).
    rewrite get_set_temp_eq by (now apply cur_is_buffer).
    match goal with
    | |- context [set_temp ?p ?i ?b] =>
        destruct (set_temp_fields p i b) as (-> & -> & -> & -> & ->)
    end.
    rewrite alen_aset. repeat split.
Qed.

Lemma buffers_same_length p p' step :
  0 <= step ->
  get_temp p' (nxt step) = get_temp p (nxt step) ->
  alen (get_temp p' (cur step)) = alen (get_temp p (cur step)) ->
  alen (local_temp0 p') = alen (local_temp0 p) /\
  alen (local_temp1 p') = alen (local_temp1 p).
Proof.
  intros Hs Hn Hcu.
  destruct (cur_nxt step Hs) as [[Ec En] | [Ec En]]; rewrite Ec, En in *;
    cbn in Hn, Hcu; rewrite Hn; auto.
Qed.

Section Loop.
Variable c : config.
Hypothesis Hc : config_ok c.
Variable step : Z.
Hypothesis Hstep : 0 <= step.

Lemma external_heat_world_ok w :
  world_ok c w ->
  world_ok c (imap (fun r p => external_heat c step (Z.of_nat r) p) w).
Proof.
  intros Hw. apply (world_ok_frame c w); [assumption | apply alen_imap | | assumption].
  intros r Hr. destruct Hw as (Hlen & _).
  rewrite rank_of_imap by lia.
  destruct (external_heat_frame c step (Z.of_nat (Z.to_nat r)) (rank_of w r) Hstep)
    as (Hn & Hcu & _ & -> & -> & -> & ->).
  destruct (buffers_same_length _ _ step Hstep Hn Hcu) as [-> ->].
  repeat split.
Qed.

Lemma border_exchange_world_ok w w' :
  world_ok c w -> alen w' = alen w ->
  (forall r, 0 <= r < size c -> halo_exchanged c step w w' r) ->
  world_ok c w'.
Proof.
  intros Hw Hlen' Hex.
  apply (world_ok_frame c w); [assumption | assumption | | assumption].
  intros r Hr.
  destruct (Hex r Hr) as (Hn & _ & -> & -> & -> & -> & Hcu & _).
  destruct (buffers_same_length _ _ step Hstep Hn Hcu) as [-> ->].
  repeat split.
Qed.

Lemma alen_map {X Y : Type} (f : X -> Y) (l : list X) : alen (map f l) = alen l.
Proof. unfold alen. now rewrite length_map. Qed.

Lemma ftcs_solver_world_ok w :
  world_ok c w -> world_ok c (map (ftcs_solver c step) w).
Proof.
  intros Hw. apply (world_ok_frame c w); [assumption | apply alen_map | | assumption].
  intros r Hr. pose proof Hw as (Hlen & Hok & _).
  rewrite rank_of_map by lia.
  destruct (ftcs_solver_fields c step (rank_of w r) Hstep)
    as (Hcu & _ & -> & -> & -> & ->).
  destruct (ftcs_solver_cells c Hc step (rank_of w r) Hstep (Hok r Hr))
    as (Hl & _).
  assert (Hn : alen (get_temp (ftcs_solver c step (rank_of w r)) (nxt step)) =
               alen (get_temp (rank_of w r) (nxt step)))
    by (unfold alen; now rewrite Hl).
  destruct (cur_nxt step Hstep) as [[Ec En] | [Ec En]]; rewrite Ec, En in *;
    cbn in Hn, Hcu; rewrite Hn, Hcu; repeat split.
Qed.

End Loop.

Lemma gather_temp_buffers c step w r :
  local_temp0 (rank_of (gather_temp c step w) r) = local_temp0 (rank_of w r) /\
  local_temp1 (rank_of (gather_temp c step w) r) = local_temp1 (rank_of w r) /\
  local_material (rank_of (gather_temp c step w) r) = local_material (rank_of w r).
Proof.
  destruct (Z.lt_trichotomy r 0) as [Hneg | [-> | Hpos]].
  - unfold rank_of, aget. destruct (Z.leb_spec 0 r); [lia |]. repeat split.
  - destruct (gather_temp_root_fields c w step) as (_ & Hm & H0 & H1 & _).
    repeat split; assumption.
  - rewrite gather_temp_others by assumption. repeat split.
Qed.

(** C7 (as the code has it). At a snapshot step [s] the iteration
    completes, and the field it gathers on root is, cell for cell, buffer
    [s mod 2] of the ranks: the buffer the step-[s] stencil update read
    (as the halo exchange left it) and did not write.  The values that
    update produced are in buffer [(s+1) mod 2], which this gather does not
    read. *)
Theorem snapshot_gathers_stencil_input (c : config) (step : Z) (w : list proc) :
  config_ok c -> world_ok c w -> 0 <= step -> Z.rem step SNAPSHOT = 0 ->
  exists w2 w',
    border_exchange c step
      (if step <? CUTOFF
       then imap (fun r p => external_heat c step (Z.of_nat r) p) w
       else w) = Some w2 /\
    iteration c step w = Some w' /\
    forall r x y, 0 <= r < size c ->
      0 <= x < local_grid_size0 c -> 0 <= y < local_grid_size1 c ->
      rdf (temperature (rank_of w' 0))
          (ti c (local_origin0 c r + x) (local_origin1 c r + y)) =
      rdf (get_temp (rank_of w' r) (cur step)) (lti c x y) /\
      get_temp (rank_of w' r) (cur step) = get_temp (rank_of w2 r) (cur step) /\
      rdf (get_temp (rank_of w' r) (nxt step)) (lti c x y) =
      stencil c (get_temp (rank_of w2 r) (cur step))
              (local_material (rank_of w2 r)) x y.
Proof.
  intros Hc Hw Hstep Hsnap.
  set (w1 := if step <? CUTOFF
             then imap (fun r p => external_heat c step (Z.of_nat r) p) w
             else w).
  assert (Hw1 : world_ok c w1).
  { unfold w1. destruct (step <? CUTOFF); [| assumption].
    now apply external_heat_world_ok. }
  pose proof Hw1 as (Hlen1 & Hok1 & _).
  destruct (border_exchange_total c step w1 Hc Hstep Hlen1 Hok1)
    as (w2 & Hrun & Hlen2 & Hex).
  pose proof (border_exchange_world_ok c Hc step Hstep w1 w2 Hw1 Hlen2 Hex) as Hw2.
  pose proof (ftcs_solver_world_ok c Hc step Hstep w2 Hw2) as Hw3.
  exists w2, (gather_temp c step (map (ftcs_solver c step) w2)).
  split; [exact Hrun |]. split.
  - unfold iteration. fold w1. rewrite Hrun, Hsnap. reflexivity.
  - intros r x y Hr Hx Hy.
    destruct (gather_temp_cells c (map (ftcs_solver c step) w2) step Hc Hw3)
      as (_ & Hcells & _).
    destruct (gather_temp_buffers c step (map (ftcs_solver c step) w2) r)
      as (E0 & E1 & _).
    assert (Eb : forall i, get_temp (rank_of (gather_temp c step
                     (map (ftcs_solver c step) w2)) r) i =
                   get_temp (rank_of (map (ftcs_solver c step) w2) r) i).
    { intros i. unfold get_temp. now rewrite E0, E1. }
    rewrite !Eb. pose proof Hw2 as (Hl2 & Hok2 & _).
    rewrite rank_of_map by lia.
    destruct (ftcs_solver_fields c step (rank_of w2 r) Hstep) as (Hcu & _).
    destruct (ftcs_solver_cells c Hc step (rank_of w2 r) Hstep (Hok2 r Hr))
      as (_ & Hst & _).
    split; [| split].
    + rewrite (Hcells r x y Hr (conj Hx Hy)). now rewrite rank_of_map by lia.
    + exact Hcu.
    + apply Hst. split; assumption.
Qed.

Lemma world_ok_4 : world_ok cfg_2x2_4 world_4.
Proof.
  split; [vm_compute; reflexivity |]. split; [| split].
  - intros r Hr.
    destruct (ranks_4 r Hr) as [-> | [-> | [-> | ->]]]; vm_compute; repeat split.
  - intros r Hr.
    destruct (ranks_4 r Hr) as [-> | [-> | [-> | ->]]]; vm_compute; repeat split.
  - vm_compute. reflexivity.
Qed.

Lemma snapshot_gathers_stencil_input_witness :
  config_ok cfg_2x2_4 /\ world_ok cfg_2x2_4 world_4 /\ 0 <= 0 /\
  Z.rem 0 SNAPSHOT = 0 /\
  exists w', iteration cfg_2x2_4 0 world_4 = Some w'.
Proof.
  assert (H1 : config_ok cfg_2x2_4) by (repeat split; reflexivity).
  assert (H3 : 0 <= 0) by lia.
  assert (H4 : Z.rem 0 SNAPSHOT = 0) by reflexivity.
  split; [exact H1 |]. split; [exact world_ok_4 |]. split; [exact H3 |].
  split; [exact H4 |].
  destruct (snapshot_gathers_stencil_input cfg_2x2_4 0 world_4 H1 world_ok_4 H3 H4)
    as (w2 & w' & _ & Hit & _).
  exists w'. exact Hit.
Defined.

(** C7 as stated fails: after step 0 of [main] on the 4 x 4 grid, the
    gathered field holds 20.0 at global cell (0, 0), while the step-0
    stencil update produced another value for that cell (in buffer 1). *)
Lemma snapshot_is_not_stencil_output :
  exists w', iteration cfg_2x2_4 0 world_4 = Some w' /\
    Z.rem 0 SNAPSHOT = 0 /\
    rdf (temperature (rank_of w' 0)) (ti cfg_2x2_4 0 0) = F32.lit 20 1 /\
    rdf (get_temp (rank_of w' 0) (nxt 0)) (lti cfg_2x2_4 0 0) <> F32.lit 20 1.
Proof.
  eexists. split; [vm_compute; reflexivity |].
  split; [reflexivity |]. split; [vm_compute; reflexivity |].
  vm_compute. discriminate.
Qed.

(** ** The uniform 8 x 8 scenario *)

Lemma stencil_eq c in_ mat x y u0 ue uw us un mv :
  rdf in_ (lti c x y) = u0 ->
  rdf in_ (lti c (x + 1) y) = ue -> rdf in_ (lti c (x - 1) y) = uw ->
  rdf in_ (lti c x (y + 1)) = us -> rdf in_ (lti c x (y - 1)) = un ->
  rdf mat (lmi c x y) = mv ->
  stencil c in_ mat x y =
  F32.add u0
    (F32.mul mv
       (F32.sub (F32.add (F32.add (F32.add ue uw) us) un)
                (F32.mul (F32.of_int 4) u0))).
Proof. intros <- <- <- <- <- <-. reflexivity. Qed.

Lemma finite_times_zero m s :
  F32.is_finite m = true -> exists s', F32.mul m (S754_zero s) = S754_zero s'.
Proof.
  destruct m as [sm | sm | | sm mm em]; cbn; try discriminate; intros _; eauto.
Qed.

Lemma config_ok_8 : config_ok cfg_2x2_8.
Proof. repeat split; reflexivity. Qed.

Lemma ranks_8 r : 0 <= r < size cfg_2x2_8 -> r = 0 \/ r = 1 \/ r = 2 \/ r = 3.
Proof. unfold size. cbn. lia. Qed.

Lemma four_cases x : 0 <= x < 4 -> x = 0 \/ x = 1 \/ x = 2 \/ x = 3.
Proof. lia. Qed.

(** C4 (as the code has it). In the 8 x 8 scenario one step completes for
    every material constant [m].  A cell next to no other subdomain gets
    [20 + m * (e + w + s + n - 4*20)], where a neighbour outside the grid
    counts 10.0, the value [init_local_temp] left in the ghost cells, and
    every other neighbour 20.0; so a cell with four interior neighbours
    stays exactly 20.0 when [m] is finite, and the cells along the outer
    boundary do not.  [gather_temp 0] then yields 64 cells of 20.0: it
    reads buffer 0. *)
Theorem uniform_step_8x8 (m : f32) :
  let t20 := F32.lit 20 1 in
  let t10 := F32.lit 10 1 in
  let c := cfg_2x2_8 in
  exists w', one_step c 0 (uniform_world c t20 m) = Some w' /\
    (forall r x y, 0 <= r < size c -> 0 <= x < 4 -> 0 <= y < 4 ->
       (x = 0 -> west c r = MPI_PROC_NULL) ->
       (x = 3 -> east c r = MPI_PROC_NULL) ->
       (y = 0 -> north c r = MPI_PROC_NULL) ->
       (y = 3 -> south c r = MPI_PROC_NULL) ->
       let u := fun outside : bool => if outside then t10 else t20 in
       rdf (get_temp (rank_of w' r) (nxt 0)) (lti c x y) =
       F32.add t20
         (F32.mul m
            (F32.sub
               (F32.add (F32.add (F32.add (u (x =? 3)) (u (x =? 0)))
                                 (u (y =? 3)))
                        (u (y =? 0)))
               (F32.mul (F32.of_int 4) t20)))) /\
    (F32.is_finite m = true ->
     forall r x y, 0 <= r < size c -> 1 <= x <= 2 -> 1 <= y <= 2 ->
       rdf (get_temp (rank_of w' r) (nxt 0)) (lti c x y) = t20) /\
    temperature (rank_of (gather_temp c 0 w') 0) = replicate 64 t20.
Proof.
  cbv zeta. unfold one_step.
  remember (border_exchange cfg_2x2_8 0
              (uniform_world cfg_2x2_8 (F32.lit 20 1) m)) as b eqn:Hb.
  vm_compute in Hb. subst b.
  eexists. split; [reflexivity |].
  match goal with
  | |- context [map (ftcs_solver cfg_2x2_8 0) ?l] => set (w2 := l)
  end.
  assert (Hlen : alen w2 = 4) by reflexivity.
  assert (Hok : forall r, 0 <= r < size cfg_2x2_8 ->
                  proc_ok cfg_2x2_8 (rank_of w2 r)).
  { intros r Hr. destruct (ranks_8 r Hr) as [-> | [-> | [-> | ->]]];
      repeat split; vm_compute; reflexivity. }
  assert (Hcells : forall r x y, 0 <= r < size cfg_2x2_8 ->
            0 <= x < 4 -> 0 <= y < 4 ->
            (x = 0 -> west cfg_2x2_8 r = MPI_PROC_NULL) ->
            (x = 3 -> east cfg_2x2_8 r = MPI_PROC_NULL) ->
            (y = 0 -> north cfg_2x2_8 r = MPI_PROC_NULL) ->
            (y = 3 -> south cfg_2x2_8 r = MPI_PROC_NULL) ->
            rdf (get_temp (rank_of (map (ftcs_solver cfg_2x2_8 0) w2) r) (nxt 0))
                (lti cfg_2x2_8 x y) =
            F32.add (F32.lit 20 1)
              (F32.mul m
                 (F32.sub
                    (F32.add
                       (F32.add
                          (F32.add (if x =? 3 then F32.lit 10 1 else F32.lit 20 1)
                                   (if x =? 0 then F32.lit 10 1 else F32.lit 20 1))
                          (if y =? 3 then F32.lit 10 1 else F32.lit 20 1))
                       (if y =? 0 then F32.lit 10 1 else F32.lit 20 1))
                    (F32.mul (F32.of_int 4) (F32.lit 20 1))))).
  { intros r x y Hr Hx Hy HW HE HN HS.
    rewrite rank_of_map by (rewrite Hlen; exact Hr).
    destruct (ftcs_solver_cells cfg_2x2_8 config_ok_8 0 (rank_of w2 r)
                ltac:(lia) (Hok r Hr)) as (_ & Hst & _).
    rewrite Hst by (split; assumption). clear Hst.
    destruct (ranks_8 r Hr) as [-> | [-> | [-> | ->]]];
    destruct (four_cases x Hx) as [-> | [-> | [-> | ->]]];
    destruct (four_cases y Hy) as [-> | [-> | [-> | ->]]];
    try (specialize (HW eq_refl); vm_compute in HW; discriminate);
    try (specialize (HE eq_refl); vm_compute in HE; discriminate);
    try (specialize (HN eq_refl); vm_compute in HN; discriminate);
    try (specialize (HS eq_refl); vm_compute in HS; discriminate);
    (erewrite stencil_eq;
     [ reflexivity
     | vm_compute; reflexivity | vm_compute; reflexivity
     | vm_compute; reflexivity | vm_compute; reflexivity
     | vm_compute; reflexivity | vm_compute; reflexivity ]). }
  split; [exact Hcells |]. split.
  - intros Hfin r x y Hr Hx Hy.
    rewrite Hcells by (try assumption; lia).
    assert (Ex : x = 1 \/ x = 2) by lia. assert (Ey : y = 1 \/ y = 2) by lia.
    destruct Ex as [-> | ->], Ey as [-> | ->]; cbn [Z.eqb Pos.eqb];
      change (F32.sub _ _) with (S754_zero false);
      destruct (finite_times_zero m false Hfin) as [s' ->];
      destruct s'; reflexivity.
  - vm_compute. reflexivity.
Qed.

Lemma uniform_step_8x8_witness :
  F32.is_finite (F32.lit 1 4) = true /\
  exists w', one_step cfg_2x2_8 0
               (uniform_world cfg_2x2_8 (F32.lit 20 1) (F32.lit 1 4)) = Some w' /\
    rdf (get_temp (rank_of w' 0) (nxt 0)) (lti cfg_2x2_8 1 1) = F32.lit 20 1.
Proof.
  assert (H1 : F32.is_finite (F32.lit 1 4) = true) by reflexivity.
  split; [exact H1 |].
  destruct (uniform_step_8x8 (F32.lit 1 4)) as (w' & Hrun & _ & Hin & _).
  exists w'. split; [exact Hrun |].
  apply (Hin H1 0 1 1); [vm_compute; split; [discriminate | reflexivity] | lia | lia].
Defined.

(** C4 as stated fails: with material constant 0.25 the corner cell of
    rank 0 is 15.0 after the step, not 20.0. *)
Lemma uniform_step_8x8_corner :
  exists w', one_step cfg_2x2_8 0
               (uniform_world cfg_2x2_8 (F32.lit 20 1) (F32.lit 1 4)) = Some w' /\
    rdf (get_temp (rank_of w' 0) (nxt 0)) (lti cfg_2x2_8 0 0) = F32.lit 15 1 /\
    rdf (get_temp (rank_of w' 0) (nxt 0)) (lti cfg_2x2_8 0 0) <> F32.lit 20 1.
Proof.
  eexists. split; [vm_compute; reflexivity |].
  split; [vm_compute; reflexivity | vm_compute; discriminate].
Qed.

(** ** [init_temp_material] *)

Section Material.
Variable c : config.
Hypothesis Hc : config_ok c.

Lemma mi_eq x y : mi c x y = y * GRID_SIZE0 c + x.
Proof. unfold mi, BORDER. lia. Qed.

Lemma mi_range x y :
  0 <= x < GRID_SIZE0 c -> 0 <= y < GRID_SIZE1 c ->
  0 <= mi c x y < GRID_SIZE0 c * GRID_SIZE1 c.
Proof. rewrite mi_eq. nia. Qed.

Lemma mi_inj x y x' y' :
  0 <= x < GRID_SIZE0 c -> 0 <= x' < GRID_SIZE0 c ->
  mi c x y = mi c x' y' -> x = x' /\ y = y'.
Proof.
  rewrite !mi_eq. intros Hx Hx' He. assert (y = y') by nia. subst. lia.
Qed.

Lemma nest_material lo0 hi0 lo1 hi1 v t p :
  material (for_loop lo0 hi0 (fun x =>
              for_loop lo1 hi1 (fun y => set_cell c x y (Some v) t)) p) =
  fold_left (fun a xy => aset a (mi c xy.1 xy.2) v)
            (cells lo0 hi0 lo1 hi1) (material p).
Proof.
  rewrite for_loop_nest. revert p.
  induction (cells lo0 hi0 lo1 hi1) as [| xy cs IH]; intros p; cbn [fold_left];
    [reflexivity |].
  rewrite IH. f_equal. unfold set_cell. destruct t; reflexivity.
Qed.

(** One loop nest of [init_temp_material] over a region inside the grid. *)
Lemma nest_material_cells lo0 hi0 lo1 hi1 v t p :
  alen (material p) = GRID_SIZE0 c * GRID_SIZE1 c ->
  0 <= lo0 -> hi0 <= GRID_SIZE0 c -> 0 <= lo1 -> hi1 <= GRID_SIZE1 c ->
  let p' := for_loop lo0 hi0 (fun x =>
              for_loop lo1 hi1 (fun y => set_cell c x y (Some v) t)) p in
  alen (material p') = alen (material p) /\
  forall x y, 0 <= x < GRID_SIZE0 c -> 0 <= y < GRID_SIZE1 c ->
    rdf (material p') (mi c x y) =
    if (lo0 <=? x) && (x <? hi0) && (lo1 <=? y) && (y <? hi1)
    then v else rdf (material p) (mi c x y).
Proof.
  intros La H0 H1 H2 H3. cbn zeta. rewrite nest_material.
  destruct (writes_spec F32.zero (fun xy : Z * Z => mi c xy.1 xy.2)
    (fun _ => v) (cells lo0 hi0 lo1 hi1) (material p)) as (W1 & W2 & W3).
  - intros [x y] Hin. apply In_cells in Hin. cbn [fst snd]. rewrite La.
    apply mi_range; lia.
  - reflexivity.
  - split; [unfold alen; now rewrite W1 |]. intros x y Hx Hy.
    destruct ((lo0 <=? x) && (x <? hi0) && (lo1 <=? y) && (y <? hi1)) eqn:E.
    + apply (W2 (x, y)), In_cells.
      repeat (apply andb_true_iff in E as [E ?]). lia.
    + apply W3. intros [x' y'] Hin He. apply In_cells in Hin. cbn [fst snd] in He.
      apply mi_inj in He as [-> ->]; [| lia | lia].
      assert ((lo0 <=? x) && (x <? hi0) && (lo1 <=? y) && (y <? hi1) = true)
        by (repeat (apply andb_true_iff; split); lia).
      congruence.
Qed.

Lemma init_temp_material_cells p x y :
  alen (material p) = GRID_SIZE0 c * GRID_SIZE1 c ->
  0 <= x < GRID_SIZE0 c -> 0 <= y < GRID_SIZE1 c ->
  let wrong := F32.mul (F32.div dt h) h in
  let scale := F32.div dt (F32.mul h h) in
  rdf (material (init_temp_material c p)) (mi c x y) =
  if in_heater c x y then F32.mul ALUMINIUM scale
  else if in_tin c x y then F32.mul TIN scale
  else if in_copper c x y then F32.mul COPPER scale
  else F32.mul MERCURY wrong.
Proof.
  intros La Hx Hy. cbn zeta. destruct Hc as (_ & _ & G0 & G1).
  unfold init_temp_material. cbv zeta.
  set (v1 := F32.mul MERCURY (F32.mul (F32.div dt h) h)).
  set (p1 := for_loop (- (BORDER - 1)) _ _ p).
  set (p2 := for_loop 0 _ _ p1).
  set (p3 := for_loop (5 * GRID_SIZE0 c ÷ 8) _ _ p2).
  set (p4 := for_loop (GRID_SIZE0 c ÷ 8) _ _ p3).
  destruct (nest_material_cells (- (BORDER - 1)) (GRID_SIZE0 c + (BORDER - 1))
              (- (BORDER - 1)) (GRID_SIZE1 c + (BORDER - 1)) v1 None p La)
    as [L1 _]; try (unfold BORDER; lia).
  fold p1 in L1.
  destruct (nest_material_cells 0 (GRID_SIZE0 c) 0 (GRID_SIZE1 c) v1
              (Some (F32.lit 20 1)) p1 ltac:(lia))
    as [L2 C2]; try lia.
  fold p2 in L2, C2.
  destruct (nest_material_cells (5 * GRID_SIZE0 c ÷ 8) (7 * GRID_SIZE0 c ÷ 8)
              (GRID_SIZE1 c ÷ 8) (3 * GRID_SIZE1 c ÷ 8)
              (F32.mul COPPER (F32.div dt (F32.mul h h)))
              (Some (F32.lit 60 1)) p2 ltac:(lia))
    as [L3 C3]; try (Z.to_euclidean_division_equations; lia).
  fold p3 in L3, C3.
  destruct (nest_material_cells (GRID_SIZE0 c ÷ 8) (GRID_SIZE0 c ÷ 2 - GRID_SIZE0 c ÷ 8)
              (5 * GRID_SIZE1 c ÷ 8) (7 * GRID_SIZE1 c ÷ 8)
              (F32.mul TIN (F32.div dt (F32.mul h h)))
              (Some (F32.lit 60 1)) p3 ltac:(lia))
    as [L4 C4]; try (Z.to_euclidean_division_equations; lia).
  fold p4 in L4, C4.
  destruct (nest_material_cells (GRID_SIZE0 c ÷ 4) (3 * GRID_SIZE0 c ÷ 4 + 1)
              (GRID_SIZE1 c ÷ 2 - GRID_SIZE1 c ÷ 16)
              (GRID_SIZE1 c ÷ 2 + GRID_SIZE1 c ÷ 16 + 1)
              (F32.mul ALUMINIUM (F32.div dt (F32.mul h h)))
              (Some (F32.lit 100 1)) p4 ltac:(lia))
    as [_ C5]; try (Z.to_euclidean_division_equations; lia).
  rewrite C5, C4, C3, C2 by assumption.
  unfold in_heater, in_tin, in_copper.
  replace (x <? 3 * GRID_SIZE0 c ÷ 4 + 1) with (x <=? 3 * GRID_SIZE0 c ÷ 4)
    by (destruct (Z.leb_spec x (3 * GRID_SIZE0 c ÷ 4)),
                 (Z.ltb_spec x (3 * GRID_SIZE0 c ÷ 4 + 1)); lia || reflexivity).
  replace (y <? GRID_SIZE1 c ÷ 2 + GRID_SIZE1 c ÷ 16 + 1)
    with (y <=? GRID_SIZE1 c ÷ 2 + GRID_SIZE1 c ÷ 16)
    by (destruct (Z.leb_spec y (GRID_SIZE1 c ÷ 2 + GRID_SIZE1 c ÷ 16)),
                 (Z.ltb_spec y (GRID_SIZE1 c ÷ 2 + GRID_SIZE1 c ÷ 16 + 1));
        lia || reflexivity).
  replace ((0 <=? x) && (x <? GRID_SIZE0 c) && (0 <=? y) && (y <? GRID_SIZE1 c))
    with true
    by (symmetry; repeat (apply andb_true_iff; split); lia).
  reflexivity.
Qed.

End Material.

(** C9. In binary32 [dt/h*h] is [(dt/h)*h], which is [dt] itself and not
    [dt/(h*h)].  After [init_temp_material] every cell of the heater holds
    [ALUMINIUM * (dt/(h*h))], every other cell of the tin block
    [TIN * (dt/(h*h))], every other cell of the copper block
    [COPPER * (dt/(h*h))], and every remaining (mercury) cell
    [MERCURY * (dt/h*h)], which differs from [MERCURY * (dt/(h*h))]: the
    array is not scaled by [dt/(h*h)] throughout.  On the 256 x 256 grid
    of the source, cell (0, 0) is such a mercury cell. *)
Theorem material_scaling_mismatch (c : config) (p : proc) :
  config_ok c -> alen (material p) = GRID_SIZE0 c * GRID_SIZE1 c ->
  let wrong := F32.mul (F32.div dt h) h in
  let scale := F32.div dt (F32.mul h h) in
  let m' := material (init_temp_material c p) in
  wrong = dt /\ wrong <> scale /\
  F32.mul MERCURY wrong <> F32.mul MERCURY scale /\
  (forall x y, 0 <= x < GRID_SIZE0 c -> 0 <= y < GRID_SIZE1 c ->
     rdf m' (mi c x y) =
     if in_heater c x y then F32.mul ALUMINIUM scale
     else if in_tin c x y then F32.mul TIN scale
     else if in_copper c x y then F32.mul COPPER scale
     else F32.mul MERCURY wrong) /\
  (GRID_SIZE0 c = 256 -> GRID_SIZE1 c = 256 ->
     rdf m' (mi c 0 0) = F32.mul MERCURY dt /\
     rdf m' (mi c 200 64) = F32.mul COPPER scale /\
     rdf m' (mi c 64 200) = F32.mul TIN scale /\
     rdf m' (mi c 128 128) = F32.mul ALUMINIUM scale).
Proof.
  intros Hc La. cbv zeta.
  split; [vm_compute; reflexivity |].
  split; [vm_compute; discriminate |].
  split; [vm_compute; discriminate |].
  split.
  - intros x y Hx Hy. now apply init_temp_material_cells.
  - intros G0 G1.
    repeat split;
      (rewrite init_temp_material_cells by (try assumption; rewrite ?G0, ?G1; lia));
      unfold in_heater, in_tin, in_copper; rewrite G0, G1; reflexivity.
Qed.

Lemma material_scaling_mismatch_witness :
  config_ok cfg_source /\
  alen (material (allocate cfg_source 0)) =
    GRID_SIZE0 cfg_source * GRID_SIZE1 cfg_source /\
  rdf (material (init_temp_material cfg_source (allocate cfg_source 0)))
      (mi cfg_source 0 0) = F32.mul MERCURY dt.
Proof.
  assert (H1 : config_ok cfg_source) by (repeat split; reflexivity).
  assert (H2 : alen (material (allocate cfg_source 0)) =
               GRID_SIZE0 cfg_source * GRID_SIZE1 cfg_source)
    by (vm_compute; reflexivity).
  split; [exact H1 |]. split; [exact H2 |].
  exact (proj1 (proj2 (proj2 (proj2 (proj2
           (material_scaling_mismatch cfg_source (allocate cfg_source 0) H1 H2))))
           eq_refl eq_refl)).
Defined.

(** ** Binary32 sums of one value *)

Section Binary32.

(** [digits2_pos] is the bit length. *)
Lemma digits2_size p : digits2_pos p = Pos.size p.
Proof. induction p; cbn; congruence. Qed.

Lemma digits_bounds p :
  2 ^ (Z.pos (digits2_pos p) - 1) <= Z.pos p < 2 ^ Z.pos (digits2_pos p).
Proof.
  assert (Hstep : forall d : positive,
             2 ^ (Z.pos (Pos.succ d) - 1) = 2 * 2 ^ (Z.pos d - 1) /\
             2 ^ Z.pos (Pos.succ d) = 4 * 2 ^ (Z.pos d - 1) /\
             2 ^ Z.pos d = 2 * 2 ^ (Z.pos d - 1)).
  { intros d. rewrite Pos2Z.inj_succ.
    assert (P : forall n, 0 <= n -> 2 ^ (n + 1) = 2 * 2 ^ n)
      by (intros n Hn; rewrite <- Z.pow_succ_r by assumption; reflexivity).
    replace (Z.succ (Z.pos d) - 1) with (Z.pos d - 1 + 1) by lia.
    replace (Z.succ (Z.pos d)) with (Z.pos d - 1 + 1 + 1) by lia.
    rewrite !P by lia. split; [reflexivity |]. split; [lia |].
    rewrite <- P by lia. f_equal. lia. }
  induction p as [p IH | p IH |]; cbn [digits2_pos].
  - destruct (Hstep (digits2_pos p)) as (-> & -> & E). lia.
  - destruct (Hstep (digits2_pos p)) as (-> & -> & E). lia.
  - cbn. lia.
Qed.

Lemma digits_unique p d :
  2 ^ (d - 1) <= Z.pos p < 2 ^ d -> Z.pos (digits2_pos p) = d.
Proof.
  intros [Hl Hu]. destruct (digits_bounds p) as [Hl' Hu'].
  assert (0 < d).
  { destruct (Z.ltb_spec 0 d); [assumption |].
    rewrite Z.pow_neg_r in Hl by lia.
    assert (2 ^ d <= 2 ^ 0) by (apply Z.pow_le_mono_r; lia). cbn in *. lia. }
  assert (Z.pos (digits2_pos p) - 1 < d).
  { apply (Z.pow_lt_mono_r_iff 2); lia. }
  assert (d - 1 < Z.pos (digits2_pos p)).
  { apply (Z.pow_lt_mono_r_iff 2); lia. }
  lia.
Qed.

Lemma shr_nonpos mrs e n : n <= 0 -> shr mrs e n = (mrs, e).
Proof. destruct n; [reflexivity | lia | reflexivity]. Qed.

(** Shifting an exact mantissa right by at most two bits and rounding to
    nearest even gives the [q] of [rne_spec]. *)
Lemma shr_small p k q E :
  rne_spec (Z.pos p) k (Z.pos q) ->
  exists mrs,
    shr (Build_shr_record (Z.pos p) false false) E k = (mrs, E + k) /\
    round_nearest_even (shr_m mrs) (loc_of_shr_record mrs) = Z.pos q.
Proof.
  intros [[-> Hr] | [[-> Hr] | [-> Hr]]].
  - eexists; split; [cbn [shr]; rewrite Z.add_0_r; reflexivity |].
    cbn. exact Hr.
  - destruct p as [[p | p |] | [p | p |] |];
      (eexists; split; [reflexivity |]); cbn; Z.to_euclidean_division_equations; lia.
  - destruct p as [[[p | p |] | [p | p |] |] | [[p | p |] | [p | p |] |] |];
      (eexists; split; [reflexivity |]); cbn; Z.to_euclidean_division_equations; lia.
Qed.

(** [binary_round_aux] on an exact mantissa that is at most two bits too
    long, when rounding does not carry into a 25th bit. *)
Lemma round_small sg p E k q :
  Z.max (Z.pos (digits2_pos p) + E - 24) (-149) - E = k ->
  rne_spec (Z.pos p) k (Z.pos q) -> Z.pos q < 2 ^ 24 -> E + k <= 104 ->
  binary_round_aux F32.prec F32.emax sg (Z.pos p) E loc_Exact =
  S754_finite sg q (E + k).
Proof.
  intros Hk Hr Hq Hov.
  destruct (shr_small p k q E Hr) as (mrs & Hs & Hn).
  assert (Hd : Z.pos (digits2_pos q) <= 24).
  { destruct (digits_bounds q) as [Hl _].
    destruct (Z.le_gt_cases (Z.pos (digits2_pos q)) 24) as [|Hgt]; [assumption |].
    assert (2 ^ 24 <= 2 ^ (Z.pos (digits2_pos q) - 1))
      by (apply Z.pow_le_mono_r; lia).
    lia. }
  unfold binary_round_aux, shr_fexp, fexp, emin, F32.prec, F32.emax.
  cbn [Zdigits2 shr_record_of_loc].
  replace (Z.max (Z.pos (digits2_pos p) + E - 24) (3 - 128 - 24) - E) with k by lia.
  rewrite Hs, Hn. cbn [Zdigits2].
  rewrite shr_nonpos by lia. cbn [shr_m].
  replace (E + k <=? 128 - 24) with true by (symmetry; apply Z.leb_le; lia).
  reflexivity.
Qed.

Lemma digits_to_pos P D :
  0 < P -> 2 ^ (D - 1) <= P < 2 ^ D -> Z.pos (digits2_pos (Z.to_pos P)) = D.
Proof.
  intros HP HD. apply digits_unique. rewrite Z2Pos.id by assumption. exact HD.
Qed.

Lemma digits_le P n :
  0 < P < 2 ^ n -> Z.pos (digits2_pos (Z.to_pos P)) <= n.
Proof.
  intros [HP Hn]. destruct (digits_bounds (Z.to_pos P)) as [Hl _].
  rewrite Z2Pos.id in Hl by assumption.
  destruct (Z.le_gt_cases (Z.pos (digits2_pos (Z.to_pos P))) n) as [|Hgt];
    [assumption |].
  assert (2 ^ n <= 2 ^ (Z.pos (digits2_pos (Z.to_pos P)) - 1))
    by (apply Z.pow_le_mono_r; lia).
  lia.
Qed.

Lemma rne_exists P k :
  k = 1 \/ k = 2 -> 4 <= P -> exists q, rne_spec P k (Z.pos q).
Proof.
  intros Hk HP.
  assert (Hr : exists t r, P = 8 * t + r /\ 0 <= r < 8 /\ 0 <= t).
  { exists (P / 8), (P mod 8). Z.to_euclidean_division_equations. lia. }
  destruct Hr as (t & r & -> & Hr & Ht).
  assert (Hc : r = 0 \/ r = 1 \/ r = 2 \/ r = 3 \/ r = 4 \/ r = 5 \/ r = 6 \/ r = 7)
    by lia.
  unfold rne_spec.
  destruct Hk as [-> | ->].
  - assert (Hq : exists q, 0 < q /\
      (8 * t + r = 2 * q \/
       (8 * t + r = 2 * q + 1 \/ 8 * t + r = 2 * q - 1) /\ q mod 2 = 0)).
    { destruct Hc as [-> | [-> | [-> | [-> | [-> | [-> | [-> | ->]]]]]]].
      - exists (4 * t). Z.to_euclidean_division_equations. lia.
      - exists (4 * t). Z.to_euclidean_division_equations. lia.
      - exists (4 * t + 1). Z.to_euclidean_division_equations. lia.
      - exists (4 * t + 2). Z.to_euclidean_division_equations. lia.
      - exists (4 * t + 2). Z.to_euclidean_division_equations. lia.
      - exists (4 * t + 2). Z.to_euclidean_division_equations. lia.
      - exists (4 * t + 3). Z.to_euclidean_division_equations. lia.
      - exists (4 * t + 4). Z.to_euclidean_division_equations. lia. }
    destruct Hq as (q & Hq0 & Hq). exists (Z.to_pos q).
    rewrite Z2Pos.id by assumption. right; left. split; [reflexivity | exact Hq].
  - assert (Hq : exists q, 0 < q /\
      (8 * t + r = 4 * q \/ 8 * t + r = 4 * q + 1 \/ 8 * t + r = 4 * q - 1 \/
       (8 * t + r = 4 * q + 2 \/ 8 * t + r = 4 * q - 2) /\ q mod 2 = 0)).
    { destruct Hc as [-> | [-> | [-> | [-> | [-> | [-> | [-> | ->]]]]]]].
      - exists (2 * t). Z.to_euclidean_division_equations. lia.
      - exists (2 * t). Z.to_euclidean_division_equations. lia.
      - exists (2 * t). Z.to_euclidean_division_equations. lia.
      - exists (2 * t + 1). Z.to_euclidean_division_equations. lia.
      - exists (2 * t + 1). Z.to_euclidean_division_equations. lia.
      - exists (2 * t + 1). Z.to_euclidean_division_equations. lia.
      - exists (2 * t + 2). Z.to_euclidean_division_equations. lia.
      - exists (2 * t + 2). Z.to_euclidean_division_equations. lia. }
    destruct Hq as (q & Hq0 & Hq). exists (Z.to_pos q).
    rewrite Z2Pos.id by assumption. right; right. split; [reflexivity | exact Hq].
Qed.

(** The sum of two data of one sign whose exponents differ by at most 2. *)
Lemma add_small sg m1 e1 m e j k q :
  e1 = e + j -> 0 <= j <= 2 ->
  let P := Z.pos m1 * 2 ^ j + Z.pos m in
  Z.max (Z.pos (digits2_pos (Z.to_pos P)) + e - 24) (-149) - e = k ->
  rne_spec P k (Z.pos q) -> Z.pos q < 2 ^ 24 -> e + k <= 104 ->
  F32.add (S754_finite sg m1 e1) (S754_finite sg m e) =
  S754_finite sg q (e + k).
Proof.
  intros -> Hj P Hk Hr Hq Hov.
  assert (Hk0 : 0 <= k) by (destruct Hr as [[-> _] | [[-> _] | [-> _]]]; lia).
  assert (Hal : exists x, fst (shl_align m1 (e + j) e) = x /\ Z.pos x = Z.pos m1 * 2 ^ j).
  { unfold shl_align.
    assert (Hc : j = 0 \/ j = 1 \/ j = 2) by lia.
    destruct Hc as [-> | [-> | ->]].
    - replace (e - (e + 0)) with 0 by lia. eexists; split; [reflexivity | cbn; lia].
    - replace (e - (e + 1)) with (-1) by lia. eexists; split; [reflexivity | cbn; lia].
    - replace (e - (e + 2)) with (-2) by lia. eexists; split; [reflexivity | cbn; lia]. }
  destruct Hal as (x & Hx & Ex).
  unfold F32.add, SFadd.
  replace (Z.min (e + j) e) with e by lia.
  rewrite Hx.
  assert (Hm : fst (shl_align m e e) = m)
    by (unfold shl_align; rewrite Z.sub_diag; reflexivity).
  rewrite Hm.
  assert (Hsum : cond_Zopp sg (Z.pos x) + cond_Zopp sg (Z.pos m) =
                 cond_Zopp sg (Z.pos (x + m))) by (destruct sg; reflexivity).
  rewrite Hsum.
  assert (HP : Z.pos (x + m) = P) by (unfold P; lia).
  assert (HP' : Z.to_pos P = (x + m)%positive) by (rewrite <- HP; reflexivity).
  rewrite HP' in Hk.
  assert (Hnorm : binary_normalize F32.prec F32.emax (cond_Zopp sg (Z.pos (x + m))) e false =
                  binary_round F32.prec F32.emax sg (x + m) e)
    by (destruct sg; reflexivity).
  rewrite Hnorm. unfold binary_round, shl_align, fexp, emin, F32.prec, F32.emax.
  replace (Z.max (Z.pos (digits2_pos (x + m)) + e - 24) (3 - 128 - 24) - e)
    with k by lia.
  assert (Hsh : (match k with
                 | Z.neg d => (Pos.iter xO (x + m)%positive d,
                               Z.max (Z.pos (digits2_pos (x + m)) + e - 24)
                                     (3 - 128 - 24))
                 | _ => ((x + m)%positive, e) end) = ((x + m)%positive, e))
    by (destruct k; [reflexivity | reflexivity | lia]).
  rewrite Hsh.
  apply round_small; try assumption. rewrite HP; assumption.
Qed.

(** [4 * x] is exact: the product mantissa [2^23 * m] is shifted back by
    21, 22 or 23 bits. *)
Lemma mul_four sg m e k q :
  Z.max (Z.pos (digits2_pos m) + e + 2 - 24) (-149) = e - 21 + k ->
  k = 21 /\ q = (m~0~0)%positive \/ k = 22 /\ q = (m~0)%positive \/
  k = 23 /\ q = m ->
  Z.pos (digits2_pos q) <= 24 ->
  F32.mul (F32.of_int 4) (S754_finite sg m e) =
  if e - 21 + k <=? 104 then S754_finite sg q (e - 21 + k) else S754_infinity sg.
Proof.
  intros Hk Hq Hd.
  change (F32.of_int 4) with (S754_finite false 8388608 (-21)).
  unfold F32.mul, SFmul. cbn [xorb]. cbv [Pos.mul].
  unfold binary_round_aux, shr_fexp, fexp, emin, F32.prec, F32.emax.
  cbn [Zdigits2 digits2_pos shr_record_of_loc].
  rewrite !Pos2Z.inj_succ.
  destruct Hq as [[-> ->] | [[-> ->] | [-> ->]]];
    cbn [digits2_pos] in Hd; rewrite ?Pos2Z.inj_succ in Hd;
    match goal with
    | |- context [e - 21 + ?k] =>
        replace (Z.max _ _ - (-21 + e)) with k by lia;
        replace (e - 21 + k) with (-21 + e + k) by lia
    end;
    cbn [shr SpecFloat.iter_pos shr_1 orb round_nearest_even loc_of_shr_record shr_m
         Zdigits2 digits2_pos];
    rewrite ?Pos2Z.inj_succ; rewrite shr_nonpos by lia; reflexivity.
Qed.

Lemma valid_finite sg m e :
  F32.valid (S754_finite sg m e) = true ->
  Z.max (Z.pos (digits2_pos m) + e - 24) (-149) = e /\ e <= 104.
Proof.
  unfold F32.valid, valid_binary, bounded, canonical_mantissa, fexp, emin,
    F32.prec, F32.emax.
  intros H. apply andb_true_iff in H as [H1 H2].
  apply Z.eqb_eq in H1. apply Z.leb_le in H2. lia.
Qed.

Ltac digits D :=
  rewrite (digits_to_pos _ D) by lia; lia.

(** The sum [((u + u) + u) + u] as the stencil forms it is [4 * u]
    exactly, whenever [4 * u] does not overflow: the rounding error of
    [3 * u] is undone by the last addition. *)
Lemma sum_four u :
  F32.valid u = true -> F32.is_finite (F32.mul (F32.of_int 4) u) = true ->
  F32.add (F32.add (F32.add u u) u) u = F32.mul (F32.of_int 4) u.
Proof.
  intros Hv Hf. destruct u as [s | s | | sg m e];
    [destruct s; reflexivity | discriminate | discriminate |].
  apply valid_finite in Hv as [Hc He].
  pose proof (digits_bounds m) as Hb.
  assert (Hd : Z.pos (digits2_pos m) = 24 \/
               Z.pos (digits2_pos m) = 23 /\ e = -149 \/
               Z.pos (digits2_pos m) <= 22 /\ e = -149) by lia.
  destruct Hd as [Hd | [[Hd ->] | [Hd ->]]].
  - rewrite Hd in Hb. cbn in Hb.
    rewrite (mul_four sg m e 23 m) in Hf |- * by (rewrite ?Hd; auto; lia).
    destruct (Z.leb_spec (e - 21 + 23) 104) as [Ho |]; [| discriminate].
    rewrite (add_small sg m e m e 0 1 m);
      [| lia | lia | digits 25 | right; left; split; [reflexivity | cbn; lia]
       | cbn; lia | lia].
    destruct (Z.lt_ge_cases (3 * Z.pos m) (2 ^ 25)) as [H3 | H3]; cbn in H3.
    + destruct (rne_exists (3 * Z.pos m) 1) as (q3 & Hq3); [auto | lia |].
      assert (Hq3' := Hq3).
      destruct Hq3' as [[? _] | [[_ Hq3'] | [? _]]]; [lia | | lia].
      rewrite (add_small sg m (e + 1) m e 1 1 q3);
        [| lia | lia | digits 25 | replace (Z.pos m * 2 ^ 1 + Z.pos m) with (3 * Z.pos m) by lia; exact Hq3
         | cbn; lia | lia].
      rewrite (add_small sg q3 (e + 1) m e 1 2 m);
        [| lia | lia | digits 26 | | cbn; lia | lia].
      * f_equal. lia.
      * right; right. split; [reflexivity |]. cbn.
        Z.to_euclidean_division_equations. lia.
    + destruct (rne_exists (3 * Z.pos m) 2) as (q3 & Hq3); [auto | lia |].
      assert (Hq3' := Hq3).
      destruct Hq3' as [[? _] | [[? _] | [_ Hq3']]]; [lia | lia |].
      rewrite (add_small sg m (e + 1) m e 1 2 q3);
        [| lia | lia | digits 26 | replace (Z.pos m * 2 ^ 1 + Z.pos m) with (3 * Z.pos m) by lia; exact Hq3
         | cbn; lia | lia].
      rewrite (add_small sg q3 (e + 2) m e 2 2 m);
        [| lia | lia | digits 26 | | cbn; lia | lia].
      * f_equal. lia.
      * right; right. split; [reflexivity |]. cbn.
        Z.to_euclidean_division_equations. lia.
  - rewrite Hd in Hb.
    rewrite (mul_four sg m (-149) 22 (m~0));
      [| rewrite Hd; lia | auto | cbn [digits2_pos]; lia].
    change (-149 - 21 + 22) with (-149 + 1). change (-149 + 1 <=? 104) with true.
    cbv iota.
    rewrite (add_small sg m (-149) m (-149) 0 0 (m~0));
      [| lia | lia | digits 24 | left; split; [reflexivity | lia] | lia | lia].
    destruct (Z.lt_ge_cases (3 * Z.pos m) (2 ^ 24)) as [H3 | H3].
    + rewrite (add_small sg (m~0) (-149 + 0) m (-149) 0 0 (m~0 + m));
        [| lia | lia | digits 24 | left; split; [reflexivity | lia] | lia | lia].
      rewrite (add_small sg (m~0 + m) (-149 + 0) m (-149) 0 1 (m~0));
        [| lia | lia | digits 25 | right; left; split; [reflexivity | lia]
         | lia | lia].
      reflexivity.
    + destruct (rne_exists (3 * Z.pos m) 1) as (q3 & Hq3); [auto | lia |].
      assert (Hq3' := Hq3).
      destruct Hq3' as [[? _] | [[_ Hq3'] | [? _]]]; [lia | | lia].
      rewrite (add_small sg (m~0) (-149 + 0) m (-149) 0 1 q3);
        [| lia | lia | digits 25
         | replace (Z.pos m~0 * 2 ^ 0 + Z.pos m) with (3 * Z.pos m) by lia;
           exact Hq3
         | lia | lia].
      rewrite (add_small sg q3 (-149 + 1) m (-149) 1 1 (m~0));
        [| lia | lia | digits 25 | | lia | lia].
      * reflexivity.
      * right; left. split; [reflexivity |].
        Z.to_euclidean_division_equations. lia.
  - assert (Hm : Z.pos m < 2 ^ 22).
    { apply Z.lt_le_trans with (1 := proj2 Hb). apply Z.pow_le_mono_r; lia. }
    rewrite (mul_four sg m (-149) 21 (m~0~0));
      [| lia | auto | cbn [digits2_pos]; lia].
    change (-149 - 21 + 21) with (-149 + 0). change (-149 + 0 <=? 104) with true.
    cbv iota.
    rewrite (add_small sg m (-149) m (-149) 0 0 (m~0));
      [| lia | lia
       | pose proof (digits_le (Z.pos m * 2 ^ 0 + Z.pos m) 24); lia
       | left; split; [reflexivity | lia] | lia | lia].
    rewrite (add_small sg (m~0) (-149 + 0) m (-149) 0 0 (m~0 + m));
      [| lia | lia
       | pose proof (digits_le (Z.pos m~0 * 2 ^ 0 + Z.pos m) 24); lia
       | left; split; [reflexivity | lia] | lia | lia].
    rewrite (add_small sg (m~0 + m) (-149 + 0) m (-149) 0 0 (m~0~0));
      [| lia | lia
       | pose proof (digits_le (Z.pos (m~0 + m) * 2 ^ 0 + Z.pos m) 24); lia
       | left; split; [reflexivity | lia] | lia | lia].
    reflexivity.
Qed.

End Binary32.

(** ** The stencil on a uniform field *)

Lemma sub_self x : F32.is_finite x = true -> F32.sub x x = S754_zero false.
Proof.
  destruct x as [s | s | | s m e]; try discriminate; intros _.
  - destruct s; reflexivity.
  - unfold F32.sub, SFsub. cbv zeta. rewrite Z.sub_diag. reflexivity.
Qed.

Lemma eqb_refl u : F32.is_finite u = true -> F32.eqb u u = true.
Proof.
  destruct u as [s | s | | s m e]; try discriminate; intros _.
  - reflexivity.
  - unfold F32.eqb, SFeqb, SFcompare.
    destruct s; rewrite Z.compare_refl, Pos.compare_cont_refl; reflexivity.
Qed.

Lemma add_signed_zero u s :
  F32.is_finite u = true ->
  F32.eqb (F32.add u (S754_zero s)) u = true /\
  (u <> S754_zero true -> F32.add u (S754_zero s) = u).
Proof.
  destruct u as [su | su | | su m e]; try discriminate; intros _.
  - destruct su, s; split; try reflexivity; intros H; congruence.
  - split; [apply (eqb_refl (S754_finite su m e)) |]; reflexivity.
Qed.

Lemma stencil_uniform u m :
  F32.valid u = true -> F32.is_finite (F32.mul (F32.of_int 4) u) = true ->
  F32.is_finite m = true ->
  let v := F32.add u
             (F32.mul m
                (F32.sub (F32.add (F32.add (F32.add u u) u) u)
                         (F32.mul (F32.of_int 4) u))) in
  F32.eqb v u = true /\ (u <> S754_zero true -> v = u).
Proof.
  intros Hv Hf Hm. cbv zeta.
  rewrite sum_four, sub_self by assumption.
  destruct (finite_times_zero m false Hm) as (s' & ->).
  apply add_signed_zero.
  destruct u; try reflexivity; discriminate.
Qed.

Lemma uniform_replicate n u : uniform (replicate n u) u.
Proof.
  intros j Hj. unfold aget, alen in *. rewrite length_replicate in Hj.
  destruct (Z.leb_spec 0 j); [| lia].
  apply nth_lookup_Some with (d := F32.zero), lookup_replicate.
  split; [reflexivity | lia].
Qed.

Lemma uniform_proc_ok c u m : config_ok c -> proc_ok c (uniform_proc c u m).
Proof.
  intros Hc. destruct (local_grid_size_nonneg c Hc) as [H0 H1].
  unfold proc_ok, uniform_proc, alen. cbn [local_temp0 local_temp1 local_material].
  rewrite !length_replicate. lia.
Qed.

(** C8 (as the code has it). Let [u] be a binary32 datum whose fourfold
    [4*u] is finite (no overflow) and [m] a finite material value.  If
    every cell of the input buffer, ghost cells included, holds [u] and
    every local material cell holds [m], then after [ftcs_solver] every
    interior cell of the output buffer compares equal ([==]) to [u], and
    holds [u] itself unless [u] is the negative zero. *)
Theorem ftcs_solver_uniform (c : config) (step : Z) (p : proc) (u m : f32) :
  config_ok c -> 0 <= step -> proc_ok c p ->
  uniform (get_temp p (cur step)) u -> uniform (local_material p) m ->
  F32.valid u = true ->
  F32.is_finite (F32.mul (F32.of_int 4) u) = true ->
  F32.is_finite m = true ->
  forall x y, interior c x y ->
    let v := rdf (get_temp (ftcs_solver c step p) (nxt step)) (lti c x y) in
    F32.eqb v u = true /\ (u <> S754_zero true -> v = u).
Proof.
  intros Hc Hs Hok Hu Hm Hv Hf Hfm x y Hxy. cbv zeta.
  destruct (ftcs_solver_cells c Hc step p Hs Hok) as (_ & Hcell & _).
  rewrite (Hcell x y Hxy).
  assert (Hlen : alen (get_temp p (cur step)) =
                 (local_grid_size0 c + 2) * (local_grid_size1 c + 2)).
  { destruct Hok as (H0 & H1 & _).
    destruct (cur_nxt step Hs) as [[-> _] | [-> _]]; assumption. }
  destruct Hok as (_ & _ & Hmat). destruct Hxy as [Hx Hy].
  assert (Hin : forall i j, -1 <= i <= local_grid_size0 c ->
                            -1 <= j <= local_grid_size1 c ->
                            rdf (get_temp p (cur step)) (lti c i j) = u).
  { intros i j Hi Hj. apply Hu. rewrite Hlen. now apply lti_range. }
  rewrite (stencil_eq c _ _ x y u u u u u m);
    [apply stencil_uniform; assumption | apply Hin; lia .. |].
  apply Hm. rewrite Hmat, lmi_eq. nia.
Qed.

Lemma ftcs_solver_uniform_witness :
  let c := cfg_1x1 in
  let u := F32.lit 20 1 in
  let m := F32.lit 1 4 in
  let p := uniform_proc c u m in
  F32.valid u = true /\
  F32.is_finite (F32.mul (F32.of_int 4) u) = true /\
  F32.is_finite m = true /\
  rdf (get_temp (ftcs_solver c 0 p) (nxt 0)) (lti c 0 0) = u.
Proof.
  cbv zeta.
  assert (H1 : config_ok cfg_1x1) by (repeat split; reflexivity).
  assert (H2 : 0 <= 0) by lia.
  assert (H3 : F32.valid (F32.lit 20 1) = true) by reflexivity.
  assert (H4 : F32.is_finite (F32.mul (F32.of_int 4) (F32.lit 20 1)) = true)
    by reflexivity.
  assert (H5 : F32.is_finite (F32.lit 1 4) = true) by reflexivity.
  assert (H6 : interior cfg_1x1 0 0) by (vm_compute; repeat split; discriminate).
  assert (H7 : F32.lit 20 1 <> S754_zero true) by (vm_compute; discriminate).
  split; [exact H3 |]. split; [exact H4 |]. split; [exact H5 |].
  exact (proj2 (ftcs_solver_uniform cfg_1x1 0
                  (uniform_proc cfg_1x1 (F32.lit 20 1) (F32.lit 1 4))
                  (F32.lit 20 1) (F32.lit 1 4) H1 H2
                  (uniform_proc_ok _ _ _ H1)
                  (uniform_replicate _ _) (uniform_replicate _ _)
                  H3 H4 H5 0 0 H6) H7).
Defined.

(** C8 as stated fails: on a field that holds [2^127] in every cell, with
    material 1.0 everywhere, [4 * 2^127] overflows and the interior cell of
    the output buffer is a NaN, which is not [2^127]. *)
Lemma ftcs_solver_uniform_overflow :
  let c := cfg_1x1 in
  let u := S754_finite false 8388608 104 in
  let m := F32.of_int 1 in
  let p := uniform_proc c u m in
  F32.valid u = true /\ F32.is_finite u = true /\ F32.is_finite m = true /\
  proc_ok c p /\
  uniform (get_temp p (cur 0)) u /\ uniform (local_material p) m /\
  interior c 0 0 /\
  rdf (get_temp (ftcs_solver c 0 p) (nxt 0)) (lti c 0 0) = S754_nan /\
  rdf (get_temp (ftcs_solver c 0 p) (nxt 0)) (lti c 0 0) <> u /\
  F32.eqb (rdf (get_temp (ftcs_solver c 0 p) (nxt 0)) (lti c 0 0)) u = false.
Proof.
  cbv zeta.
  assert (H1 : config_ok cfg_1x1) by (repeat split; reflexivity).
  split; [reflexivity |]. split; [reflexivity |]. split; [reflexivity |].
  split; [apply uniform_proc_ok, H1 |].
  split; [apply uniform_replicate |]. split; [apply uniform_replicate |].
  split; [vm_compute; repeat split; discriminate |].
  split; [vm_compute; reflexivity |].
  split; [vm_compute; discriminate | vm_compute; reflexivity].
Qed.


(** * Further properties of the program *)

Section WholeRun.
Variable c : config.
Hypothesis Hc : config_ok c.

Lemma gather_temp_world_ok step w :
  world_ok c w -> world_ok c (gather_temp c step w).
Proof.
  intros Hw.
  assert (Hlen : alen (gather_temp c step w) = alen w).
  { destruct w; [reflexivity |]. unfold alen. reflexivity. }
  apply (world_ok_frame c w); [assumption | assumption | | assumption].
  intros r Hr.
  destruct (gather_temp_buffers c step w r) as (-> & -> & ->).
  destruct (Z.eq_dec r 0) as [-> | Hne].
  - destruct (gather_temp_root_fields c w step) as (_ & _ & _ & _ & -> & ->).
    destruct (gather_temp_cells c w step Hc Hw) as (Hl & _).
    unfold alen. rewrite Hl. repeat split.
  - rewrite gather_temp_others by lia. repeat split.
Qed.

Lemma iteration_world_ok step w :
  0 <= step -> world_ok c w ->
  exists w', iteration c step w = Some w' /\ world_ok c w'.
Proof.
  intros Hstep Hw. unfold iteration.
  set (w1 := if step <? CUTOFF
             then imap (fun r p => external_heat c step (Z.of_nat r) p) w
             else w).
  assert (Hw1 : world_ok c w1).
  { unfold w1. destruct (step <? CUTOFF); [| assumption].
    now apply external_heat_world_ok. }
  pose proof Hw1 as (Hlen1 & Hok1 & _).
  destruct (border_exchange_total c step w1 Hc Hstep Hlen1 Hok1)
    as (w2 & -> & Hlen2 & Hex).
  pose proof (border_exchange_world_ok c Hc step Hstep w1 w2 Hw1 Hlen2 Hex) as Hw2.
  pose proof (ftcs_solver_world_ok c Hc step Hstep w2 Hw2) as Hw3.
  eexists. split; [reflexivity |].
  destruct (Z.rem step SNAPSHOT =? 0); [now apply gather_temp_world_ok | assumption].
Qed.

Lemma iterations_world_ok n : forall step w,
  0 <= step -> world_ok c w ->
  exists w', iterations c n step w = Some w' /\ world_ok c w'.
Proof.
  induction n as [| n IH]; intros step w Hstep Hw; cbn [iterations].
  - eauto.
  - destruct (iteration_world_ok step w Hstep Hw) as (w1 & -> & Hw1).
    apply IH; [lia | assumption].
Qed.

Lemma startup_world_ok : world_ok c (startup c).
Proof.
  unfold startup. apply scatter_temp_world_ok; [assumption |].
  apply before_scatter_temp_ok, Hc.
Qed.

End WholeRun.

(** X1. On every mesh and grid [main] runs to its end: each of the
    [NSTEPS] halo exchanges completes (no rank waits for a message that is
    never sent), and the arrays keep the lengths they were allocated
    with. *)
Theorem main_completes (c : config) :
  config_ok c -> exists w, main c = Some w /\ world_ok c w.
Proof.
  intros Hc. unfold main.
  apply iterations_world_ok; [assumption | lia | now apply startup_world_ok].
Qed.

Lemma main_completes_witness :
  config_ok cfg_source /\ exists w, main cfg_source = Some w.
Proof.
  assert (H1 : config_ok cfg_source) by (repeat split; reflexivity).
  split; [exact H1 |].
  destruct (main_completes cfg_source H1) as (w & Hw & _).
  exists w. exact Hw.
Defined.

Section InitialField.
Variable c : config.
Hypothesis Hc : config_ok c.

Lemma nest_temperature lo0 hi0 lo1 hi1 m (t : option f32) p :
  temperature (for_loop lo0 hi0 (fun x =>
                 for_loop lo1 hi1 (fun y => set_cell c x y m t)) p) =
  match t with
  | Some v => fold_left (fun a xy => aset a (ti c xy.1 xy.2) v)
                        (cells lo0 hi0 lo1 hi1) (temperature p)
  | None => temperature p
  end.
Proof.
  rewrite for_loop_nest. revert p.
  induction (cells lo0 hi0 lo1 hi1) as [| xy cs IH]; intros p; cbn [fold_left];
    [destruct t; reflexivity |].
  rewrite IH. unfold set_cell. destruct t, m; reflexivity.
Qed.

(** One loop nest of [init_temp_material] that stores a temperature. *)
Lemma nest_temperature_cells lo0 hi0 lo1 hi1 m v p :
  alen (temperature p) = GRID_SIZE0 c * GRID_SIZE1 c ->
  0 <= lo0 -> hi0 <= GRID_SIZE0 c -> 0 <= lo1 -> hi1 <= GRID_SIZE1 c ->
  let p' := for_loop lo0 hi0 (fun x =>
              for_loop lo1 hi1 (fun y => set_cell c x y m (Some v))) p in
  alen (temperature p') = alen (temperature p) /\
  forall x y, 0 <= x < GRID_SIZE0 c -> 0 <= y < GRID_SIZE1 c ->
    rdf (temperature p') (ti c x y) =
    if (lo0 <=? x) && (x <? hi0) && (lo1 <=? y) && (y <? hi1)
    then v else rdf (temperature p) (ti c x y).
Proof.
  intros La H0 H1 H2 H3. cbn zeta. rewrite nest_temperature.
  destruct (writes_spec F32.zero (fun xy : Z * Z => ti c xy.1 xy.2)
    (fun _ => v) (cells lo0 hi0 lo1 hi1) (temperature p)) as (W1 & W2 & W3).
  - intros [x y] Hin. apply In_cells in Hin. cbn [fst snd]. rewrite La.
    apply ti_range; lia.
  - reflexivity.
  - split; [unfold alen; now rewrite W1 |]. intros x y Hx Hy.
    destruct ((lo0 <=? x) && (x <? hi0) && (lo1 <=? y) && (y <? hi1)) eqn:E.
    + apply (W2 (x, y)), In_cells.
      repeat (apply andb_true_iff in E as [E ?]). lia.
    + apply W3. intros [x' y'] Hin He. apply In_cells in Hin. cbn [fst snd] in He.
      apply ti_inj in He as [-> ->]; [| lia | lia].
      assert ((lo0 <=? x) && (x <? hi0) && (lo1 <=? y) && (y <? hi1) = true)
        by (repeat (apply andb_true_iff; split); lia).
      congruence.
Qed.

Lemma init_temp_material_temperature p x y :
  alen (temperature p) = GRID_SIZE0 c * GRID_SIZE1 c ->
  0 <= x < GRID_SIZE0 c -> 0 <= y < GRID_SIZE1 c ->
  rdf (temperature (init_temp_material c p)) (ti c x y) =
  if in_heater c x y then F32.lit 100 1
  else if in_tin c x y || in_copper c x y then F32.lit 60 1
  else F32.lit 20 1.
Proof.
  intros La Hx Hy. destruct Hc as (_ & _ & G0 & G1).
  unfold init_temp_material. cbv zeta.
  set (v1 := F32.mul MERCURY (F32.mul (F32.div dt h) h)).
  set (p1 := for_loop (- (BORDER - 1)) _ _ p).
  set (p2 := for_loop 0 _ _ p1).
  set (p3 := for_loop (5 * GRID_SIZE0 c ÷ 8) _ _ p2).
  set (p4 := for_loop (GRID_SIZE0 c ÷ 8) _ _ p3).
  assert (L1 : alen (temperature p1) = GRID_SIZE0 c * GRID_SIZE1 c).
  { unfold p1. rewrite nest_temperature. exact La. }
  destruct (nest_temperature_cells 0 (GRID_SIZE0 c) 0 (GRID_SIZE1 c) (Some v1)
              (F32.lit 20 1) p1 L1)
    as [L2 C2]; try lia.
  fold p2 in L2, C2.
  destruct (nest_temperature_cells (5 * GRID_SIZE0 c ÷ 8) (7 * GRID_SIZE0 c ÷ 8)
              (GRID_SIZE1 c ÷ 8) (3 * GRID_SIZE1 c ÷ 8)
              (Some (F32.mul COPPER (F32.div dt (F32.mul h h))))
              (F32.lit 60 1) p2 ltac:(lia))
    as [L3 C3]; try (Z.to_euclidean_division_equations; lia).
  fold p3 in L3, C3.
  destruct (nest_temperature_cells (GRID_SIZE0 c ÷ 8)
              (GRID_SIZE0 c ÷ 2 - GRID_SIZE0 c ÷ 8)
              (5 * GRID_SIZE1 c ÷ 8) (7 * GRID_SIZE1 c ÷ 8)
              (Some (F32.mul TIN (F32.div dt (F32.mul h h))))
              (F32.lit 60 1) p3 ltac:(lia))
    as [L4 C4]; try (Z.to_euclidean_division_equations; lia).
  fold p4 in L4, C4.
  destruct (nest_temperature_cells (GRID_SIZE0 c ÷ 4) (3 * GRID_SIZE0 c ÷ 4 + 1)
              (GRID_SIZE1 c ÷ 2 - GRID_SIZE1 c ÷ 16)
              (GRID_SIZE1 c ÷ 2 + GRID_SIZE1 c ÷ 16 + 1)
              (Some (F32.mul ALUMINIUM (F32.div dt (F32.mul h h))))
              (F32.lit 100 1) p4 ltac:(lia))
    as [_ C5]; try (Z.to_euclidean_division_equations; lia).
  rewrite C5, C4, C3, C2 by assumption.
  unfold in_heater, in_tin, in_copper.
  replace (x <? 3 * GRID_SIZE0 c ÷ 4 + 1) with (x <=? 3 * GRID_SIZE0 c ÷ 4)
    by (destruct (Z.leb_spec x (3 * GRID_SIZE0 c ÷ 4)),
                 (Z.ltb_spec x (3 * GRID_SIZE0 c ÷ 4 + 1)); lia || reflexivity).
  replace (y <? GRID_SIZE1 c ÷ 2 + GRID_SIZE1 c ÷ 16 + 1)
    with (y <=? GRID_SIZE1 c ÷ 2 + GRID_SIZE1 c ÷ 16)
    by (destruct (Z.leb_spec y (GRID_SIZE1 c ÷ 2 + GRID_SIZE1 c ÷ 16)),
                 (Z.ltb_spec y (GRID_SIZE1 c ÷ 2 + GRID_SIZE1 c ÷ 16 + 1));
        lia || reflexivity).
  replace ((0 <=? x) && (x <? GRID_SIZE0 c) && (0 <=? y) && (y <? GRID_SIZE1 c))
    with true
    by (symmetry; repeat (apply andb_true_iff; split); lia).
  destruct ((_ <=? x) && (x <=? _) && (_ <=? y) && (y <=? _)); [reflexivity |].
  destruct ((GRID_SIZE0 c ÷ 8 <=? x) && _ && _ && _); [reflexivity |].
  destruct ((5 * GRID_SIZE0 c ÷ 8 <=? x) && _ && _ && _); reflexivity.
Qed.

End InitialField.

(** X2. [init_temp_material] fills the whole global temperature field:
    100.0 on the heating element, 60.0 on the rest of the tin and copper
    blocks, 20.0 elsewhere; no cell is left at the zero of [calloc].  It
    keeps the lengths of the two global arrays and touches no local
    array. *)
Theorem init_temp_material_field (c : config) (p : proc) :
  config_ok c -> alen (temperature p) = GRID_SIZE0 c * GRID_SIZE1 c ->
  let p' := init_temp_material c p in
  (forall x y, 0 <= x < GRID_SIZE0 c -> 0 <= y < GRID_SIZE1 c ->
     rdf (temperature p') (ti c x y) =
     if in_heater c x y then F32.lit 100 1
     else if in_tin c x y || in_copper c x y then F32.lit 60 1
     else F32.lit 20 1) /\
  (forall k, 0 <= k < alen (temperature p') ->
     rdf (temperature p') k <> F32.zero) /\
  alen (temperature p') = alen (temperature p) /\
  alen (material p') = alen (material p) /\
  local_material p' = local_material p /\
  local_temp0 p' = local_temp0 p /\ local_temp1 p' = local_temp1 p /\
  displs p' = displs p /\ sendcounts p' = sendcounts p.
Proof.
  intros Hc La. cbv zeta.
  destruct (init_temp_material_frame c p) as (Lm & Lt & F1 & F2 & F3 & F4 & F5).
  split; [intros x y Hx Hy; now apply init_temp_material_temperature |].
  split.
  - intros k Hk. unfold alen in Hk. rewrite Lt in Hk. fold (alen (temperature p)) in Hk.
    rewrite La in Hk. destruct Hc as (D0 & D1 & G0 & G1).
    assert (Hxy : exists x y, 0 <= x < GRID_SIZE0 c /\ 0 <= y < GRID_SIZE1 c /\
                              ti c x y = k).
    { exists (k mod GRID_SIZE0 c), (k / GRID_SIZE0 c). unfold ti.
      pose proof (Z.mod_pos_bound k (GRID_SIZE0 c) G0).
      pose proof (Z.div_mod k (GRID_SIZE0 c) ltac:(lia)).
      assert (0 <= k / GRID_SIZE0 c) by (apply Z.div_pos; lia).
      assert (k / GRID_SIZE0 c < GRID_SIZE1 c)
        by (apply Z.div_lt_upper_bound; lia).
      repeat split; lia. }
    destruct Hxy as (x & y & Hx & Hy & <-).
    rewrite (init_temp_material_temperature c (conj D0 (conj D1 (conj G0 G1))) p x y La Hx Hy).
    destruct (in_heater c x y); [vm_compute; discriminate |].
    destruct (in_tin c x y || in_copper c x y); vm_compute; discriminate.
  - unfold alen. rewrite Lm, Lt. repeat split; assumption.
Qed.

Lemma init_temp_material_field_witness :
  config_ok cfg_source /\
  alen (temperature (allocate cfg_source 0)) =
    GRID_SIZE0 cfg_source * GRID_SIZE1 cfg_source /\
  rdf (temperature (init_temp_material cfg_source (allocate cfg_source 0)))
      (ti cfg_source 128 128) = F32.lit 100 1.
Proof.
  assert (H1 : config_ok cfg_source) by (repeat split; reflexivity).
  assert (H2 : alen (temperature (allocate cfg_source 0)) =
               GRID_SIZE0 cfg_source * GRID_SIZE1 cfg_source)
    by (vm_compute; reflexivity).
  split; [exact H1 |]. split; [exact H2 |].
  exact (proj1 (init_temp_material_field cfg_source (allocate cfg_source 0) H1 H2)
           128 128 ltac:(vm_compute; split; [discriminate | reflexivity])
                   ltac:(vm_compute; split; [discriminate | reflexivity])).
Defined.

(** X3. [init_local_temp] sets every cell of both local temperature
    buffers, the ghost cells included, to 10.0: no cell keeps the zero of
    [calloc].  It changes no other array and no length. *)
Theorem init_local_temp_uniform (c : config) (p : proc) :
  config_ok c -> proc_ok c p ->
  let p' := init_local_temp c p in
  uniform (local_temp0 p') (F32.lit 10 1) /\
  uniform (local_temp1 p') (F32.lit 10 1) /\
  alen (local_temp0 p') = alen (local_temp0 p) /\
  alen (local_temp1 p') = alen (local_temp1 p) /\
  material p' = material p /\ temperature p' = temperature p /\
  local_material p' = local_material p /\
  displs p' = displs p /\ sendcounts p' = sendcounts p.
Proof.
  intros Hc Hp. cbv zeta.
  destruct (init_local_temp_cells c p Hc Hp)
    as ((L0 & L1 & _) & E1 & E2 & E3 & E4 & E5 & Hcells).
  destruct Hp as (K0 & K1 & _).
  split; [| split].
  - intros k Hk. rewrite L0 in Hk.
    destruct (lti_surj c k Hc Hk) as (x & y & Hx & Hy & <-).
    now apply Hcells.
  - intros k Hk. rewrite L1 in Hk.
    destruct (lti_surj c k Hc Hk) as (x & y & Hx & Hy & <-).
    now apply Hcells.
  - rewrite L0, L1, K0, K1. repeat split; assumption.
Qed.

Lemma init_local_temp_uniform_witness :
  config_ok cfg_2x2_4 /\ proc_ok cfg_2x2_4 (allocate cfg_2x2_4 1) /\
  rdf (local_temp0 (init_local_temp cfg_2x2_4 (allocate cfg_2x2_4 1))) 0 =
  F32.lit 10 1.
Proof.
  assert (H1 : config_ok cfg_2x2_4) by (repeat split; reflexivity).
  assert (H2 : proc_ok cfg_2x2_4 (allocate cfg_2x2_4 1))
    by (repeat split; reflexivity).
  split; [exact H1 |]. split; [exact H2 |].
  apply (proj1 (init_local_temp_uniform cfg_2x2_4 (allocate cfg_2x2_4 1) H1 H2)).
  vm_compute. split; [discriminate | reflexivity].
Defined.

Section ExternalHeat.
Variable c : config.
Hypothesis Hc : config_ok c.
Variable step : Z.
Hypothesis Hstep : 0 <= step.
Variable rank : Z.

(** The cells of the heating element, as the loops of [external_heat]
    visit them. *)
Let heater_cells : list (Z * Z) :=
  cells (Z.quot (GRID_SIZE0 c) 4) (Z.quot (3 * GRID_SIZE0 c) 4 + 1)
        (Z.quot (GRID_SIZE1 c) 2 - Z.quot (GRID_SIZE1 c) 16)
        (Z.quot (GRID_SIZE1 c) 2 + Z.quot (GRID_SIZE1 c) 16 + 1).

Lemma In_heater_cells x y :
  In (x, y) heater_cells <-> in_heater c x y = true.
Proof.
  unfold heater_cells, in_heater. rewrite In_cells, !andb_true_iff, !Z.leb_le.
  lia.
Qed.

Lemma inside_spec x y :
  inside c rank x y = true <->
  interior c (x - local_origin0 c rank) (y - local_origin1 c rank).
Proof.
  unfold inside, interior.
  rewrite !andb_true_iff, !Z.geb_le, !Z.ltb_lt. lia.
Qed.

Lemma external_heat_writes p :
  external_heat c step rank p =
  set_temp p (cur step)
    (fold_left (fun a xy =>
        aset a (lti c (xy.1 - local_origin0 c rank) (xy.2 - local_origin1 c rank))
             (F32.lit 100 1))
      (List.filter (fun xy => inside c rank xy.1 xy.2) heater_cells)
      (get_temp p (cur step))).
Proof.
  assert (Hb : cur step = 0 \/ cur step = 1)
    by (destruct (cur_nxt step Hstep) as [[-> _] | [-> _]]; auto).
  unfold external_heat. rewrite for_loop_nest. fold heater_cells.
  generalize heater_cells. intros cs. revert p.
  induction cs as [| xy cs IH]; intros p; cbn [fold_left List.filter].
  - now rewrite set_get_temp.
  - destruct (inside c rank xy.1 xy.2); cbn [fold_left]; [| apply IH].
    rewrite IH, set_set_temp, get_set_temp_eq by assumption. reflexivity.
Qed.

Lemma external_heat_interior p :
  proc_ok c p ->
  let a := get_temp p (cur step) in
  let a' := get_temp (external_heat c step rank p) (cur step) in
  (forall x y, interior c x y ->
     rdf a' (lti c x y) =
     if in_heater c (local_origin0 c rank + x) (local_origin1 c rank + y)
     then F32.lit 100 1 else rdf a (lti c x y)) /\
  (forall k,
     (forall x y, interior c x y ->
        in_heater c (local_origin0 c rank + x) (local_origin1 c rank + y) = true ->
        lti c x y <> k) ->
     rdf a' k = rdf a k).
Proof.
  intros Hp. cbv zeta.
  assert (Hb : cur step = 0 \/ cur step = 1)
    by (destruct (cur_nxt step Hstep) as [[-> _] | [-> _]]; auto).
  assert (Hlen : alen (get_temp p (cur step)) =
                 (local_grid_size0 c + 2) * (local_grid_size1 c + 2)).
  { destruct Hp as (H0 & H1 & _). destruct Hb as [-> | ->]; assumption. }
  rewrite external_heat_writes, get_set_temp_eq by assumption.
  set (cs := List.filter (fun xy => inside c rank xy.1 xy.2) heater_cells).
  assert (Hcs : forall x y, In (x, y) cs <->
            in_heater c x y = true /\
            interior c (x - local_origin0 c rank) (y - local_origin1 c rank)).
  { intros x y. unfold cs. rewrite filter_In. cbn [fst snd].
    now rewrite In_heater_cells, inside_spec. }
  destruct (writes_spec F32.zero
    (fun xy : Z * Z =>
       lti c (xy.1 - local_origin0 c rank) (xy.2 - local_origin1 c rank))
    (fun _ => F32.lit 100 1) cs (get_temp p (cur step))) as (_ & W2 & W3).
  - intros [x y] Hin. apply Hcs in Hin as [_ [Hx Hy]]. cbn [fst snd].
    rewrite Hlen. apply lti_range; [assumption | lia | lia].
  - reflexivity.
  - split.
    + intros x y [Hx Hy].
      destruct (in_heater c (local_origin0 c rank + x) (local_origin1 c rank + y))
        eqn:Eh.
      * specialize (W2 (local_origin0 c rank + x, local_origin1 c rank + y)).
        cbn [fst snd] in W2.
        replace (local_origin0 c rank + x - local_origin0 c rank) with x in W2 by lia.
        replace (local_origin1 c rank + y - local_origin1 c rank) with y in W2 by lia.
        apply W2, Hcs. split; [assumption |].
        unfold interior. lia.
      * apply W3. intros [x' y'] Hin He. apply Hcs in Hin as [Hh [Hx' Hy']].
        cbn [fst snd] in He.
        apply lti_inj in He as [E1 E2]; [| lia | lia].
        replace (local_origin0 c rank + x) with x' in Eh by lia.
        replace (local_origin1 c rank + y) with y' in Eh by lia.
        congruence.
    + intros k Hk. apply W3. intros [x' y'] Hin. apply Hcs in Hin as [Hh Hi].
      cbn [fst snd]. apply Hk; [assumption |].
      replace (local_origin0 c rank + (x' - local_origin0 c rank)) with x' by lia.
      replace (local_origin1 c rank + (y' - local_origin1 c rank)) with y' by lia.
      assumption.
Qed.

End ExternalHeat.

(** X4. [external_heat] at step [s] on a rank sets to 100.0 exactly the
    interior cells of buffer [s mod 2] whose global coordinates lie on the
    heating element (the rectangle [init_temp_material] heats); every other
    cell of that buffer, the ghost cells among them, the other buffer and
    all other arrays are as they were.  A rank whose block does not meet
    the element is left unchanged. *)
Theorem external_heat_cells (c : config) (step rank : Z) (p : proc) :
  config_ok c -> 0 <= step -> proc_ok c p ->
  let p' := external_heat c step rank p in
  let a := get_temp p (cur step) in
  let a' := get_temp p' (cur step) in
  let heated := fun x y =>
    in_heater c (local_origin0 c rank + x) (local_origin1 c rank + y) in
  (forall x y, 0 <= x < local_grid_size0 c -> 0 <= y < local_grid_size1 c ->
     rdf a' (lti c x y) = if heated x y then F32.lit 100 1 else rdf a (lti c x y)) /\
  (forall x y, -1 <= x <= local_grid_size0 c -> -1 <= y <= local_grid_size1 c ->
     ~ (0 <= x < local_grid_size0 c /\ 0 <= y < local_grid_size1 c) ->
     rdf a' (lti c x y) = rdf a (lti c x y)) /\
  ((forall x y, 0 <= x < local_grid_size0 c -> 0 <= y < local_grid_size1 c ->
      heated x y = false) -> p' = p) /\
  get_temp p' (nxt step) = get_temp p (nxt step) /\
  alen a' = alen a /\
  material p' = material p /\ temperature p' = temperature p /\
  local_material p' = local_material p /\
  displs p' = displs p /\ sendcounts p' = sendcounts p.
Proof.
  intros Hc Hstep Hp. cbv zeta.
  destruct (external_heat_interior c Hc step Hstep rank p Hp) as [Hin Hout].
  split; [intros x y Hx Hy; apply Hin; split; assumption |].
  split.
  { intros x y Hx Hy Hg. apply Hout. intros x' y' [Hx' Hy'] _ He.
    apply lti_inj in He as [-> ->]; [| lia | lia]. apply Hg. lia. }
  split; [| apply external_heat_frame; assumption].
  intros Hcold. rewrite external_heat_writes by assumption.
  assert (Hnil : List.filter (fun xy => inside c rank xy.1 xy.2)
            (cells (Z.quot (GRID_SIZE0 c) 4) (Z.quot (3 * GRID_SIZE0 c) 4 + 1)
               (Z.quot (GRID_SIZE1 c) 2 - Z.quot (GRID_SIZE1 c) 16)
               (Z.quot (GRID_SIZE1 c) 2 + Z.quot (GRID_SIZE1 c) 16 + 1)) = []).
  { match goal with |- ?l = [] => destruct l as [| [x y] l'] eqn:El end;
      [reflexivity | exfalso].
    assert (Hi : In (x, y) (List.filter (fun xy => inside c rank xy.1 xy.2)
            (cells (Z.quot (GRID_SIZE0 c) 4) (Z.quot (3 * GRID_SIZE0 c) 4 + 1)
               (Z.quot (GRID_SIZE1 c) 2 - Z.quot (GRID_SIZE1 c) 16)
               (Z.quot (GRID_SIZE1 c) 2 + Z.quot (GRID_SIZE1 c) 16 + 1))))
      by (rewrite El; left; reflexivity).
    apply filter_In in Hi as [Hi1 Hi2]. cbn [fst snd] in Hi2.
    apply In_heater_cells in Hi1. apply inside_spec in Hi2 as [Hx Hy].
    specialize (Hcold _ _ Hx Hy).
    replace (local_origin0 c rank + (x - local_origin0 c rank)) with x in Hcold by lia.
    replace (local_origin1 c rank + (y - local_origin1 c rank)) with y in Hcold by lia.
    congruence. }
  rewrite Hnil. cbn [fold_left]. apply set_get_temp.
Qed.

Lemma external_heat_cells_witness :
  config_ok cfg_2x2_4 /\ 0 <= 0 /\ proc_ok cfg_2x2_4 (rank_of world_4 1) /\
  rdf (get_temp (external_heat cfg_2x2_4 0 1 (rank_of world_4 1)) (cur 0))
      (lti cfg_2x2_4 1 0) = F32.lit 100 1.
Proof.
  assert (H1 : config_ok cfg_2x2_4) by (repeat split; reflexivity).
  assert (H2 : 0 <= 0) by lia.
  assert (H3 : proc_ok cfg_2x2_4 (rank_of world_4 1))
    by (repeat split; reflexivity).
  split; [exact H1 |]. split; [exact H2 |]. split; [exact H3 |].
  exact (proj1 (external_heat_cells cfg_2x2_4 0 1 (rank_of world_4 1) H1 H2 H3)
           1 0 ltac:(vm_compute; split; [discriminate | reflexivity])
               ltac:(vm_compute; split; [discriminate | reflexivity])).
Defined.

Lemma rows_are_consecutive (n m : Z) :
  0 <= n -> 0 <= m ->
  map (fun ij : Z * Z => ij.1 * m + ij.2) (cells 0 n 0 m) = seqZ 0 (n * m).
Proof.
  intros Hn Hm. rewrite map_cells, !Z.sub_0_r.
  rewrite <- (Z2Nat.id n Hn). generalize (Z.to_nat n). clear n Hn. intros k.
  induction k as [| k IH].
  - reflexivity.
  - rewrite Nat2Z.inj_succ. unfold Z.succ.
    rewrite seqZ_app by lia. rewrite flat_map_app, IH.
    change (seqZ (0 + Z.of_nat k) 1) with [0 + Z.of_nat k]. cbn [flat_map].
    rewrite app_nil_r.
    replace (map (fun y : Z => (0 + Z.of_nat k, y).1 * m + (0 + Z.of_nat k, y).2)
                 (seqZ 0 m))
      with (Z.add (Z.of_nat k * m) <$> seqZ 0 m)
      by (apply map_ext; intros y; cbn [fst snd]; lia).
    rewrite fmap_add_seqZ.
    replace ((Z.of_nat k + 1) * m) with (Z.of_nat k * m + m) by lia.
    rewrite seqZ_app by nia. do 2 f_equal. lia.
Qed.

Section ScatterMaterial.
Variable c : config.
Hypothesis Hc : config_ok c.

Lemma positions_floats off n :
  positions off n MPI_FLOAT = map (fun k => off + k) (seqZ 0 n).
Proof.
  unfold positions. cbn [MPI_FLOAT typemap extent map].
  rewrite flat_map_single. apply map_ext. intros k. lia.
Qed.

(** What one rank receives from [scatter_material], when the root sends
    it one block. *)
Lemma scatterv_material_writes (sendbuf recvbuf : list f32) scounts sdispls r :
  rdi scounts r = 1 ->
  MPI_Scatterv sendbuf (mi c 0 0) scounts sdispls (localCart c)
               recvbuf (lmi c 0 0)
               (local_grid_size1 c * local_grid_size0 c) MPI_FLOAT r =
  fold_left (fun a ij =>
      aset a (lmi c ij.2 ij.1)
        (rdf sendbuf (rdi sdispls r + ij.1 * GRID_SIZE0 c + ij.2)))
    (cells 0 (local_grid_size1 c) 0 (local_grid_size0 c)) recvbuf.
Proof.
  intros Hcount. destruct (local_grid_size_nonneg c Hc) as [H0 H1].
  unfold MPI_Scatterv, unpack, pack. rewrite Hcount.
  rewrite positions_floats, positions_localCart.
  rewrite <- (rows_are_consecutive _ _ H1 H0), map_map.
  rewrite unpack_pack_cells. apply fold_left_ext_in. intros a [i j] _.
  cbn [fst snd]. f_equal.
  - unfold lmi, BORDER. lia.
  - f_equal. unfold mi, BORDER, localCart, MPI_Type_create_resized. cbn. lia.
Qed.

Lemma lmi_range x y :
  interior c x y -> 0 <= lmi c x y < local_grid_size0 c * local_grid_size1 c.
Proof. intros [Hx Hy]. rewrite lmi_eq. nia. Qed.

Lemma lmi_inj x y x' y' :
  interior c x y -> interior c x' y' ->
  lmi c x y = lmi c x' y' -> x = x' /\ y = y'.
Proof.
  intros [Hx Hy] [Hx' Hy']. rewrite !lmi_eq. intros He.
  assert (y = y') by nia. subst. lia.
Qed.

Lemma scatter_material_cells w r :
  alen w = size c ->
  (forall r, 0 <= r < size c -> proc_ok c (rank_of w r)) ->
  alen (displs (rank_of w 0)) = size c ->
  alen (sendcounts (rank_of w 0)) = size c ->
  0 <= r < size c ->
  forall x y, interior c x y ->
    rdf (local_material (rank_of (scatter_material c w) r)) (lmi c x y) =
    rdf (material (rank_of w 0))
        (mi c (local_origin0 c r + x) (local_origin1 c r + y)).
Proof.
  intros Hlen Hok Hd Hs Hr x y Hxy.
  rewrite scatter_material_rank by assumption.
  cbn [set_local_material local_material].
  destruct (cart_rank_coords c Hc r Hr) as (Er & C0 & C1).
  destruct (displacement_table_cells c (rank_of w 0) (coords0 c r) (coords1 c r)
              Hd Hs C0 C1) as (D1 & D2 & _).
  rewrite Er in D1, D2.
  rewrite scatterv_material_writes by exact D2.
  destruct (help_frame c 0 (rank_of w 0)) as (-> & _).
  destruct (help_frame c r (rank_of w r)) as (_ & _ & -> & _).
  destruct (writes_spec F32.zero (fun ij : Z * Z => lmi c ij.2 ij.1)
    (fun ij => rdf (material (rank_of w 0))
       (rdi (displs (helpFunctionForDisplacement c 0 (rank_of w 0))) r +
        ij.1 * GRID_SIZE0 c + ij.2))
    (cells 0 (local_grid_size1 c) 0 (local_grid_size0 c))
    (local_material (rank_of w r))) as (_ & W2 & _).
  - intros [i j] Hin. apply In_cells in Hin. cbn [fst snd].
    destruct (Hok r Hr) as (_ & _ & ->). apply lmi_range. split; lia.
  - intros [i j] [i' j'] H1 H2 He. apply In_cells in H1, H2. cbn [fst snd] in *.
    apply lmi_inj in He as [-> ->]; [reflexivity | split; lia | split; lia].
  - destruct Hxy as [Hx Hy].
    specialize (W2 (y, x) ltac:(apply In_cells; lia)). cbn [fst snd] in W2.
    rewrite W2. f_equal. rewrite D1. unfold mi, BORDER, local_origin0, local_origin1. lia.
Qed.

End ScatterMaterial.

(** X5. [scatter_material] gives every rank its own block of the root's
    global material array: local cell [(x, y)] of rank [r] receives the
    global cell [(local_origin[0] + x, local_origin[1] + y)].  The
    temperature buffers and the global temperature field are not
    touched. *)
Theorem scatter_material_blocks (c : config) (w : list proc) (r : Z) :
  config_ok c -> alen w = size c ->
  (forall q, 0 <= q < size c -> proc_ok c (rank_of w q)) ->
  alen (displs (rank_of w 0)) = size c ->
  alen (sendcounts (rank_of w 0)) = size c ->
  alen (temperature (rank_of w 0)) = GRID_SIZE0 c * GRID_SIZE1 c ->
  0 <= r < size c ->
  let p := rank_of w r in
  let p' := rank_of (scatter_material c w) r in
  (forall x y, 0 <= x < local_grid_size0 c -> 0 <= y < local_grid_size1 c ->
     rdf (local_material p') (lmi c x y) =
     rdf (material (rank_of w 0))
         (mi c (local_origin0 c r + x) (local_origin1 c r + y))) /\
  alen (local_material p') = alen (local_material p) /\
  local_temp0 p' = local_temp0 p /\ local_temp1 p' = local_temp1 p /\
  temperature p' = temperature p.
Proof.
  intros Hc Hlen Hok Hd Hs Ht Hr. cbv zeta.
  split.
  - intros x y Hx Hy. apply scatter_material_cells; try assumption.
    split; assumption.
  - destruct (scatter_material_world_ok c Hc w Hlen Hok Hd Hs Ht)
      as ((_ & Hok' & _) & Hf).
    destruct (Hf r Hr) as (-> & -> & ->).
    destruct (Hok' r Hr) as (_ & _ & ->). destruct (Hok r Hr) as (_ & _ & ->).
    repeat split.
Qed.

Lemma scatter_material_blocks_witness :
  let c := cfg_2x2_4 in
  config_ok c /\ alen (allocated c) = size c /\
  (forall q, 0 <= q < size c -> proc_ok c (rank_of (allocated c) q)) /\
  rdf (local_material (rank_of (scatter_material c (allocated c)) 3)) (lmi c 1 1) =
  rdf (material (rank_of (allocated c) 0)) (mi c 3 3).
Proof.
  cbv zeta.
  assert (H1 : config_ok cfg_2x2_4) by (repeat split; reflexivity).
  assert (H2 : alen (allocated cfg_2x2_4) = size cfg_2x2_4) by reflexivity.
  assert (H3 : forall q, 0 <= q < size cfg_2x2_4 ->
                 proc_ok cfg_2x2_4 (rank_of (allocated cfg_2x2_4) q)).
  { intros q Hq. destruct (ranks_4 q Hq) as [-> | [-> | [-> | ->]]];
      repeat split; reflexivity. }
  split; [exact H1 |]. split; [exact H2 |]. split; [exact H3 |].
  exact (proj1 (scatter_material_blocks cfg_2x2_4 (allocated cfg_2x2_4) 3 H1 H2 H3
                  eq_refl eq_refl eq_refl
                  ltac:(vm_compute; split; [discriminate | reflexivity]))
           1 1 ltac:(vm_compute; split; [discriminate | reflexivity])
               ltac:(vm_compute; split; [discriminate | reflexivity])).
Defined.

Section Ownership.
Variable c : config.
Hypothesis Hc : config_ok c.

Lemma inside_owner r x y :
  0 <= r < size c -> inside c r x y = true ->
  0 <= x < dims0 c * local_grid_size0 c /\
  0 <= y < dims1 c * local_grid_size1 c /\
  coords0 c r = x / local_grid_size0 c /\
  coords1 c r = y / local_grid_size1 c.
Proof.
  intros Hr Hin. destruct (cart_rank_coords c Hc r Hr) as (_ & C0 & C1).
  destruct (local_grid_size_nonneg c Hc) as [L0 L1].
  unfold inside, local_origin0, local_origin1 in Hin.
  rewrite !andb_true_iff, !Z.geb_le, !Z.ltb_lt in Hin.
  assert (0 < local_grid_size0 c) by lia.
  assert (0 < local_grid_size1 c) by lia.
  assert (coords0 c r = x / local_grid_size0 c)
    by (apply Z.div_unique with (r := x - coords0 c r * local_grid_size0 c); lia).
  assert (coords1 c r = y / local_grid_size1 c)
    by (apply Z.div_unique with (r := y - coords1 c r * local_grid_size1 c); lia).
  repeat split; try nia; assumption.
Qed.

Lemma owner_inside x y :
  0 <= x < dims0 c * local_grid_size0 c ->
  0 <= y < dims1 c * local_grid_size1 c ->
  let r := MPI_Cart_rank c (x / local_grid_size0 c) (y / local_grid_size1 c) in
  0 <= r < size c /\ inside c r x y = true /\
  interior c (x - local_origin0 c r) (y - local_origin1 c r).
Proof.
  intros Hx Hy. cbv zeta.
  destruct (local_grid_size_nonneg c Hc) as [L0 L1].
  assert (P0 : 0 < local_grid_size0 c).
  { destruct (Z.eq_dec (local_grid_size0 c) 0) as [E | ?]; [| lia].
    rewrite E, Z.mul_0_r in Hx. lia. }
  assert (P1 : 0 < local_grid_size1 c).
  { destruct (Z.eq_dec (local_grid_size1 c) 0) as [E | ?]; [| lia].
    rewrite E, Z.mul_0_r in Hy. lia. }
  assert (Q0 : 0 <= x / local_grid_size0 c < dims0 c).
  { split; [apply Z.div_pos; lia | apply Z.div_lt_upper_bound; nia]. }
  assert (Q1 : 0 <= y / local_grid_size1 c < dims1 c).
  { split; [apply Z.div_pos; lia | apply Z.div_lt_upper_bound; nia]. }
  split; [apply cart_rank_range; assumption |].
  pose proof (Z.div_mod x (local_grid_size0 c) ltac:(lia)) as Ex.
  pose proof (Z.div_mod y (local_grid_size1 c) ltac:(lia)) as Ey.
  pose proof (Z.mod_pos_bound x _ P0) as Bx.
  pose proof (Z.mod_pos_bound y _ P1) as By.
  unfold inside, interior, local_origin0, local_origin1, coords0, coords1.
  rewrite cart_coords_rank by lia. cbn [fst snd].
  rewrite !andb_true_iff, !Z.geb_le, !Z.ltb_lt. lia.
Qed.

End Ownership.

(** X6. The blocks of the ranks partition the part of the grid the mesh
    covers: a global cell [(x, y)] with [x < dims[0] * local_grid_size[0]]
    and [y < dims[1] * local_grid_size[1]] is [inside] exactly one rank,
    the one at mesh coordinate [(x / local_grid_size[0],
    y / local_grid_size[1])], and a cell beyond those bounds is inside no
    rank.  Such cells exist when [GRID_SIZE] is not a multiple of [dims]
    (the division that computes [local_grid_size] truncates). *)
Theorem inside_partition (c : config) (x y : Z) :
  config_ok c ->
  let L0 := local_grid_size0 c in
  let L1 := local_grid_size1 c in
  (forall r, 0 <= r < size c -> inside c r x y = true ->
     0 <= x < dims0 c * L0 /\ 0 <= y < dims1 c * L1 /\
     r = MPI_Cart_rank c (x / L0) (y / L1)) /\
  (0 <= x < dims0 c * L0 -> 0 <= y < dims1 c * L1 ->
     0 <= MPI_Cart_rank c (x / L0) (y / L1) < size c /\
     inside c (MPI_Cart_rank c (x / L0) (y / L1)) x y = true) /\
  (dims0 c * L0 = GRID_SIZE0 c <-> Z.rem (GRID_SIZE0 c) (dims0 c) = 0) /\
  (dims1 c * L1 = GRID_SIZE1 c <-> Z.rem (GRID_SIZE1 c) (dims1 c) = 0).
Proof.
  intros Hc. cbv zeta. split; [| split].
  - intros r Hr Hin.
    destruct (inside_owner c Hc r x y Hr Hin) as (Hx & Hy & E0 & E1).
    destruct (cart_rank_coords c Hc r Hr) as (Er & _).
    split; [exact Hx |]. split; [exact Hy |]. now rewrite <- E0, <- E1.
  - intros Hx Hy. destruct (owner_inside c Hc x y Hx Hy) as (H1 & H2 & _).
    split; assumption.
  - destruct Hc as (D0 & D1 & G0 & G1).
    unfold local_grid_size0, local_grid_size1.
    split; Z.to_euclidean_division_equations; nia.
Qed.

Lemma inside_partition_witness :
  let c := mkConfig 256 256 3 1 in
  config_ok c /\
  (forall r, 0 <= r < size c -> inside c r 255 0 = true -> False) /\
  inside c 1 100 7 = true.
Proof.
  cbv zeta.
  assert (H1 : config_ok (mkConfig 256 256 3 1)) by (repeat split; reflexivity).
  pose proof (inside_partition (mkConfig 256 256 3 1) 255 0 H1) as (Hout & _).
  pose proof (inside_partition (mkConfig 256 256 3 1) 100 7 H1) as (_ & Hin & _).
  split; [exact H1 |]. split.
  - intros r Hr Hi. destruct (Hout r Hr Hi) as ((_ & Hx) & _).
    vm_compute in Hx. discriminate.
  - apply Hin; vm_compute; split; discriminate || reflexivity.
Defined.

(** X7. [gather_temp], in global coordinates: a global cell the mesh
    covers takes the value of the owning rank's buffer [step mod 2] at the
    matching local cell; a cell of the grid that no rank owns (beyond
    [dims * local_grid_size]) keeps what root's array held; only root's
    global temperature array changes, no local array of any rank. *)
Theorem gather_temp_global (c : config) (w : list proc) (step : Z) :
  config_ok c -> world_ok c w ->
  let t := temperature (rank_of w 0) in
  let w' := gather_temp c step w in
  let t' := temperature (rank_of w' 0) in
  let L0 := local_grid_size0 c in
  let L1 := local_grid_size1 c in
  alen t' = alen t /\
  (forall x y, 0 <= x < dims0 c * L0 -> 0 <= y < dims1 c * L1 ->
     let r := MPI_Cart_rank c (x / L0) (y / L1) in
     rdf t' (ti c x y) =
     rdf (get_temp (rank_of w r) (cur step))
         (lti c (x - local_origin0 c r) (y - local_origin1 c r))) /\
  (forall x y, 0 <= x < GRID_SIZE0 c -> 0 <= y < GRID_SIZE1 c ->
     dims0 c * L0 <= x \/ dims1 c * L1 <= y ->
     rdf t' (ti c x y) = rdf t (ti c x y)) /\
  (forall r, local_temp0 (rank_of w' r) = local_temp0 (rank_of w r) /\
             local_temp1 (rank_of w' r) = local_temp1 (rank_of w r) /\
             local_material (rank_of w' r) = local_material (rank_of w r)) /\
  (forall r, 0 < r -> rank_of w' r = rank_of w r) /\
  material (rank_of w' 0) = material (rank_of w 0).
Proof.
  intros Hc Hw. cbv zeta.
  destruct (gather_temp_cells c w step Hc Hw) as (Hl & Hin & Hout).
  split; [unfold alen; now rewrite Hl |]. split; [| split; [| split; [| split]]].
  - intros x y Hx Hy.
    destruct (owner_inside c Hc x y Hx Hy) as (Hr & _ & Hi).
    rewrite <- (Hin _ _ _ Hr Hi). f_equal. f_equal; lia.
  - intros x y Hx Hy Hstrip. apply Hout. intros r x' y' Hr Hi He.
    destruct (block_cell_range c r x' y' Hc Hr Hi) as [Bx By].
    apply ti_inj in He as [Ex Ey]; [| assumption | assumption].
    destruct (cart_rank_coords c Hc r Hr) as (_ & C0 & C1).
    destruct Hi as [Hx' Hy']. unfold local_origin0, local_origin1 in *.
    destruct Hstrip; nia.
  - intros r. apply gather_temp_buffers.
  - intros r Hr. now apply gather_temp_others.
  - apply (gather_temp_root_fields c w step).
Qed.

Lemma gather_temp_global_witness :
  let c := mkConfig 5 5 2 2 in
  config_ok c /\ world_ok c (startup c) /\
  rdf (temperature (rank_of (gather_temp c 0 (startup c)) 0)) (ti c 4 1) =
  rdf (temperature (rank_of (startup c) 0)) (ti c 4 1).
Proof.
  cbv zeta.
  assert (H1 : config_ok (mkConfig 5 5 2 2)) by (repeat split; reflexivity).
  assert (H2 : world_ok (mkConfig 5 5 2 2) (startup (mkConfig 5 5 2 2)))
    by (apply startup_world_ok, H1).
  split; [exact H1 |]. split; [exact H2 |].
  apply (proj1 (proj2 (proj2
           (gather_temp_global (mkConfig 5 5 2 2) (startup (mkConfig 5 5 2 2)) 0
              H1 H2)))).
  - vm_compute. split; [discriminate | reflexivity].
  - vm_compute. split; [discriminate | reflexivity].
  - left. vm_compute. discriminate.
Defined.

(** X8. The index functions stay inside their arrays and never map two
    cells to one element: [lti] is a bijection from the cells of a
    subdomain with its ghost layer ([-1 <= x <= local_grid_size[0]],
    [-1 <= y <= local_grid_size[1]]) onto the indices of a local
    temperature buffer; [lmi] is injective from the interior cells into
    the local material array; [ti] and [mi] agree and are injective from
    the grid cells into the global arrays. *)
Theorem index_functions (c : config) :
  config_ok c ->
  let L0 := local_grid_size0 c in
  let L1 := local_grid_size1 c in
  (forall x y, -1 <= x <= L0 -> -1 <= y <= L1 ->
     0 <= lti c x y < (L0 + 2) * (L1 + 2)) /\
  (forall x y x' y', -1 <= x <= L0 -> -1 <= x' <= L0 ->
     lti c x y = lti c x' y' -> x = x' /\ y = y') /\
  (forall k, 0 <= k < (L0 + 2) * (L1 + 2) ->
     exists x y, -1 <= x <= L0 /\ -1 <= y <= L1 /\ lti c x y = k) /\
  (forall x y, 0 <= x < L0 -> 0 <= y < L1 -> 0 <= lmi c x y < L0 * L1) /\
  (forall x y x' y', 0 <= x < L0 -> 0 <= x' < L0 ->
     lmi c x y = lmi c x' y' -> x = x' /\ y = y') /\
  (forall x y, mi c x y = ti c x y) /\
  (forall x y, 0 <= x < GRID_SIZE0 c -> 0 <= y < GRID_SIZE1 c ->
     0 <= ti c x y < GRID_SIZE0 c * GRID_SIZE1 c) /\
  (forall x y x' y', 0 <= x < GRID_SIZE0 c -> 0 <= x' < GRID_SIZE0 c ->
     ti c x y = ti c x' y' -> x = x' /\ y = y').
Proof.
  intros Hc. cbv zeta.
  split; [intros x y; now apply lti_range |].
  split; [intros x y x' y'; apply lti_inj |].
  split; [intros k; now apply lti_surj |].
  split; [intros x y Hx Hy; rewrite lmi_eq; nia |].
  split.
  { intros x y x' y' Hx Hx'. rewrite !lmi_eq. intros He.
    assert (y = y') by nia. subst. lia. }
  split; [intros x y; unfold mi, ti, BORDER; lia |].
  split; [intros x y; apply ti_range | intros x y x' y'; apply ti_inj].
Qed.

Lemma index_functions_witness :
  config_ok cfg_source /\
  0 <= lti cfg_source (-1) (-1) /\
  lti cfg_source 128 128 < (local_grid_size0 cfg_source + 2) *
                           (local_grid_size1 cfg_source + 2).
Proof.
  assert (H1 : config_ok cfg_source) by (repeat split; reflexivity).
  split; [exact H1 |].
  pose proof (proj1 (index_functions cfg_source H1)) as Hr.
  split.
  - apply (Hr (-1) (-1)); vm_compute; split; discriminate.
  - apply (Hr 128 128); vm_compute; split; discriminate.
Defined.

(** X9. The neighbours [main] obtains from [MPI_Cart_shift] are mutual
    and adjacent: if rank [r] has a north neighbour [n], then [n] is a
    rank of the mesh whose south neighbour is [r] and whose block lies
    directly above the block of [r] (same for the other directions), and
    a neighbour is missing exactly at the edge of the mesh on that
    side. *)
Theorem neighbours_mutual (c : config) (r : Z) :
  config_ok c -> 0 <= r < size c ->
  (north c r <> MPI_PROC_NULL ->
     0 <= north c r < size c /\ south c (north c r) = r /\
     local_origin0 c (north c r) = local_origin0 c r /\
     local_origin1 c (north c r) = local_origin1 c r - local_grid_size1 c) /\
  (south c r <> MPI_PROC_NULL ->
     0 <= south c r < size c /\ north c (south c r) = r /\
     local_origin0 c (south c r) = local_origin0 c r /\
     local_origin1 c (south c r) = local_origin1 c r + local_grid_size1 c) /\
  (west c r <> MPI_PROC_NULL ->
     0 <= west c r < size c /\ east c (west c r) = r /\
     local_origin0 c (west c r) = local_origin0 c r - local_grid_size0 c /\
     local_origin1 c (west c r) = local_origin1 c r) /\
  (east c r <> MPI_PROC_NULL ->
     0 <= east c r < size c /\ west c (east c r) = r /\
     local_origin0 c (east c r) = local_origin0 c r + local_grid_size0 c /\
     local_origin1 c (east c r) = local_origin1 c r) /\
  (north c r = MPI_PROC_NULL <-> coords1 c r = 0) /\
  (south c r = MPI_PROC_NULL <-> coords1 c r = dims1 c - 1) /\
  (west c r = MPI_PROC_NULL <-> coords0 c r = 0) /\
  (east c r = MPI_PROC_NULL <-> coords0 c r = dims0 c - 1).
Proof.
  intros Hc Hr. destruct (cart_rank_coords c Hc r Hr) as (Er & C0 & C1).
  assert (Hshift : forall x y, cart_at c x y <> MPI_PROC_NULL ->
            local_origin0 c (cart_at c x y) = x * local_grid_size0 c /\
            local_origin1 c (cart_at c x y) = y * local_grid_size1 c).
  { intros x y Hne. destruct (cart_at_valid c x y Hne) as (_ & _ & _ & _ & X0 & X1).
    unfold local_origin0, local_origin1. now rewrite X0, X1. }
  assert (Hnull : forall x y, cart_at c x y = MPI_PROC_NULL <->
            ~ (0 <= x < dims0 c /\ 0 <= y < dims1 c)).
  { intros x y. destruct (cart_at_spec c x y) as [(Hx & Hy & E) | [Hn E]].
    - pose proof (cart_rank_not_null c x y Hx Hy). rewrite E. tauto.
    - tauto. }
  assert (EN : north c r = cart_at c (coords0 c r) (coords1 c r - 1)) by reflexivity.
  assert (ES : south c r = cart_at c (coords0 c r) (coords1 c r + 1)) by reflexivity.
  assert (EW : west c r = cart_at c (coords0 c r - 1) (coords1 c r)) by reflexivity.
  assert (EE : east c r = cart_at c (coords0 c r + 1) (coords1 c r)) by reflexivity.
  repeat split.
  - now apply north_valid.
  - now apply north_valid.
  - now apply north_valid.
  - rewrite EN in *. destruct (Hshift _ _ H) as [-> _]. reflexivity.
  - rewrite EN in *. destruct (Hshift _ _ H) as [_ ->].
    unfold local_origin1. lia.
  - now apply south_valid.
  - now apply south_valid.
  - now apply south_valid.
  - rewrite ES in *. destruct (Hshift _ _ H) as [-> _]. reflexivity.
  - rewrite ES in *. destruct (Hshift _ _ H) as [_ ->].
    unfold local_origin1. lia.
  - now apply west_valid.
  - now apply west_valid.
  - now apply west_valid.
  - rewrite EW in *. destruct (Hshift _ _ H) as [-> _].
    unfold local_origin0. lia.
  - rewrite EW in *. destruct (Hshift _ _ H) as [_ ->]. reflexivity.
  - now apply east_valid.
  - now apply east_valid.
  - now apply east_valid.
  - rewrite EE in *. destruct (Hshift _ _ H) as [-> _].
    unfold local_origin0. lia.
  - rewrite EE in *. destruct (Hshift _ _ H) as [_ ->]. reflexivity.
  - rewrite EN, Hnull. lia.
  - rewrite EN, Hnull. lia.
  - rewrite ES, Hnull. lia.
  - rewrite ES, Hnull. lia.
  - rewrite EW, Hnull. lia.
  - rewrite EW, Hnull. lia.
  - rewrite EE, Hnull. lia.
  - rewrite EE, Hnull. lia.
Qed.

Lemma neighbours_mutual_witness :
  config_ok cfg_2x2_4 /\ 0 <= 1 < size cfg_2x2_4 /\
  north cfg_2x2_4 1 <> MPI_PROC_NULL /\
  south cfg_2x2_4 (north cfg_2x2_4 1) = 1.
Proof.
  assert (H1 : config_ok cfg_2x2_4) by (repeat split; reflexivity).
  assert (H2 : 0 <= 1 < size cfg_2x2_4) by (vm_compute; split; discriminate || reflexivity).
  assert (H3 : north cfg_2x2_4 1 <> MPI_PROC_NULL) by (vm_compute; discriminate).
  split; [exact H1 |]. split; [exact H2 |]. split; [exact H3 |].
  exact (proj1 (proj2 (proj1 (neighbours_mutual cfg_2x2_4 1 H1 H2) H3))).
Defined.

(** X10. [border_exchange] writes ghost cells only: on every rank each
    interior cell and each of the four corner ghost cells of buffer
    [step mod 2] holds afterwards what it held before, buffer
    [(step+1) mod 2] is unchanged as a whole, and so are the material
    arrays, the global field and the displacement tables. *)
Theorem border_exchange_frame (c : config) (step : Z) (w : list proc) :
  config_ok c -> 0 <= step -> alen w = size c ->
  (forall r, 0 <= r < size c -> proc_ok c (rank_of w r)) ->
  exists w', border_exchange c step w = Some w' /\ alen w' = alen w /\
    forall r, 0 <= r < size c ->
      let p := rank_of w r in
      let p' := rank_of w' r in
      let L0 := local_grid_size0 c in
      let L1 := local_grid_size1 c in
      (forall x y, 0 <= x < L0 -> 0 <= y < L1 ->
         rdf (get_temp p' (cur step)) (lti c x y) =
         rdf (get_temp p (cur step)) (lti c x y)) /\
      (forall x y, x = -1 \/ x = L0 -> y = -1 \/ y = L1 ->
         rdf (get_temp p' (cur step)) (lti c x y) =
         rdf (get_temp p (cur step)) (lti c x y)) /\
      alen (get_temp p' (cur step)) = alen (get_temp p (cur step)) /\
      get_temp p' (nxt step) = get_temp p (nxt step) /\
      material p' = material p /\ temperature p' = temperature p /\
      local_material p' = local_material p /\
      displs p' = displs p /\ sendcounts p' = sendcounts p.
Proof.
  intros Hc Hstep Hlen Hok.
  destruct (border_exchange_total c step w Hc Hstep Hlen Hok)
    as (w' & Hrun & Hlen' & Hex).
  exists w'. split; [exact Hrun |]. split; [exact Hlen' |].
  intros r Hr. cbv zeta.
  destruct (local_grid_size_nonneg c Hc) as [N0 N1].
  destruct (Hex r Hr)
    as (Hn & Em & Et & El & Ed & Es & Ha & _ & _ & _ & _ & Hrest).
  split; [| split].
  - intros x y Hx Hy. apply Hrest; intros _ i Hi He;
      apply lti_inj in He as [? ?]; lia.
  - intros x y Hx Hy. apply Hrest; intros _ i Hi He;
      apply lti_inj in He as [? ?]; lia.
  - repeat split; assumption.
Qed.

Lemma border_exchange_frame_witness :
  config_ok cfg_2x2_4 /\ 0 <= 0 /\ alen world_4 = size cfg_2x2_4 /\
  (forall r, 0 <= r < size cfg_2x2_4 -> proc_ok cfg_2x2_4 (rank_of world_4 r)) /\
  exists w', border_exchange cfg_2x2_4 0 world_4 = Some w' /\
    alen w' = alen world_4.
Proof.
  assert (H1 : config_ok cfg_2x2_4) by (repeat split; reflexivity).
  assert (H2 : 0 <= 0) by lia.
  split; [exact H1 |]. split; [exact H2 |].
  split; [exact (proj1 world_4_lengths) |].
  split; [exact (proj2 world_4_lengths) |].
  destruct (border_exchange_frame cfg_2x2_4 0 world_4 H1 H2
              (proj1 world_4_lengths) (proj2 world_4_lengths))
    as (w' & Hrun & Hl & _).
  exists w'. split; assumption.
Defined.

(** X11. [ftcs_solver] never writes a ghost cell: every cell of the
    output buffer [(step+1) mod 2] outside the interior keeps its value,
    and the buffer keeps its length; the ghost layer of the new time level
    is whatever that buffer held before. *)
Theorem ftcs_solver_ghosts (c : config) (step : Z) (p : proc) :
  config_ok c -> 0 <= step -> proc_ok c p ->
  let out := get_temp p (nxt step) in
  let out' := get_temp (ftcs_solver c step p) (nxt step) in
  alen out' = alen out /\
  (forall x y, -1 <= x <= local_grid_size0 c -> -1 <= y <= local_grid_size1 c ->
     ~ (0 <= x < local_grid_size0 c /\ 0 <= y < local_grid_size1 c) ->
     rdf out' (lti c x y) = rdf out (lti c x y)) /\
  proc_ok c (ftcs_solver c step p).
Proof.
  intros Hc Hs Hp. cbv zeta.
  destruct (ftcs_solver_cells c Hc step p Hs Hp) as (Hl & _ & Hout).
  destruct (ftcs_solver_fields c step p Hs) as (Hcu & _ & _ & Hm & _).
  assert (Ha : alen (get_temp (ftcs_solver c step p) (nxt step)) =
               alen (get_temp p (nxt step))) by (unfold alen; now rewrite Hl).
  split; [exact Ha |]. split.
  - intros x y Hx Hy Hg. apply Hout. intros x' y' [Hx' Hy'] He.
    apply lti_inj in He as [-> ->]; [| lia | lia]. apply Hg. lia.
  - destruct Hp as (P0 & P1 & Pm). unfold proc_ok. rewrite Hm.
    destruct (cur_nxt step Hs) as [[Ec En] | [Ec En]]; rewrite Ec, En in *;
      cbn in Ha, Hcu; rewrite Ha, Hcu; repeat split; assumption.
Qed.

Lemma ftcs_solver_ghosts_witness :
  config_ok cfg_2x2_4 /\ 0 <= 0 /\ proc_ok cfg_2x2_4 (rank_of world_4 0) /\
  rdf (get_temp (ftcs_solver cfg_2x2_4 0 (rank_of world_4 0)) (nxt 0))
      (lti cfg_2x2_4 (-1) 0) =
  rdf (get_temp (rank_of world_4 0) (nxt 0)) (lti cfg_2x2_4 (-1) 0).
Proof.
  assert (H1 : config_ok cfg_2x2_4) by (repeat split; reflexivity).
  assert (H2 : 0 <= 0) by lia.
  assert (H3 : proc_ok cfg_2x2_4 (rank_of world_4 0))
    by (repeat split; reflexivity).
  split; [exact H1 |]. split; [exact H2 |]. split; [exact H3 |].
  apply (proj1 (proj2 (ftcs_solver_ghosts cfg_2x2_4 0 (rank_of world_4 0) H1 H2 H3))).
  - vm_compute. split; discriminate.
  - vm_compute. split; discriminate.
  - vm_compute. intros [[H _] _]. apply H. reflexivity.
Defined.

Lemma length_cells (n m : Z) :
  0 <= n -> 0 <= m -> alen (cells 0 n 0 m) = n * m.
Proof.
  intros Hn Hm. unfold alen.
  rewrite <- (length_map (fun ij : Z * Z => ij.1 * m + ij.2)).
  rewrite rows_are_consecutive by assumption. rewrite length_seqZ. nia.
Qed.

(** X12. The datatypes of [commit_vector_types], placed where the program
    uses them, select whole rows, columns and blocks of cells:
    [border_row] at [lti(0, y)] the [local_grid_size[0]] cells of row [y];
    [border_col] at [lti(x, 0)] the [local_grid_size[1]] cells of column
    [x] (stride one padded row); [gather_Temp] at [lti(0, 0)] exactly the
    interior cells, row by row; [localCart] at an offset into a global
    array the same block with the row stride of the grid.  [localCart] and
    [gather_Temp] hold the same number of floats, the whole subdomain, and
    [localCart] has the extent of one float, so displacements count
    floats. *)
Theorem vector_types (c : config) :
  config_ok c ->
  let L0 := local_grid_size0 c in
  let L1 := local_grid_size1 c in
  (forall y, positions (lti c 0 y) 1 (border_row c) =
             map (fun x => lti c x y) (seqZ 0 L0)) /\
  (forall x, positions (lti c x 0) 1 (border_col c) =
             map (fun y => lti c x y) (seqZ 0 L1)) /\
  positions (lti c 0 0) 1 (gather_Temp c) =
    map (fun yx => lti c yx.2 yx.1) (cells 0 L1 0 L0) /\
  (forall off, positions off 1 (localCart c) =
     map (fun yx => off + ti c yx.2 yx.1) (cells 0 L1 0 L0)) /\
  alen (typemap (gather_Temp c)) = L0 * L1 /\
  alen (typemap (localCart c)) = L0 * L1 /\
  extent (localCart c) = 1.
Proof.
  intros Hc. cbv zeta. destruct (local_grid_size_nonneg c Hc) as [N0 N1].
  split; [apply positions_border_row |].
  split; [apply positions_border_col |].
  split; [apply positions_gather_Temp |].
  split.
  { intros off. rewrite positions_localCart. apply map_ext. intros [i j].
    unfold ti. cbn [fst snd]. lia. }
  assert (Hcount : forall ty off, positions off 1 ty =
            map (fun d => off + d) (typemap ty)) by (intros; apply positions_one).
  split; [| split; [| reflexivity]].
  - unfold alen.
    rewrite <- (length_map (fun d => lti c 0 0 + d)), <- Hcount,
      positions_gather_Temp, length_map.
    fold (alen (cells 0 (local_grid_size1 c) 0 (local_grid_size0 c))).
    rewrite length_cells by assumption. lia.
  - unfold alen.
    rewrite <- (length_map (fun d => 0 + d)), <- Hcount,
      positions_localCart, length_map.
    fold (alen (cells 0 (local_grid_size1 c) 0 (local_grid_size0 c))).
    rewrite length_cells by assumption. lia.
Qed.

Lemma vector_types_witness :
  config_ok cfg_2x2_4 /\
  positions (lti cfg_2x2_4 1 0) 1 (border_col cfg_2x2_4) =
  [lti cfg_2x2_4 1 0; lti cfg_2x2_4 1 1].
Proof.
  assert (H1 : config_ok cfg_2x2_4) by (repeat split; reflexivity).
  split; [exact H1 |].
  exact (proj1 (proj2 (vector_types cfg_2x2_4 H1)) 1).
Defined.

Section LoopFrame.
Variable c : config.
Hypothesis Hc : config_ok c.

(** The arrays the integration loop only reads. *)
Let same_constants (p p' : proc) : Prop :=
  local_material p' = local_material p /\ material p' = material p /\
  displs p' = displs p /\ sendcounts p' = sendcounts p.

Lemma gather_temp_constants step w r :
  same_constants (rank_of w r) (rank_of (gather_temp c step w) r).
Proof.
  destruct (gather_temp_buffers c step w r) as (_ & _ & Elm).
  destruct (Z.lt_trichotomy r 0) as [Hneg | [-> | Hpos]].
  - unfold rank_of, aget. destruct (Z.leb_spec 0 r); [lia |]. repeat split.
  - destruct (gather_temp_root_fields c w step) as (Em & _ & _ & _ & Ed & Es).
    repeat split; assumption.
  - rewrite gather_temp_others by assumption. repeat split.
Qed.

Lemma iteration_frame step w :
  0 <= step -> world_ok c w ->
  exists w', iteration c step w = Some w' /\ world_ok c w' /\
    forall r, 0 <= r < size c ->
      same_constants (rank_of w r) (rank_of w' r) /\
      (Z.rem step SNAPSHOT <> 0 ->
       temperature (rank_of w' r) = temperature (rank_of w r)).
Proof.
  intros Hstep Hw.
  destruct (iteration_world_ok c Hc step w Hstep Hw) as (w' & Hit & Hw').
  exists w'. split; [exact Hit |]. split; [exact Hw' |].
  unfold iteration in Hit.
  set (w1 := if step <? CUTOFF
             then imap (fun r p => external_heat c step (Z.of_nat r) p) w
             else w) in Hit.
  assert (Hw1 : world_ok c w1).
  { unfold w1. destruct (step <? CUTOFF); [| assumption].
    now apply external_heat_world_ok. }
  assert (F1 : forall r, 0 <= r < size c ->
            same_constants (rank_of w r) (rank_of w1 r) /\
            temperature (rank_of w1 r) = temperature (rank_of w r)).
  { intros r Hr. unfold w1. destruct (step <? CUTOFF); [| repeat split].
    destruct Hw as (Hlen & _). rewrite rank_of_imap by lia.
    destruct (external_heat_frame c step (Z.of_nat (Z.to_nat r)) (rank_of w r) Hstep)
      as (_ & _ & E1 & E2 & E3 & E4 & E5).
    repeat split; assumption. }
  pose proof Hw1 as (Hlen1 & Hok1 & _).
  destruct (border_exchange_total c step w1 Hc Hstep Hlen1 Hok1)
    as (w2 & Hrun & Hlen2 & Hex).
  rewrite Hrun in Hit.
  assert (F3 : forall r, 0 <= r < size c ->
            same_constants (rank_of w r)
              (rank_of (map (ftcs_solver c step) w2) r) /\
            temperature (rank_of (map (ftcs_solver c step) w2) r) =
            temperature (rank_of w r)).
  { intros r Hr. rewrite rank_of_map by lia.
    destruct (ftcs_solver_fields c step (rank_of w2 r) Hstep)
      as (_ & G1 & G2 & G3 & G4 & G5).
    destruct (Hex r Hr) as (_ & E1 & E2 & E3 & E4 & E5 & _).
    destruct (F1 r Hr) as ((A1 & A2 & A3 & A4) & A5).
    unfold same_constants.
    rewrite G1, G2, G3, G4, G5, E1, E2, E3, E4, E5. repeat split; assumption. }
  intros r Hr. destruct (F3 r Hr) as ((A1 & A2 & A3 & A4) & A5).
  destruct (Z.eqb_spec (Z.rem step SNAPSHOT) 0) as [Hsnap | Hsnap];
    inversion Hit; subst w'.
  - split; [| contradiction].
    destruct (gather_temp_constants step (map (ftcs_solver c step) w2) r)
      as (B1 & B2 & B3 & B4).
    unfold same_constants. rewrite B1, B2, B3, B4. repeat split; assumption.
  - split; [repeat split; assumption | intros _; exact A5].
Qed.

Lemma iterations_frame n : forall step w,
  0 <= step -> world_ok c w ->
  exists w', iterations c n step w = Some w' /\
    forall r, 0 <= r < size c ->
      same_constants (rank_of w r) (rank_of w' r) /\
      ((forall k, step <= k < step + Z.of_nat n -> Z.rem k SNAPSHOT <> 0) ->
       temperature (rank_of w' r) = temperature (rank_of w r)).
Proof.
  induction n as [| n IH]; intros step w Hstep Hw; cbn [iterations].
  - exists w. split; [reflexivity |]. intros r Hr. repeat split.
  - destruct (iteration_frame step w Hstep Hw) as (w1 & -> & Hw1 & F1).
    destruct (IH (step + 1) w1 ltac:(lia) Hw1) as (w' & Hrun & F).
    exists w'. split; [exact Hrun |]. intros r Hr.
    destruct (F1 r Hr) as ((A1 & A2 & A3 & A4) & A5).
    destruct (F r Hr) as ((B1 & B2 & B3 & B4) & B5).
    split.
    + unfold same_constants. rewrite B1, B2, B3, B4. repeat split; assumption.
    + intros Hno. rewrite B5 by (intros k Hk; apply Hno; lia).
      apply A5, Hno. lia.
Qed.

End LoopFrame.

(** X13. The integration loop only reads the material arrays and the
    displacement tables: after any number of iterations, from any step on,
    every rank's [local_material], root's [material], [displs] and
    [sendcounts] are what they were when the loop was entered.  Root's
    global temperature field changes at snapshot steps only: a run of
    iterations that contains no multiple of [SNAPSHOT] leaves it as it
    was. *)
Theorem loop_reads_constants (c : config) (n : nat) (step : Z) (w : list proc) :
  config_ok c -> world_ok c w -> 0 <= step ->
  exists w', iterations c n step w = Some w' /\
    forall r, 0 <= r < size c ->
      local_material (rank_of w' r) = local_material (rank_of w r) /\
      material (rank_of w' r) = material (rank_of w r) /\
      displs (rank_of w' r) = displs (rank_of w r) /\
      sendcounts (rank_of w' r) = sendcounts (rank_of w r) /\
      ((forall k, step <= k < step + Z.of_nat n -> Z.rem k SNAPSHOT <> 0) ->
       temperature (rank_of w' r) = temperature (rank_of w r)).
Proof.
  intros Hc Hw Hstep.
  destruct (iterations_frame c Hc n step w Hstep Hw) as (w' & Hrun & F).
  exists w'. split; [exact Hrun |]. intros r Hr.
  destruct (F r Hr) as ((A1 & A2 & A3 & A4) & A5).
  repeat split; assumption.
Qed.

Lemma loop_reads_constants_witness :
  config_ok cfg_2x2_4 /\ world_ok cfg_2x2_4 world_4 /\ 0 <= 1 /\
  exists w', iterations cfg_2x2_4 3 1 world_4 = Some w' /\
    temperature (rank_of w' 0) = temperature (rank_of world_4 0).
Proof.
  assert (H1 : config_ok cfg_2x2_4) by (repeat split; reflexivity).
  assert (H3 : 0 <= 1) by lia.
  split; [exact H1 |]. split; [exact world_ok_4 |]. split; [exact H3 |].
  destruct (loop_reads_constants cfg_2x2_4 3 1 world_4 H1 world_ok_4 H3)
    as (w' & Hrun & F).
  exists w'. split; [exact Hrun |].
  apply (F 0 ltac:(vm_compute; split; [discriminate | reflexivity])).
  intros k Hk. assert (Hc : k = 1 \/ k = 2 \/ k = 3) by lia.
  destruct Hc as [-> | [-> | ->]]; vm_compute; discriminate.
Defined.

Lemma startup_block_cells (c : config) (r x y : Z) :
  config_ok c -> 0 <= r < size c ->
  0 <= x < local_grid_size0 c -> 0 <= y < local_grid_size1 c ->
  let q := rank_of (startup c) r in
  let gx := local_origin0 c r + x in
  let gy := local_origin1 c r + y in
  let scale := F32.div dt (F32.mul h h) in
  rdf (local_temp0 q) (lti c x y) =
    (if in_heater c gx gy then F32.lit 100 1
     else if in_tin c gx gy || in_copper c gx gy then F32.lit 60 1
     else F32.lit 20 1) /\
  rdf (local_material q) (lmi c x y) =
    (if in_heater c gx gy then F32.mul ALUMINIUM scale
     else if in_tin c gx gy then F32.mul TIN scale
     else if in_copper c gx gy then F32.mul COPPER scale
     else F32.mul MERCURY (F32.mul (F32.div dt h) h)).
Proof.
  intros Hc Hr Hx Hy. cbv zeta.
  pose proof (size_pos c Hc) as Hsz.
  destruct (before_scatter_temp_ok c Hc) as [Hw0 _].
  assert (Hal : alen (allocated c) = size c) by apply alen_allocated, Hc.
  assert (Hok : forall q, 0 <= q < size c -> proc_ok c (rank_of (allocated c) q)).
  { intros q Hq. rewrite allocated_rank by assumption. apply startup_rank_ok, Hc. }
  assert (Hroot : rank_of (allocated c) 0 = startup_rank c 0)
    by (apply allocated_rank; lia).
  destruct (startup_rank_ok c Hc 0) as (_ & Hd & Hs & Ht & _).
  specialize (Ht eq_refl).
  destruct (allocate_ok c Hc 0) as (Pa & _ & _ & Hta).
  destruct (Hta eq_refl) as [Lt Lm].
  (* the global arrays of the root before the scatters *)
  assert (Et : temperature (startup_rank c 0) =
               temperature (init_temp_material c (allocate c 0))).
  { unfold startup_rank. cbn [Z.eqb].
    destruct (init_temp_material_frame c (allocate c 0))
      as (_ & _ & F1 & F2 & F3 & _).
    assert (Pi : proc_ok c (init_temp_material c (allocate c 0))).
    { destruct Pa as (A0 & A1 & Am). unfold proc_ok. rewrite F1, F2, F3.
      repeat split; assumption. }
    now destruct (init_local_temp_cells c (init_temp_material c (allocate c 0)) Hc Pi)
      as (_ & _ & -> & _). }
  assert (Em : material (startup_rank c 0) =
               material (init_temp_material c (allocate c 0))).
  { unfold startup_rank. cbn [Z.eqb].
    destruct (init_temp_material_frame c (allocate c 0))
      as (_ & _ & F1 & F2 & F3 & _).
    assert (Pi : proc_ok c (init_temp_material c (allocate c 0))).
    { destruct Pa as (A0 & A1 & Am). unfold proc_ok. rewrite F1, F2, F3.
      repeat split; assumption. }
    now destruct (init_local_temp_cells c (init_temp_material c (allocate c 0)) Hc Pi)
      as (_ & -> & _). }
  destruct (block_cell_range c r x y Hc Hr (conj Hx Hy)) as [Gx Gy].
  unfold startup.
  destruct (scatter_temp_cells c (scatter_material c (allocated c)) r Hc Hw0 Hr)
    as (_ & -> & _ & _ & _ & _ & _ & Hin & _).
  rewrite (Hin x y (conj Hx Hy)).
  assert (Hd' : alen (displs (rank_of (allocated c) 0)) = size c)
    by now rewrite Hroot.
  assert (Hs' : alen (sendcounts (rank_of (allocated c) 0)) = size c)
    by now rewrite Hroot.
  assert (Ht' : alen (temperature (rank_of (allocated c) 0)) =
                GRID_SIZE0 c * GRID_SIZE1 c) by now rewrite Hroot.
  destruct (scatter_material_world_ok c Hc (allocated c) Hal Hok Hd' Hs' Ht')
    as (_ & Hf).
  destruct (Hf 0 ltac:(lia)) as (_ & _ & ->).
  rewrite (scatter_material_cells c Hc (allocated c) r Hal Hok Hd' Hs' Hr x y
             (conj Hx Hy)).
  rewrite Hroot, Et, Em. split.
  - apply init_temp_material_temperature; assumption.
  - apply init_temp_material_cells; assumption.
Qed.

(** X14. When [main] enters its loop, every rank holds its block of the
    initial conditions: interior cell [(x, y)] of buffer 0 on rank [r] is
    100.0, 60.0 or 20.0 and its material cell the aluminium, tin, copper
    or mercury constant, according to where the global cell
    [(local_origin[0] + x, local_origin[1] + y)] lies. *)
Theorem startup_blocks (c : config) (r x y : Z) :
  config_ok c -> 0 <= r < size c ->
  0 <= x < local_grid_size0 c -> 0 <= y < local_grid_size1 c ->
  let q := rank_of (startup c) r in
  let gx := local_origin0 c r + x in
  let gy := local_origin1 c r + y in
  let scale := F32.div dt (F32.mul h h) in
  rdf (local_temp0 q) (lti c x y) =
    (if in_heater c gx gy then F32.lit 100 1
     else if in_tin c gx gy || in_copper c gx gy then F32.lit 60 1
     else F32.lit 20 1) /\
  rdf (local_material q) (lmi c x y) =
    (if in_heater c gx gy then F32.mul ALUMINIUM scale
     else if in_tin c gx gy then F32.mul TIN scale
     else if in_copper c gx gy then F32.mul COPPER scale
     else F32.mul MERCURY (F32.mul (F32.div dt h) h)).
Proof.
  intros Hc Hr Hx Hy. cbv zeta.
  destruct (startup_block_cells c r x y Hc Hr Hx Hy) as [Ht Hm].
  split; [exact Ht | exact Hm].
Qed.

Lemma startup_blocks_witness :
  config_ok cfg_2x2_4 /\ 0 <= 1 < size cfg_2x2_4 /\
  0 <= 1 < local_grid_size0 cfg_2x2_4 /\ 0 <= 0 < local_grid_size1 cfg_2x2_4 /\
  rdf (local_temp0 (rank_of (startup cfg_2x2_4) 1)) (lti cfg_2x2_4 1 0) =
  F32.lit 100 1.
Proof.
  assert (H1 : config_ok cfg_2x2_4) by (repeat split; reflexivity).
  assert (H2 : 0 <= 1 < size cfg_2x2_4)
    by (vm_compute; split; [discriminate | reflexivity]).
  assert (H3 : 0 <= 1 < local_grid_size0 cfg_2x2_4)
    by (vm_compute; split; [discriminate | reflexivity]).
  assert (H4 : 0 <= 0 < local_grid_size1 cfg_2x2_4)
    by (vm_compute; split; [discriminate | reflexivity]).
  split; [exact H1 |]. split; [exact H2 |]. split; [exact H3 |].
  split; [exact H4 |].
  exact (proj1 (startup_blocks cfg_2x2_4 1 1 0 H1 H2 H3 H4)).
Defined.

Lemma take_first_sub f pool m pool' :
  take_first f pool = Some (m, pool') -> forall x, In x pool' -> In x pool.
Proof.
  revert m pool'. induction pool as [| m0 pool IH]; intros m pool' H x Hx;
    cbn in H; [discriminate |].
  destruct (f m0).
  - inversion H; subst. now right.
  - destruct (take_first f pool) as [[m' rest] |]; [| discriminate].
    inversion H; subst. destruct Hx as [-> | Hx]; [now left |].
    right. now apply (IH m rest eq_refl).
Qed.

Section AnySchedule.
Variable code : nat -> list mpi_op.
Variable w0 : list proc.
Variables tg bs br : Z.
Hypothesis Hcode : phase_code code w0 tg bs br.

Lemma pool_ok_step s r s' :
  phase_inv code w0 tg s -> pool_ok (length w0) tg (pool s) ->
  step_rank r s = Some s' -> pool_ok (length w0) tg (pool s').
Proof.
  intros Hinv Hpool Hstep. unfold step_rank in Hstep.
  destruct (procs s !! r) as [p |] eqn:Ep; [| discriminate].
  destruct (todo s !! r) as [[| op ops] |] eqn:Et; try discriminate.
  destruct (exec_op (Z.of_nat r) op p (pool s)) as [[p' pool'] |] eqn:Ex;
    [| discriminate].
  inversion Hstep; subst s'. cbn [pool]. clear Hstep.
  assert (Hr : (r < length w0)%nat).
  { apply lookup_lt_Some in Ep. now rewrite (inv_procs_len _ _ _ _ Hinv) in Ep. }
  destruct (inv_suffix _ _ _ _ Hinv r _ Et) as (pre & Hpre).
  assert (Hin : In op (code r))
    by (rewrite Hpre; apply in_or_app; right; now left).
  pose proof (code_tag _ _ _ _ _ Hcode r op Hin) as Htag.
  pose proof (code_peer _ _ _ _ _ Hcode r op Hr Hin) as Hpeer.
  destruct op as [buf off count ty d t | buf off count ty src t];
    cbn in Ex, Htag, Hpeer.
  - destruct (Z.eqb_spec d MPI_PROC_NULL) as [-> | Hd]; inversion Ex; subst.
    + assumption.
    + intros m Hm. apply in_app_or in Hm as [Hm | [<- | []]]; [now apply Hpool |].
      cbn. destruct Hpeer as [? | ?]; [contradiction |]. repeat split; lia.
  - destruct (Z.eqb_spec src MPI_PROC_NULL) as [-> | Hs].
    + inversion Ex; subst. assumption.
    + destruct (take_first _ (pool s)) as [[m rest] |] eqn:Etake; [| discriminate].
      inversion Ex; subst. intros x Hx. apply Hpool.
      now apply (take_first_sub _ _ _ _ Etake).
Qed.

Lemma run_schedule_inv rs : forall s s',
  phase_inv code w0 tg s -> pool_ok (length w0) tg (pool s) ->
  run_schedule rs s = Some s' ->
  phase_inv code w0 tg s' /\ pool_ok (length w0) tg (pool s').
Proof.
  induction rs as [| r rs IH]; intros s s' Hinv Hpool Hrun; cbn in Hrun.
  - inversion Hrun; subst. split; assumption.
  - destruct (step_rank r s) as [s1 |] eqn:E; [| discriminate].
    apply (IH s1 s'); [| | assumption].
    + now apply (phase_inv_step code w0 tg bs br Hcode s r s1).
    + now apply (pool_ok_step s r s1).
Qed.

Lemma finished_done s r :
  phase_inv code w0 tg s -> finished s = true -> (r < length w0)%nat ->
  done_ops code s r = code r.
Proof.
  intros Hinv Hfin Hr.
  destruct (lookup_lt_is_Some_2 (todo s) r) as [ops Et].
  { rewrite (inv_todo_len _ _ _ _ Hinv). exact Hr. }
  unfold finished in Hfin. rewrite forallb_forall in Hfin.
  assert (Hin : In ops (todo s))
    by (apply list_elem_of_In, list_elem_of_lookup; eauto).
  specialize (Hfin ops Hin). destruct ops; [| discriminate].
  unfold done_ops. rewrite Et. cbn. rewrite Nat.sub_0_r. apply firstn_all.
Qed.

(** When every rank is done, a message still in flight was sent and not
    received. *)
Lemma leftover_message s m :
  phase_inv code w0 tg s -> pool_ok (length w0) tg (pool s) ->
  finished s = true -> In m (pool s) ->
  exists src dst, (src < length w0)%nat /\ (dst < length w0)%nat /\
    existsb (is_send_to (Z.of_nat dst)) (code src) = true /\
    existsb (is_recv_from (Z.of_nat src)) (code dst) = false.
Proof.
  intros Hinv Hpool Hfin Hm. destruct (Hpool m Hm) as (Hs & Hd & Ht).
  exists (Z.to_nat (msg_src m)), (Z.to_nat (msg_dst m)).
  assert (Hsn : (Z.to_nat (msg_src m) < length w0)%nat) by lia.
  assert (Hdn : (Z.to_nat (msg_dst m) < length w0)%nat) by lia.
  split; [assumption |]. split; [assumption |].
  pose proof (inv_pool _ _ _ _ Hinv _ _ Hsn Hdn) as Hf.
  assert (Hmatch : matches (Z.of_nat (Z.to_nat (msg_src m)))
                     (Z.of_nat (Z.to_nat (msg_dst m))) tg m = true).
  { unfold matches. rewrite !Z2Nat.id by lia. now rewrite !Z.eqb_refl, Ht, Z.eqb_refl. }
  assert (Hne : List.filter (matches (Z.of_nat (Z.to_nat (msg_src m)))
                     (Z.of_nat (Z.to_nat (msg_dst m))) tg) (pool s) <> []).
  { intros E. assert (Hi : In m (List.filter (matches (Z.of_nat (Z.to_nat (msg_src m)))
                     (Z.of_nat (Z.to_nat (msg_dst m))) tg) (pool s)))
      by (apply filter_In; split; assumption).
    rewrite E in Hi. destruct Hi. }
  rewrite Hf in Hne.
  unfold sent, received in Hne.
  rewrite !(finished_done s) in Hne by assumption.
  destruct (existsb _ (code (Z.to_nat (msg_src m)))); [| contradiction].
  destruct (existsb _ (code (Z.to_nat (msg_dst m)))); [contradiction |].
  split; reflexivity.
Qed.

End AnySchedule.

(** X15. [border_exchange] does not depend on how the ranks interleave.
    From the start of the exchange let the ranks make their calls in any
    order [rs].  If some rank still has a call to make, then some rank
    can make its next call (no deadlock); and once every rank is done,
    the memories are those of [border_exchange] and no message is left
    in flight. *)
Theorem border_exchange_any_schedule (c : config) (step : Z) (w : list proc)
    (rs : list nat) (s : net) :
  config_ok c -> 0 <= step -> alen w = size c ->
  run_schedule rs
    (phase_start w (fun r => border_exchange_ops c step (Z.of_nat r))) = Some s ->
  (finished s = false ->
     exists r s', (r < length w)%nat /\ step_rank r s = Some s') /\
  (finished s = true ->
     border_exchange c step w = Some (procs s) /\ pool s = []).
Proof.
  intros Hc Hstep Hlen Hrun.
  set (code := fun r : nat => border_exchange_ops c step (Z.of_nat r)) in *.
  pose proof (border_exchange_code c step Hstep w Hlen) as Hcode. fold code in Hcode.
  destruct (run_schedule_inv code w 1 (nxt step) (cur step) Hcode rs _ s
              (phase_inv_init code w 1) ltac:(intros m []) Hrun) as [Hinv Hpool].
  split.
  - intros Hfin.
    destruct (border_exchange_progress c Hc step Hstep w Hlen s Hinv Hfin)
      as (r & Hr & Hsome).
    exists r. destruct (step_rank r s) as [s' |]; [| contradiction].
    exists s'. split; [assumption | reflexivity].
  - intros Hfin. split.
    + destruct (border_exchange_replay c Hc step Hstep w Hlen)
        as (w' & Hw' & Hl' & Hlook).
      rewrite Hw'. f_equal. apply list_eq_same_length with (length w).
      * apply (inv_procs_len _ _ _ _ Hinv).
      * exact Hl'.
      * intros i x y Hi Hx Hy.
        rewrite (Hlook i Hi) in Hx.
        rewrite (finished_replay code w 1 s Hinv Hfin i Hi) in Hy.
        unfold code in Hy. congruence.
    + assert (Hnil : forall m, ~ In m (pool s));
        [| destruct (pool s) as [| m rest]; [reflexivity |];
           exfalso; apply (Hnil m); now left].
      intros m Hm.
      destruct (leftover_message code w 1 s m Hinv Hpool Hfin Hm)
        as (src & dst & Hs & Hd & Hsent & Hrecv).
      assert (Hsr : 0 <= Z.of_nat src < size c) by (unfold alen in Hlen; lia).
      assert (Hdr : 0 <= Z.of_nat dst < size c) by (unfold alen in Hlen; lia).
      assert (Hnn : Z.of_nat dst <> MPI_PROC_NULL) by (unfold MPI_PROC_NULL; lia).
      unfold code, border_exchange_ops in Hsent, Hrecv.
      cbn [existsb is_send_to is_recv_from orb] in Hsent, Hrecv.
      rewrite !orb_false_r in Hsent, Hrecv.
      apply orb_false_iff in Hrecv as [RN Hrecv].
      apply orb_false_iff in Hrecv as [RS Hrecv].
      apply orb_false_iff in Hrecv as [RW RE].
      apply Z.eqb_neq in RN, RS, RW, RE.
      repeat (apply orb_true_iff in Hsent as [Hsent | Hsent]);
        apply Z.eqb_eq in Hsent.
      * apply RS. rewrite <- Hsent.
        apply (north_valid c Hc (Z.of_nat src) Hsr). congruence.
      * apply RN. rewrite <- Hsent.
        apply (south_valid c Hc (Z.of_nat src) Hsr). congruence.
      * apply RE. rewrite <- Hsent.
        apply (west_valid c Hc (Z.of_nat src) Hsr). congruence.
      * apply RW. rewrite <- Hsent.
        apply (east_valid c Hc (Z.of_nat src) Hsr). congruence.
Qed.

Lemma border_exchange_any_schedule_witness :
  config_ok cfg_2x2_4 /\ 0 <= 0 /\ alen world_4 = size cfg_2x2_4 /\
  exists s,
    run_schedule [3; 2; 1; 0]%nat
      (phase_start world_4 (fun r => border_exchange_ops cfg_2x2_4 0 (Z.of_nat r)))
      = Some s /\
    exists r s', (r < length world_4)%nat /\ step_rank r s = Some s'.
Proof.
  assert (H1 : config_ok cfg_2x2_4) by (repeat split; reflexivity).
  assert (H2 : 0 <= 0) by lia.
  assert (H3 : alen world_4 = size cfg_2x2_4) by reflexivity.
  split; [exact H1 |]. split; [exact H2 |]. split; [exact H3 |].
  eexists. split; [vm_compute; reflexivity |].
  refine (proj1 (border_exchange_any_schedule cfg_2x2_4 0 world_4
                   [3; 2; 1; 0]%nat _ H1 H2 H3 _) _);
    vm_compute; reflexivity.
Defined.

Lemma fold_left_flat_map {X Y S : Type} (f : S -> Y -> S) (g : X -> list Y)
    (l : list X) (a : S) :
  fold_left f (flat_map g l) a = fold_left (fun a x => fold_left f (g x) a) l a.
Proof.
  revert a. induction l as [| x l IH]; intros a; cbn; [reflexivity |].
  now rewrite fold_left_app, IH.
Qed.

Lemma to_uchar_range v b : to_uchar v = Some b -> 0 <= b <= 255.
Proof.
  destruct v as [s | s | | s m e]; cbn; try discriminate.
  - intros [= <-]. lia.
  - set (a := if 0 <=? e then _ else _).
    assert (Ha : 0 <= a).
    { unfold a. destruct (0 <=? e) eqn:E.
      - apply Z.leb_le in E. assert (0 < 2 ^ e) by (apply Z.pow_pos_nonneg; lia). nia.
      - apply Z.div_pos; [lia |]. apply Z.pow_pos_nonneg; lia. }
    destruct s.
    + destruct (a =? 0); [intros [= <-]; lia | discriminate].
    + destruct (Z.leb_spec a 255); [intros [= <-]; lia | discriminate].
Qed.

(** [fancycolour] stores three bytes at [p + 2], [p + 1] and [p], which
    depend on the temperature only. *)
Lemma fancycolour_colour buf p t :
  fancycolour buf p t =
  match colour t with
  | Some (b0, b1, b2) =>
      Some (aset (aset (aset buf (p + 2) b2) (p + 1) b1) (p + 0) b0)
  | None => None
  end.
Proof.
  unfold colour, fancycolour. cbv zeta.
  destruct (float_le t (F32.of_int 25)).
  { destruct (to_uchar _); reflexivity. }
  destruct (float_le t (F32.of_int 50)).
  { destruct (to_uchar _); reflexivity. }
  destruct (float_le t (F32.of_int 75)).
  { destruct (to_uchar _); reflexivity. }
  destruct (to_uchar _); reflexivity.
Qed.

Lemma colour_bytes t b0 b1 b2 :
  colour t = Some (b0, b1, b2) ->
  0 <= b0 <= 255 /\ 0 <= b1 <= 255 /\ 0 <= b2 <= 255.
Proof.
  unfold colour, fancycolour. cbv zeta.
  destruct (float_le t (F32.of_int 25)).
  { destruct (to_uchar _) as [g |] eqn:E; [| discriminate].
    apply to_uchar_range in E. intros [= <- <- <-]. lia. }
  destruct (float_le t (F32.of_int 50)).
  { destruct (to_uchar _) as [g |] eqn:E; [| discriminate].
    apply to_uchar_range in E. intros [= <- <- <-]. lia. }
  destruct (float_le t (F32.of_int 75)).
  { destruct (to_uchar _) as [g |] eqn:E; [| discriminate].
    apply to_uchar_range in E. intros [= <- <- <-]. lia. }
  destruct (to_uchar _) as [g |] eqn:E; [| discriminate].
  apply to_uchar_range in E. intros [= <- <- <-]. lia.
Qed.

Section ImageBuffer.
Variable c : config.
Hypothesis Hc : config_ok c.
Variable t : list f32.

(** Where the pixel of global cell [(i, j)] starts: row [j] of the field
    is row [GRID_SIZE[1] - 1 - j] of the image. *)
Let pixel (i j : Z) : Z := ((GRID_SIZE1 c - j - 1) * GRID_SIZE0 c + i) * 3.

Let shade (i j : Z) : option (Z * Z * Z) :=
  colour (rdf t (i + GRID_SIZE0 c * j)).

Let body (st : option (list Z)) (ij : Z * Z) : option (list Z) :=
  match st with
  | Some buffer =>
      fancycolour buffer (pixel ij.1 ij.2) (rdf t (ij.1 + GRID_SIZE0 c * ij.2))
  | None => None
  end.

Let channel (ijk : Z * Z * Z) : Z :=
  match shade ijk.1.1 ijk.1.2 with
  | Some (b0, b1, b2) =>
      if ijk.2 =? 0 then b0 else if ijk.2 =? 1 then b1 else b2
  | None => 0
  end.

Lemma output_buffer_fold :
  output_buffer c t =
  fold_left body (cells 0 (GRID_SIZE0 c) 0 (GRID_SIZE1 c))
            (Some (calloc 0 (GRID_SIZE0 c * GRID_SIZE1 c * 3))).
Proof. unfold output_buffer. cbv zeta. now rewrite for_loop_nest. Qed.

Lemma fold_body_none cs : fold_left body cs None = None.
Proof. induction cs as [| ij cs IH]; cbn; [reflexivity | exact IH]. Qed.

Lemma fold_body_some cs : forall buf,
  (forall i j, In (i, j) cs -> shade i j <> None) ->
  fold_left body cs (Some buf) =
  Some (fold_left (fun a ijk => aset a (pixel ijk.1.1 ijk.1.2 + ijk.2) (channel ijk))
          (flat_map (fun ij => [(ij, 2); (ij, 1); (ij, 0)]) cs) buf).
Proof.
  induction cs as [| [i j] cs IH]; intros buf Hdef; [reflexivity |].
  cbn [fold_left flat_map app body fst snd].
  rewrite fancycolour_colour. fold (shade i j).
  pose proof (Hdef i j ltac:(now left)) as Hij.
  destruct (shade i j) as [[[b0 b1] b2] |] eqn:Es; [| contradiction].
  assert (C0 : channel (i, j, 0) = b0)
    by (unfold channel; cbn [fst snd]; rewrite Es; reflexivity).
  assert (C1 : channel (i, j, 1) = b1)
    by (unfold channel; cbn [fst snd]; rewrite Es; reflexivity).
  assert (C2 : channel (i, j, 2) = b2)
    by (unfold channel; cbn [fst snd]; rewrite Es; reflexivity).
  rewrite IH by (intros i' j' H; apply Hdef; now right).
  rewrite C0, C1, C2. reflexivity.
Qed.

Lemma fold_body_undefined cs : forall buf i j,
  In (i, j) cs -> shade i j = None -> fold_left body cs (Some buf) = None.
Proof.
  induction cs as [| [i0 j0] cs IH]; intros buf i j Hin Hnone; [destruct Hin |].
  cbn [fold_left body fst snd]. rewrite fancycolour_colour. fold (shade i0 j0).
  destruct Hin as [[= -> ->] | Hin].
  - rewrite Hnone. apply fold_body_none.
  - destruct (shade i0 j0) as [[[b0 b1] b2] |]; [| apply fold_body_none].
    now apply (IH _ i j).
Qed.

Lemma output_buffer_cells :
  (forall i j, 0 <= i < GRID_SIZE0 c -> 0 <= j < GRID_SIZE1 c ->
     shade i j <> None) ->
  exists buf, output_buffer c t = Some buf /\
    alen buf = GRID_SIZE0 c * GRID_SIZE1 c * 3 /\
    forall i j, 0 <= i < GRID_SIZE0 c -> 0 <= j < GRID_SIZE1 c ->
      shade i j = Some (rdi buf (pixel i j), rdi buf (pixel i j + 1),
                        rdi buf (pixel i j + 2)).
Proof.
  intros Hdef. destruct Hc as (_ & _ & G0 & G1).
  rewrite output_buffer_fold, fold_body_some
    by (intros i j H; apply In_cells in H; apply Hdef; lia).
  eexists. split; [reflexivity |].
  set (cs := flat_map (fun ij : Z * Z => [(ij, 2); (ij, 1); (ij, 0)])
               (cells 0 (GRID_SIZE0 c) 0 (GRID_SIZE1 c))).
  assert (Hcs : forall i j k, In (i, j, k) cs <->
            (0 <= i < GRID_SIZE0 c /\ 0 <= j < GRID_SIZE1 c) /\ 0 <= k <= 2).
  { intros i j k. unfold cs. rewrite in_flat_map. split.
    - intros ([i' j'] & Hin & Hk). apply In_cells in Hin.
      destruct Hk as [[= -> -> <-] | [[= -> -> <-] | [[= -> -> <-] | []]]]; lia.
    - intros [Hij Hk]. exists (i, j). split; [apply In_cells; lia |].
      assert (Hc3 : k = 2 \/ k = 1 \/ k = 0) by lia.
      destruct Hc3 as [-> | [-> | ->]]; cbn; auto. }
  assert (Hlen : alen (calloc 0 (GRID_SIZE0 c * GRID_SIZE1 c * 3)) =
                 GRID_SIZE0 c * GRID_SIZE1 c * 3) by (apply alen_calloc; nia).
  destruct (writes_spec 0
    (fun ijk : Z * Z * Z => pixel ijk.1.1 ijk.1.2 + ijk.2) channel cs
    (calloc 0 (GRID_SIZE0 c * GRID_SIZE1 c * 3))) as (W1 & W2 & _).
  - intros [[i j] k] Hin. apply Hcs in Hin. cbn [fst snd]. rewrite Hlen.
    unfold pixel. nia.
  - intros [[i j] k] [[i' j'] k'] H1 H2 He. apply Hcs in H1, H2.
    cbn [fst snd] in He. unfold pixel in He.
    assert (k = k' /\ (GRID_SIZE1 c - j - 1) * GRID_SIZE0 c + i =
                      (GRID_SIZE1 c - j' - 1) * GRID_SIZE0 c + i') as [-> Eq] by lia.
    assert (j = j') by nia. subst j'. assert (i = i') by lia. now subst i'.
  - split; [unfold alen in *; now rewrite W1 |].
    intros i j Hi Hj.
    pose proof (W2 (i, j, 0) ltac:(apply Hcs; lia)) as E0.
    pose proof (W2 (i, j, 1) ltac:(apply Hcs; lia)) as E1.
    pose proof (W2 (i, j, 2) ltac:(apply Hcs; lia)) as E2.
    cbn [fst snd] in E0, E1, E2. rewrite Z.add_0_r in E0.
    rewrite E0, E1, E2. unfold channel. cbn [fst snd Z.eqb].
    pose proof (Hdef i j Hi Hj) as Hij.
    destruct (shade i j) as [[[b0 b1] b2] |]; [reflexivity | contradiction].
Qed.

Lemma output_buffer_undefined i j :
  0 <= i < GRID_SIZE0 c -> 0 <= j < GRID_SIZE1 c -> shade i j = None ->
  output_buffer c t = None.
Proof.
  intros Hi Hj Hn. rewrite output_buffer_fold.
  apply (fold_body_undefined _ _ i j); [apply In_cells; lia | exact Hn].
Qed.

End ImageBuffer.

(** X16. [output] draws the field upside down, one pixel per cell: the
    three bytes [fancycolour] computes from the temperature of global cell
    [(i, j)] are stored at offset
    [3 * ((GRID_SIZE[1] - 1 - j) * GRID_SIZE[0] + i)] of the pixel buffer,
    every byte of the buffer belongs to exactly one cell and is a value
    0..255, and the buffer has [3 * GRID_SIZE[0] * GRID_SIZE[1]] bytes.
    The buffer is defined exactly when the conversion to [unsigned char] is
    defined for every cell; a NaN or an infinity in the field makes it
    undefined. *)
Theorem output_pixels (c : config) (t : list f32) :
  config_ok c ->
  let defined := forall i j, 0 <= i < GRID_SIZE0 c -> 0 <= j < GRID_SIZE1 c ->
                   colour (rdf t (ti c i j)) <> None in
  (defined ->
   exists buf, output_buffer c t = Some buf /\
     alen buf = 3 * GRID_SIZE0 c * GRID_SIZE1 c /\
     (forall i j, 0 <= i < GRID_SIZE0 c -> 0 <= j < GRID_SIZE1 c ->
        let p := 3 * ((GRID_SIZE1 c - 1 - j) * GRID_SIZE0 c + i) in
        colour (rdf t (ti c i j)) =
        Some (rdi buf p, rdi buf (p + 1), rdi buf (p + 2))) /\
     (forall k, 0 <= k < alen buf -> 0 <= rdi buf k <= 255)) /\
  (forall i j, 0 <= i < GRID_SIZE0 c -> 0 <= j < GRID_SIZE1 c ->
     colour (rdf t (ti c i j)) = None -> output_buffer c t = None) /\
  (forall i j, 0 <= i < GRID_SIZE0 c -> 0 <= j < GRID_SIZE1 c ->
     F32.is_finite (rdf t (ti c i j)) = false -> output_buffer c t = None).
Proof.
  intros Hc. cbv zeta.
  assert (Eti : forall i j, ti c i j = i + GRID_SIZE0 c * j)
    by (intros; unfold ti; lia).
  assert (Hundef : forall i j, 0 <= i < GRID_SIZE0 c -> 0 <= j < GRID_SIZE1 c ->
            colour (rdf t (ti c i j)) = None -> output_buffer c t = None).
  { intros i j Hi Hj Hn. rewrite Eti in Hn.
    now apply (output_buffer_undefined c t i j). }
  split; [| split; [exact Hundef |]].
  - intros Hdef.
    destruct (output_buffer_cells c Hc t) as (buf & Hrun & Hlen & Hpix).
    { intros i j Hi Hj. rewrite <- Eti. now apply Hdef. }
    exists buf. split; [exact Hrun |]. split; [rewrite Hlen; lia |].
    assert (Hp : forall i j, 0 <= i < GRID_SIZE0 c -> 0 <= j < GRID_SIZE1 c ->
              colour (rdf t (ti c i j)) =
              Some (rdi buf (3 * ((GRID_SIZE1 c - 1 - j) * GRID_SIZE0 c + i)),
                    rdi buf (3 * ((GRID_SIZE1 c - 1 - j) * GRID_SIZE0 c + i) + 1),
                    rdi buf (3 * ((GRID_SIZE1 c - 1 - j) * GRID_SIZE0 c + i) + 2))).
    { intros i j Hi Hj. rewrite Eti, (Hpix i j Hi Hj).
      replace (((GRID_SIZE1 c - j - 1) * GRID_SIZE0 c + i) * 3)
        with (3 * ((GRID_SIZE1 c - 1 - j) * GRID_SIZE0 c + i)) by lia.
      reflexivity. }
    split; [exact Hp |].
    intros k Hk. rewrite Hlen in Hk. destruct Hc as (_ & _ & G0 & G1).
    set (q := k / 3). set (ch := k mod 3).
    assert (Hq : k = 3 * q + ch /\ 0 <= ch < 3 /\ 0 <= q < GRID_SIZE0 c * GRID_SIZE1 c)
      by (unfold q, ch; Z.to_euclidean_division_equations; nia).
    destruct Hq as (Ek & Hch & Hq).
    set (row := q / GRID_SIZE0 c). set (i := q mod GRID_SIZE0 c).
    assert (Hrow : q = row * GRID_SIZE0 c + i /\ 0 <= i < GRID_SIZE0 c /\
                   0 <= row < GRID_SIZE1 c).
    { unfold row, i.
      pose proof (Z.div_mod q (GRID_SIZE0 c) ltac:(lia)).
      pose proof (Z.mod_pos_bound q (GRID_SIZE0 c) G0).
      assert (0 <= q / GRID_SIZE0 c) by (apply Z.div_pos; lia).
      assert (q / GRID_SIZE0 c < GRID_SIZE1 c)
        by (apply Z.div_lt_upper_bound; lia).
      repeat split; lia. }
    destruct Hrow as (Eq & Hi & Hrow).
    specialize (Hp i (GRID_SIZE1 c - 1 - row) Hi ltac:(lia)).
    replace (GRID_SIZE1 c - 1 - (GRID_SIZE1 c - 1 - row)) with row in Hp by lia.
    rewrite <- Eq in Hp. apply colour_bytes in Hp as (B0 & B1 & B2).
    assert (Hc3 : ch = 0 \/ ch = 1 \/ ch = 2) by lia.
    destruct Hc3 as [E | [E | E]]; rewrite Ek, E; [rewrite Z.add_0_r | |];
      assumption.
  - intros i j Hi Hj Hinf. apply (Hundef i j Hi Hj).
    destruct (rdf t (ti c i j)) as [s | s | | s m e]; try discriminate;
      [destruct s |]; reflexivity.
Qed.

Lemma output_pixels_witness :
  let c := mkConfig 2 2 1 1 in
  let t := [F32.lit 20 1; F32.lit 60 1; F32.lit 100 1; F32.lit 10 1] in
  config_ok c /\
  (forall i j, 0 <= i < GRID_SIZE0 c -> 0 <= j < GRID_SIZE1 c ->
     colour (rdf t (ti c i j)) <> None) /\
  exists buf, output_buffer c t = Some buf /\
    alen buf = 3 * GRID_SIZE0 c * GRID_SIZE1 c.
Proof.
  cbv zeta.
  assert (H1 : config_ok (mkConfig 2 2 1 1)) by (repeat split; reflexivity).
  assert (H2 : forall i j, 0 <= i < GRID_SIZE0 (mkConfig 2 2 1 1) ->
                 0 <= j < GRID_SIZE1 (mkConfig 2 2 1 1) ->
                 colour (rdf [F32.lit 20 1; F32.lit 60 1; F32.lit 100 1; F32.lit 10 1]
                             (ti (mkConfig 2 2 1 1) i j)) <> None).
  { intros i j Hi Hj. cbn in Hi, Hj.
    assert (Hi' : i = 0 \/ i = 1) by lia. assert (Hj' : j = 0 \/ j = 1) by lia.
    destruct Hi' as [-> | ->], Hj' as [-> | ->]; vm_compute; discriminate. }
  split; [exact H1 |]. split; [exact H2 |].
  destruct (proj1 (output_pixels (mkConfig 2 2 1 1) _ H1) H2)
    as (buf & Hrun & Hlen & _).
  exists buf. split; assumption.
Defined.

Lemma land_255 a : Z.land a 255 = a mod 256.
Proof. change 255 with (Z.ones 8). now rewrite Z.land_ones by lia. Qed.

Lemma shiftr_div a n : 0 <= n -> Z.shiftr a n = a / 2 ^ n.
Proof. intros Hn. now apply Z.shiftr_div_pow2. Qed.

(** The bytes [savebmp] writes, with the masks and shifts of the header
    read as remainders and quotients. *)
Lemma savebmp_bytes (G0 G1 : Z) (buffer : list Z) (x y : Z) :
  0 <= x -> 0 <= y -> x * y * 3 + 54 < 2 ^ 31 ->
  let size := x * y * 3 + 54 in
  savebmp G0 G1 true buffer x y =
  Some ([66; 77; size mod 256; size / 256 mod 256; size / 65536 mod 256;
         size / 16777216 mod 256;
         0; 0; 0; 0; 54; 0; 0; 0; 40; 0; 0; 0;
         x mod 256; x / 256 mod 256; 0; 0; y mod 256; y / 256 mod 256; 0; 0;
         1; 0; 24; 0; 0; 0; 0; 0; 0; 0;
         0; 0; 0; 0; 0; 0; 0; 0; 0; 0; 0; 0; 0; 0; 0; 0; 0; 0] ++
        firstn (Z.to_nat (G0 * G1 * 3)) buffer).
Proof.
  intros Hx Hy Hsize. cbv zeta. unfold savebmp. cbv zeta.
  assert (Es : (x * y * 3 + 54) mod 2 ^ 32 = x * y * 3 + 54)
    by (apply Z.mod_small; nia).
  rewrite Es. set (size := x * y * 3 + 54) in *.
  assert (Hs0 : 0 <= size) by (unfold size; nia).
  cbn [map]. rewrite !land_255, !shiftr_div by lia.
  change (2 ^ 8) with 256. change (2 ^ 16) with 65536.
  change (2 ^ 24) with 16777216. change (2 ^ 31) with 2147483648 in Hsize.
  rewrite !Z.mod_mod by lia.
  reflexivity.
Qed.

(** X17. [savebmp] writes nothing when [fopen] fails.  Otherwise the file
    starts with a 54-byte header of byte values: the signature ["BM"], the
    little-endian file size [x * y * 3 + 54], the pixel offset 54, the
    header size 40, one plane and 24 bits per pixel; the width and height
    fields hold [x] and [y] modulo 65536 (only two bytes of each are
    stored), so they are [x] and [y] exactly when these are below 65536.
    After the header come the first [3 * GRID_SIZE[0] * GRID_SIZE[1]] bytes
    of the buffer, whatever [x] and [y] are. *)
Theorem savebmp_header (G0 G1 : Z) (buffer : list Z) (x y : Z) :
  0 <= x -> 0 <= y -> x * y * 3 + 54 < 2 ^ 31 ->
  savebmp G0 G1 false buffer x y = None /\
  exists file, savebmp G0 G1 true buffer x y = Some file /\
    slice 0 2 file = [66; 77] /\
    le_bytes (slice 2 4 file) = x * y * 3 + 54 /\
    le_bytes (slice 10 4 file) = 54 /\
    le_bytes (slice 14 4 file) = 40 /\
    le_bytes (slice 18 4 file) = x mod 65536 /\
    le_bytes (slice 22 4 file) = y mod 65536 /\
    (x < 65536 -> le_bytes (slice 18 4 file) = x) /\
    (y < 65536 -> le_bytes (slice 22 4 file) = y) /\
    le_bytes (slice 26 2 file) = 1 /\
    le_bytes (slice 28 2 file) = 24 /\
    Forall (fun b => 0 <= b <= 255) (firstn 54 file) /\
    skipn 54 file = firstn (Z.to_nat (G0 * G1 * 3)) buffer.
Proof.
  intros Hx Hy Hsize. split; [reflexivity |].
  rewrite (savebmp_bytes G0 G1 buffer x y Hx Hy Hsize).
  eexists. split; [reflexivity |].
  set (size := x * y * 3 + 54) in *.
  assert (Hs0 : 0 <= size) by (unfold size; nia).
  change (2 ^ 31) with 2147483648 in Hsize.
  cbn [app slice skipn firstn le_bytes fold_right].
  split; [reflexivity |].
  split; [Z.to_euclidean_division_equations; lia |].
  split; [reflexivity |]. split; [reflexivity |].
  split; [Z.to_euclidean_division_equations; lia |].
  split; [Z.to_euclidean_division_equations; lia |].
  split; [intros; Z.to_euclidean_division_equations; lia |].
  split; [intros; Z.to_euclidean_division_equations; lia |].
  split; [reflexivity |]. split; [reflexivity |].
  split; [| reflexivity].
  repeat (constructor;
          [first [lia
                 | match goal with
                   | |- 0 <= ?a mod 256 <= 255 =>
                       pose proof (Z.mod_pos_bound a 256 ltac:(lia)); lia
                   end] |]).
  constructor.
Qed.

Lemma savebmp_header_witness :
  0 <= 256 /\ 0 <= 256 /\ 256 * 256 * 3 + 54 < 2 ^ 31 /\
  exists file, savebmp 256 256 true [] 256 256 = Some file /\
    le_bytes (slice 18 4 file) = 256.
Proof.
  assert (H1 : 0 <= 256) by lia.
  assert (H3 : 256 * 256 * 3 + 54 < 2 ^ 31) by reflexivity.
  split; [exact H1 |]. split; [exact H1 |]. split; [exact H3 |].
  destruct (proj2 (savebmp_header 256 256 [] 256 256 H1 H1 H3))
    as (file & Hf & _ & _ & _ & _ & _ & _ & Hw & _).
  exists file. split; [exact Hf |]. apply Hw. lia.
Defined.

Lemma aget_app_r {X : Type} (d : X) (l1 l2 : list X) k :
  0 <= k -> aget d (l1 ++ l2) (alen l1 + k) = aget d l2 k.
Proof.
  intros Hk. unfold aget, alen.
  destruct (Z.leb_spec 0 (Z.of_nat (length l1) + k)); [| lia].
  destruct (Z.leb_spec 0 k); [| lia].
  rewrite app_nth2 by lia. f_equal. lia.
Qed.

(** X18. [output] as a whole, on a grid whose sides are below 65536 and
    whose image fits an [int], when every cell has a defined colour: if the
    file cannot be opened nothing is written; otherwise the file has
    [54 + 3 * GRID_SIZE[0] * GRID_SIZE[1]] bytes, its size field holds
    exactly that length, its width and height fields hold the grid size,
    and the pixel of global cell [(i, j)] is at file offset
    [54 + 3 * ((GRID_SIZE[1] - 1 - j) * GRID_SIZE[0] + i)].  No row is
    padded, whatever the width. *)
Theorem output_file (c : config) (t : list f32) :
  config_ok c -> GRID_SIZE0 c < 65536 -> GRID_SIZE1 c < 65536 ->
  GRID_SIZE0 c * GRID_SIZE1 c * 3 + 54 < 2 ^ 31 ->
  (forall i j, 0 <= i < GRID_SIZE0 c -> 0 <= j < GRID_SIZE1 c ->
     colour (rdf t (ti c i j)) <> None) ->
  output c t false = Some None /\
  exists file, output c t true = Some (Some file) /\
    alen file = 54 + 3 * GRID_SIZE0 c * GRID_SIZE1 c /\
    le_bytes (slice 2 4 file) = alen file /\
    le_bytes (slice 10 4 file) = 54 /\
    le_bytes (slice 18 4 file) = GRID_SIZE0 c /\
    le_bytes (slice 22 4 file) = GRID_SIZE1 c /\
    forall i j, 0 <= i < GRID_SIZE0 c -> 0 <= j < GRID_SIZE1 c ->
      let p := 54 + 3 * ((GRID_SIZE1 c - 1 - j) * GRID_SIZE0 c + i) in
      colour (rdf t (ti c i j)) =
      Some (rdi file p, rdi file (p + 1), rdi file (p + 2)).
Proof.
  intros Hc H0 H1 Hsize Hdef.
  assert (Eti : forall i j, ti c i j = i + GRID_SIZE0 c * j)
    by (intros; unfold ti; lia).
  destruct (output_buffer_cells c Hc t) as (buf & Hrun & Hlen & Hpix).
  { intros i j Hi Hj. rewrite <- Eti. now apply Hdef. }
  pose proof Hc as (_ & _ & G0 & G1).
  pose proof (savebmp_bytes (GRID_SIZE0 c) (GRID_SIZE1 c) buf
                (GRID_SIZE0 c) (GRID_SIZE1 c) ltac:(lia) ltac:(lia) Hsize) as Hfile.
  cbv zeta in Hfile.
  unfold output. rewrite Hrun. split; [reflexivity |].
  rewrite Hfile. eexists. split; [reflexivity |].
  rewrite (firstn_all2 buf) by (unfold alen in Hlen; lia).
  set (size := GRID_SIZE0 c * GRID_SIZE1 c * 3 + 54) in *.
  change (2 ^ 31) with 2147483648 in Hsize.
  match goal with |- alen (?hd ++ buf) = _ /\ _ => set (header := hd) end.
  assert (Hhl : alen header = 54) by reflexivity.
  assert (Hfl : alen (header ++ buf) = 54 + 3 * GRID_SIZE0 c * GRID_SIZE1 c).
  { unfold alen in *. rewrite length_app. lia. }
  split; [exact Hfl |].
  split.
  { rewrite Hfl. unfold header. cbn [app slice skipn firstn le_bytes fold_right].
    unfold size. Z.to_euclidean_division_equations. lia. }
  split; [reflexivity |].
  split.
  { unfold header. cbn [app slice skipn firstn le_bytes fold_right].
    Z.to_euclidean_division_equations. lia. }
  split.
  { unfold header. cbn [app slice skipn firstn le_bytes fold_right].
    Z.to_euclidean_division_equations. lia. }
  intros i j Hi Hj. cbv zeta.
  rewrite Eti, (Hpix i j Hi Hj).
  replace (54 + 3 * ((GRID_SIZE1 c - 1 - j) * GRID_SIZE0 c + i))
    with (alen header + ((GRID_SIZE1 c - j - 1) * GRID_SIZE0 c + i) * 3) by lia.
  rewrite <- !Z.add_assoc, !aget_app_r by nia.
  reflexivity.
Qed.

Lemma output_file_witness :
  let c := mkConfig 2 2 1 1 in
  let t := [F32.lit 20 1; F32.lit 60 1; F32.lit 100 1; F32.lit 10 1] in
  config_ok c /\ GRID_SIZE0 c < 65536 /\ GRID_SIZE1 c < 65536 /\
  GRID_SIZE0 c * GRID_SIZE1 c * 3 + 54 < 2 ^ 31 /\
  (forall i j, 0 <= i < GRID_SIZE0 c -> 0 <= j < GRID_SIZE1 c ->
     colour (rdf t (ti c i j)) <> None) /\
  exists file, output c t true = Some (Some file) /\ alen file = 66.
Proof.
  cbv zeta.
  assert (H1 : config_ok (mkConfig 2 2 1 1)) by (repeat split; reflexivity).
  assert (H2 : GRID_SIZE0 (mkConfig 2 2 1 1) < 65536) by reflexivity.
  assert (H3 : GRID_SIZE1 (mkConfig 2 2 1 1) < 65536) by reflexivity.
  assert (H4 : GRID_SIZE0 (mkConfig 2 2 1 1) * GRID_SIZE1 (mkConfig 2 2 1 1) * 3
               + 54 < 2 ^ 31) by reflexivity.
  assert (H5 : forall i j, 0 <= i < GRID_SIZE0 (mkConfig 2 2 1 1) ->
                 0 <= j < GRID_SIZE1 (mkConfig 2 2 1 1) ->
                 colour (rdf [F32.lit 20 1; F32.lit 60 1; F32.lit 100 1; F32.lit 10 1]
                             (ti (mkConfig 2 2 1 1) i j)) <> None).
  { intros i j Hi Hj. cbn in Hi, Hj.
    assert (Hi' : i = 0 \/ i = 1) by lia. assert (Hj' : j = 0 \/ j = 1) by lia.
    destruct Hi' as [-> | ->], Hj' as [-> | ->]; vm_compute; discriminate. }
  split; [exact H1 |]. split; [exact H2 |]. split; [exact H3 |].
  split; [exact H4 |]. split; [exact H5 |].
  destruct (proj2 (output_file (mkConfig 2 2 1 1) _ H1 H2 H3 H4 H5))
    as (file & Hf & Hl & _).
  exists file. split; [exact Hf | exact Hl].
Defined.

Section Decimal.

Let eval (ds : list Z) : Z := fold_left (fun a d => 10 * a + d) ds 0.

Lemma eval_snoc ds d : eval (ds ++ [d]) = 10 * eval ds + d.
Proof. unfold eval. now rewrite fold_left_app. Qed.

Lemma pow10_succ (k : nat) : 10 ^ Z.of_nat (S k) = 10 * 10 ^ Z.of_nat k.
Proof. rewrite Nat2Z.inj_succ, Z.pow_succ_r by lia. reflexivity. Qed.

Lemma decimal_digits_eval fuel : forall n,
  0 <= n < 10 ^ Z.of_nat fuel -> eval (decimal_digits fuel n) = n.
Proof.
  induction fuel as [| fuel IH]; intros n Hn.
  - cbn in Hn. cbn. lia.
  - cbn [decimal_digits]. rewrite pow10_succ in Hn.
    destruct (Z.ltb_spec n 10); [cbn; lia |].
    rewrite eval_snoc, IH by (Z.to_euclidean_division_equations; lia).
    Z.to_euclidean_division_equations; lia.
Qed.

Lemma decimal_digits_length fuel : forall n (k : nat),
  (1 <= k <= fuel)%nat ->
  (0 <= n < 10 ^ Z.of_nat k -> (length (decimal_digits fuel n) <= k)%nat) /\
  (10 ^ Z.of_nat (k - 1) <= n -> (k <= length (decimal_digits fuel n))%nat).
Proof.
  induction fuel as [| fuel IH]; intros n k Hk; [lia |].
  cbn [decimal_digits].
  destruct (Z.ltb_spec n 10) as [Hlt | Hge].
  - cbn [length]. split; [lia |]. intros Hlow.
    destruct k as [| [| k]]; [lia | lia |].
    replace (S (S k) - 1)%nat with (S k) in Hlow by lia.
    rewrite pow10_succ in Hlow.
    assert (0 < 10 ^ Z.of_nat k) by (apply Z.pow_pos_nonneg; lia). lia.
  - rewrite length_app. cbn [length].
    destruct k as [| [| k]]; [lia | |].
    + split; [cbn; lia | lia].
    + destruct (IH (n / 10) (S k) ltac:(lia)) as [Hup Hlo]. split.
      * intros Hn. rewrite pow10_succ in Hn.
        assert ((length (decimal_digits fuel (n / 10)) <= S k)%nat)
          by (apply Hup; Z.to_euclidean_division_equations; lia).
        lia.
      * intros Hn. replace (S (S k) - 1)%nat with (S k) in Hn by lia.
        rewrite pow10_succ in Hn.
        replace (S k - 1)%nat with k in Hlo by lia.
        assert ((S k <= length (decimal_digits fuel (n / 10)))%nat)
          by (apply Hlo; Z.to_euclidean_division_equations; lia).
        lia.
Qed.

Lemma digits_value_chars ds :
  digits_value (map (Z.add 48) ds) = eval ds.
Proof.
  unfold digits_value, eval. generalize 0.
  induction ds as [| d ds IH]; intros a; cbn [map fold_left]; [reflexivity |].
  rewrite IH. f_equal. lia.
Qed.

Lemma eval_zeros k ds : eval (replicate k 0 ++ ds) = eval ds.
Proof.
  unfold eval. rewrite fold_left_app. f_equal.
  induction k as [| k IH]; cbn; [reflexivity | exact IH].
Qed.

Lemma print_d4_value n :
  0 <= n < 10 ^ 10 -> digits_value (print_d4 n) = n.
Proof.
  intros Hn. unfold print_d4. cbv zeta.
  destruct (Z.ltb_spec n 0); [lia |]. cbn [app].
  rewrite digits_value_chars, eval_zeros, Z.abs_eq by lia.
  now apply (decimal_digits_eval 10).
Qed.

Lemma print_d4_length n (k : nat) :
  0 <= n -> (1 <= k <= 10)%nat ->
  (n < 10 ^ Z.of_nat k -> (length (print_d4 n) <= Nat.max 4 k)%nat) /\
  (10 ^ Z.of_nat (k - 1) <= n -> (k <= length (print_d4 n))%nat) /\
  (4 <= length (print_d4 n))%nat.
Proof.
  intros Hn Hk. unfold print_d4. cbv zeta.
  destruct (Z.ltb_spec n 0); [lia |]. cbn [app].
  rewrite length_map, length_app, length_replicate, Z.abs_eq by lia.
  destruct (decimal_digits_length 10 n k Hk) as [Hup Hlo].
  split; [intros H1; specialize (Hup (conj Hn H1)); lia |].
  split; [intros H1; specialize (Hlo H1); lia | lia].
Qed.

End Decimal.

(** X19. The file name [write_temp] builds for step [s >= 0] is
    ["data/"], the decimal digits of [s / SNAPSHOT] padded to four, and
    [".bmp"].  It has 13 characters while [s / SNAPSHOT < 10000], and with
    its final NUL it fills the 15 bytes of [filename] exactly up to
    [s / SNAPSHOT = 99999]; from 100000 on [sprintf] writes past the
    array.  Two steps get the same name exactly when they have the same
    quotient by [SNAPSHOT]: no snapshot of [main] overwrites another. *)
Theorem snapshot_name_fits (step : Z) :
  0 <= step < 2 ^ 31 ->
  let n := Z.quot step SNAPSHOT in
  snapshot_name step =
    [100; 97; 116; 97; 47] ++ print_d4 n ++ [46; 98; 109; 112] /\
  digits_value (print_d4 n) = n /\
  (n < 10000 -> alen (snapshot_name step) = 13) /\
  (n < 100000 -> alen (snapshot_name step) + 1 <= 15) /\
  (100000 <= n -> 15 < alen (snapshot_name step) + 1) /\
  (forall step', 0 <= step' < 2 ^ 31 ->
     (snapshot_name step' = snapshot_name step <->
      Z.quot step' SNAPSHOT = Z.quot step SNAPSHOT)).
Proof.
  intros Hs. cbv zeta.
  assert (Hq : forall s, 0 <= s < 2 ^ 31 ->
            0 <= Z.quot s SNAPSHOT < 10 ^ 10).
  { intros s H. unfold SNAPSHOT. change (2 ^ 31) with 2147483648 in H.
    change (10 ^ 10) with 10000000000.
    Z.to_euclidean_division_equations. lia. }
  pose proof (Hq step Hs) as Hn.
  assert (Hlen : alen (snapshot_name step) =
                 9 + Z.of_nat (length (print_d4 (Z.quot step SNAPSHOT)))).
  { unfold snapshot_name, alen. rewrite !length_app. cbn [length]. lia. }
  split; [reflexivity |]. split; [now apply print_d4_value |].
  split; [| split; [| split]].
  - intros H4. rewrite Hlen.
    destruct (print_d4_length (Z.quot step SNAPSHOT) 4 ltac:(lia) ltac:(lia))
      as (Hup & _ & Hlo).
    specialize (Hup H4). cbn in Hup. lia.
  - intros H5. rewrite Hlen.
    destruct (print_d4_length (Z.quot step SNAPSHOT) 5 ltac:(lia) ltac:(lia))
      as (Hup & _ & _).
    specialize (Hup H5). cbn in Hup. lia.
  - intros H6. rewrite Hlen.
    destruct (print_d4_length (Z.quot step SNAPSHOT) 6 ltac:(lia) ltac:(lia))
      as (_ & Hlo & _).
    specialize (Hlo H6). lia.
  - intros step' Hs'. split.
    + intros He. unfold snapshot_name in He.
      apply app_inv_head in He. apply app_inv_tail in He.
      rewrite <- (print_d4_value (Z.quot step' SNAPSHOT)) by now apply Hq.
      rewrite He. now apply print_d4_value.
    + intros He. unfold snapshot_name. now rewrite He.
Qed.

Lemma snapshot_name_fits_witness :
  0 <= 9500 < 2 ^ 31 /\
  snapshot_name 9500 = [100; 97; 116; 97; 47; 48; 48; 49; 57; 46; 98; 109; 112].
Proof.
  assert (H1 : 0 <= 9500 < 2 ^ 31) by (split; [discriminate | reflexivity]).
  split; [exact H1 |].
  exact (proj1 (snapshot_name_fits 9500 H1)).
Defined.

(** X20. The displacement [helpFunctionForDisplacement] stores for a rank
    is the index of that rank's origin cell in the global field:
    [displs[r] = ti(local_origin[0], local_origin[1])] of rank [r], for
    every rank of the mesh, with send count 1; the tables of [main] and
    the origins [main] computes from [MPI_Cart_coords] agree. *)
Theorem displacement_is_origin (c : config) (p : proc) (r : Z) :
  config_ok c -> alen (displs p) = size c -> alen (sendcounts p) = size c ->
  0 <= r < size c ->
  let p' := helpFunctionForDisplacement c 0 p in
  rdi (displs p') r = ti c (local_origin0 c r) (local_origin1 c r) /\
  rdi (sendcounts p') r = 1 /\
  0 <= local_origin0 c r /\
  local_origin0 c r + local_grid_size0 c <= GRID_SIZE0 c /\
  0 <= local_origin1 c r /\
  local_origin1 c r + local_grid_size1 c <= GRID_SIZE1 c.
Proof.
  intros Hc Hd Hs Hr. cbv zeta.
  destruct (cart_rank_coords c Hc r Hr) as (Er & C0 & C1).
  destruct (displacement_table_cells c p (coords0 c r) (coords1 c r) Hd Hs C0 C1)
    as (D1 & D2 & _).
  rewrite Er in D1, D2.
  destruct (mesh_fits c Hc) as [M0 M1].
  destruct (local_grid_size_nonneg c Hc) as [N0 N1].
  split; [rewrite D1; unfold ti, local_origin0, local_origin1; lia |].
  split; [exact D2 |].
  unfold local_origin0, local_origin1. repeat split; nia.
Qed.

Lemma displacement_is_origin_witness :
  config_ok cfg_2x2_4 /\
  rdi (displs (helpFunctionForDisplacement cfg_2x2_4 0 (allocate cfg_2x2_4 0))) 2 =
  ti cfg_2x2_4 (local_origin0 cfg_2x2_4 2) (local_origin1 cfg_2x2_4 2).
Proof.
  assert (H1 : config_ok cfg_2x2_4) by (repeat split; reflexivity).
  split; [exact H1 |].
  exact (proj1 (displacement_is_origin cfg_2x2_4 (allocate cfg_2x2_4 0) 2 H1
                  eq_refl eq_refl
                  ltac:(vm_compute; split; [discriminate | reflexivity]))).
Defined.

(** X21. [gather_temp] followed by [scatter_temp] (the round trip in the
    other direction) gives every rank back the interior of the buffer that
    was gathered: after gathering buffer 0 (an even step) and scattering,
    every interior cell of buffer 0 on every rank holds what it held, and
    the ghost cells and buffer 1 were not touched at all. *)
Theorem gather_scatter_round_trip (c : config) (w : list proc) (step r : Z) :
  config_ok c -> world_ok c w -> 0 <= step -> cur step = 0 ->
  0 <= r < size c ->
  let p := rank_of w r in
  let p' := rank_of (scatter_temp c (gather_temp c step w)) r in
  (forall k, 0 <= k < alen (local_temp0 p) ->
     rdf (local_temp0 p') k = rdf (local_temp0 p) k) /\
  alen (local_temp0 p') = alen (local_temp0 p) /\
  local_temp1 p' = local_temp1 p /\ local_material p' = local_material p.
Proof.
  intros Hc Hw Hs Hcur Hr. cbv zeta.
  pose proof (gather_temp_world_ok c Hc step w Hw) as Hw'.
  destruct (scatter_temp_cells c (gather_temp c step w) r Hc Hw' Hr)
    as (E1 & Em & _ & _ & _ & _ & El & Hin & Hout).
  destruct (gather_temp_buffers c step w r) as (B0 & B1 & Bm).
  destruct (gather_temp_cells c w step Hc Hw) as (_ & Hg & _).
  rewrite B0 in El, Hout.
  split; [| split; [unfold alen; now rewrite El | split; congruence]].
  intros k Hk. destruct Hw as (_ & Hok & _). destruct (Hok r Hr) as (L0 & _).
  rewrite L0 in Hk. destruct (lti_surj c k Hc Hk) as (x & y & Hx & Hy & <-).
  destruct (Z_le_gt_dec 0 x), (Z_lt_le_dec x (local_grid_size0 c)),
           (Z_le_gt_dec 0 y), (Z_lt_le_dec y (local_grid_size1 c));
    try (apply Hout; intros x' y' [Hx' Hy'] He;
         apply lti_inj in He as [? ?]; lia).
  rewrite Hin by (split; lia). rewrite Hg by (assumption || split; lia).
  rewrite Hcur. reflexivity.
Qed.

Lemma gather_scatter_round_trip_witness :
  config_ok cfg_2x2_4 /\ world_ok cfg_2x2_4 world_4 /\ 0 <= 0 /\ cur 0 = 0 /\
  0 <= 1 < size cfg_2x2_4 /\
  rdf (local_temp0 (rank_of (scatter_temp cfg_2x2_4
                               (gather_temp cfg_2x2_4 0 world_4)) 1))
      (lti cfg_2x2_4 1 0) =
  rdf (local_temp0 (rank_of world_4 1)) (lti cfg_2x2_4 1 0).
Proof.
  assert (H1 : config_ok cfg_2x2_4) by (repeat split; reflexivity).
  assert (H3 : 0 <= 0) by lia.
  assert (H4 : cur 0 = 0) by reflexivity.
  assert (H5 : 0 <= 1 < size cfg_2x2_4)
    by (vm_compute; split; [discriminate | reflexivity]).
  split; [exact H1 |]. split; [exact world_ok_4 |]. split; [exact H3 |].
  split; [exact H4 |]. split; [exact H5 |].
  apply (proj1 (gather_scatter_round_trip cfg_2x2_4 world_4 0 1 H1 world_ok_4
                  H3 H4 H5)).
  vm_compute. split; [discriminate | reflexivity].
Defined.

Lemma snapshot_heater_cells (c : config) (step : Z) (w : list proc) :
  config_ok c -> world_ok c w -> 0 <= step < CUTOFF ->
  Z.rem step SNAPSHOT = 0 ->
  exists w', iteration c step w = Some w' /\
    (forall x y,
      0 <= x < dims0 c * local_grid_size0 c ->
      0 <= y < dims1 c * local_grid_size1 c ->
      let r := MPI_Cart_rank c (x / local_grid_size0 c) (y / local_grid_size1 c) in
      rdf (temperature (rank_of w' 0)) (ti c x y) =
      if in_heater c x y then F32.lit 100 1
      else rdf (get_temp (rank_of w r) (cur step))
               (lti c (x - local_origin0 c r) (y - local_origin1 c r))) /\
    (forall x y, 0 <= x < GRID_SIZE0 c -> 0 <= y < GRID_SIZE1 c ->
       dims0 c * local_grid_size0 c <= x \/ dims1 c * local_grid_size1 c <= y ->
       rdf (temperature (rank_of w' 0)) (ti c x y) =
       rdf (temperature (rank_of w 0)) (ti c x y)).
Proof.
  intros Hc Hw [Hstep Hcut] Hsnap.
  set (w1 := imap (fun r p => external_heat c step (Z.of_nat r) p) w).
  assert (Hw1 : world_ok c w1) by now apply external_heat_world_ok.
  pose proof Hw1 as (Hlen1 & Hok1 & _).
  destruct (border_exchange_total c step w1 Hc Hstep Hlen1 Hok1)
    as (w2 & Hrun & Hlen2 & Hex).
  pose proof (border_exchange_world_ok c Hc step Hstep w1 w2 Hw1 Hlen2 Hex) as Hw2.
  pose proof (ftcs_solver_world_ok c Hc step Hstep w2 Hw2) as Hw3.
  exists (gather_temp c step (map (ftcs_solver c step) w2)). split.
  { unfold iteration. apply Z.ltb_lt in Hcut. rewrite Hcut. fold w1.
    rewrite Hrun, Hsnap. reflexivity. }
  pose proof (size_pos c Hc) as Hsz.
  split; cycle 1.
  { intros x y Hx Hy Hstrip.
    destruct (gather_temp_cells c (map (ftcs_solver c step) w2) step Hc Hw3)
      as (_ & _ & Hout).
    rewrite Hout.
    - pose proof Hw2 as (Hl2 & _). pose proof Hw as (Hl0 & _).
      rewrite rank_of_map by lia.
      destruct (ftcs_solver_fields c step (rank_of w2 0) Hstep)
        as (_ & G1 & G2 & G3 & G4 & G5).
      destruct (Hex 0 ltac:(lia)) as (_ & E1 & E2 & E3 & E4 & E5 & _).
      unfold w1 in *. rewrite rank_of_imap in * by lia.
      destruct (external_heat_frame c step (Z.of_nat (Z.to_nat 0)) (rank_of w 0) Hstep)
        as (_ & _ & A1 & A2 & A3 & A4 & A5).
      congruence.
    - intros r x' y' Hr Hi He.
      destruct (block_cell_range c r x' y' Hc Hr Hi) as [Bx By].
      apply ti_inj in He as [Ex Ey]; [| assumption | assumption].
      destruct (cart_rank_coords c Hc r Hr) as (_ & C0 & C1).
      destruct Hi as [Hx' Hy']. unfold local_origin0, local_origin1 in *.
      destruct Hstrip; nia. }
  intros x y Hx Hy. cbv zeta.
  destruct (owner_inside c Hc x y Hx Hy) as (Hr & _ & Hi).
  set (r := MPI_Cart_rank c (x / local_grid_size0 c) (y / local_grid_size1 c)) in *.
  set (lx := x - local_origin0 c r) in *. set (ly := y - local_origin1 c r) in *.
  destruct (gather_temp_cells c (map (ftcs_solver c step) w2) step Hc Hw3)
    as (_ & Hcells & _).
  replace (ti c x y) with (ti c (local_origin0 c r + lx) (local_origin1 c r + ly))
    by (unfold lx, ly; f_equal; lia).
  rewrite (Hcells r lx ly Hr Hi).
  pose proof Hw2 as (Hl2 & Hok2 & _). pose proof Hw as (Hl0 & Hok0 & _).
  rewrite rank_of_map by lia.
  destruct (ftcs_solver_fields c step (rank_of w2 r) Hstep) as (-> & _).
  destruct (Hex r Hr) as (_ & _ & _ & _ & _ & _ & _ & _ & _ & _ & _ & Hrest).
  destruct Hi as [Hlx Hly].
  rewrite Hrest by (intros _ i Hi He; apply lti_inj in He as [? ?]; lia).
  unfold w1. rewrite rank_of_imap by lia. rewrite Z2Nat.id by lia.
  destruct (external_heat_interior c Hc step Hstep r (rank_of w r) (Hok0 r Hr))
    as [Hheat _].
  rewrite (Hheat lx ly (conj Hlx Hly)).
  replace (local_origin0 c r + lx) with x by (unfold lx; lia).
  replace (local_origin1 c r + ly) with y by (unfold ly; lia).
  reflexivity.
Qed.

(** X22. A snapshot taken while the heat source is on shows the field
    that entered the step with the source imposed on it: at a snapshot
    step [s < CUTOFF] the gathered field holds exactly 100.0 at every
    covered cell of the heating element and, at every other covered cell,
    the value the owning rank had in buffer [s mod 2] before the
    iteration. *)
Theorem snapshot_shows_heater (c : config) (step : Z) (w : list proc) :
  config_ok c -> world_ok c w -> 0 <= step < CUTOFF ->
  Z.rem step SNAPSHOT = 0 ->
  exists w', iteration c step w = Some w' /\
    forall x y,
      0 <= x < dims0 c * local_grid_size0 c ->
      0 <= y < dims1 c * local_grid_size1 c ->
      let r := MPI_Cart_rank c (x / local_grid_size0 c) (y / local_grid_size1 c) in
      rdf (temperature (rank_of w' 0)) (ti c x y) =
      if in_heater c x y then F32.lit 100 1
      else rdf (get_temp (rank_of w r) (cur step))
               (lti c (x - local_origin0 c r) (y - local_origin1 c r)).
Proof.
  intros Hc Hw Hstep Hsnap.
  destruct (snapshot_heater_cells c step w Hc Hw Hstep Hsnap)
    as (w' & Hit & Hf & _).
  exists w'. split; [exact Hit | exact Hf].
Qed.

Lemma snapshot_shows_heater_witness :
  config_ok cfg_2x2_4 /\ world_ok cfg_2x2_4 world_4 /\ 0 <= 0 < CUTOFF /\
  Z.rem 0 SNAPSHOT = 0 /\
  exists w', iteration cfg_2x2_4 0 world_4 = Some w' /\
    rdf (temperature (rank_of w' 0)) (ti cfg_2x2_4 1 2) = F32.lit 100 1.
Proof.
  assert (H1 : config_ok cfg_2x2_4) by (repeat split; reflexivity).
  assert (H3 : 0 <= 0 < CUTOFF) by (split; [discriminate | reflexivity]).
  assert (H4 : Z.rem 0 SNAPSHOT = 0) by reflexivity.
  split; [exact H1 |]. split; [exact world_ok_4 |]. split; [exact H3 |].
  split; [exact H4 |].
  destruct (snapshot_shows_heater cfg_2x2_4 0 world_4 H1 world_ok_4 H3 H4)
    as (w' & Hit & Hf).
  exists w'. split; [exact Hit |].
  exact (Hf 1 2 ltac:(vm_compute; split; [discriminate | reflexivity])
               ltac:(vm_compute; split; [discriminate | reflexivity])).
Defined.

(** X23. [fancycolour] writes the three bytes at [p], [p + 1] and [p + 2]
    and nothing else, and every colour it produces is fully saturated: one
    of the three channels is 255 and another is 0.  On a NaN or an
    infinity the conversion to [unsigned char] is undefined. *)
Theorem fancycolour_channels (buf : list Z) (p : Z) (t : f32) :
  (forall buf', fancycolour buf p t = Some buf' ->
     alen buf' = alen buf /\
     (forall k, k <> p -> k <> p + 1 -> k <> p + 2 -> rdi buf' k = rdi buf k) /\
     (0 <= p -> p + 2 < alen buf ->
        colour t = Some (rdi buf' p, rdi buf' (p + 1), rdi buf' (p + 2)))) /\
  (forall b0 b1 b2, colour t = Some (b0, b1, b2) ->
     (b0 = 255 \/ b1 = 255 \/ b2 = 255) /\ (b0 = 0 \/ b1 = 0 \/ b2 = 0) /\
     0 <= b0 <= 255 /\ 0 <= b1 <= 255 /\ 0 <= b2 <= 255) /\
  (F32.is_finite t = false -> fancycolour buf p t = None).
Proof.
  split; [| split].
  - intros buf' Hf. rewrite fancycolour_colour in Hf.
    destruct (colour t) as [[[b0 b1] b2] |]; [| discriminate].
    inversion Hf; subst buf'. clear Hf. rewrite Z.add_0_r.
    split; [now rewrite !alen_aset |]. split.
    + intros k K0 K1 K2. now rewrite !aget_aset_ne by lia.
    + intros Hp Hlen. f_equal. f_equal; [f_equal |].
      * rewrite aget_aset_eq by (rewrite !alen_aset; lia). reflexivity.
      * rewrite aget_aset_ne, aget_aset_eq by (rewrite ?alen_aset; lia).
        reflexivity.
      * rewrite !aget_aset_ne, aget_aset_eq by (rewrite ?alen_aset; lia).
        reflexivity.
  - intros b0 b1 b2 Hcol. pose proof (colour_bytes t b0 b1 b2 Hcol) as Hb.
    split; [| split; [| exact Hb]];
      revert Hcol; unfold colour, fancycolour; cbv zeta;
      destruct (float_le t (F32.of_int 25));
      [destruct (to_uchar _); [intros [= <- <- <-]; auto | discriminate] | |
       destruct (to_uchar _); [intros [= <- <- <-]; auto | discriminate] | ];
      (destruct (float_le t (F32.of_int 50));
       [destruct (to_uchar _); [intros [= <- <- <-]; auto | discriminate] |]);
      (destruct (float_le t (F32.of_int 75));
       [destruct (to_uchar _); [intros [= <- <- <-]; auto | discriminate] |]);
      (destruct (to_uchar _); [intros [= <- <- <-]; auto | discriminate]).
  - intros Hinf. rewrite fancycolour_colour.
    destruct t as [s | s | | s m e]; try discriminate; [destruct s |];
      reflexivity.
Qed.

Lemma fancycolour_channels_witness :
  F32.is_finite S754_nan = false /\ fancycolour [0; 0; 0] 0 S754_nan = None.
Proof.
  assert (H1 : F32.is_finite S754_nan = false) by reflexivity.
  split; [exact H1 |].
  exact (proj2 (proj2 (fancycolour_channels [0; 0; 0] 0 S754_nan)) H1).
Defined.

(** X24. On a single rank (a 1 x 1 mesh) [border_exchange] is the
    identity: all four neighbours are [MPI_PROC_NULL], every call returns
    at once and the memory of the rank is exactly what it was. *)
Theorem border_exchange_single_rank (c : config) (step : Z) (w : list proc) :
  config_ok c -> dims0 c = 1 -> dims1 c = 1 -> 0 <= step -> alen w = size c ->
  north c 0 = MPI_PROC_NULL /\ south c 0 = MPI_PROC_NULL /\
  west c 0 = MPI_PROC_NULL /\ east c 0 = MPI_PROC_NULL /\
  border_exchange c step w = Some w.
Proof.
  intros Hc D0 D1 Hstep Hlen.
  assert (Hsz : size c = 1) by (unfold size; rewrite D0, D1; reflexivity).
  assert (C0 : coords0 c 0 = 0)
    by (unfold coords0, MPI_Cart_coords; rewrite D1; reflexivity).
  assert (C1 : coords1 c 0 = 0)
    by (unfold coords1, MPI_Cart_coords; rewrite D1; reflexivity).
  assert (EN : north c 0 = MPI_PROC_NULL) by (apply north_edge; lia).
  assert (EW : west c 0 = MPI_PROC_NULL) by (apply west_edge; lia).
  assert (ES : south c 0 = MPI_PROC_NULL) by (apply south_edge; lia).
  assert (EE : east c 0 = MPI_PROC_NULL) by (apply east_edge; lia).
  repeat (split; [assumption |]).
  destruct (border_exchange_replay c Hc step Hstep w Hlen)
    as (w' & -> & Hl & Hlook).
  f_equal. unfold alen in Hlen. rewrite Hsz in Hlen.
  destruct w as [| p [| q w]]; cbn in Hlen; try lia.
  destruct w' as [| p' [| q' w']]; cbn in Hl; try lia.
  specialize (Hlook 0%nat ltac:(cbn; lia)). cbn [lookup list_lookup] in Hlook.
  rewrite (replay_border c Hc step Hstep [p] ltac:(unfold alen; cbn; lia) 0%nat
             ltac:(cbn; lia)) in Hlook.
  cbv zeta in Hlook. change (Z.of_nat 0) with 0 in Hlook.
  rewrite EN, ES, EW, EE in Hlook. unfold halo_row, halo_col in Hlook.
  cbn [Z.eqb MPI_PROC_NULL] in Hlook. change (-1 =? -1) with true in Hlook.
  cbv iota in Hlook. rewrite set_get_temp in Hlook.
  inversion Hlook. reflexivity.
Qed.

Lemma border_exchange_single_rank_witness :
  let c := cfg_1x1 in
  let w := [uniform_proc c (F32.lit 20 1) (F32.lit 1 4)] in
  config_ok c /\ dims0 c = 1 /\ dims1 c = 1 /\ 0 <= 0 /\ alen w = size c /\
  border_exchange c 0 w = Some w.
Proof.
  cbv zeta.
  assert (H1 : config_ok cfg_1x1) by (repeat split; reflexivity).
  assert (H4 : 0 <= 0) by lia.
  split; [exact H1 |]. split; [reflexivity |]. split; [reflexivity |].
  split; [exact H4 |]. split; [reflexivity |].
  exact (proj2 (proj2 (proj2 (proj2
           (border_exchange_single_rank cfg_1x1 0
              [uniform_proc cfg_1x1 (F32.lit 20 1) (F32.lit 1 4)]
              H1 eq_refl eq_refl H4 eq_refl))))).
Defined.

(** X25. The first snapshot is an image of the initial conditions.  The
    iteration at step 0 completes from the state [main] starts in, and the
    field it gathers on root equals the initial field cell for cell: 100.0
    on the heating element, 60.0 on the rest of the tin and copper blocks,
    20.0 elsewhere, on every mesh, also at cells no rank owns.  Every such
    temperature has a defined colour (blue channel first: [(0, 0, 255)],
    [(0, 255, 102)] and [(255, 204, 0)]), so the pixel buffer [output]
    builds from it is defined. *)
Theorem first_snapshot (c : config) :
  config_ok c ->
  exists w', iteration c 0 (startup c) = Some w' /\
    (forall x y, 0 <= x < GRID_SIZE0 c -> 0 <= y < GRID_SIZE1 c ->
       rdf (temperature (rank_of w' 0)) (ti c x y) =
       if in_heater c x y then F32.lit 100 1
       else if in_tin c x y || in_copper c x y then F32.lit 60 1
       else F32.lit 20 1) /\
    colour (F32.lit 100 1) = Some (0, 0, 255) /\
    colour (F32.lit 60 1) = Some (0, 255, 102) /\
    colour (F32.lit 20 1) = Some (255, 204, 0) /\
    exists buf, output_buffer c (temperature (rank_of w' 0)) = Some buf.
Proof.
  intros Hc. pose proof (size_pos c Hc) as Hsz.
  pose proof (startup_world_ok c Hc) as Hw.
  assert (H0 : 0 <= 0 < CUTOFF) by (split; [discriminate | reflexivity]).
  destruct (snapshot_heater_cells c 0 (startup c) Hc Hw H0 eq_refl)
    as (w' & Hit & Hcov & Hunc).
  exists w'. split; [exact Hit |].
  (* the global field of the root when the loop is entered *)
  destruct (before_scatter_temp_ok c Hc) as [Hw0 _].
  assert (Hal : alen (allocated c) = size c) by apply alen_allocated, Hc.
  assert (Hok : forall q, 0 <= q < size c -> proc_ok c (rank_of (allocated c) q)).
  { intros q Hq. rewrite allocated_rank by assumption. apply startup_rank_ok, Hc. }
  assert (Hroot : rank_of (allocated c) 0 = startup_rank c 0)
    by (apply allocated_rank; lia).
  destruct (startup_rank_ok c Hc 0) as (_ & Hd & Hs & Ht & _).
  specialize (Ht eq_refl).
  destruct (allocate_ok c Hc 0) as (Pa & _ & _ & Hta).
  destruct (Hta eq_refl) as [Lt Lm].
  assert (Et : temperature (rank_of (startup c) 0) =
               temperature (init_temp_material c (allocate c 0))).
  { unfold startup.
    destruct (scatter_temp_cells c (scatter_material c (allocated c)) 0 Hc Hw0
                ltac:(lia)) as (_ & _ & _ & -> & _).
    destruct (scatter_material_world_ok c Hc (allocated c) Hal Hok)
      as (_ & Hf); try (rewrite Hroot; assumption).
    destruct (Hf 0 ltac:(lia)) as (_ & _ & ->). rewrite Hroot.
    unfold startup_rank. cbn [Z.eqb].
    destruct (init_temp_material_frame c (allocate c 0))
      as (_ & _ & F1 & F2 & F3 & _).
    assert (Pi : proc_ok c (init_temp_material c (allocate c 0))).
    { destruct Pa as (A0 & A1 & Am). unfold proc_ok. rewrite F1, F2, F3.
      repeat split; assumption. }
    now destruct (init_local_temp_cells c (init_temp_material c (allocate c 0)) Hc Pi)
      as (_ & _ & -> & _). }
  assert (Hfield : forall x y, 0 <= x < GRID_SIZE0 c -> 0 <= y < GRID_SIZE1 c ->
            rdf (temperature (rank_of w' 0)) (ti c x y) =
            if in_heater c x y then F32.lit 100 1
            else if in_tin c x y || in_copper c x y then F32.lit 60 1
            else F32.lit 20 1).
  { intros x y Hx Hy.
    destruct (Z_lt_le_dec x (dims0 c * local_grid_size0 c)) as [Cx | Cx];
      [destruct (Z_lt_le_dec y (dims1 c * local_grid_size1 c)) as [Cy | Cy] |].
    - (* a cell some rank owns *)
      rewrite (Hcov x y ltac:(lia) ltac:(lia)).
      destruct (in_heater c x y) eqn:Eh; [reflexivity |].
      destruct (owner_inside c Hc x y ltac:(lia) ltac:(lia)) as (Hr & _ & [Hlx Hly]).
      destruct (startup_block_cells c _ _ _ Hc Hr Hlx Hly) as [Hb _].
      change (get_temp ?p (cur 0)) with (local_temp0 p). rewrite Hb.
      match goal with
      | |- context [in_heater c ?a ?b] =>
          replace a with x by lia; replace b with y by lia
      end.
      now rewrite Eh.
    - (* beyond the last row of blocks *)
      rewrite (Hunc x y Hx Hy) by (right; exact Cy). rewrite Et.
      apply init_temp_material_temperature; assumption.
    - rewrite (Hunc x y Hx Hy) by (left; exact Cx). rewrite Et.
      apply init_temp_material_temperature; assumption. }
  split; [exact Hfield |].
  split; [reflexivity |]. split; [reflexivity |]. split; [reflexivity |].
  destruct (output_buffer_cells c Hc (temperature (rank_of w' 0))) as (buf & Hb & _).
  - intros i j Hi Hj. replace (i + GRID_SIZE0 c * j) with (ti c i j)
      by (unfold ti; lia).
    rewrite (Hfield i j Hi Hj).
    destruct (in_heater c i j); [vm_compute; discriminate |].
    destruct (in_tin c i j || in_copper c i j); vm_compute; discriminate.
  - exists buf. exact Hb.
Qed.

Lemma first_snapshot_witness :
  let c := mkConfig 5 5 2 2 in
  config_ok c /\
  exists w', iteration c 0 (startup c) = Some w' /\
    rdf (temperature (rank_of w' 0)) (ti c 4 1) = F32.lit 20 1.
Proof.
  cbv zeta.
  assert (H1 : config_ok (mkConfig 5 5 2 2)) by (repeat split; reflexivity).
  split; [exact H1 |].
  destruct (first_snapshot (mkConfig 5 5 2 2) H1) as (w' & Hit & Hf & _).
  exists w'. split; [exact Hit |].
  exact (Hf 4 1 ltac:(vm_compute; split; [discriminate | reflexivity])
              ltac:(vm_compute; split; [discriminate | reflexivity])).
Defined.
